(** * Unlimited-Storage: upload-to-playback pipeline

    A shallow embedding of the parts of the repository that the
    specification's testable properties talk about:

    - [services/videoProcessor.js]   quality ladder ([getQualityLevels]);
    - [services/audioExtractor.js]   audio-track extraction;
    - [services/telegramService.js]  chunked object-store adapter;
    - [server.js]                    range handling, audio-track resolver,
                                     HLS file guard, background processing;
    - [cleanup_hls.js]               the clean-up script.

    JavaScript numbers that hold sizes, offsets, indices and counts are
    modelled as exact integers ([Z]), which is what the code computes
    below 2^53; [NaN] and [undefined] are modelled with [option] where the
    code can produce them.  Strings are [String.string], a string of
    bytes; file contents are [list byte]. *)

From Stdlib Require Import ZArith Lia List Bool Ascii String.
From Stdlib.Strings Require Import Byte.
From stdpp Require Import base option list strings pretty gmap.

Open Scope Z_scope.

(* ===================================================================== *)
(** * JavaScript helpers *)
(* ===================================================================== *)

Module Js.

(** [v || d] on a possibly missing number: [undefined], [null] and [0]
    are falsy. *)
Definition or_num (v : option Z) (d : Z) : Z :=
  match v with
  | Some n => if n =? 0 then d else n
  | None => d
  end.

(** [v || d] on a possibly missing string: the empty string is falsy. *)
Definition or_str (v : option string) (d : string) : string :=
  match v with
  | Some s => if String.eqb s "" then d else s
  | None => d
  end.

(** Truthiness of a possibly missing string. *)
Definition truthy_str (v : option string) : bool :=
  match v with
  | Some s => negb (String.eqb s "")
  | None => false
  end.

(** [Math.round(num / den)] for a positive [den]: the nearest integer,
    halves rounded up.  The quotient is exact here; the code rounds the
    double it has computed, which can give the neighbouring integer when
    the exact quotient is a half ([(23 / 40) * 100] is rounded to 57). *)
Definition round_div (num den : Z) : Z := (2 * num + den) / (2 * den).

(** [Math.ceil(a / b)] for a positive [b]. *)
Definition ceil_div (a b : Z) : Z := - ((- a) / b).

(** [s.includes(sub)] *)
Fixpoint includes (s sub : string) : bool :=
  String.prefix sub s ||
  match s with
  | EmptyString => false
  | String _ rest => includes rest sub
  end.

(** [s.endsWith(suffix)] *)
Definition endsWith (s suffix : string) : bool :=
  let n := String.length s in
  let m := String.length suffix in
  (m <=? n)%nat && String.eqb (String.substring (n - m) m s) suffix.

(** [arr.slice(i, j)] for [0 <= i]. *)
Definition slice {A} (arr : list A) (i j : Z) : list A :=
  take (Z.to_nat (j - i)) (drop (Z.to_nat i) arr).

(** The one-character string that holds a double quote. *)
Definition quote : string := String (ascii_of_nat 34) EmptyString.

(** [s.startsWith(prefix)] *)
Definition startsWith (s prefix : string) : bool := String.prefix prefix s.

(** The string without its first [n] characters. *)
Fixpoint dropChars (n : nat) (s : string) : string :=
  match n, s with
  | O, _ => s
  | S n', String _ rest => dropChars n' rest
  | S _, EmptyString => EmptyString
  end.

(** [s.replace(pattern, replacement)] for a pattern without special
    characters: the first occurrence is replaced. *)
Fixpoint replaceFirst (s pattern replacement : string) : string :=
  if String.prefix pattern s
  then replacement +:+ dropChars (String.length pattern) s
  else match s with
       | EmptyString => EmptyString
       | String c rest => String c (replaceFirst rest pattern replacement)
       end.

(** [s.split(sep)] for a one-character separator. *)
Fixpoint split (sep : ascii) (s : string) : list string :=
  match s with
  | EmptyString => [EmptyString]
  | String c rest =>
      if Ascii.eqb c sep then EmptyString :: split sep rest
      else match split sep rest with
           | first :: others => String c first :: others
           | [] => [String c EmptyString]
           end
  end.

(** White space that [parseInt] skips (ASCII only). *)
Definition isWhiteSpace (c : ascii) : bool :=
  let n := nat_of_ascii c in
  ((n =? 32) || ((9 <=? n) && (n <=? 13)))%nat.

Fixpoint skipWhiteSpace (s : string) : string :=
  match s with
  | String c rest => if isWhiteSpace c then skipWhiteSpace rest else s
  | EmptyString => s
  end.

(** The value of a digit in a radix up to 36. *)
Definition digitValue (c : ascii) : option Z :=
  let n := Z.of_nat (nat_of_ascii c) in
  if (48 <=? n) && (n <=? 57) then Some (n - 48)
  else if (97 <=? n) && (n <=? 122) then Some (n - 87)
  else if (65 <=? n) && (n <=? 90) then Some (n - 55)
  else None.

(** The number written by the longest prefix of digits of [s]; [acc] is
    the value of the digits read so far, [None] when there are none. *)
Fixpoint parseDigits (radix : Z) (s : string) (acc : option Z) : option Z :=
  match s with
  | EmptyString => acc
  | String c rest =>
      match digitValue c with
      | Some d =>
          if d <? radix
          then parseDigits radix rest (Some (default 0 acc * radix + d))
          else acc
      | None => acc
      end
  end.

(** [parseInt(s, radix)]; [radix = 0] stands for a missing radix, the
    result [None] for [NaN].  The result is the exact integer: it is the
    number JavaScript returns as long as that is below 2^53 in absolute
    value (from there on JavaScript rounds to a double). *)
Definition parseInt (s : string) (radix : Z) : option Z :=
  if negb (radix =? 0) && ((radix <? 2) || (36 <? radix)) then None
  else
    let s1 := skipWhiteSpace s in
    let '(sign, s2) :=
      match s1 with
      | String "-"%char rest => (-1, rest)
      | String "+"%char rest => (1, rest)
      | _ => (1, s1)
      end in
    let stripPrefix := (radix =? 0) || (radix =? 16) in
    let '(r, s3) :=
      if stripPrefix && (String.prefix "0x" s2 || String.prefix "0X" s2)
      then (16, dropChars 2 s2)
      else ((if radix =? 0 then 10 else radix), s2) in
    (fun v => sign * v) <$> parseDigits r s3 None.

(** [`${n}`] for a number that may be [NaN]. *)
Definition showNum (n : option Z) : string :=
  match n with
  | Some z => pretty z
  | None => "NaN"
  end.

Definition hexDigit (n : nat) : ascii :=
  ascii_of_nat (if (n <? 10)%nat then 48 + n else 55 + n).

(** Characters that [encodeURIComponent] leaves alone. *)
Definition isUnreserved (c : ascii) : bool :=
  let n := nat_of_ascii c in
  ((48 <=? n) && (n <=? 57) || (65 <=? n) && (n <=? 90) || (97 <=? n) && (n <=? 122)
   || (n =? 45) || (n =? 95) || (n =? 46) || (n =? 33) || (n =? 126)
   || (n =? 42) || (n =? 39) || (n =? 40) || (n =? 41))%nat.

(** [encodeURIComponent(s)] on the UTF-8 bytes of [s]. *)
Fixpoint encodeURIComponent (s : string) : string :=
  match s with
  | EmptyString => EmptyString
  | String c rest =>
      if isUnreserved c then String c (encodeURIComponent rest)
      else let n := nat_of_ascii c in
           String "%"%char (String (hexDigit (n / 16)) (String (hexDigit (n mod 16))
             (encodeURIComponent rest)))
  end.

End Js.

(* ===================================================================== *)
(** * Node's [path] module (POSIX flavour) *)
(* ===================================================================== *)

Module Path.

(** [normalizeString]: the segments of a path are consumed from left to
    right; [res] holds the segments kept so far, last one first. *)
Fixpoint normalizeSegments (allowAboveRoot : bool) (segments res : list string) : list string :=
  match segments with
  | [] => rev res
  | seg :: rest =>
      if String.eqb seg "" || String.eqb seg "." then
        normalizeSegments allowAboveRoot rest res
      else if String.eqb seg ".." then
        match res with
        | top :: below =>
            if String.eqb top ".."
            then normalizeSegments allowAboveRoot rest
                   (if allowAboveRoot then ".." :: res else res)
            else normalizeSegments allowAboveRoot rest below
        | [] =>
            normalizeSegments allowAboveRoot rest
              (if allowAboveRoot then [".."] else [])
        end
      else normalizeSegments allowAboveRoot rest (seg :: res)
  end.

Definition lastIsSlash (path : string) : bool :=
  Js.endsWith path "/".

(** [path.normalize(path)] *)
Definition normalize (path : string) : string :=
  if String.eqb path "" then "."
  else
    let isAbsolute := String.prefix "/" path in
    let trailingSeparator := lastIsSlash path in
    let p := String.concat "/"
               (normalizeSegments (negb isAbsolute) (Js.split "/"%char path) []) in
    if String.eqb p "" then
      (if isAbsolute then "/" else if trailingSeparator then "./" else ".")
    else
      let p' := if trailingSeparator then p +:+ "/" else p in
      if isAbsolute then "/" +:+ p' else p'.

(** [path.join(...parts)] *)
Definition join (parts : list string) : string :=
  match List.filter (fun part => negb (String.eqb part "")) parts with
  | [] => "."
  | nonEmpty => normalize (String.concat "/" nonEmpty)
  end.

(** The list without its trailing empty strings. *)
Fixpoint dropTrailingEmpty (segments : list string) : list string :=
  match segments with
  | [] => []
  | seg :: rest =>
      match dropTrailingEmpty rest with
      | [] => if String.eqb seg "" then [] else [seg]
      | rest' => seg :: rest'
      end
  end.

(** [path.dirname(path)] *)
Definition dirname (path : string) : string :=
  let segments := dropTrailingEmpty (Js.split "/"%char path) in
  let parent := String.concat "/" (removelast segments) in
  if String.eqb parent ""
  then (if String.prefix "/" path then "/" else ".")
  else parent.

End Path.

(* ===================================================================== *)
(** * Records kept in the metadata store *)
(* ===================================================================== *)

Module Data.

Inductive UploadMethod := single | chunked | hls_batch.

(** One element of [uploadedChunks]. *)
Record ChunkInfo := {
  part : Z;
  c_messageId : N;
  c_fileId : N;
  c_fileUniqueId : N;
  c_size : Z
}.

(** The result object of an upload ([telegramData]); a field that the
    object literal does not mention is [None] (or empty). *)
Record TelegramData := {
  uploaded : bool;
  reason : option string;
  error : option string;
  channelId : option string;
  messageId : option N;
  fileId : option N;
  fileUniqueId : option N;
  size : option Z;
  uploadMethod : option UploadMethod;
  totalChunks : option Z;
  chunks : list ChunkInfo;
  checksum : option string;
  redundancy : option Z
}.

(** [{}] *)
Definition emptyData : TelegramData :=
  {| uploaded := false; reason := None; error := None; channelId := None;
     messageId := None; fileId := None; fileUniqueId := None; size := None;
     uploadMethod := None; totalChunks := None; chunks := [];
     checksum := None; redundancy := None |}.

(** [{ uploaded: false, reason }] *)
Definition notUploadedReason (r : string) : TelegramData :=
  {| uploaded := false; reason := Some r; error := None; channelId := None;
     messageId := None; fileId := None; fileUniqueId := None; size := None;
     uploadMethod := None; totalChunks := None; chunks := [];
     checksum := None; redundancy := None |}.

(** [{ uploaded: false, error }] *)
Definition notUploadedError (e : string) : TelegramData :=
  {| uploaded := false; reason := None; error := Some e; channelId := None;
     messageId := None; fileId := None; fileUniqueId := None; size := None;
     uploadMethod := None; totalChunks := None; chunks := [];
     checksum := None; redundancy := None |}.

(** [{ ...primaryResult, redundancy: r }] *)
Definition withRedundancy (primaryResult : option TelegramData) (r : Z) : TelegramData :=
  let d := default emptyData primaryResult in
  {| uploaded := uploaded d; reason := reason d; error := error d;
     channelId := channelId d; messageId := messageId d; fileId := fileId d;
     fileUniqueId := fileUniqueId d; size := size d;
     uploadMethod := uploadMethod d; totalChunks := totalChunks d;
     chunks := chunks d; checksum := checksum d; redundancy := Some r |}.

(** One element of [uploadResults]. *)
Record HlsUploadResult := {
  r_relativePath : string;
  r_messageId : option N;
  r_fileId : option N;
  r_uploaded : bool;
  r_error : option string
}.

(** The result object of [uploadHLSFiles]. *)
Record HlsResult := {
  hls_uploaded : bool;
  hls_reason : option string;
  hls_error : option string;
  hls_totalFiles : option Z;
  hls_recommendation : option string;
  hls_successfulUploads : option Z;
  hls_uploadResults : list HlsUploadResult;
  hls_uploadMethod : option UploadMethod
}.

Definition hlsNotUploaded (reason_ error_ : option string) : HlsResult :=
  {| hls_uploaded := false; hls_reason := reason_; hls_error := error_;
     hls_totalFiles := None; hls_recommendation := None;
     hls_successfulUploads := None; hls_uploadResults := [];
     hls_uploadMethod := None |}.

Definition hlsTooMany (total : Z) : HlsResult :=
  {| hls_uploaded := false;
     hls_reason := Some "Too many HLS files - would exceed Telegram rate limits";
     hls_error := None;
     hls_totalFiles := Some total;
     hls_recommendation := Some "HLS files kept locally for streaming";
     hls_successfulUploads := None; hls_uploadResults := [];
     hls_uploadMethod := None |}.

(** [video.processingStatus] *)
Record ProcessingStatus := {
  telegramUploading : bool;
  hlsProgress : Z;
  hlsStage : option string;
  currentQuality : option string;
  thumbnailGenerating : bool;
  complete : bool;
  errors : list string
}.

(** One element of [video.extractedAudioFiles]. *)
Record ExtractedAudio := {
  ea_trackIndex : Z;
  ea_fileName : string;
  ea_telegramData : option TelegramData;
  ea_hlsUrl : option string
}.

(** A video record, with the fields that the upload-to-playback pipeline
    reads or writes. *)
Record Video := {
  originalName : string;
  videoSize : Z;
  telegramData : option TelegramData;
  cloudThumbnail : option (list byte);
  streamingMethod : option string;
  hlsPlaylist : option string;
  videoOnlyHLS : option string;
  hasMultiAudio : option bool;
  extractedAudioFiles : option (list ExtractedAudio);
  hlsCloudData : option HlsResult;
  processingStatus : option ProcessingStatus
}.

End Data.

(* ===================================================================== *)
(** * Effects: file system, object store, external tools *)
(* ===================================================================== *)

Module Rt.

Abbreviation Bytes := (list byte).

(** A directory as [readdir] and [stat] report it. *)
#[warnings="-register-all"] Inductive FsNode :=
| FsFile (size : Z)
| FsDir (entries : list (string * FsNode)).

(** What an [ffmpeg] run does to its output file. *)
Inductive FfmpegOutcome :=
| FfFails (msg : string)
| FfWrites (output : Bytes).

(** Observable actions, in the order in which they happen. *)
Inductive Event :=
| EvSleep (ms : option Z)
| EvSendVideo (channelId : option string) (filename : string)
| EvSendDocument (channelId : option string) (filename : string)
| EvEnsureDir (path : string)
| EvFfmpeg (input output : string) (trackIndex : Z)
| EvFfmpegHls (input outputDir quality : string)
| EvFfmpegThumbnail (input output timestamp : string)
| EvProgress (percent : Z) (stage : string).

(** The world an asynchronous function runs in.
    [files]      regular files, by path;
    [trees]      directory snapshots, by root path;
    [cloud]      the object store: Telegram [file_id] to content;
    [nextMessage] the next [message_id] the store hands out;
    [botScript]  outcome of each successive send call of the bot:
                 [Some msg] makes the call reject with [Error(msg)],
                 [None] (or an exhausted script) lets it succeed;
    [ffmpegScript] outcome of each successive [ffmpeg] run (a run
                   for which nothing is scripted fails);
    [db]         the metadata store: video id to record;
    [dbScript]   outcome of each successive call of the metadata store,
                 read like [botScript];
    [trace]      the events so far, oldest first. *)
Record World := {
  files : gmap string Bytes;
  trees : gmap string FsNode;
  cloud : gmap N Bytes;
  nextMessage : N;
  botScript : list (option string);
  ffmpegScript : list FfmpegOutcome;
  db : gmap string Data.Video;
  dbScript : list (option string);
  trace : list Event
}.

(** A settled promise: fulfilled with a value or rejected with an error
    (of which only [error.message] is kept). *)
Inductive Res (A : Type) :=
| Ok (a : A)
| Throw (msg : string).
Arguments Ok {A} a.
Arguments Throw {A} msg.

(** An [async] function body. *)
Definition M (A : Type) : Type := World -> Res A * World.

Global Instance M_ret : MRet M := fun A a w => (Ok a, w).
Global Instance M_bind : MBind M := fun A B f m w =>
  match m w with
  | (Ok a, w') => f a w'
  | (Throw e, w') => (Throw e, w')
  end.

Definition throw {A} (msg : string) : M A := fun w => (Throw msg, w).

(** [try { m } catch (error) { h(error.message) }] *)
Definition try_catch {A} (m : M A) (h : string -> M A) : M A := fun w =>
  match m w with
  | (Ok a, w') => (Ok a, w')
  | (Throw e, w') => h e w'
  end.

Definition get : M World := fun w => (Ok w, w).
Definition modify (f : World -> World) : M unit := fun w => (Ok tt, f w).

Definition set_files (f : gmap string Bytes -> gmap string Bytes) (w : World) : World :=
  {| files := f (files w); trees := trees w; cloud := cloud w;
     nextMessage := nextMessage w; botScript := botScript w;
     ffmpegScript := ffmpegScript w; db := db w;
     dbScript := dbScript w; trace := trace w |}.

Definition set_botScript (s : list (option string)) (w : World) : World :=
  {| files := files w; trees := trees w; cloud := cloud w;
     nextMessage := nextMessage w; botScript := s;
     ffmpegScript := ffmpegScript w; db := db w;
     dbScript := dbScript w; trace := trace w |}.

Definition set_ffmpegScript (s : list FfmpegOutcome) (w : World) : World :=
  {| files := files w; trees := trees w; cloud := cloud w;
     nextMessage := nextMessage w; botScript := botScript w;
     ffmpegScript := s; db := db w;
     dbScript := dbScript w; trace := trace w |}.

Definition store_object (id : N) (content : Bytes) (w : World) : World :=
  {| files := files w; trees := trees w; cloud := <[id := content]> (cloud w);
     nextMessage := N.succ (nextMessage w); botScript := botScript w;
     ffmpegScript := ffmpegScript w; db := db w;
     dbScript := dbScript w; trace := trace w |}.

Definition log_event (e : Event) (w : World) : World :=
  {| files := files w; trees := trees w; cloud := cloud w;
     nextMessage := nextMessage w; botScript := botScript w;
     ffmpegScript := ffmpegScript w; db := db w;
     dbScript := dbScript w; trace := trace w ++ [e] |}.

Definition set_db (f : gmap string Data.Video -> gmap string Data.Video)
    (script : list (option string)) (w : World) : World :=
  {| files := files w; trees := trees w; cloud := cloud w;
     nextMessage := nextMessage w; botScript := botScript w;
     ffmpegScript := ffmpegScript w; db := f (db w);
     dbScript := script; trace := trace w |}.

Definition emit (e : Event) : M unit := modify (log_event e).

(** [new Promise(resolve => setTimeout(resolve, ms))] *)
Definition sleep (ms : option Z) : M unit := emit (EvSleep ms).

(** ** fs-extra *)

Definition pathExists (path : string) : M bool :=
  w ← get; mret (bool_decide (is_Some (files w !! path)) || bool_decide (is_Some (trees w !! path))).

(** [(await fs.stat(path)).size] *)
Definition stat_size (path : string) : M Z :=
  w ← get;
  match files w !! path with
  | Some content => mret (Z.of_nat (length content))
  | None => throw ("ENOENT: no such file or directory, stat '" +:+ path +:+ "'")
  end.

(** [fs.ensureDir(path)]: the call is recorded; the model keeps no empty
    directories, and a directory created here is not listed in [trees]. *)
Definition ensureDir (path : string) : M unit := emit (EvEnsureDir path).

Definition writeFile (path : string) (content : Bytes) : M unit :=
  modify (set_files (insert path content)).

Definition remove (path : string) : M unit :=
  modify (set_files (delete path)).

(** The bytes at offsets [start..end_] (both inclusive) of a content whose
    first byte has offset [pos]: what
    [fs.createReadStream(path, { start, end })] delivers. *)
Fixpoint readRange (content : Bytes) (pos start end_ : Z) : Bytes :=
  match content with
  | [] => []
  | b :: rest =>
      if (start <=? pos) && (pos <=? end_)
      then b :: readRange rest (pos + 1) start end_
      else readRange rest (pos + 1) start end_
  end.

(** A readable stream on a file: its content at the time it is consumed,
    or [None] when the file cannot be opened. *)
Definition ReadStream := World -> option Bytes.

Definition createReadStream (path : string) : ReadStream :=
  fun w => files w !! path.

Definition createReadStreamRange (path : string) (start end_ : Z) : ReadStream :=
  fun w => (fun content => readRange content 0 start end_) <$> files w !! path.

(** ** The Telegram bot (external collaborator)

    Modelled from the spec: the object store accepts
    [putObject(bytes, metadata) -> objectRef] and
    [getObjectStream(objectRef) -> stream]; a stored object is returned
    unchanged under the reference handed out for it. *)

Record Message := {
  message_id : N;
  file_id : N;
  file_unique_id : N;
  file_size : Z
}.

(** A reference the store has not handed out yet. *)
Definition freshFileId (w : World) : N := fresh (dom (cloud w)).

Definition botSend (ev : Event) (stream : ReadStream) : M Message := fun w =>
  let w1 := log_event ev w in
  let '(outcome, script') :=
    match botScript w1 with
    | [] => (None, [])
    | o :: rest => (o, rest)
    end in
  let w2 := set_botScript script' w1 in
  match outcome with
  | Some msg => (Throw msg, w2)
  | None =>
      match stream w2 with
      | None => (Throw "ENOENT: no such file or directory", w2)
      | Some content =>
          let id := freshFileId w2 in
          (Ok {| message_id := nextMessage w2; file_id := id;
                 file_unique_id := id;
                 file_size := Z.of_nat (length content) |},
           store_object id content w2)
      end
  end.

(** [bot.sendVideo(channelId, stream, { filename, ... })] *)
Definition sendVideo (channelId : option string) (stream : ReadStream) (filename : string) : M Message :=
  botSend (EvSendVideo channelId filename) stream.

(** [bot.sendDocument(channelId, stream, { filename, ... })] *)
Definition sendDocument (channelId : option string) (stream : ReadStream) (filename : string) : M Message :=
  botSend (EvSendDocument channelId filename) stream.

(** [bot.getFileStream(fileId)], read to its end. *)
Definition getFileStream (fileId : N) : M Bytes :=
  w ← get;
  match cloud w !! fileId with
  | Some content => mret content
  | None => throw "file not found in store"
  end.

(** [fs.pathExists(dir)] for a directory: it is listed in [trees] or
    holds a file. *)
Definition dirExists (dir : string) : M bool :=
  w ← get;
  mret (bool_decide (is_Some (trees w !! dir)) ||
        negb (bool_decide (filter (fun kv => String.prefix (dir +:+ "/") kv.1 = true) (files w) = ∅))).

(** [fs.remove(dir)] for a directory: the directory goes with all the
    files below it. *)
Definition removeTree (dir : string) : M unit :=
  modify (fun w =>
    {| files := filter (fun kv => String.prefix (dir +:+ "/") kv.1 = false) (delete dir (files w));
       trees := delete dir (trees w); cloud := cloud w;
       nextMessage := nextMessage w; botScript := botScript w;
       ffmpegScript := ffmpegScript w; db := db w; dbScript := dbScript w;
       trace := trace w |}).

(** [fs.readFile(path)] *)
Definition readFile (path : string) : M Bytes :=
  w ← get;
  match files w !! path with
  | Some content => mret content
  | None => throw ("ENOENT: no such file or directory, open '" +:+ path +:+ "'")
  end.

(** ** ffmpeg (external tool)

    One run of [ffmpeg] that is to produce [output]: the next scripted
    outcome decides whether the file is written or the run fails. *)
Definition ffmpegRun (ev : Event) (output : string) : M unit := fun w =>
  let w1 := log_event ev w in
  match ffmpegScript w1 with
  | FfWrites content :: rest =>
      (Ok tt, set_files (insert output content) (set_ffmpegScript rest w1))
  | FfFails msg :: rest => (Throw msg, set_ffmpegScript rest w1)
  | [] => (Throw "ffmpeg exited with code 1", w1)
  end.

End Rt.

(* ===================================================================== *)
(** * services/videoProcessor.js *)
(* ===================================================================== *)

Module VideoProcessor.

(** One audio stream summary of the probed metadata. *)
Record AudioStream := {
  a_index : option Z;
  a_codec : option string;
  a_channels : option Z;
  a_sampleRate : option Z;
  a_language : option string;
  a_title : option string
}.

(** The video stream summary; [ffprobe] may leave any field out. *)
Record VideoStream := {
  v_codec : option string;
  v_width : option Z;
  v_height : option Z
}.

(** [metadata] as built by [getVideoMetadata]: [video] is [null] when
    the container has no video stream. *)
Record Metadata := {
  video : option VideoStream;
  audio : list AudioStream
}.

Record Quality := {
  name : string;
  width : Z;
  height : Z;
  videoBitrate : string;
  audioBitrate : string
}.

Definition q1080 : Quality := {| name := "1080p"; width := 1920; height := 1080; videoBitrate := "5000k"; audioBitrate := "192k" |}.
Definition q720 : Quality := {| name := "720p"; width := 1280; height := 720; videoBitrate := "2800k"; audioBitrate := "128k" |}.
Definition q480 : Quality := {| name := "480p"; width := 854; height := 480; videoBitrate := "1400k"; audioBitrate := "128k" |}.
Definition q360 : Quality := {| name := "360p"; width := 640; height := 360; videoBitrate := "800k"; audioBitrate := "96k" |}.

(** [const levels = [...]] *)
Definition levels : list Quality := [q1080; q720; q480; q360].

(** [metadata.video?.height] *)
Definition videoHeight (metadata : Metadata) : option Z :=
  match video metadata with
  | Some v => v_height v
  | None => None
  end.

(** [getQualityLevels(metadata)]:
    [const originalHeight = metadata.video?.height || 720;
     return levels.filter(q => q.height <= originalHeight);] *)
Definition getQualityLevels (metadata : Metadata) : list Quality :=
  let originalHeight := Js.or_num (videoHeight metadata) 720 in
  List.filter (fun q => height q <=? originalHeight) levels.

(** A source whose only known attribute is the height of its video
    stream. *)
Definition sourceOfHeight (h : Z) : Metadata :=
  {| video := Some {| v_codec := None; v_width := None; v_height := Some h |};
     audio := [] |}.

(** A source without any video stream. *)
Definition sourceWithoutVideo : Metadata := {| video := None; audio := [] |}.

(** The progress callback of the encoder: percentage, stage name and
    current quality. *)
Definition ProgressCallback := Z -> string -> option string -> Rt.M unit.

(** [if (progressCallback) { await progressCallback(percent, stage, quality); }] *)
Definition report (progressCallback : option ProgressCallback) (percent : Z)
    (stage : string) (quality : option string) : Rt.M unit :=
  match progressCallback with
  | Some callback => callback percent stage quality
  | None => mret tt
  end.

(** [extractThumbnail(videoPath, outputPath, timeOffset)]: a screenshot at
    [timeOffset], and a second try at 00:00:01 when that fails. *)
Definition extractThumbnail (videoPath outputPath timeOffset : string) : Rt.M string :=
  Rt.ensureDir (Path.dirname outputPath);;
  Rt.try_catch
    (Rt.ffmpegRun (Rt.EvFfmpegThumbnail videoPath outputPath timeOffset) outputPath;;
     mret outputPath)
    (fun _ =>
       Rt.ffmpegRun (Rt.EvFfmpegThumbnail videoPath outputPath "00:00:01") outputPath;;
       mret outputPath).

(** [generateHLSVariantWithProgress]: one [ffmpeg] run that writes the
    playlist of the variant (the segments and the progress events of the
    run are not modelled). *)
Definition generateHLSVariantWithProgress (videoPath outputDir : string) (quality : Quality)
    : Rt.M string :=
  let variantDir := outputDir +:+ "/" +:+ name quality in
  Rt.ensureDir variantDir;;
  let playlistPath := variantDir +:+ "/" +:+ "playlist.m3u8" in
  Rt.ffmpegRun (Rt.EvFfmpegHls videoPath variantDir (name quality)) playlistPath;;
  mret playlistPath.

(** [parseInt(variant.videoBitrate) * 1000 + parseInt(variant.audioBitrate) * 1000] *)
Definition bandwidth (variant : Quality) : option Z :=
  match Js.parseInt (videoBitrate variant) 0, Js.parseInt (audioBitrate variant) 0 with
  | Some v, Some a => Some (v * 1000 + a * 1000)
  | _, _ => None
  end.

Definition newline : string := String (ascii_of_nat 10) EmptyString.

(** [createMasterHLSPlaylist(outputDir, variants)] *)
Definition createMasterHLSPlaylist (outputDir : string) (variants : list Quality) : Rt.M string :=
  let header := "#EXTM3U" +:+ newline +:+ "#EXT-X-VERSION:4" +:+ newline +:+ newline in
  let entry (variant : Quality) :=
    "#EXT-X-STREAM-INF:BANDWIDTH=" +:+ Js.showNum (bandwidth variant) +:+
    ",RESOLUTION=" +:+ pretty (width variant) +:+ "x" +:+ pretty (height variant) +:+
    ",NAME=" +:+ Js.quote +:+ name variant +:+ Js.quote +:+
    ",CODECS=" +:+ Js.quote +:+ "avc1.42E01E,mp4a.40.2" +:+ Js.quote +:+ newline +:+
    name variant +:+ "/playlist.m3u8" +:+ newline +:+ newline in
  let content := fold_left (fun acc v => acc +:+ entry v) variants header in
  let masterPath := outputDir +:+ "/" +:+ "playlist.m3u8" in
  Rt.writeFile masterPath (String.list_byte_of_string content);;
  mret masterPath.

(** The [for] loop of [convertToHLSWithProgress] from index [i] on.  The
    source has [try { start; generate; push; completed } catch { failed }]:
    a variant is kept as soon as it has been generated. *)
Fixpoint variantsLoop (videoPath outputDir : string)
    (progressCallback : option ProgressCallback) (totalQualities : Z)
    (rest : list Quality) (i : Z) (variantPlaylists : list Quality) : Rt.M (list Quality) :=
  match rest with
  | [] => mret variantPlaylists
  | quality :: rest' =>
      let failed :=
        report progressCallback (Js.round_div ((i + 1) * 90) totalQualities)
          ("Failed to generate " +:+ name quality) (Some (name quality)) in
      generated ←
        Rt.try_catch
          (report progressCallback (Js.round_div (i * 90) totalQualities)
             ("Starting " +:+ name quality +:+ " quality") (Some (name quality));;
           generateHLSVariantWithProgress videoPath outputDir quality;;
           mret true)
          (fun _ => mret false);
      if generated : bool then
        Rt.try_catch
          (report progressCallback (Js.round_div ((i + 1) * 90) totalQualities)
             ("Completed " +:+ name quality +:+ " quality") (Some (name quality)))
          (fun _ => failed);;
        variantsLoop videoPath outputDir progressCallback totalQualities rest' (i + 1)
          (variantPlaylists ++ [quality])
      else
        failed;;
        variantsLoop videoPath outputDir progressCallback totalQualities rest' (i + 1)
          variantPlaylists
  end.

(** [convertToHLSWithProgress(videoPath, videoId, metadata, progressCallback)];
    [hlsRoot] is the normalised [path.join(__dirname, '..', 'hls')]. *)
Definition convertToHLSWithProgress (hlsRoot videoPath videoId : string) (metadata : Metadata)
    (progressCallback : option ProgressCallback) : Rt.M string :=
  let outputDir := hlsRoot +:+ "/" +:+ videoId in
  Rt.ensureDir outputDir;;
  let qualities := getQualityLevels metadata in
  let masterPlaylistPath := outputDir +:+ "/" +:+ "playlist.m3u8" in
  let totalQualities := Z.of_nat (length qualities) in
  report progressCallback 0 "Starting HLS generation" None;;
  variantPlaylists ← variantsLoop videoPath outputDir progressCallback totalQualities
                       qualities 0 [];
  report progressCallback 95 "Creating master playlist" None;;
  if (0 <? Z.of_nat (length variantPlaylists)) then
    createMasterHLSPlaylist outputDir variantPlaylists;;
    report progressCallback 100 "HLS generation complete" None;;
    mret masterPlaylistPath
  else Rt.throw "Failed to generate any HLS variants".

End VideoProcessor.

(* ===================================================================== *)
(** * services/telegramService.js *)
(* ===================================================================== *)

Module TelegramService.
Import Rt.
Export Data.

(** The service object.  When the credentials are missing the constructor
    returns before [maxFileSize], [maxRetries] and [retryDelay] are
    assigned: they stay [undefined]. *)
Record t := {
  botToken : option string;
  primaryChannelId : option string;
  backupChannelIds : list string;
  bot : bool;
  maxFileSize : option Z;
  maxRetries : option Z;
  retryDelay : option Z;
  tempDir : string
}.

(** [constructor()], on the environment variables (the backup channel list
    already split on commas and trimmed) and on the normalised path of
    [path.join(__dirname, '..', 'temp')]. *)
Definition constructor (TELEGRAM_BOT_TOKEN TELEGRAM_CHANNEL_ID : option string)
    (TELEGRAM_BACKUP_CHANNELS : list string) (temp : string) : t :=
  if negb (Js.truthy_str TELEGRAM_BOT_TOKEN) || negb (Js.truthy_str TELEGRAM_CHANNEL_ID)
  then {| botToken := TELEGRAM_BOT_TOKEN; primaryChannelId := TELEGRAM_CHANNEL_ID;
          backupChannelIds := TELEGRAM_BACKUP_CHANNELS; bot := false;
          maxFileSize := None; maxRetries := None; retryDelay := None;
          tempDir := temp |}
  else {| botToken := TELEGRAM_BOT_TOKEN; primaryChannelId := TELEGRAM_CHANNEL_ID;
          backupChannelIds := TELEGRAM_BACKUP_CHANNELS; bot := true;
          maxFileSize := Some (50 * 1024 * 1024);
          maxRetries := Some 3;
          retryDelay := Some 5000;
          tempDir := temp |}.

(** [x > this.maxFileSize]: a comparison with [undefined] is false. *)
Definition gt_opt (x : Z) (limit : option Z) : bool :=
  match limit with
  | Some l => l <? x
  | None => false
  end.

(** [path.join(tempDir, `chunk_${i}.bin`)]: a normalised directory joined
    with a plain file name. *)
Definition chunkPath (svc : t) (i : Z) : string :=
  tempDir svc +:+ "/" +:+ "chunk_" +:+ pretty i +:+ ".bin".

(** The body of the [for] loop of [splitVideoFile], for the [n] indices
    from [i] on. *)
Fixpoint splitLoop (svc : t) (videoPath : string) (chunkSize fileSize : Z)
    (n : nat) (i : Z) (chunks : list string) : M (list string) :=
  match n with
  | O => mret chunks
  | S n' =>
      let path := chunkPath svc i in
      let start := i * chunkSize in
      let end_ := Z.min (start + chunkSize) fileSize in
      w ← get;
      match createReadStreamRange videoPath start (end_ - 1) w with
      | None => throw "ENOENT: no such file or directory"
      | Some data =>
          writeFile path data;;
          splitLoop svc videoPath chunkSize fileSize n' (i + 1) (chunks ++ [path])
      end
  end.

(** [Math.ceil(fileSize / chunkSize)] for a positive [chunkSize] (every
    call site passes 45 MiB). *)
Definition numChunksOf (fileSize chunkSize : Z) : Z :=
  Js.ceil_div fileSize chunkSize.

(** [splitVideoFile(videoPath, chunkSize)] *)
Definition splitVideoFile (svc : t) (videoPath : string) (chunkSize : Z) : M (list string) :=
  fileSize ← stat_size videoPath;
  let numChunks := numChunksOf fileSize chunkSize in
  ensureDir (tempDir svc);;
  splitLoop svc videoPath chunkSize fileSize (Z.to_nat numChunks) 0 [].

(** [uploadSmallVideoToChannel]; the caption (which embeds the current
    date) is not modelled. *)
Definition uploadSmallVideoToChannel (svc : t) (videoPath originalName videoId : string)
    (checksum_ : option string) (channel : option string) : M TelegramData :=
  result ← sendVideo channel (createReadStream videoPath) originalName;
  mret {| uploaded := true; reason := None; error := None; channelId := channel;
          messageId := Some (message_id result); fileId := Some (file_id result);
          fileUniqueId := Some (file_unique_id result); size := Some (file_size result);
          uploadMethod := Some single; totalChunks := None; chunks := [];
          checksum := checksum_; redundancy := None |}.

(** The [for] loop of [uploadLargeVideoToChannel] from index [i] on. *)
Fixpoint uploadChunksLoop (originalName : string) (channel : option string)
    (rest : list string) (i : Z) (uploadedChunks : list ChunkInfo) : M (list ChunkInfo) :=
  match rest with
  | [] => mret uploadedChunks
  | path :: rest' =>
      result ← sendDocument channel (createReadStream path)
                 (originalName +:+ ".part" +:+ pretty (i + 1));
      let info := {| part := i + 1; c_messageId := message_id result;
                     c_fileId := file_id result;
                     c_fileUniqueId := file_unique_id result;
                     c_size := file_size result |} in
      remove path;;
      uploadChunksLoop originalName channel rest' (i + 1) (uploadedChunks ++ [info])
  end.

(** [const chunkSize = 45 * 1024 * 1024;] *)
Definition chunkSize : Z := 45 * 1024 * 1024.

(** [uploadLargeVideoToChannel], for the chunk size it is given. *)
Definition uploadLargeVideoToChannelWith (chunkSize : Z) (svc : t)
    (videoPath originalName videoId : string)
    (checksum_ : option string) (channel : option string) : M TelegramData :=
  paths ← splitVideoFile svc videoPath chunkSize;
  uploadedChunks ← uploadChunksLoop originalName channel paths 0 [];
  mret {| uploaded := true; reason := None; error := None; channelId := channel;
          messageId := None; fileId := None; fileUniqueId := None; size := None;
          uploadMethod := Some chunked;
          totalChunks := Some (Z.of_nat (length paths));
          chunks := uploadedChunks;
          checksum := checksum_; redundancy := None |}.

(** [uploadLargeVideoToChannel(videoPath, originalName, videoId, checksum, channelId)] *)
Definition uploadLargeVideoToChannel : t -> string -> string -> string ->
    option string -> option string -> M TelegramData :=
  uploadLargeVideoToChannelWith chunkSize.

(** [uploadToChannel(videoPath, originalName, videoId, checksum, channelId)] *)
Definition uploadToChannel (svc : t) (videoPath originalName videoId : string)
    (checksum_ : option string) (channel : option string) : M TelegramData :=
  fileSize ← stat_size videoPath;
  if gt_opt fileSize (maxFileSize svc)
  then uploadLargeVideoToChannel svc videoPath originalName videoId checksum_ channel
  else uploadSmallVideoToChannel svc videoPath originalName videoId checksum_ channel.

(** [this.retryDelay * attempt] *)
Definition delayFor (svc : t) (attempt : Z) : option Z :=
  (fun d => d * attempt) <$> retryDelay svc.

(** The [for (attempt = ...; attempt <= maxRetries; attempt++)] loop of
    [uploadWithRetry], with [n] iterations left.  Falling out of the loop
    returns [undefined]. *)
Fixpoint retryLoop {A} (svc : t) (uploadFunction : M A) (maxRetries : Z)
    (n : nat) (attempt : Z) : M (option A) :=
  match n with
  | O => mret None
  | S n' =>
      try_catch (a ← uploadFunction; mret (Some a))
        (fun error =>
           if attempt =? maxRetries then throw error
           else sleep (delayFor svc attempt);;
                retryLoop svc uploadFunction maxRetries n' (attempt + 1))
  end.

(** [uploadWithRetry(uploadFunction, maxRetries = this.maxRetries)] *)
Definition uploadWithRetry {A} (svc : t) (uploadFunction : M A) : M (option A) :=
  let maxRetries := default 0 (maxRetries svc) in
  retryLoop svc uploadFunction maxRetries (Z.to_nat maxRetries) 1.

Definition uploadSmallVideoWithRetry (svc : t) (videoPath originalName videoId : string)
    (checksum_ : option string) : M (option TelegramData) :=
  uploadWithRetry svc
    (uploadToChannel svc videoPath originalName videoId checksum_ (primaryChannelId svc)).

Definition uploadLargeVideoWithRetry (svc : t) (videoPath originalName videoId : string)
    (checksum_ : option string) : M (option TelegramData) :=
  uploadWithRetry svc
    (uploadLargeVideoToChannel svc videoPath originalName videoId checksum_ (primaryChannelId svc)).

(** [uploadVideo(videoPath, originalName, videoId)].  The replication to
    the backup channels is handed to [setImmediate] and runs after the
    function has returned; it is [backupUploads] below. *)
Definition uploadVideo (svc : t) (videoPath originalName videoId : string) : M TelegramData :=
  if negb (bot svc) then mret (notUploadedReason "Service not configured")
  else
    fileExists ← pathExists videoPath;
    if negb fileExists then mret (notUploadedReason "File not found")
    else
      try_catch
        (fileSize ← stat_size videoPath;
         primaryResult ←
           (if gt_opt fileSize (maxFileSize svc)
            then uploadLargeVideoWithRetry svc videoPath originalName videoId None
            else uploadSmallVideoWithRetry svc videoPath originalName videoId None);
         mret (withRedundancy primaryResult (1 + Z.of_nat (length (backupChannelIds svc)))))
        (fun error => mret (notUploadedError error)).

(** [{ channelId, ...d }] when [d] has its own [channelId], and
    [{ channelId, uploaded: false, error }]. *)
Definition withChannel (channel : string) (d : TelegramData) : TelegramData :=
  {| uploaded := uploaded d; reason := reason d; error := error d;
     channelId := match channelId d with Some c => Some c | None => Some channel end;
     messageId := messageId d; fileId := fileId d;
     fileUniqueId := fileUniqueId d; size := size d;
     uploadMethod := uploadMethod d; totalChunks := totalChunks d;
     chunks := chunks d; checksum := checksum d; redundancy := redundancy d |}.

(** The callback given to [setImmediate] by [uploadVideo]: one upload per
    backup channel, each failure caught. *)
Fixpoint backupLoop (svc : t) (videoPath originalName videoId : string)
    (channels : list string) (backupResults : list TelegramData) : M (list TelegramData) :=
  match channels with
  | [] => mret backupResults
  | channel :: rest =>
      r ← try_catch
            (backupResult ← uploadToChannel svc videoPath originalName videoId None (Some channel);
             mret (withChannel channel backupResult))
            (fun error => mret (withChannel channel (notUploadedError error)));
      backupLoop svc videoPath originalName videoId rest (backupResults ++ [r])
  end.

Definition backupUploads (svc : t) (videoPath originalName videoId : string) : M (list TelegramData) :=
  fileExists ← pathExists videoPath;
  if negb fileExists then mret []
  else backupLoop svc videoPath originalName videoId (backupChannelIds svc) [].

(** The [for (const chunk of telegramData.chunks)] loop of
    [downloadChunkedVideo]: every chunk's stream is appended to the
    destination. *)
Fixpoint downloadLoop (outputPath : string) (rest : list ChunkInfo) : M unit :=
  match rest with
  | [] => mret tt
  | chunk :: rest' =>
      data ← getFileStream (c_fileId chunk);
      w ← get;
      writeFile outputPath (default [] (files w !! outputPath) ++ data);;
      downloadLoop outputPath rest'
  end.

(** [downloadChunkedVideo(telegramData, outputPath)] *)
Definition downloadChunkedVideo (svc : t) (telegramData : TelegramData) (outputPath : string) : M unit :=
  ensureDir (tempDir svc);;
  writeFile outputPath [];;
  downloadLoop outputPath (chunks telegramData).

(** How the promise returned by [downloadVideo] ends when it does not
    reject: it is fulfilled, or it stays pending for ever. *)
Inductive Settled := Fulfilled | Pending.

(** [downloadVideo(telegramData, outputPath)].  In the single-object
    branch the returned promise listens to the write stream only
    (['finish'] and ['error']): the destination is created at once, and
    when the read stream of the store fails nothing ever settles the
    promise.  A record whose [uploadMethod] is neither ['single'] nor
    ['chunked'] falls through both branches. *)
Definition downloadVideo (svc : t) (telegramData : TelegramData) (outputPath : string) : M Settled :=
  if negb (bot svc) || negb (uploaded telegramData)
  then throw "Cannot download: Telegram service not available or video not uploaded"
  else
    match uploadMethod telegramData with
    | Some single =>
        writeFile outputPath [];;
        w ← get;
        match fileId telegramData ≫= (fun id => cloud w !! id) with
        | Some content => writeFile outputPath content;; mret Fulfilled
        | None => mret Pending
        end
    | Some chunked =>
        downloadChunkedVideo svc telegramData outputPath;;
        mret Fulfilled
    | _ => mret Fulfilled
    end.

(** [bot.deleteMessage(chatId, messageId)]: this collaborator is a
    parameter of [deleteVideo]. *)
Definition DeleteMessage := option string -> option N -> M unit.

(** [this.channelId]: the class assigns [botToken], [primaryChannelId],
    [backupChannelIds], [bot], [maxFileSize], [maxRetries] and
    [retryDelay], and no [channelId]; the property is [undefined]. *)
Definition thisChannelId (svc : t) : option string := None.

(** The result object of [deleteVideo]. *)
Record DeleteResult := {
  deleted : bool;
  del_reason : option string;
  del_error : option string
}.

(** [for (const chunk of telegramData.chunks) { await this.bot.deleteMessage(...) }] *)
Fixpoint deleteChunks (svc : t) (deleteMessage : DeleteMessage) (rest : list ChunkInfo) : M unit :=
  match rest with
  | [] => mret tt
  | chunk :: rest' =>
      deleteMessage (thisChannelId svc) (Some (c_messageId chunk));;
      deleteChunks svc deleteMessage rest'
  end.

(** [deleteVideo(telegramData)] *)
Definition deleteVideo (svc : t) (deleteMessage : DeleteMessage) (telegramData : TelegramData)
    : M DeleteResult :=
  if negb (bot svc) || negb (uploaded telegramData)
  then mret {| deleted := false;
               del_reason := Some "Service not available or video not uploaded";
               del_error := None |}
  else
    try_catch
      (match uploadMethod telegramData with
       | Some single => deleteMessage (thisChannelId svc) (messageId telegramData)
       | Some chunked => deleteChunks svc deleteMessage (chunks telegramData)
       | _ => mret tt
       end;;
       mret {| deleted := true; del_reason := None; del_error := None |})
      (fun error_ => mret {| deleted := false; del_reason := None; del_error := Some error_ |}).

(** The result object of [verifyUpload]. *)
Record VerifyResult := {
  verified : bool;
  ver_reason : option string;
  storedChecksum : option string;
  originalChecksum : option string;
  ver_redundancy : option Z
}.

(** [verifyUpload(telegramData, originalChecksum)]: an [async] function
    without effects; nothing in its [try] block can throw.  A missing
    checksum ([null] or [undefined]) is [None]. *)
Definition verifyUpload (telegramData : TelegramData) (originalChecksum_ : option string)
    : VerifyResult :=
  if negb (uploaded telegramData) || negb (Js.truthy_str originalChecksum_)
  then {| verified := false; ver_reason := Some "Upload data or checksum missing";
          storedChecksum := None; originalChecksum := None; ver_redundancy := None |}
  else {| verified := bool_decide (checksum telegramData = originalChecksum_);
          ver_reason := None;
          storedChecksum := checksum telegramData;
          originalChecksum := originalChecksum_;
          ver_redundancy := Some (Js.or_num (redundancy telegramData) 1) |}.

(** What [bot.getChat(channelId)] reports of a chat. *)
Record Chat := {
  chat_title : option string;
  chat_type : option string
}.

(** [bot.getChat(channelId)]: this collaborator is a parameter of
    [getStorageHealth]. *)
Definition GetChat := option string -> M Chat.

Inductive ChannelStatus := healthy | unhealthy.

(** One element of [health]. *)
Record ChannelHealth := {
  ch_channelId : option string;
  ch_status : ChannelStatus;
  ch_title : option string;
  ch_type : option string;
  ch_error : option string
}.

(** The result object of [getStorageHealth]. *)
Record StorageHealth := {
  sh_healthy : bool;
  sh_reason : option string;
  sh_error : option string;
  sh_channels : list ChannelHealth;
  sh_redundancy : option Z;
  sh_primaryHealthy : option bool
}.

(** [h.status === 'healthy'] *)
Definition isHealthy (h : ChannelHealth) : bool :=
  match ch_status h with healthy => true | unhealthy => false end.

(** The [for (const channelId of channels)] loop of [getStorageHealth]. *)
Fixpoint healthLoop (getChat : GetChat) (channels : list (option string))
    (health : list ChannelHealth) : M (list ChannelHealth) :=
  match channels with
  | [] => mret health
  | channel :: rest =>
      h ← try_catch
            (chat ← getChat channel;
             mret {| ch_channelId := channel; ch_status := healthy;
                     ch_title := chat_title chat; ch_type := chat_type chat;
                     ch_error := None |})
            (fun error_ =>
               mret {| ch_channelId := channel; ch_status := unhealthy;
                       ch_title := None; ch_type := None; ch_error := Some error_ |});
      healthLoop getChat rest (health ++ [h])
  end.

(** [getStorageHealth()] *)
Definition getStorageHealth (svc : t) (getChat : GetChat) : M StorageHealth :=
  if negb (bot svc)
  then mret {| sh_healthy := false; sh_reason := Some "Service not configured";
               sh_error := None; sh_channels := []; sh_redundancy := None;
               sh_primaryHealthy := None |}
  else
    try_catch
      (let channels := primaryChannelId svc :: map Some (backupChannelIds svc) in
       health ← healthLoop getChat channels [];
       let healthyCount := Z.of_nat (length (List.filter isHealthy health)) in
       mret {| sh_healthy := 0 <? healthyCount; sh_reason := None; sh_error := None;
               sh_channels := health; sh_redundancy := Some healthyCount;
               sh_primaryHealthy :=
                 Some (match head health with
                       | Some h => isHealthy h
                       | None => false
                       end) |})
      (fun error_ =>
         mret {| sh_healthy := false; sh_reason := None; sh_error := Some error_;
                 sh_channels := []; sh_redundancy := None; sh_primaryHealthy := None |}).

(** ** Bulk upload of the segment files *)

(** One element of [hlsFiles]. *)
Record HlsFile := {
  fullPath : string;
  relativePath : string;
  h_size : Z
}.

(** [path.join(dir, file)] *)
Definition joinName (dir file : string) : string := Path.join [dir; file].

(** What the loop body of [findHLSFiles] does for the directory entry
    [file], which [stat] reports as [node]. *)
Fixpoint findInEntry (node : FsNode) (file fullPath_ relativeFilePath : string) : list HlsFile :=
  match node with
  | FsDir entries =>
      (fix walk (es : list (string * FsNode)) : list HlsFile :=
         match es with
         | [] => []
         | (f, n) :: rest =>
             findInEntry n f (joinName fullPath_ f) (joinName relativeFilePath f) ++ walk rest
         end) entries
  | FsFile size_ =>
      if Js.endsWith file ".m3u8" || Js.endsWith file ".ts"
      then [{| fullPath := fullPath_; relativePath := relativeFilePath; h_size := size_ |}]
      else []
  end.

(** [findHLSFiles(dir, relativePath)] on the entries of [dir], in
    [readdir] order. *)
Definition findHLSFiles (entries : list (string * FsNode)) (dir relativePath_ : string) : list HlsFile :=
  concat (map (fun '(f, n) => findInEntry n f (joinName dir f) (joinName relativePath_ f)) entries).

(** [error.message.includes('429') || error.message.includes('Too Many Requests')] *)
Definition isRateLimit (message : string) : bool :=
  Js.includes message "429" || Js.includes message "Too Many Requests".

Definition batchSize : Z := 3.
Definition batchDelay : Z := 3000.
Definition hlsRetryDelay : Z := 45000.
Definition hlsMaxRetries : Z := 3.

(** The [while (retries < maxRetries)] loop that uploads one file, with
    [n] iterations left; leaving the loop returns [undefined]. *)
Fixpoint uploadHLSFile (svc : t) (videoId : string) (file : HlsFile)
    (n : nat) (retries : Z) : M (option HlsUploadResult) :=
  match n with
  | O => mret None
  | S n' =>
      try_catch
        (result ← sendDocument (primaryChannelId svc) (createReadStream (fullPath file))
                    (relativePath file);
         mret (Some {| r_relativePath := relativePath file;
                       r_messageId := Some (message_id result);
                       r_fileId := Some (file_id result);
                       r_uploaded := true; r_error := None |}))
        (fun error_ =>
           let failed := Some {| r_relativePath := relativePath file;
                                 r_messageId := None; r_fileId := None;
                                 r_uploaded := false; r_error := Some error_ |} in
           if isRateLimit error_
           then sleep (Some hlsRetryDelay);;
                if retries + 1 <? hlsMaxRetries
                then uploadHLSFile svc videoId file n' (retries + 1)
                else mret failed
           else mret failed)
  end.

(** [await Promise.all(batch.map(async (file) => ...))].  The uploads of
    one batch run concurrently in the source; the model runs them one
    after the other, in batch order. *)
Fixpoint uploadBatch (svc : t) (videoId : string) (batch : list HlsFile)
    : M (list (option HlsUploadResult)) :=
  match batch with
  | [] => mret []
  | file :: rest =>
      r ← uploadHLSFile svc videoId file (Z.to_nat hlsMaxRetries) 0;
      rs ← uploadBatch svc videoId rest;
      mret (r :: rs)
  end.

(** The [for (let i = 0; i < hlsFiles.length; i += batchSize)] loop, with
    [n] iterations left. *)
Fixpoint batchLoop (svc : t) (videoId : string) (hlsFiles : list HlsFile)
    (n : nat) (i : Z) (uploadResults : list (option HlsUploadResult))
    : M (list (option HlsUploadResult)) :=
  match n with
  | O => mret uploadResults
  | S n' =>
      let batch := Js.slice hlsFiles i (i + batchSize) in
      batchResults ← uploadBatch svc videoId batch;
      (if i + batchSize <? Z.of_nat (length hlsFiles)
       then sleep (Some batchDelay) else mret tt);;
      batchLoop svc videoId hlsFiles n' (i + batchSize) (uploadResults ++ batchResults)
  end.

(** [uploadResults.filter(r => r.uploaded)] rejects on an [undefined]
    element. *)
Fixpoint definedResults (rs : list (option HlsUploadResult)) : option (list HlsUploadResult) :=
  match rs with
  | [] => Some []
  | None :: _ => None
  | Some r :: rest => cons r <$> definedResults rest
  end.

(** [uploadHLSFiles(hlsDir, videoId)] *)
Definition uploadHLSFiles (svc : t) (hlsDir videoId : string) : M HlsResult :=
  let notFound := hlsNotUploaded (Some "Service not configured or HLS directory not found") None in
  if negb (bot svc) then mret notFound
  else
    dirExists ← pathExists hlsDir;
    if negb dirExists then mret notFound
    else
      try_catch
        (w ← get;
         hlsFiles ← match trees w !! hlsDir with
                    | Some (FsDir entries) => mret (findHLSFiles entries hlsDir "")
                    | _ => throw ("ENOTDIR: not a directory, scandir '" +:+ hlsDir +:+ "'")
                    end;
         let total := Z.of_nat (length hlsFiles) in
         if total =? 0 then mret (hlsNotUploaded (Some "No HLS files found") None)
         else if 100 <? total then mret (hlsTooMany total)
         else
           uploadResults ← batchLoop svc videoId hlsFiles
                             (Z.to_nat (Js.ceil_div total batchSize)) 0 [];
           match definedResults uploadResults with
           | None => throw "Cannot read properties of undefined (reading 'uploaded')"
           | Some results =>
               let successfulUploads := Z.of_nat (length (filter (fun r => r_uploaded r = true) results)) in
               mret {| hls_uploaded := 0 <? successfulUploads;
                       hls_reason := None; hls_error := None;
                       hls_totalFiles := Some total;
                       hls_recommendation := None;
                       hls_successfulUploads := Some successfulUploads;
                       hls_uploadResults := results;
                       hls_uploadMethod := Some hls_batch |}
           end)
        (fun error_ => mret (hlsNotUploaded None (Some error_))).

End TelegramService.


(* ===================================================================== *)
(** * services/audioExtractor.js *)
(* ===================================================================== *)

Module AudioExtractor.
Import Rt VideoProcessor.

(** One element of [extractedAudioFiles] (the extraction time stamp is not
    modelled). *)
Record AudioFileInfo := {
  trackIndex : Z;
  originalTrackInfo : AudioStream;
  fileName : string;
  filePath : string;
  fileSize : Z;
  language : string;
  title : string;
  codec : string;
  channels : option Z;
  sampleRate : option Z
}.

(** [progressCallback]: [null] or an asynchronous function of a percentage
    and a stage name. *)
Definition ProgressCallback := Z -> string -> M unit.

(** [if (progressCallback) { await progressCallback(percent, stage); }] *)
Definition report (progressCallback : option ProgressCallback) (percent : Z) (stage : string) : M unit :=
  match progressCallback with
  | Some callback => callback percent stage
  | None => mret tt
  end.

(** A progress callback that records what it is told. *)
Definition recordProgress : ProgressCallback :=
  fun percent stage => emit (EvProgress percent stage).

Definition isAlnum (c : ascii) : bool :=
  let n := nat_of_ascii c in
  ((48 <=? n) && (n <=? 57) || (65 <=? n) && (n <=? 90) || (97 <=? n) && (n <=? 122))%nat.

Definition toLower (c : ascii) : ascii :=
  let n := nat_of_ascii c in
  if ((65 <=? n) && (n <=? 90))%nat then ascii_of_nat (n + 32) else c.

(** [s.replace(/[^a-zA-Z0-9]/g, '_').toLowerCase()] on an ASCII string
    (a character outside ASCII is replaced byte by byte here, and unit by
    unit of UTF-16 in the code). *)
Fixpoint sanitize (s : string) : string :=
  match s with
  | EmptyString => EmptyString
  | String c rest => String (if isAlnum c then toLower c else "_"%char) (sanitize rest)
  end.

(** [generateAudioFileName(videoId, trackIndex, trackInfo)] *)
Definition generateAudioFileName (videoId : string) (trackIndex_ : Z) (trackInfo : AudioStream) : string :=
  let language_ :=
    match a_language trackInfo with
    | Some l => if negb (String.eqb l "") && negb (String.eqb l "unknown")
                then l else "track" +:+ pretty trackIndex_
    | None => "track" +:+ pretty trackIndex_
    end in
  let title_ :=
    match a_title trackInfo with
    | Some t => if negb (String.eqb t "") then sanitize t else "audio_" +:+ pretty trackIndex_
    | None => "audio_" +:+ pretty trackIndex_
    end in
  videoId +:+ "_" +:+ language_ +:+ "_" +:+ title_ +:+ "_track" +:+ pretty trackIndex_ +:+ ".aac".

(** [extractSingleAudioTrack(videoPath, outputPath, trackIndex, trackInfo)]:
    one [ffmpeg] run, which writes the output file or fails. *)
Definition extractSingleAudioTrack (videoPath outputPath : string) (trackIndex_ : Z) : M unit :=
  ffmpegRun (EvFfmpeg videoPath outputPath trackIndex_) outputPath.

(** The [for (let i = 0; i < audioTracks.length; i++)] loop of
    [extractAudioTracks], from index [i] on. *)
Fixpoint extractLoop (videoPath videoId audioDir : string) (totalTracks : Z)
    (progressCallback : option ProgressCallback)
    (rest : list AudioStream) (i : Z) (extractedAudioFiles : list AudioFileInfo)
    : M (list AudioFileInfo) :=
  match rest with
  | [] => mret extractedAudioFiles
  | track :: rest' =>
      let trackIndex_ := Js.or_num (a_index track) i in
      extracted ←
        try_catch
          (report progressCallback (Js.round_div (i * 100) totalTracks)
             ("Extracting audio track " +:+ pretty (i + 1) +:+ ": " +:+
              Js.or_str (a_title track)
                (Js.or_str (a_language track) ("Track " +:+ pretty (i + 1))));;
           let audioFileName := generateAudioFileName videoId trackIndex_ track in
           let audioFilePath := Path.join [audioDir; audioFileName] in
           extractSingleAudioTrack videoPath audioFilePath trackIndex_;;
           size_ ← stat_size audioFilePath;
           if size_ =? 0
           then throw ("Extracted audio file is empty for track " +:+ pretty trackIndex_)
           else mret [{| trackIndex := trackIndex_;
                         originalTrackInfo := track;
                         fileName := audioFileName;
                         filePath := audioFilePath;
                         fileSize := size_;
                         language := Js.or_str (a_language track) "unknown";
                         title := Js.or_str (a_title track) ("Audio Track " +:+ pretty (i + 1));
                         codec := "aac";
                         channels := a_channels track;
                         sampleRate := a_sampleRate track |}])
          (fun _ => mret []);
      extractLoop videoPath videoId audioDir totalTracks progressCallback
        rest' (i + 1) (extractedAudioFiles ++ extracted)
  end.

(** [extractAudioTracks(videoPath, videoId, audioTracks, progressCallback)];
    [audioRoot] is the normalised [path.join(__dirname, '..', 'audio')],
    [audioTracks] is [None] for [null] or [undefined]. *)
Definition extractAudioTracks (audioRoot videoPath videoId : string)
    (audioTracks : option (list AudioStream))
    (progressCallback : option ProgressCallback) : M (list AudioFileInfo) :=
  match audioTracks with
  | None => mret []
  | Some tracks =>
      if Z.of_nat (length tracks) <=? 1 then mret []
      else
        let audioDir := Path.join [audioRoot; videoId] in
        ensureDir audioDir;;
        let totalTracks := Z.of_nat (length tracks) in
        report progressCallback 0
          ("Starting audio extraction for " +:+ pretty totalTracks +:+ " tracks");;
        extractedAudioFiles ← extractLoop videoPath videoId audioDir totalTracks
                                progressCallback tracks 0 [];
        report progressCallback 100
          ("Audio extraction complete: " +:+ pretty (Z.of_nat (length extractedAudioFiles))
           +:+ "/" +:+ pretty totalTracks +:+ " tracks extracted");;
        mret extractedAudioFiles
  end.

(** [cleanupAudioFiles(extractedAudioFiles)]: every file that still exists
    is removed; no error escapes.  (Removing the emptied directory is not
    modelled: the model keeps no empty directories.) *)
Fixpoint cleanupAudioFiles (extractedAudioFiles : list AudioFileInfo) : M unit :=
  match extractedAudioFiles with
  | [] => mret tt
  | audioFile :: rest =>
      try_catch
        (fileExists ← pathExists (filePath audioFile);
         if fileExists : bool then remove (filePath audioFile) else mret tt)
        (fun _ => mret tt);;
      cleanupAudioFiles rest
  end.

End AudioExtractor.

(* ===================================================================== *)
(** * services/databaseService.js (external collaborator) *)
(* ===================================================================== *)

Module Database.
Import Rt.
Export Data.

(** A call of the metadata store: it rejects when the script says so. *)
Definition dbCall {A} (k : M A) : M A := fun w =>
  match dbScript w with
  | [] => k w
  | Some msg :: rest => (Throw msg, set_db (fun d => d) rest w)
  | None :: rest => k (set_db (fun d => d) rest w)
  end.

(** Modelled from the spec: [get(id)] of the metadata store, the record
    stored under [id] or [null]. *)
Definition getVideo (id : string) : M (option Video) :=
  dbCall (w ← get; mret (db w !! id)).

(** Modelled from the spec: [update(id, partialFields)] of the metadata
    store; the fields named in [partialFields] replace those of the stored
    record (a shallow merge), given here as the function that replaces
    them. *)
Definition updateVideoMetadata (id : string) (partialFields : Video -> Video) : M unit :=
  dbCall (w ← get; modify (set_db (alter partialFields id) (dbScript w))).

(** Modelled from the spec: the view counter of the metadata store (the
    counter itself is not kept in the model). *)
Definition incrementViewCount (id : string) : M unit :=
  dbCall (mret tt).

End Database.

(* ===================================================================== *)
(** * server.js: playback endpoints *)
(* ===================================================================== *)

Module Server.
Import Rt.
Export Data.

(** What has been handed to [res]. *)
Inductive Body :=
| NoBody
| BodyJson (error_ : string) (message : option string)
| BodyRedirect (location : string)
| BodyFile (path : string)
| BodyCloudStream.

(** The HTTP response under construction. *)
Record Response := {
  status : Z;
  headers : list (string * string);
  body : Body
}.

(** A fresh [res]. *)
Definition newResponse : Response :=
  {| status := 200; headers := []; body := NoBody |}.

(** [res.status(code)] *)
Definition setStatus (code : Z) (res : Response) : Response :=
  {| status := code; headers := headers res; body := body res |}.

(** [res.setHeader(name, value)]: a header of the same name is replaced. *)
Definition setHeader (name value : string) (res : Response) : Response :=
  {| status := status res;
     headers := List.filter (fun h => negb (String.eqb (fst h) name)) (headers res)
                ++ [(name, value)];
     body := body res |}.

Definition getHeader (name : string) (res : Response) : option string :=
  snd <$> List.find (fun h => String.eqb (fst h) name) (headers res).

Definition setBody (b : Body) (res : Response) : Response :=
  {| status := status res; headers := headers res; body := b |}.

(** [res.status(code).json({ error, message })] *)
Definition json (code : Z) (error_ : string) (message : option string) (res : Response) : Response :=
  setBody (BodyJson error_ message)
    (setHeader "Content-Type" "application/json; charset=utf-8" (setStatus code res)).

(** [res.redirect(url)] *)
Definition redirect (url : string) (res : Response) : Response :=
  setBody (BodyRedirect url) (setHeader "Location" url (setStatus 302 res)).

(** The result of [cloudStreamingService.streamVideo]; [failsBeforeData]
    tells whether the stream emits ['error'] before any header is sent. *)
Record StreamData := {
  contentType : string;
  acceptsRanges : bool;
  contentLength : Z;
  range : option string;
  failsBeforeData : bool
}.

(** [cloudStreamingService.streamVideo(telegramData, range, name)]: this
    collaborator is a parameter of the endpoints. *)
Definition StreamVideo := option TelegramData -> option string -> string -> M StreamData.

(** [telegramData?.uploaded] *)
Definition isUploaded (td : option TelegramData) : bool :=
  match td with
  | Some d => uploaded d
  | None => false
  end.

(** [video.hlsPlaylist || video.streamingMethod === 'adaptive'] *)
Definition hlsAvailable (video : Video) : bool :=
  Js.truthy_str (hlsPlaylist video) ||
  match streamingMethod video with
  | Some m => String.eqb m "adaptive"
  | None => false
  end.

(** [video.telegramData?.uploadMethod === 'chunked' &&
    video.size > 100 * 1024 * 1024] *)
Definition isLargeChunked (video : Video) : bool :=
  match telegramData video with
  | Some td => match uploadMethod td with Some chunked => true | _ => false end
  | None => false
  end
  && (100 * 1024 * 1024 <? videoSize video).

(** Lines 797-809: the range handling of [GET /api/stream/:id].  The
    numbers are exact integers: what the code computes and prints as long
    as the numbers of the header and the content length are below 2^53. *)
Definition rangeHandling (range_ : option string) (streamData : StreamData) (res : Response) : Response :=
  if Js.truthy_str range_ && acceptsRanges streamData then
    let parts := Js.split "-"%char (Js.replaceFirst (default "" range_) "bytes=" "") in
    let start := Js.parseInt (default "" (parts !! 0%nat)) 10 in
    let end_ :=
      if Js.truthy_str (parts !! 1%nat)
      then Js.parseInt (default "" (parts !! 1%nat)) 10
      else Some (contentLength streamData - 1) in
    let chunkSize :=
      match start, end_ with
      | Some s, Some e => Some ((e - s) + 1)
      | _, _ => None
      end in
    setHeader "Content-Length" (Js.showNum chunkSize)
      (setHeader "Content-Range"
         ("bytes " +:+ Js.showNum start +:+ "-" +:+ Js.showNum end_ +:+ "/" +:+
          pretty (contentLength streamData))
         (setStatus 206 res))
  else if negb (Js.truthy_str range_) then
    setHeader "Content-Length" (pretty (contentLength streamData)) res
  else res.

(** [app.get('/api/stream/:id', ...)] *)
Definition api_stream (streamVideo : StreamVideo) (videoId : string)
    (range_ : option string) : M Response :=
  let res := newResponse in
  try_catch
    (video ← Database.getVideo videoId;
     match video with
     | None => mret (json 404 "Video not found" None res)
     | Some video =>
         if negb (isUploaded (telegramData video)) then
           if hlsAvailable video
           then mret (redirect ("/api/hls/" +:+ videoId +:+ "/playlist.m3u8") res)
           else mret (json 404 "Video not available for streaming" None res)
         else if isLargeChunked video && hlsAvailable video
         then mret (redirect ("/api/hls/" +:+ videoId +:+ "/playlist.m3u8") res)
         else
           Database.incrementViewCount videoId;;
           streamData ← streamVideo (telegramData video) range_ (originalName video);
           let res :=
             setHeader "Content-Disposition"
               ("inline; filename=" +:+ Js.quote +:+ Js.encodeURIComponent (originalName video)
                +:+ Js.quote)
               (setHeader "Cache-Control" "no-cache"
                  (setHeader "Access-Control-Allow-Headers" "Range"
                     (setHeader "Access-Control-Allow-Methods" "GET, OPTIONS"
                        (setHeader "Access-Control-Allow-Origin" "*"
                           (setHeader "Accept-Ranges"
                              (if acceptsRanges streamData then "bytes" else "none")
                              (setHeader "Content-Type" (contentType streamData) res)))))) in
           let res := rangeHandling range_ streamData res in
           if failsBeforeData streamData
           then mret (json 500 "Streaming failed" None res)
           else mret (setBody BodyCloudStream res)
     end)
    (fun error_ => mret (json 500 error_ None res)).

(** [app.get('/api/hls/:videoId/*', ...)]; [dirname] is [__dirname],
    [param0] is [req.params[0]].  A path that exists is answered with
    [BodyFile], also when it is a directory, for which the read stream of
    the code fails after the headers have been set. *)
Definition api_hls (dirname videoId param0 : string) : M Response :=
  let res := newResponse in
  try_catch
    (let requestPath := Js.or_str (Some param0) "playlist.m3u8" in
     video ← Database.getVideo videoId;
     match video with
     | None => mret (json 404 "Video not found" None res)
     | Some _ =>
         let hlsDir := Path.join [dirname; "hls"; videoId] in
         let filePath := Path.join [hlsDir; requestPath] in
         if negb (Js.startsWith filePath hlsDir)
         then mret (json 403 "Forbidden" None res)
         else
           fileExists ← pathExists filePath;
           if negb fileExists then
             if Js.includes requestPath "audio/track_"
             then mret (redirect ("/api/hls/" +:+ videoId +:+ "/playlist.m3u8") res)
             else if String.eqb requestPath "playlist.m3u8"
             then mret (redirect ("/api/stream/" +:+ videoId) res)
             else mret (json 404 "HLS file not found"
                          (Some "The requested streaming segment is not available. This may be due to cleanup or processing issues.")
                          res)
           else
             let contentType_ :=
               if Js.endsWith filePath ".m3u8" then "application/vnd.apple.mpegurl"
               else if Js.endsWith filePath ".ts" then "video/mp2t"
               else "application/octet-stream" in
             mret (setBody (BodyFile filePath)
                     (setHeader "Access-Control-Allow-Headers" "Range"
                        (setHeader "Access-Control-Allow-Methods" "GET, OPTIONS"
                           (setHeader "Access-Control-Allow-Origin" "*"
                              (setHeader "Cache-Control" "no-cache"
                                 (setHeader "Content-Type" contentType_ res))))))
     end)
    (fun error_ => mret (json 500 error_ None res)).

(** [video.extractedAudioFiles?.find(track => track.trackIndex === parsedTrackIndex)] *)
Definition findAudioTrack (video : Video) (parsedTrackIndex : option Z) : option ExtractedAudio :=
  match extractedAudioFiles video, parsedTrackIndex with
  | Some tracks, Some index =>
      List.find (fun track => ea_trackIndex track =? index) tracks
  | _, _ => None
  end.

(** [app.get('/api/audio/:videoId/:trackIndex', ...)] *)
Definition api_audio (streamVideo : StreamVideo) (dirname videoId trackIndex : string)
    (range_ : option string) : M Response :=
  let res := newResponse in
  try_catch
    (let parsedTrackIndex := Js.parseInt trackIndex 0 in
     video ← Database.getVideo videoId;
     match video with
     | None => mret (json 404 "Video not found" None res)
     | Some video =>
         match findAudioTrack video parsedTrackIndex with
         | None => mret (json 404 "Audio track not found" None res)
         | Some audioTrack =>
             let res :=
               setHeader "Access-Control-Allow-Headers" "Range"
                 (setHeader "Access-Control-Allow-Methods" "GET, OPTIONS"
                    (setHeader "Access-Control-Allow-Origin" "*" res)) in
             fromCloud ←
               (if isUploaded (ea_telegramData audioTrack) then
                  try_catch
                    (streamResult ← streamVideo (ea_telegramData audioTrack) range_
                                      (ea_fileName audioTrack);
                     let res :=
                       setHeader "Cache-Control" "no-cache"
                         (setHeader "Accept-Ranges" "bytes"
                            (setHeader "Content-Type" "audio/aac" res)) in
                     let res :=
                       if Js.truthy_str (range streamResult) && Js.truthy_str range_
                       then setHeader "Content-Range"
                              ("bytes " +:+ default "" (range streamResult) +:+ "/" +:+
                               pretty (contentLength streamResult))
                              (setStatus 206 res)
                       else setHeader "Content-Length" (pretty (contentLength streamResult)) res in
                     if failsBeforeData streamResult then
                       match ea_hlsUrl audioTrack with
                       | Some url =>
                           if negb (String.eqb url "") then mret (Some (redirect url res))
                           else mret (Some (json 500 "Stream interrupted and no fallback available" None res))
                       | None =>
                           mret (Some (json 500 "Stream interrupted and no fallback available" None res))
                       end
                     else mret (Some (setBody BodyCloudStream res)))
                    (fun _ => mret None)
                else mret None);
             match fromCloud with
             | Some response => mret response
             | None =>
                 if Js.truthy_str (ea_hlsUrl audioTrack)
                 then mret (redirect (default "" (ea_hlsUrl audioTrack)) res)
                 else
                   let track := "track_" +:+ Js.showNum parsedTrackIndex in
                   let hlsDir := Path.join [dirname; "hls"; videoId; "audio"; track] in
                   let playlistPath := Path.join [hlsDir; "playlist.m3u8"] in
                   playlistExists ← pathExists playlistPath;
                   if playlistExists : bool then
                     mret (redirect ("/api/hls/" +:+ videoId +:+ "/audio/" +:+ track
                                     +:+ "/playlist.m3u8") res)
                   else if Js.truthy_str (hlsPlaylist video) then
                     mret (redirect ("/api/hls/" +:+ videoId +:+ "/playlist.m3u8") res)
                   else
                     mret (json 404 "Audio stream not available"
                             (Some ("Track " +:+ Js.showNum parsedTrackIndex +:+
                                    " is not accessible. Try refreshing or selecting a different audio track."))
                             res)
             end
         end
     end)
    (fun error_ => mret (json 500 error_ None res)).

End Server.

(* ===================================================================== *)
(** * server.js: background processing after an upload *)
(* ===================================================================== *)

Module Background.
Import Rt.
Export Data.

(** One element of [processingResults.audioHLSStreams]. *)
Record AudioHlsStream := {
  s_trackIndex : Z;
  s_hlsPlaylistUrl : option string
}.

(** [processingResults] *)
Record ProcessingResults := {
  pr_hlsPath : option string;
  pr_extractedAudioFiles : list AudioExtractor.AudioFileInfo;
  pr_audioHLSStreams : list AudioHlsStream;
  pr_videoOnlyHLS : option string;
  pr_hasMultiAudio : bool
}.

(** The deployment, and the two collaborators of the background task that
    are parameters of the model: [videoProcessor.processMultiAudioVideo]
    and the fan-out of audio uploads with its timers (lines 272-335). *)
Record Deployment := {
  dirname : string;
  forceCleanup : bool;
  telegramService : TelegramService.t;
  processMultiAudioVideo :
    string -> string -> VideoProcessor.Metadata -> VideoProcessor.ProgressCallback ->
    M ProcessingResults;
  uploadAudioFiles : string -> ProcessingResults -> M (list ExtractedAudio)
}.

(** The object literals assigned to [processingStatus]; [telegramUploading]
    is [false] in all of them. *)
Definition statusOf (progress : Z) (stage quality : option string)
    (thumbnail complete_ : bool) (errors_ : list string) : ProcessingStatus :=
  {| telegramUploading := false; hlsProgress := progress; hlsStage := stage;
     currentQuality := quality; thumbnailGenerating := thumbnail;
     complete := complete_; errors := errors_ |}.

(** [{ processingStatus: s }] as partial fields. *)
Definition withStatus (s : ProcessingStatus) (v : Video) : Video :=
  {| originalName := originalName v; videoSize := videoSize v;
     telegramData := telegramData v; cloudThumbnail := cloudThumbnail v;
     streamingMethod := streamingMethod v; hlsPlaylist := hlsPlaylist v;
     videoOnlyHLS := videoOnlyHLS v; hasMultiAudio := hasMultiAudio v;
     extractedAudioFiles := extractedAudioFiles v; hlsCloudData := hlsCloudData v;
     processingStatus := Some s |}.

(** [{ cloudThumbnail: t }] as partial fields. *)
Definition withThumbnail (t : list byte) (v : Video) : Video :=
  {| originalName := originalName v; videoSize := videoSize v;
     telegramData := telegramData v; cloudThumbnail := Some t;
     streamingMethod := streamingMethod v; hlsPlaylist := hlsPlaylist v;
     videoOnlyHLS := videoOnlyHLS v; hasMultiAudio := hasMultiAudio v;
     extractedAudioFiles := extractedAudioFiles v; hlsCloudData := hlsCloudData v;
     processingStatus := processingStatus v |}.

(** [{ hlsCloudData: r }] as partial fields. *)
Definition withHlsCloudData (r : HlsResult) (v : Video) : Video :=
  {| originalName := originalName v; videoSize := videoSize v;
     telegramData := telegramData v; cloudThumbnail := cloudThumbnail v;
     streamingMethod := streamingMethod v; hlsPlaylist := hlsPlaylist v;
     videoOnlyHLS := videoOnlyHLS v; hasMultiAudio := hasMultiAudio v;
     extractedAudioFiles := extractedAudioFiles v; hlsCloudData := Some r;
     processingStatus := processingStatus v |}.

(** The partial fields written when processing has succeeded (lines
    340-356). *)
Definition withResults (results : ProcessingResults) (audioCloudData : list ExtractedAudio)
    (v : Video) : Video :=
  {| originalName := originalName v; videoSize := videoSize v;
     telegramData := telegramData v; cloudThumbnail := cloudThumbnail v;
     streamingMethod :=
       Some (if pr_hasMultiAudio results then "multi-audio-adaptive" else "adaptive");
     hlsPlaylist := pr_hlsPath results;
     videoOnlyHLS := pr_videoOnlyHLS results;
     hasMultiAudio := Some (pr_hasMultiAudio results);
     extractedAudioFiles := Some audioCloudData;
     hlsCloudData := hlsCloudData v;
     processingStatus :=
       Some (statusOf 100 (Some "Processing complete") None false true []) |}.

(** [m.catch(err => console.warn(...))] *)
Definition caught (m : M unit) : M unit := try_catch m (fun _ => mret tt).

(** The [progressCallback] of the upload endpoint (lines 222-235). *)
Definition progressCallback (videoId : string) : VideoProcessor.ProgressCallback :=
  fun progress stage quality =>
    caught (Database.updateVideoMetadata videoId
              (withStatus (statusOf progress (Some stage) quality false (100 <=? progress) []))).

(** [audioHLSStreams.find(s => s.trackIndex === trackIndex)?.hlsPlaylistUrl || null] *)
Definition hlsUrlOf (streams : list AudioHlsStream) (index : Z) : option string :=
  match List.find (fun s => s_trackIndex s =? index) streams with
  | Some s => if Js.truthy_str (s_hlsPlaylistUrl s) then s_hlsPlaylistUrl s else None
  | None => None
  end.

(** The thumbnail step (lines 169-191): every failure is caught. *)
Definition generateThumbnail (env : Deployment) (videoId videoPath : string) : M (option (list byte)) :=
  try_catch
    (let thumbnailPath := Path.join [dirname env; "temp"; videoId +:+ "_thumb.jpg"] in
     VideoProcessor.extractThumbnail videoPath thumbnailPath "00:00:05";;
     thumbnailExists ← pathExists thumbnailPath;
     if thumbnailExists : bool then
       thumbnailBuffer ← readFile thumbnailPath;
       remove thumbnailPath;;
       mret (Some thumbnailBuffer)
     else mret None)
    (fun _ => mret None).

(** The processing step (lines 218-388), the body of the inner [try]. *)
Definition processVideo (env : Deployment) (videoId videoPath : string)
    (metadata : VideoProcessor.Metadata) (uploadResult : TelegramData) : M unit :=
  let hasMultipleAudio := (1 <? Z.of_nat (length (VideoProcessor.audio metadata))) in
  processingResults ←
    (if hasMultipleAudio
     then processMultiAudioVideo env videoPath videoId metadata (progressCallback videoId)
     else
       hlsPath ← VideoProcessor.convertToHLSWithProgress (Path.join [dirname env; "hls"])
                   videoPath videoId metadata (Some (progressCallback videoId));
       mret {| pr_hlsPath := Some hlsPath; pr_extractedAudioFiles := [];
               pr_audioHLSStreams := []; pr_videoOnlyHLS := None;
               pr_hasMultiAudio := false |});
  audioCloudData ←
    (if 0 <? Z.of_nat (length (pr_extractedAudioFiles processingResults)) then
       if negb (uploaded uploadResult) then
         mret (map (fun audioFile =>
                      {| ea_trackIndex := AudioExtractor.trackIndex audioFile;
                         ea_fileName := AudioExtractor.fileName audioFile;
                         ea_telegramData :=
                           Some (notUploadedError
                                   "Skipped due to main video upload failure");
                         ea_hlsUrl := hlsUrlOf (pr_audioHLSStreams processingResults)
                                        (AudioExtractor.trackIndex audioFile) |})
                   (pr_extractedAudioFiles processingResults))
       else uploadAudioFiles env videoId processingResults
     else mret []);
  Database.updateVideoMetadata videoId (withResults processingResults audioCloudData);;
  (if Js.truthy_str (pr_hlsPath processingResults) && uploaded uploadResult then
     try_catch
       (let hlsDir := Path.dirname (default "" (pr_hlsPath processingResults)) in
        hlsUploadResult ← TelegramService.uploadHLSFiles (telegramService env) hlsDir videoId;
        Database.updateVideoMetadata videoId (withHlsCloudData hlsUploadResult))
       (fun _ => mret tt)
   else mret tt);;
  (if 0 <? Z.of_nat (length (pr_extractedAudioFiles processingResults))
   then AudioExtractor.cleanupAudioFiles (pr_extractedAudioFiles processingResults)
   else mret tt).

(** [video.hlsCloudData?.uploaded] *)
Definition hlsUploaded (video : Video) : bool :=
  match hlsCloudData video with
  | Some r => hls_uploaded r
  | None => false
  end.

(** The cleanup of local files (lines 406-465). *)
Definition cleanupLocalFiles (env : Deployment) (videoId videoPath : string)
    (uploadResult : TelegramData) : M unit :=
  if uploaded uploadResult || forceCleanup env then
    videoExists ← pathExists videoPath;
    (if videoExists : bool then caught (remove videoPath) else mret tt);;
    video ← Database.getVideo videoId;
    match video with
    | None => throw "Cannot read properties of null (reading 'hlsCloudData')"
    | Some video =>
        (if hlsUploaded video || forceCleanup env then
           let videoHlsDir := Path.join [dirname env; "hls"; videoId] in
           hlsExists ← dirExists videoHlsDir;
           if hlsExists : bool then caught (removeTree videoHlsDir) else mret tt
         else mret tt);;
        let audioDir := Path.join [dirname env; "audio"; videoId] in
        audioExists ← dirExists audioDir;
        (if audioExists : bool then caught (removeTree audioDir) else mret tt);;
        let tempDir := Path.join [dirname env; "temp"] in
        modify (set_files (filter (fun kv =>
          negb (String.prefix (tempDir +:+ "/") kv.1
                && Js.includes (Js.dropChars (String.length (tempDir +:+ "/")) kv.1) videoId)
          = true)))
    end
  else mret tt.

(** The callback given to [setImmediate] by the upload endpoint (lines
    155-490): the whole background sequence for one video. *)
Definition backgroundTasks (env : Deployment) (videoId videoPath : string)
    (metadata : VideoProcessor.Metadata) (uploadResult : TelegramData) : M unit :=
  try_catch
    (Database.updateVideoMetadata videoId
       (withStatus (statusOf 0 None None true false []));;
     thumbnail ← generateThumbnail env videoId videoPath;
     match thumbnail with
     | Some data =>
         Database.updateVideoMetadata videoId
           (fun v => withStatus (statusOf 0 None None false false []) (withThumbnail data v))
     | None =>
         Database.updateVideoMetadata videoId
           (withStatus (statusOf 0 None None false false []))
     end;;
     try_catch
       (processVideo env videoId videoPath metadata uploadResult)
       (fun error_ =>
          caught (Database.updateVideoMetadata videoId
                    (withStatus (statusOf 0 None None false false
                                   ["Video processing failed: " +:+ error_]))));;
     cleanupLocalFiles env videoId videoPath uploadResult)
    (fun error_ =>
       caught (Database.updateVideoMetadata videoId
                 (withStatus (statusOf 0 None None false true
                                ["Background processing failed: " +:+ error_])));;
       if uploaded uploadResult || forceCleanup env
       then caught (remove videoPath)
       else mret tt).

End Background.
(* ===================================================================== *)
(** * cleanup_hls.js *)
(* ===================================================================== *)

Module HLSCleanup.
Import Data Rt.

(** The script object; [olderThanDays] is [None] when [parseInt] gave
    [NaN]. *)
Record t := {
  hlsDir : string;
  dataDir : string;
  videosFile : string;
  dryRun : bool;
  force : bool;
  olderThanDays : option Z
}.

(** [argv.indexOf(x)], counting from [i]. *)
Fixpoint indexOf (argv : list string) (x : string) (i : Z) : Z :=
  match argv with
  | [] => -1
  | a :: rest => if String.eqb a x then i else indexOf rest x (i + 1)
  end.

(** [constructor()], on [__dirname] and [process.argv]. *)
Definition constructor (dirname : string) (argv : list string) : t :=
  let olderThanIndex := indexOf argv "--older-than" 0 in
  {| hlsDir := Path.join [dirname; "hls"];
     dataDir := Path.join [dirname; "data"];
     videosFile := Path.join [Path.join [dirname; "data"]; "videos.json"];
     dryRun := bool_decide ("--dry-run" ∈ argv);
     force := bool_decide ("--force" ∈ argv);
     olderThanDays :=
       if -1 <? olderThanIndex
       then match argv !! Z.to_nat (olderThanIndex + 1) with
            | Some days => Js.parseInt days 0
            | None => Some 1
            end
       else Some 1 |}.

(** What [fs.readJson(videosFile)] finds: no file, a file that cannot be
    read or parsed, the JSON value [null], or a JSON object of video
    records. *)
Inductive VideosJson :=
| NoFile
| Unreadable (message : string)
| LoadedNull
| Loaded (videoDatabase : gmap string Video).

(** What the script reads.
    [now]       [Date.now()];
    [hlsTree]   the [hls] directory as [readdir] and [stat] report it,
                [None] when nothing exists at that path;
    [mtime]     the modification time of a path, in milliseconds;
    [videosJson] the content of [data/videos.json]. *)
Record Env := {
  now : Z;
  hlsTree : option FsNode;
  mtime : string -> Z;
  videosJson : VideosJson
}.

(** [getHLSDirectories()]: the entries of [hlsDir] that are directories;
    a [readdir] that rejects is caught and gives the empty list. *)
Definition getHLSDirectories (env : Env) : list string :=
  match hlsTree env with
  | Some (FsDir entries) =>
      omap (fun '(item, node) => match node with FsDir _ => Some item | FsFile _ => None end)
        entries
  | _ => []
  end.

(** [getDirectorySize(dirPath)] on the directory as [readdir] and [stat]
    report it. *)
Fixpoint getDirectorySize (node : FsNode) : Z :=
  match node with
  | FsDir entries =>
      (fix sum (es : list (string * FsNode)) (totalSize : Z) : Z :=
         match es with
         | [] => totalSize
         | (_, FsFile size_) :: rest => sum rest (totalSize + size_)
         | (_, (FsDir _) as sub) :: rest => sum rest (totalSize + getDirectorySize sub)
         end) entries 0
  | FsFile _ => 0
  end.

(** The entry [dir] of the [hls] directory. *)
Definition entryNamed (env : Env) (dir : string) : option FsNode :=
  match hlsTree env with
  | Some (FsDir entries) => snd <$> List.find (fun e => String.eqb (fst e) dir) entries
  | _ => None
  end.

(** The time value of [new Date(t)]: [None], an invalid date, outside
    of the range of 8.64e15 milliseconds around the epoch. *)
Definition timeClip (t : Z) : option Z :=
  if Z.abs t <=? 8640000000000000 then Some t else None.

(** [new Date(Date.now() - this.olderThanDays * 24 * 60 * 60 * 1000)] *)
Definition cutoffDate (self : t) (env : Env) : option Z :=
  days ← olderThanDays self; timeClip (now env - days * 24 * 60 * 60 * 1000).

(** [stats.mtime < cutoffDate]: false when [cutoffDate] is invalid. *)
Definition isOldAt (mtime_ : Z) (cutoff : option Z) : bool :=
  match cutoff with
  | Some c => mtime_ <? c
  | None => false
  end.

(** The names every object inherits from [Object.prototype]. *)
Definition objectPrototypeKeys : list string :=
  ["constructor"; "__defineGetter__"; "__defineSetter__"; "hasOwnProperty";
   "__lookupGetter__"; "__lookupSetter__"; "isPrototypeOf"; "propertyIsEnumerable";
   "toString"; "valueOf"; "__proto__"; "toLocaleString"].

(** [videoDatabase[videoId]]: a record of the file, something inherited
    from [Object.prototype] (truthy, and without [telegramData]), or
    [undefined]. *)
Inductive Property :=
| Own (video : Video)
| Inherited
| Undefined.

Definition getProperty (videoDatabase : gmap string Video) (videoId : string) : Property :=
  match videoDatabase !! videoId with
  | Some video => Own video
  | None => if bool_decide (videoId ∈ objectPrototypeKeys) then Inherited else Undefined
  end.

(** [videoEntry?.telegramData?.uploaded === true] *)
Definition hasValidTelegramUpload (videoEntry : Property) : bool :=
  match videoEntry with
  | Own video => match telegramData video with Some td => uploaded td | None => false end
  | _ => false
  end.

(** [videoEntry?.hlsCloudData?.uploaded === true] *)
Definition hlsUploadedToTelegram (videoEntry : Property) : bool :=
  match videoEntry with
  | Own video => match hlsCloudData video with Some h => hls_uploaded h | None => false end
  | _ => false
  end.

(** Lines 101-120: the value of [shouldCleanup] (the [reason] is only
    logged). *)
Definition shouldCleanup (self : t) (isOld : bool) (videoEntry : Property) : bool :=
  if negb isOld then false
  else if match videoEntry with Undefined => true | _ => false end then true
  else if negb (hasValidTelegramUpload videoEntry) then false
  else if hlsUploadedToTelegram videoEntry then true
  else if force self then true
  else hasValidTelegramUpload videoEntry.

Record Item := {
  path : string;
  videoId : string;
  size : Z
}.

(** The [for (const dir of hlsDirectories)] loop of [run];
    [videoDatabase] is [None] when the variable holds [null]: then
    [videoDatabase[videoId]] throws a [TypeError], which the [catch] of the
    loop body logs, and the directory is passed over. *)
Fixpoint analyseLoop (self : t) (env : Env) (videoDatabase : option (gmap string Video))
    (cutoff : option Z) (hlsDirectories : list string) (toCleanup : list Item) : list Item :=
  match hlsDirectories with
  | [] => toCleanup
  | dir :: rest =>
      let dirPath := Path.join [hlsDir self; dir] in
      let size_ := from_option getDirectorySize 0 (entryNamed env dir) in
      let isOld := isOldAt (mtime env dirPath) cutoff in
      match videoDatabase with
      | None => analyseLoop self env videoDatabase cutoff rest toCleanup
      | Some records =>
          let videoEntry := getProperty records dir in
          if shouldCleanup self isOld videoEntry
          then analyseLoop self env videoDatabase cutoff rest
                 (toCleanup ++ [{| path := dirPath; videoId := dir; size := size_ |}])
          else analyseLoop self env videoDatabase cutoff rest toCleanup
      end
  end.

(** [run()].  The value is the list of the paths given to [fs.remove], in
    order; the console output is not modelled.  When the file holds
    [null], [videoDatabase] is assigned [null] and the
    [Object.keys(videoDatabase)] of the log line throws inside the [try]:
    without [--force] the script stops, with it the script goes on with
    [null]. *)
Definition run (self : t) (env : Env) : list string :=
  if negb (bool_decide (is_Some (hlsTree env))) then []
  else
    let proceed (videoDatabase : option (gmap string Video)) : list string :=
      let hlsDirectories := getHLSDirectories env in
      if Z.of_nat (length hlsDirectories) =? 0 then []
      else
        let toCleanup :=
          analyseLoop self env videoDatabase (cutoffDate self env) hlsDirectories [] in
        if Z.of_nat (length toCleanup) =? 0 then []
        else if dryRun self then []
        else path <$> toCleanup in
    match videosJson env with
    | Loaded videoDatabase => proceed (Some videoDatabase)
    | LoadedNull => if negb (force self) then [] else proceed None
    | Unreadable _ => if negb (force self) then [] else proceed (Some ∅)
    | NoFile => if negb (force self) then [] else proceed (Some ∅)
    end.

End HLSCleanup.

(* ===================================================================== *)
(** * Vocabulary of the statements *)
(* ===================================================================== *)

Section TelegramVocabulary.
Import Rt TelegramService.

(** The [i]-th part (0-based) of a content cut every [c] bytes. *)
Definition chunkOf (data : Bytes) (c i : Z) : Bytes :=
  take (Z.to_nat c) (drop (Z.to_nat (i * c)) data).

(** The files after the chunks with indices [js] have been written. *)
Definition withChunks (svc : t) (data : Bytes) (c : Z) (js : list Z)
    (m : gmap string Bytes) : gmap string Bytes :=
  foldl (fun m j => <[chunkPath svc j := chunkOf data c j]> m) m js.

(** Every remaining send call of the bot succeeds. *)
Definition botAlwaysSucceeds (w : World) : Prop :=
  Forall (fun o => o = None) (botScript w).

(** A small program logic for [M].
    [run I P Q m]: started in a world that satisfies the invariant [I],
    [m] ends in a world that satisfies [I], has appended to the trace only
    events that satisfy [P], and, when it returns normally, returns a value
    that satisfies [Q]. *)
Definition run {A} (I : World -> Prop) (P : Event -> Prop) (Q : A -> Prop) (m : M A) : Prop :=
  forall w, I w ->
    I (m w).2 /\
    (exists tr, trace (m w).2 = trace w ++ tr /\ Forall P tr) /\
    match (m w).1 with Ok a => Q a | Throw _ => True end.

(** The invariant is not disturbed by what the bot and the trace do. *)
Definition stable (I : World -> Prop) : Prop :=
  forall w, I w ->
    (forall e, I (log_event e w)) /\
    (forall s, I (set_botScript s w)) /\
    (forall id content, I (store_object id content w)).

(** Events that only the chunked path produces: preparing the chunk
    directory and sending a part as a document. *)
Definition chunkedPathEvent (e : Event) : Prop :=
  match e with
  | EvSendDocument _ _ | EvEnsureDir _ => True
  | _ => False
  end.

(** Events that only the single-object path produces. *)
Definition singlePathEvent (e : Event) : Prop :=
  match e with
  | EvSendVideo _ _ => True
  | _ => False
  end.

Definition fileIs (path : string) (data : Bytes) (w : World) : Prop :=
  files w !! path = Some data.

(** The upload that [uploadVideo] hands to [uploadWithRetry] for a file of
    the given size. *)
Definition primaryAttempt (svc : t) (videoPath originalName videoId : string)
    (fileSize : Z) : M TelegramData :=
  if gt_opt fileSize (maxFileSize svc)
  then uploadLargeVideoToChannel svc videoPath originalName videoId None (primaryChannelId svc)
  else uploadToChannel svc videoPath originalName videoId None (primaryChannelId svc).

(** [uploadVideo] from the point where the file is known to exist, with
    [attempt] as the upload that is handed to [uploadWithRetry]. *)
Definition uploadVideoWith (svc : t) (attempt : M TelegramData) : M TelegramData :=
  try_catch
    (primaryResult ← uploadWithRetry svc attempt;
     mret (withRedundancy primaryResult (1 + Z.of_nat (length (backupChannelIds svc)))))
    (fun error => mret (notUploadedError error)).

(** The world in which the attempt after a failed attempt [attempt]
    starts: the back-off sleep has been taken. *)
Definition afterBackoff (svc : t) (attempt : Z) (w : World) : World :=
  log_event (EvSleep (delayFor svc attempt)) w.

(** A configured service, a ten-byte upload and the world that holds it. *)
Definition demoService : t :=
  constructor (Some "123456:token") (Some "-1001234567890") [] "/srv/app/temp".

Definition demoData : Bytes :=
  [x01; x02; x03; x04; x05; x06; x07; x08; x09; x0a].

Definition demoWorld (script : list (option string)) : World :=
  {| files := {[ "/srv/app/uploads/clip.mp4" := demoData ]};
     trees := ∅; cloud := ∅; nextMessage := 0%N;
     botScript := script; ffmpegScript := []; db := ∅; dbScript := []; trace := [] |}.

(** A service whose per-object limit is four bytes. *)
Definition tinyLimitService : t :=
  {| botToken := Some "123456:token"; primaryChannelId := Some "-1001234567890";
     backupChannelIds := []; bot := true; maxFileSize := Some 4;
     maxRetries := Some 3; retryDelay := Some 5000; tempDir := "/srv/app/temp" |}.

(** The number of elements of [l] that satisfy [p]. *)
Definition countb {A} (p : A -> bool) (l : list A) : nat :=
  length (List.filter p l).

(** A send of a document. *)
Definition isSend (e : Event) : bool :=
  match e with EvSendDocument _ _ => true | _ => false end.

(** The pause between two batches: [sleep(3000)]. *)
Definition isBatchDelay (e : Event) : bool :=
  match e with EvSleep (Some ms) => ms =? 3000 | _ => false end.

(** The back-off after a rate-limit signal: [sleep(45000)]. *)
Definition isBackoff (e : Event) : bool :=
  match e with EvSleep (Some ms) => ms =? 45000 | _ => false end.

(** The outcome of a send call is a rate-limit signal. *)
Definition rateLimited (o : option string) : bool :=
  match o with Some msg => isRateLimit msg | None => false end.

(** The events [tr] consumed the script [s] down to [s'], and took one
    back-off per rate-limit signal. *)
Definition accounts (s : list (option string)) (tr : list Event) (s' : list (option string)) : Prop :=
  s' = drop (countb isSend tr) s /\
  countb isBackoff tr = countb rateLimited (take (countb isSend tr) s).

(** The send of [file] occurs in [tr], after [k] inter-batch pauses. *)
Definition sentAfterPauses (svc : t) (tr : list Event) (file : HlsFile) (k : nat) : Prop :=
  exists pre post,
    tr = pre ++ EvSendDocument (primaryChannelId svc) (relativePath file) :: post /\
    countb isBatchDelay pre = k.

Definition hlsEvent (e : Event) : Prop :=
  isSend e = true \/ isBatchDelay e = true \/ isBackoff e = true.

(** A world whose HLS directory holds a master playlist and one rendition
    with three segments (and a stray text file). *)
Definition hlsDemoWorld (script : list (option string)) : World :=
  {| files := {[ "/srv/app/hls/v1/playlist.m3u8" := [x23];
                 "/srv/app/hls/v1/720p/playlist.m3u8" := [x23];
                 "/srv/app/hls/v1/720p/segment_000.ts" := [x47];
                 "/srv/app/hls/v1/720p/segment_001.ts" := [x47];
                 "/srv/app/hls/v1/720p/segment_002.ts" := [x47] ]};
     trees := {[ "/srv/app/hls/v1" :=
                   FsDir [("720p", FsDir [("notes.txt", FsFile 1);
                                          ("playlist.m3u8", FsFile 1);
                                          ("segment_000.ts", FsFile 1);
                                          ("segment_001.ts", FsFile 1);
                                          ("segment_002.ts", FsFile 1)]);
                          ("playlist.m3u8", FsFile 1)] ]};
     cloud := ∅; nextMessage := 0%N;
     botScript := script; ffmpegScript := []; db := ∅; dbScript := []; trace := [] |}.

(** A world whose HLS directory holds 101 segments. *)
Definition hlsCrowdedWorld : World :=
  {| files := ∅;
     trees := {[ "/srv/app/hls/v2" :=
                   FsDir (map (fun i => ("segment_" +:+ pretty i +:+ ".ts", FsFile 1))
                              (seqZ 0 101)) ]};
     cloud := ∅; nextMessage := 0%N;
     botScript := []; ffmpegScript := []; db := ∅; dbScript := []; trace := [] |}.

End TelegramVocabulary.


Section AudioVocabulary.
Import Rt VideoProcessor.

(** An audio stream as the probe reports it. *)
Definition demoTrack (lang name : string) : AudioStream :=
  {| a_index := None; a_codec := Some "ac3"; a_channels := Some 6;
     a_sampleRate := Some 48000; a_language := Some lang; a_title := Some name |}.

(** A world in which the first [ffmpeg] run writes three bytes and the
    second one fails. *)
Definition audioDemoWorld : World :=
  {| files := {[ "/srv/app/uploads/clip.mp4" := [x00; x00; x00; x18] ]};
     trees := ∅; cloud := ∅; nextMessage := 0%N; botScript := [];
     ffmpegScript := [FfWrites [xff; xf1; x50]; FfFails "ffmpeg exited with code 1: Stream map '0:a:1' matches no streams."];
     db := ∅; dbScript := []; trace := [] |}.

End AudioVocabulary.

Section ServerVocabulary.
Import Rt Server.

(** A decimal digit. *)
Definition isDigit (c : ascii) : bool :=
  let n := nat_of_ascii c in ((48 <=? n) && (n <=? 57))%nat.

(** A string of decimal digits. *)
Fixpoint allDigits (s : string) : bool :=
  match s with
  | EmptyString => true
  | String c rest => isDigit c && allDigits rest
  end.

(** The number written by the digits of [s] after those that gave [acc]. *)
Fixpoint valAcc (acc : Z) (s : string) : Z :=
  match s with
  | EmptyString => acc
  | String c rest => valAcc (acc * 10 + default 0 (Js.digitValue c)) rest
  end.

(** The [Range] header [bytes=start-end]. *)
Definition rangeHeader (start end_ : Z) : string :=
  "bytes=" +:+ pretty start +:+ "-" +:+ pretty end_.

(** A video that was uploaded to the cloud as a single object. *)
Definition cloudVideo : Video :=
  {| originalName := "clip.mp4"; videoSize := 1000;
     telegramData := Some {| uploaded := true; reason := None; error := None;
                             channelId := Some "-1001234567890"; messageId := Some 7%N;
                             fileId := Some 7%N; fileUniqueId := Some 7%N; size := Some 1000;
                             uploadMethod := Some single; totalChunks := None; chunks := [];
                             checksum := None; redundancy := Some 1 |};
     cloudThumbnail := None; streamingMethod := Some "cloud"; hlsPlaylist := None;
     videoOnlyHLS := None; hasMultiAudio := None; extractedAudioFiles := None;
     hlsCloudData := None; processingStatus := None |}.

(** The metadata store holds [video] under the id [v1]. *)
Definition storeWorld (video : Video) : World :=
  {| files := ∅; trees := ∅; cloud := ∅; nextMessage := 0%N; botScript := [];
     ffmpegScript := []; db := {[ "v1" := video ]}; dbScript := []; trace := [] |}.

(** A cloud stream of 1000 bytes. *)
Definition thousandBytes (ranges : bool) : StreamData :=
  {| contentType := "video/mp4"; acceptsRanges := ranges; contentLength := 1000;
     range := None; failsBeforeData := false |}.

(** A streaming service that always delivers [sd]. *)
Definition alwaysStreams (sd : StreamData) : StreamVideo :=
  fun _ _ _ => mret sd.

(** [file] is [dir] itself or lies below it. *)
Definition insideDir (dir file : string) : bool :=
  String.eqb file dir || Js.startsWith file (dir +:+ "/").

(** A video that was processed into HLS and kept locally. *)
Definition hlsVideo : Video :=
  {| originalName := "clip.mp4"; videoSize := 1000; telegramData := None;
     cloudThumbnail := None; streamingMethod := Some "adaptive";
     hlsPlaylist := Some "/srv/app/hls/7c9e6679-7425-40de-944b-e07fc1f90ae7/playlist.m3u8";
     videoOnlyHLS := None; hasMultiAudio := Some false; extractedAudioFiles := Some [];
     hlsCloudData := None; processingStatus := None |}.

(** The HLS directory of the video, and beside it a directory whose name
    starts with the video's id. *)
Definition hlsGuardWorld : World :=
  {| files := {[ "/srv/app/hls/7c9e6679-7425-40de-944b-e07fc1f90ae7/playlist.m3u8" := [x23];
                 "/srv/app/hls/7c9e6679-7425-40de-944b-e07fc1f90ae7.bak/playlist.m3u8" := [x2a] ]};
     trees := ∅; cloud := ∅; nextMessage := 0%N; botScript := []; ffmpegScript := [];
     db := {[ "7c9e6679-7425-40de-944b-e07fc1f90ae7" := hlsVideo ]};
     dbScript := []; trace := [] |}.

(** The playlist that the audio endpoint looks for on disk. *)
Definition localTrackPlaylist (dirname videoId trackIndex : string) : string :=
  Path.join [Path.join [dirname; "hls"; videoId; "audio";
                        "track_" +:+ Js.showNum (Js.parseInt trackIndex 0)];
             "playlist.m3u8"].

(** A multi-audio video whose main manifest exists and whose only
    extracted track (index 0) has neither a cloud copy nor an HLS url. *)
Definition multiAudioVideo : Video :=
  {| originalName := "film.mkv"; videoSize := 1000; telegramData := None;
     cloudThumbnail := None; streamingMethod := Some "multi-audio-adaptive";
     hlsPlaylist := Some "/srv/app/hls/v1/playlist.m3u8";
     videoOnlyHLS := Some "/srv/app/hls/v1/video-only/playlist.m3u8";
     hasMultiAudio := Some true;
     extractedAudioFiles :=
       Some [{| ea_trackIndex := 0; ea_fileName := "v1_eng_main_track0.aac";
                ea_telegramData := None; ea_hlsUrl := None |}];
     hlsCloudData := None; processingStatus := None |}.

(** A streaming service that is never reached in the examples. *)
Definition neverStreams : StreamVideo :=
  fun _ _ _ => throw "cloud stream unavailable".

End ServerVocabulary.

Section BackgroundVocabulary.
Import Rt Background.

(** A deployment in [/srv/app] whose multi-audio collaborators are not
    reached by single-audio uploads. *)
Definition demoDeployment : Deployment :=
  {| dirname := "/srv/app"; forceCleanup := false; telegramService := demoService;
     processMultiAudioVideo := fun _ _ _ _ => throw "multi-audio processing is not reached";
     uploadAudioFiles := fun _ _ => throw "audio uploads are not reached" |}.

(** A source with one audio track and a video stream of the given height. *)
Definition singleAudioSource (h : Z) : VideoProcessor.Metadata :=
  {| VideoProcessor.video :=
       Some {| VideoProcessor.v_codec := Some "h264";
               VideoProcessor.v_width := Some (h * 4 / 3);
               VideoProcessor.v_height := Some h |};
     VideoProcessor.audio := [demoTrack "eng" "Main"] |}.

(** The record that the upload endpoint saves before it starts the
    background task. *)
Definition savedVideo (uploadResult : TelegramData) : Video :=
  {| originalName := "clip.mp4"; videoSize := 10; telegramData := Some uploadResult;
     cloudThumbnail := None; streamingMethod := Some "cloud"; hlsPlaylist := None;
     videoOnlyHLS := None; hasMultiAudio := None; extractedAudioFiles := None;
     hlsCloudData := None;
     processingStatus := Some (statusOf 0 None None false false []) |}.

(** The result of a successful single-object upload. *)
Definition uploadedSingle : TelegramData :=
  {| uploaded := true; reason := None; error := None;
     channelId := Some "-1001234567890"; messageId := Some 0%N; fileId := Some 0%N;
     fileUniqueId := Some 0%N; size := Some 10; uploadMethod := Some single;
     totalChunks := None; chunks := []; checksum := None; redundancy := Some 1 |}.

(** The world when the background task starts: the upload is on disk, the
    record is in the store, and [ffmpeg] will behave as scripted. *)
Definition jobWorld (ffmpeg : list FfmpegOutcome) (store : list (option string)) : World :=
  {| files := {[ "/srv/app/uploads/clip.mp4" := demoData ]};
     trees := ∅; cloud := ∅; nextMessage := 1%N; botScript := [];
     ffmpegScript := ffmpeg;
     db := {[ "v1" := savedVideo uploadedSingle ]};
     dbScript := store; trace := [] |}.

(** The processing status stored for [v1]. *)
Definition statusIn (w : World) : option ProcessingStatus :=
  match db w !! "v1" with
  | Some v => processingStatus v
  | None => None
  end.

End BackgroundVocabulary.

(* ===================================================================== *)
(** * Vocabulary of the further properties *)
(* ===================================================================== *)

Section RoundTripVocabulary.
Import Rt TelegramService.

(** The record [td] refers to objects of the store that make up [data]:
    one object for a single upload, the parts in order for a chunked
    one. *)
Definition restorable (td : TelegramData) (data : Bytes) (w : World) : Prop :=
  match uploadMethod td with
  | Some single => exists id, fileId td = Some id /\ cloud w !! id = Some data
  | Some chunked =>
      exists slices,
        Forall2 (fun info sl => cloud w !! c_fileId info = Some sl) (chunks td) slices /\
        concat slices = data
  | _ => False
  end.

(** [m], started in a world that satisfies [I], ends in a world that
    satisfies [I] and whose store holds at least the objects it held, and
    when it returns normally its result satisfies [Q] in the final world. *)
Definition grows {A} (I : World -> Prop) (Q : A -> World -> Prop) (m : M A) : Prop :=
  forall w, I w ->
    I (m w).2 /\ cloud w ⊆ cloud (m w).2 /\
    match (m w).1 with Ok a => Q a (m w).2 | Throw _ => True end.

(** An upload in parts whose first send fails: the attempt is given up
    and the second attempt goes through. *)
Definition flakyUpload : Res TelegramData * World :=
  uploadVideo tinyLimitService "/srv/app/uploads/clip.mp4" "clip.mp4" "v1"
    (demoWorld [Some "ETIMEDOUT"]).

End RoundTripVocabulary.

Section MaintenanceVocabulary.
Import Rt TelegramService.

(** A [deleteMessage] that rejects a call without chat id, as the Bot API
    does, and records nothing. *)
Definition strictDeleteMessage : DeleteMessage :=
  fun chatId _ =>
    match chatId with
    | Some _ => mret tt
    | None => throw "ETELEGRAM: 400 Bad Request: chat_id is empty"
    end.

(** The record of a file that went to the cloud as one object. *)
Definition singleRecord : TelegramData :=
  {| uploaded := true; reason := None; error := None;
     channelId := Some "-1001234567890"; messageId := Some 7%N;
     fileId := Some 7%N; fileUniqueId := Some 7%N; size := Some 1000;
     uploadMethod := Some single; totalChunks := None; chunks := [];
     checksum := None; redundancy := Some 1 |}.

(** A [getChat] that knows the chats in [known]. *)
Definition getChatOf (known : list string) : GetChat :=
  fun channel =>
    match channel with
    | Some c =>
        if bool_decide (c ∈ known)
        then mret {| chat_title := Some ("Channel " +:+ c); chat_type := Some "channel" |}
        else throw "ETELEGRAM: 400 Bad Request: chat not found"
    | None => throw "ETELEGRAM: 400 Bad Request: chat_id is empty"
    end.

(** An upload during which every send succeeds. *)
Definition cleanUpload : Res TelegramData * World :=
  uploadVideo demoService "/srv/app/uploads/clip.mp4" "clip.mp4" "v1" (demoWorld []).

(** A configured service with two backup channels. *)
Definition backedUpService : t :=
  constructor (Some "123456:token") (Some "-1001234567890")
    ["-1002222222222"; "-1003333333333"] "/srv/app/temp".

(** The metadata store and its script are those of [w0]. *)
Definition sameStore (w0 w : World) : Prop := db w = db w0 /\ dbScript w = dbScript w0.

(** What the replication records for one backup channel: the channel's
    id, and either a successful upload or the error of the failed one. *)
Definition backupResultFor (channel : string) (r : TelegramData) : Prop :=
  channelId r = Some channel /\
  (uploaded r = true \/ uploaded r = false /\ is_Some (error r)).

End MaintenanceVocabulary.

Section HlsResultsVocabulary.
Import Rt TelegramService.

(** What the entry [r] of [uploadResults] says about the file [f], in a
    world whose store is [w]'s and whose files were [fs] when the upload
    started: it carries the file's relative path, and either it is marked
    uploaded and the store holds the file's bytes under its [fileId], or it
    is marked not uploaded and carries an error message. *)
Definition resultOf (fs : gmap string Bytes) (w : World) (f : HlsFile) (r : HlsUploadResult) : Prop :=
  r_relativePath r = relativePath f /\
  if r_uploaded r
  then exists id content,
         r_fileId r = Some id /\ fs !! fullPath f = Some content /\
         cloud w !! id = Some content
  else is_Some (r_error r).

(** The same for an entry that may be missing. *)
Definition resultOfOpt (fs : gmap string Bytes) (w : World) (f : HlsFile)
    (o : option HlsUploadResult) : Prop :=
  match o with Some r => resultOf fs w f r | None => True end.

End HlsResultsVocabulary.

Section HlsListingVocabulary.
Import Rt TelegramService.

(** In the listing [entries], the names [path] lead from the top to a
    regular file called [name] of [size] bytes. *)
Inductive fileAt : list (string * FsNode) -> list string -> string -> Z -> Prop :=
| fileAt_here (entries : list (string * FsNode)) (name : string) (size : Z) :
    In (name, FsFile size) entries -> fileAt entries [name] name size
| fileAt_below (entries sub : list (string * FsNode)) (d : string)
      (path : list string) (name : string) (size : Z) :
    In (d, FsDir sub) entries -> fileAt sub path name size ->
    fileAt entries (d :: path) name size.

(** The file name has one of the two extensions that are uploaded. *)
Definition isHlsName (name : string) : bool :=
  Js.endsWith name ".m3u8" || Js.endsWith name ".ts".

(** The element of [hlsFiles] for the file reached by [path] below the
    directory [dir]: the names on the way are joined on one after the
    other with [path.join], to [dir] for the full path and to [''] for the
    relative path. *)
Definition hlsFileAt (dir : string) (path : list string) (size : Z) : HlsFile :=
  {| fullPath := foldl joinName dir path;
     relativePath := foldl joinName "" path;
     h_size := size |}.

(** A name as [readdir] reports it: not empty, without separator, and
    neither [.] nor [..]. *)
Definition plainName (name : string) : Prop :=
  name <> "" /\ name <> "." /\ name <> ".." /\ Js.includes name "/" = false.

(** A directory path that [path.normalize] leaves as it is and that ends
    in a name. *)
Definition normalisedDir (dir : string) : Prop :=
  Path.normalize dir = dir /\ Path.lastIsSlash dir = false /\ dir <> ".".

(** A directory with a master playlist and one rendition. *)
Definition demoListing : list (string * FsNode) :=
  [("720p", FsDir [("notes.txt", FsFile 1); ("segment_001.ts", FsFile 1)]);
   ("playlist.m3u8", FsFile 1)].

End HlsListingVocabulary.

Section AudioFilesVocabulary.
Import Rt VideoProcessor AudioExtractor.

(** A character that [sanitize] produces: a lower-case letter, a digit or
    an underscore. *)
Definition isSafeChar (c : ascii) : bool :=
  let n := nat_of_ascii c in
  ((48 <=? n) && (n <=? 57) || (97 <=? n) && (n <=? 122) || (n =? 95))%nat.

(** Every character of [s] satisfies [p]. *)
Fixpoint allChars (p : ascii -> bool) (s : string) : bool :=
  match s with
  | EmptyString => true
  | String c rest => p c && allChars p rest
  end.

(** The [ffmpeg] runs of the loop of [extractAudioTracks] from index [i]
    on: one per track, whatever the outcome of the runs before. *)
Fixpoint audioRuns (videoPath videoId audioDir : string) (rest : list AudioStream) (i : Z)
    : list Event :=
  match rest with
  | [] => []
  | track :: rest' =>
      let trackIndex_ := Js.or_num (a_index track) i in
      EvFfmpeg videoPath (Path.join [audioDir; generateAudioFileName videoId trackIndex_ track])
        trackIndex_
      :: audioRuns videoPath videoId audioDir rest' (i + 1)
  end.

(** What holds of an element of the list that [extractAudioTracks]
    returns. *)
Definition extractedFrom (videoId audioDir : string) (tracks : list AudioStream)
    (info : AudioFileInfo) : Prop :=
  0 < fileSize info /\
  codec info = "aac" /\
  originalTrackInfo info ∈ tracks /\
  fileName info = generateAudioFileName videoId (trackIndex info) (originalTrackInfo info) /\
  filePath info = Path.join [audioDir; fileName info].

(** [x] is not the character [c]. *)
Definition notChar (c x : ascii) : bool := negb (Ascii.eqb x c).

End AudioFilesVocabulary.

Section HlsConversionVocabulary.
Import Rt VideoProcessor.




(** A progress callback that never rejects and touches neither the files
    nor the queue of encoder runs. *)
Definition quietCallback (callback : ProgressCallback) : Prop :=
  forall percent stage quality w,
    exists w', callback percent stage quality w = (Ok tt, w') /\
               files w' = files w /\ ffmpegScript w' = ffmpegScript w.



End HlsConversionVocabulary.

Section BackgroundStatusVocabulary.
Import Rt Background.

(** [m] touches neither the metadata store nor its script. *)
Definition leavesStore {A} (m : M A) : Prop :=
  forall w, db (m w).2 = db w /\ dbScript (m w).2 = dbScript w.

(** The metadata store answers every call, and holds a record for
    [videoId]. *)
Definition storeReady (videoId : string) (w : World) : Prop :=
  dbScript w = [] /\ is_Some (db w !! videoId).

(** The metadata store answers every call, and the processing status of
    [videoId] is [status]. *)
Definition statusIs (videoId : string) (status : ProcessingStatus) (w : World) : Prop :=
  dbScript w = [] /\
  exists video, db w !! videoId = Some video /\ processingStatus video = Some status.

(** The status written when processing has succeeded. *)
Definition completedStatus : ProcessingStatus :=
  statusOf 100 (Some "Processing complete") None false true [].

(** The status written by the handler of the processing step. *)
Definition failedStatus (message : string) : ProcessingStatus :=
  statusOf 0 None None false false ["Video processing failed: " +:+ message].

(** The temporary file of the thumbnail step. *)
Definition thumbnailFile (env : Deployment) (videoId : string) : string :=
  Path.join [dirname env; "temp"; videoId +:+ "_thumb.jpg"].

(** [m] keeps [J]. *)
Definition keeps {A} (J : World -> Prop) (m : M A) : Prop :=
  forall w, J w -> J (m w).2.

(** [J] reads the metadata store only. *)
Definition readsStoreOnly (J : World -> Prop) : Prop :=
  forall w w', db w' = db w -> dbScript w' = dbScript w -> J w -> J w'.

(** Started where [J] holds, [m] returns normally a value that satisfies
    [Q], where [J] holds again. *)
Definition returns {A} (J : World -> Prop) (Q : A -> Prop) (m : M A) : Prop :=
  forall w, J w -> exists a w', m w = (Ok a, w') /\ J w' /\ Q a.

End BackgroundStatusVocabulary.

Section StreamEdgesVocabulary.
Import Rt Server.

(** The [Range] header [bytes=start-]: from [start] to the end. *)
Definition openRangeHeader (start : Z) : string := "bytes=" +:+ pretty start +:+ "-".

(** The [Range] header [bytes=-n]: the last [n] bytes. *)
Definition suffixRangeHeader (n : Z) : string := "bytes=-" +:+ pretty n.

(** A video whose upload to the cloud failed and that was processed into
    HLS. *)
Definition localOnlyVideo : Video :=
  {| originalName := "clip.mp4"; videoSize := 1000;
     telegramData := Some (notUploadedError "ETELEGRAM: 413 Request Entity Too Large");
     cloudThumbnail := None; streamingMethod := Some "adaptive";
     hlsPlaylist := Some "/srv/app/hls/v1/playlist.m3u8";
     videoOnlyHLS := None; hasMultiAudio := Some false; extractedAudioFiles := Some [];
     hlsCloudData := None; processingStatus := None |}.

End StreamEdgesVocabulary.

Section CleanupVocabulary.
Import Data Rt HLSCleanup.

(** What [videoDatabase] holds when the script looks at the directories:
    the records of the file, no record when there is no file or it could
    not be read, and [None] for [null], when the file holds [null]. *)
Definition recordsOf (env : Env) : option (gmap string Video) :=
  match videosJson env with
  | Loaded videoDatabase => Some videoDatabase
  | LoadedNull => None
  | _ => Some ∅
  end.

(** The script goes on to look at the directories: the file of records
    was read as an object of records, or [--force] was given. *)
Definition pastDatabaseGate (self : t) (env : Env) : Prop :=
  force self = true \/ exists videoDatabase, videosJson env = Loaded videoDatabase.

(** [dir] is a directory directly under [hls]. *)
Definition hlsSubdirectory (env : Env) (dir : string) : Prop :=
  exists entries sub, hlsTree env = Some (FsDir entries) /\ (dir, FsDir sub) ∈ entries.

(** The directory of [dir] was last modified before the cut-off date. *)
Definition olderThanCutoff (self : t) (env : Env) (dir : string) : Prop :=
  exists cutoff, cutoffDate self env = Some cutoff /\
                 mtime env (Path.join [hlsDir self; dir]) < cutoff.

(** [videoDatabase] is not [null], and [dir] has no record in it, or the
    record of a video uploaded to the cloud. *)
Definition orphanedOrBackedUp (env : Env) (dir : string) : Prop :=
  exists records,
    recordsOf env = Some records /\
    (getProperty records dir = Undefined \/
     hasValidTelegramUpload (getProperty records dir) = true).

(** Two old directories and a file under [hls], with a file of records
    that holds no record. *)
Definition cleanupDemoEnv : Env :=
  {| now := 1700000000000;
     hlsTree := Some (FsDir [("v1", FsDir [("playlist.m3u8", FsFile 120)]);
                             ("v2", FsDir [("playlist.m3u8", FsFile 80)]);
                             ("notes.txt", FsFile 10)]);
     mtime := fun _ => 1600000000000;
     videosJson := Loaded ∅ |}.

End CleanupVocabulary.

Section BackgroundFilesVocabulary.
Import Rt Background.

(** What is stored at [path]: the content [o], or nothing. *)
Definition fileState (path : string) (o : option Bytes) (w : World) : Prop :=
  files w !! path = o.

(** When [m] returns normally, [Q] holds of the world it ends in. *)
Definition onReturn {A} (Q : World -> Prop) (m : M A) : Prop :=
  forall w, match (m w).1 with Ok _ => Q (m w).2 | Throw _ => True end.


End BackgroundFilesVocabulary.

(* ===================================================================== *)
(** * Theorems *)
(* ===================================================================== *)

Section QualityLadder.
Import VideoProcessor.

Lemma In_levels_cases (q : Quality) :
  In q levels <-> q = q1080 \/ q = q720 \/ q = q480 \/ q = q360.
Proof.
  unfold levels; simpl; split; intros H.
  - destruct H as [H|[H|[H|[H|[]]]]]; auto.
  - destruct H as [H|[H|[H|H]]]; auto 6.
Qed.

Lemma getQualityLevels_filter_spec (metadata : Metadata) (q : Quality) :
  In q (getQualityLevels metadata) <->
  In q levels /\ height q <= Js.or_num (videoHeight metadata) 720.
Proof.
  unfold getQualityLevels. rewrite filter_In, Z.leb_le. reflexivity.
Qed.

(** C4, as stated, fails: a source whose probed height is 0 is treated
    as a 720-line source, so the ladder contains 720p although 720
    exceeds the source height. *)
Lemma getQualityLevels_zero_height_counterexample :
  videoHeight (sourceOfHeight 0) = Some 0 /\
  In q720 (getQualityLevels (sourceOfHeight 0)) /\
  ~ (height q720 <= 0).
Proof.
  split; [reflexivity|]. split.
  - vm_compute. auto.
  - vm_compute. intros H. apply H. reflexivity.
Qed.

(** C4 (amended): for a source whose metadata carries a non-zero video
    height [h], the ladder is exactly the candidate entries whose height
    does not exceed [h]; when the height is missing or zero the ladder is
    the one of the default height 720. *)
Theorem getQualityLevels_ladder (metadata : Metadata) :
  (forall h, videoHeight metadata = Some h -> h <> 0 ->
     forall q, In q (getQualityLevels metadata) <-> In q levels /\ height q <= h) /\
  (videoHeight metadata = None \/ videoHeight metadata = Some 0 ->
     getQualityLevels metadata = [q720; q480; q360]).
Proof.
  split.
  - intros h Hh Hnz q. rewrite getQualityLevels_filter_spec, Hh. simpl.
    destruct (Z.eqb_spec h 0) as [->|_]; [contradiction|reflexivity].
  - intros [H|H]; unfold getQualityLevels; rewrite H; reflexivity.
Qed.

Lemma getQualityLevels_ladder_witness :
  (forall q, In q (getQualityLevels (sourceOfHeight 480)) <->
             In q levels /\ height q <= 480) /\
  getQualityLevels sourceWithoutVideo = [q720; q480; q360].
Proof.
  split.
  - apply (proj1 (getQualityLevels_ladder (sourceOfHeight 480)) 480).
    + reflexivity.
    + lia.
  - apply (proj2 (getQualityLevels_ladder sourceWithoutVideo)).
    left. reflexivity.
Defined.

Example getQualityLevels_480 :
  getQualityLevels (sourceOfHeight 480) = [q480; q360].
Proof. reflexivity. Qed.

End QualityLadder.
(* ===================================================================== *)
(** * The chunked object-store adapter *)
(* ===================================================================== *)

Section TelegramProofs.
Import Rt TelegramService.

Lemma bind_ok {A B} (m : M A) (f : A -> M B) w a w' :
  m w = (Ok a, w') -> (m ≫= f) w = f a w'.
Proof. intros H. unfold mbind, M_bind. rewrite H. reflexivity. Qed.

Lemma bind_throw {A B} (m : M A) (f : A -> M B) w e w' :
  m w = (Throw e, w') -> (m ≫= f) w = (Throw e, w').
Proof. intros H. unfold mbind, M_bind. rewrite H. reflexivity. Qed.

Lemma readRange_take_drop (content : Bytes) (pos start end_ : Z) :
  readRange content pos start end_ =
  take (Z.to_nat (end_ + 1 - Z.max start pos)) (drop (Z.to_nat (start - pos)) content).
Proof.
  revert pos. induction content as [|b rest IH]; intros pos; simpl.
  - rewrite drop_nil, take_nil. reflexivity.
  - rewrite IH.
    destruct (Z.leb_spec start pos) as [Hs|Hs]; simpl.
    + replace (Z.to_nat (start - pos)) with 0%nat by lia.
      replace (Z.to_nat (start - (pos + 1))) with 0%nat by lia.
      rewrite !drop_0.
      destruct (Z.leb_spec pos end_) as [He|He].
      * replace (Z.to_nat (end_ + 1 - Z.max start pos))
          with (S (Z.to_nat (end_ + 1 - Z.max start (pos + 1)))) by lia.
        reflexivity.
      * replace (Z.to_nat (end_ + 1 - Z.max start pos)) with 0%nat by lia.
        replace (Z.to_nat (end_ + 1 - Z.max start (pos + 1))) with 0%nat by lia.
        reflexivity.
    + replace (Z.to_nat (start - pos)) with (S (Z.to_nat (start - (pos + 1)))) by lia.
      simpl. f_equal; lia.
Qed.

Lemma readRange_chunkOf (data : Bytes) (c i : Z) :
  0 < c -> 0 <= i ->
  readRange data 0 (i * c) (Z.min (i * c + c) (Z.of_nat (length data)) - 1) = chunkOf data c i.
Proof.
  intros Hc Hi. rewrite readRange_take_drop. unfold chunkOf.
  rewrite Z.sub_0_r.
  assert (0 <= i * c) by lia.
  replace (Z.max (i * c) 0) with (i * c) by lia.
  set (d := drop (Z.to_nat (i * c)) data).
  assert (Hd : length d = (length data - Z.to_nat (i * c))%nat) by (subst d; apply length_drop).
  destruct (Z.le_gt_cases (i * c + c) (Z.of_nat (length data))) as [Hle|Hgt].
  - f_equal. lia.
  - rewrite (take_ge d (Z.to_nat c)) by lia.
    apply take_ge. lia.
Qed.

Lemma concat_chunks (data : Bytes) (c : Z) (n : nat) :
  0 < c ->
  concat (map (chunkOf data c) (seqZ 0 (Z.of_nat n))) = take (n * Z.to_nat c) data.
Proof.
  intros Hc. induction n as [|n IH].
  - reflexivity.
  - rewrite seqZ_S, map_app, concat_app, IH. simpl. rewrite app_nil_r.
    unfold chunkOf.
    replace (Z.to_nat ((0 + Z.of_nat n) * c)) with (n * Z.to_nat c)%nat by lia.
    rewrite take_take_drop. f_equal. lia.
Qed.

Lemma numChunksOf_bounds (len c : Z) :
  0 < c -> 0 <= len ->
  0 <= numChunksOf len c /\ (numChunksOf len c - 1) * c < len <= numChunksOf len c * c
  \/ (len = 0 /\ numChunksOf len c = 0).
Proof.
  intros Hc Hl. unfold numChunksOf, Js.ceil_div.
  pose proof (Z.div_mod (- len) c ltac:(lia)) as Hdm.
  pose proof (Z.mod_pos_bound (- len) c Hc) as Hm.
  destruct (Z.eq_dec len 0) as [->|Hne].
  - right. split; [reflexivity|]. simpl. rewrite Z.div_0_l by lia. reflexivity.
  - left. nia.
Qed.

Lemma concat_all_chunks (data : Bytes) (c : Z) :
  0 < c ->
  concat (map (chunkOf data c) (seqZ 0 (numChunksOf (Z.of_nat (length data)) c))) = data.
Proof.
  intros Hc.
  destruct (numChunksOf_bounds (Z.of_nat (length data)) c Hc ltac:(lia)) as [[H0 [H1 H2]]|[Hl Hn]].
  - rewrite <- (Z2Nat.id _ H0). rewrite concat_chunks by assumption.
    apply take_ge. nia.
  - rewrite Hn. simpl. destruct data; [reflexivity|simpl in Hl; lia].
Qed.

Lemma str_app_cons (a : ascii) (s t : string) : String a s +:+ t = String a (s +:+ t).
Proof. reflexivity. Qed.

Lemma str_app_nil_l (t : string) : "" +:+ t = t.
Proof. reflexivity. Qed.

Lemma str_app_assoc (s t u : string) : (s +:+ t) +:+ u = s +:+ (t +:+ u).
Proof. induction s as [|a s IH]; [reflexivity|]. rewrite !str_app_cons, IH. reflexivity. Qed.

Lemma str_length_app (s t : string) :
  String.length (s +:+ t) = (String.length s + String.length t)%nat.
Proof. induction s as [|a s IH]; [reflexivity|]. rewrite str_app_cons. simpl. rewrite IH. reflexivity. Qed.

Lemma str_app_inj_r (s1 s2 t : string) : s1 +:+ t = s2 +:+ t -> s1 = s2.
Proof.
  revert s2. induction s1 as [|a s1 IH]; intros [|b s2] H.
  - reflexivity.
  - apply (f_equal String.length) in H.
    rewrite str_app_cons, str_app_nil_l in H. simpl in H.
    rewrite str_length_app in H. lia.
  - apply (f_equal String.length) in H.
    rewrite str_app_cons, str_app_nil_l in H. simpl in H.
    rewrite str_length_app in H. lia.
  - rewrite !str_app_cons in H. injection H as -> H. f_equal. apply IH, H.
Qed.

Lemma str_prefix_app (p x : string) : String.prefix p (p +:+ x) = true.
Proof.
  induction p as [|a p IH].
  - destruct x; reflexivity.
  - rewrite str_app_cons. simpl. destruct (ascii_dec a a); [exact IH|contradiction].
Qed.

Lemma chunkPath_inj (svc : t) (i j : Z) : chunkPath svc i = chunkPath svc j -> i = j.
Proof.
  unfold chunkPath. intros H.
  apply (inj (String.append (tempDir svc))) in H.
  rewrite !str_app_cons, !str_app_nil_l in H.
  injection H as H. apply str_app_inj_r in H.
  apply (inj pretty) in H. exact H.
Qed.

Lemma chunkPath_outside (svc : t) (videoPath : string) (i : Z) :
  String.prefix (tempDir svc +:+ "/") videoPath = false ->
  chunkPath svc i <> videoPath.
Proof.
  intros Hp Heq. unfold chunkPath in Heq.
  rewrite <- str_app_assoc in Heq. rewrite <- Heq, str_prefix_app in Hp.
  discriminate.
Qed.

Lemma withChunks_lookup_other (svc : t) data c js m p :
  (forall j, j ∈ js -> chunkPath svc j <> p) ->
  withChunks svc data c js m !! p = m !! p.
Proof.
  unfold withChunks. revert m. induction js as [|j js IH]; intros m H; [reflexivity|].
  simpl. rewrite IH.
  - apply lookup_insert_ne. apply H. left.
  - intros j' Hj'. apply H. right. exact Hj'.
Qed.

Lemma withChunks_lookup (svc : t) data c js m j :
  NoDup js -> j ∈ js ->
  withChunks svc data c js m !! chunkPath svc j = Some (chunkOf data c j).
Proof.
  revert m. induction js as [|k js IH]; intros m Hnd Hin.
  - inversion Hin.
  - apply NoDup_cons in Hnd as [Hk Hnd]. simpl.
    apply elem_of_cons in Hin as [->|Hin].
    + change (withChunks svc data c js (<[chunkPath svc k:=chunkOf data c k]> m) !! chunkPath svc k = Some (chunkOf data c k)).
      rewrite withChunks_lookup_other.
      * apply lookup_insert_eq.
      * intros j' Hj' Heq. apply chunkPath_inj in Heq. subst. contradiction.
    + apply IH; assumption.
Qed.

Lemma splitLoop_spec (svc : t) (videoPath : string) (c : Z) (data : Bytes) :
  0 < c -> (forall i, chunkPath svc i <> videoPath) ->
  forall (n : nat) (i : Z) (acc : list string) (w : World),
    0 <= i -> files w !! videoPath = Some data ->
    splitLoop svc videoPath c (Z.of_nat (length data)) n i acc w =
    (Ok (acc ++ map (chunkPath svc) (seqZ i (Z.of_nat n))),
     set_files (withChunks svc data c (seqZ i (Z.of_nat n))) w).
Proof.
  intros Hc Hout. induction n as [|n IH]; intros i acc w Hi Hw.
  - simpl. rewrite app_nil_r. destruct w; reflexivity.
  - cbn [splitLoop].
    erewrite bind_ok by reflexivity.
    unfold createReadStreamRange. rewrite Hw. cbn [fmap option_fmap option_map].
    rewrite readRange_chunkOf by assumption.
    erewrite bind_ok by reflexivity.
    rewrite IH.
    + rewrite (seqZ_cons i (Z.of_nat (S n))) by lia.
      replace (Z.pred (Z.of_nat (S n))) with (Z.of_nat n) by lia.
      replace (Z.succ i) with (i + 1) by lia.
      simpl. rewrite <- app_assoc. reflexivity.
    + lia.
    + simpl. rewrite lookup_insert_ne; [exact Hw|apply Hout].
Qed.

Lemma botSend_ok (ev : Event) (stream : ReadStream) (w : World) (content : Bytes) :
  botAlwaysSucceeds w ->
  (forall w', files w' = files w -> stream w' = Some content) ->
  exists msg w',
    botSend ev stream w = (Ok msg, w') /\
    file_size msg = Z.of_nat (length content) /\
    cloud w' !! file_id msg = Some content /\
    cloud w ⊆ cloud w' /\
    files w' = files w /\
    botAlwaysSucceeds w'.
Proof.
  intros Hs Hstream. unfold botSend.
  set (w1 := log_event ev w).
  assert (Hout : exists script',
    (match botScript w1 with [] => (None, []) | o :: rest => (o, rest) end) = (None, script')
    /\ Forall (fun o => o = None) script').
  { unfold botAlwaysSucceeds in Hs. change (botScript w1) with (botScript w).
    destruct (botScript w) as [|o rest].
    - exists []. split; [reflexivity|constructor].
    - inversion Hs; subst. exists rest. split; [reflexivity|assumption]. }
  destruct Hout as [script' [-> Hscript']].
  rewrite (Hstream (set_botScript script' w1)) by reflexivity.
  eexists _, _. split; [reflexivity|]. simpl.
  assert (Hfresh : cloud w !! fresh (dom (cloud w)) = None).
  { apply not_elem_of_dom. apply is_fresh. }
  repeat split.
  - apply lookup_insert_eq.
  - apply insert_subseteq. exact Hfresh.
  - exact Hscript'.
Qed.

Lemma uploadChunksLoop_spec (originalName : string) (channel : option string) :
  forall (paths : list string) (slices : list Bytes) (i : Z)
         (acc : list ChunkInfo) (w : World),
    Forall2 (fun p sl => files w !! p = Some sl) paths slices ->
    NoDup paths ->
    botAlwaysSucceeds w ->
    exists infos w',
      uploadChunksLoop originalName channel paths i acc w = (Ok (acc ++ infos), w') /\
      map part infos = seqZ (i + 1) (Z.of_nat (length paths)) /\
      map c_size infos = map (fun sl => Z.of_nat (length sl)) slices /\
      Forall2 (fun info sl => cloud w' !! c_fileId info = Some sl) infos slices /\
      cloud w ⊆ cloud w'.
Proof.
  induction paths as [|path rest IH]; intros slices i acc w Hf Hnd Hs.
  - inversion Hf; subst. exists [], w. simpl. rewrite app_nil_r.
    split; [reflexivity|]. split; [reflexivity|]. split; [reflexivity|].
    split; [constructor|reflexivity].
  - inversion Hf as [|? sl ? slices' Hpath Hrest]; subst.
    apply NoDup_cons in Hnd as [Hnotin Hnd].
    cbn [uploadChunksLoop]. unfold sendDocument.
    destruct (botSend_ok (EvSendDocument channel (originalName +:+ ".part" +:+ pretty (i + 1)))
                (createReadStream path) w sl Hs) as (msg & w1 & Hsend & Hsize & Hcloud & Hsub & Hfiles & Hs1).
    { intros w' Hw'. unfold createReadStream. rewrite Hw'. exact Hpath. }
    erewrite bind_ok by exact Hsend.
    erewrite bind_ok by reflexivity.
    set (w2 := set_files (delete path) w1).
    destruct (IH slices' (i + 1)
                (acc ++ [{| part := i + 1; c_messageId := message_id msg;
                            c_fileId := file_id msg;
                            c_fileUniqueId := file_unique_id msg;
                            c_size := file_size msg |}]) w2)
      as (infos & w' & Hloop & Hparts & Hsizes & Hstored & Hsub').
    { eapply Forall2_impl; [|intros p s Hp; exact Hp].
      clear -Hrest Hnotin Hfiles.
      induction Hrest as [|p s ps ss Hp Hps IHr]; constructor.
      - simpl. rewrite Hfiles. rewrite lookup_delete_ne; [exact Hp|].
        intros ->. apply Hnotin. left.
      - apply IHr. intros Hin. apply Hnotin. right. exact Hin. }
    { exact Hnd. }
    { exact Hs1. }
    eexists (_ :: infos), w'. split; [|split; [|split; [|split]]].
    + rewrite Hloop. rewrite <- app_assoc. reflexivity.
    + simpl. rewrite Hparts.
      rewrite (seqZ_cons (i + 1) (Z.of_nat (S (length rest)))) by lia.
      f_equal. f_equal; lia.
    + simpl. rewrite Hsizes, Hsize. reflexivity.
    + constructor; [|exact Hstored]. simpl.
      eapply lookup_weaken; [exact Hcloud|exact Hsub'].
    + etrans; [exact Hsub|exact Hsub'].
Qed.

Lemma downloadLoop_spec (outputPath : string) :
  forall (infos : list ChunkInfo) (slices : list Bytes) (w : World) (pre : Bytes),
    Forall2 (fun info sl => cloud w !! c_fileId info = Some sl) infos slices ->
    files w !! outputPath = Some pre ->
    exists w',
      downloadLoop outputPath infos w = (Ok tt, w') /\
      files w' !! outputPath = Some (pre ++ concat slices).
Proof.
  induction infos as [|info rest IH]; intros slices w pre Hf Hpre.
  - inversion Hf; subst. exists w. simpl. rewrite app_nil_r. split; [reflexivity|assumption].
  - inversion Hf as [|? sl ? slices' Hinfo Hrest]; subst.
    cbn [downloadLoop]. unfold getFileStream.
    erewrite bind_ok by (erewrite bind_ok by reflexivity; rewrite Hinfo; reflexivity).
    erewrite bind_ok by reflexivity.
    rewrite Hpre. cbn [default from_option].
    erewrite bind_ok by reflexivity.
    destruct (IH slices' (set_files (insert outputPath (pre ++ sl)) w) (pre ++ sl))
      as (w' & Hloop & Hout).
    + exact Hrest.
    + simpl. apply lookup_insert_eq.
    + exists w'. split; [exact Hloop|]. rewrite Hout. simpl. rewrite app_assoc. reflexivity.
Qed.

Lemma chunkOf_length (data : Bytes) (c i : Z) :
  0 < c -> 0 <= i -> i * c <= Z.of_nat (length data) ->
  Z.of_nat (length (chunkOf data c i)) = Z.min c (Z.of_nat (length data) - i * c).
Proof.
  intros Hc Hi Hle. unfold chunkOf. rewrite length_take, length_drop. lia.
Qed.

Lemma numChunksOf_index (len c i : Z) :
  0 < c -> 0 <= len -> 0 <= i < numChunksOf len c -> i * c < len.
Proof.
  intros Hc Hl Hi.
  destruct (numChunksOf_bounds len c Hc Hl) as [[H0 [H1 H2]]|[_ Hn]]; [nia|lia].
Qed.

(** C1: the chunked upload cuts the file into consecutive parts of the
    chunk size (the last one possibly shorter, none empty), numbers them
    1, 2, ..., and downloading the resulting record, which appends the
    parts' streams in the recorded order, writes the original bytes to the
    destination.  [uploadLargeVideoToChannel] is the instance
    [c = 45 * 1024 * 1024].  The source file must not itself be one of the
    temporary chunk files, and every send call is assumed to succeed. *)
Theorem chunked_upload_download_roundtrip
    (c : Z) (svc : t) (videoPath originalName videoId : string)
    (checksum_ channel : option string) (outputPath : string)
    (data : Bytes) (w : World) :
  0 < c ->
  files w !! videoPath = Some data ->
  String.prefix (tempDir svc +:+ "/") videoPath = false ->
  botAlwaysSucceeds w ->
  let len := Z.of_nat (length data) in
  exists td w1,
    uploadLargeVideoToChannelWith c svc videoPath originalName videoId checksum_ channel w
      = (Ok td, w1) /\
    uploaded td = true /\
    uploadMethod td = Some chunked /\
    map part (chunks td) = seqZ 1 (numChunksOf len c) /\
    map c_size (chunks td)
      = map (fun i => Z.min c (len - i * c)) (seqZ 0 (numChunksOf len c)) /\
    Forall (fun ch => 0 < c_size ch <= c) (chunks td) /\
    forall w2, cloud w1 ⊆ cloud w2 ->
      exists w3,
        downloadChunkedVideo svc td outputPath w2 = (Ok tt, w3) /\
        files w3 !! outputPath = Some data.
Proof.
  intros Hc Hdata Hout Hs len.
  assert (Hne : forall i, chunkPath svc i <> videoPath)
    by (intros i; apply chunkPath_outside, Hout).
  set (n := numChunksOf len c).
  assert (Hn : 0 <= n).
  { destruct (numChunksOf_bounds len c Hc ltac:(lia)) as [[H0 _]|[_ H0]]; subst n; lia. }
  unfold uploadLargeVideoToChannelWith, splitVideoFile, stat_size.
  erewrite bind_ok; cycle 1.
  { erewrite bind_ok; cycle 1.
    { erewrite bind_ok by reflexivity. rewrite Hdata. reflexivity. }
    erewrite bind_ok by reflexivity.
    fold len. fold n.
    apply splitLoop_spec; [exact Hc|exact Hne|lia|exact Hdata]. }
  rewrite Z2Nat.id by exact Hn. rewrite app_nil_l.
  set (w0 := set_files _ _).
  destruct (uploadChunksLoop_spec originalName channel
              (map (chunkPath svc) (seqZ 0 n)) (map (chunkOf data c) (seqZ 0 n)) 0 [] w0)
    as (infos & w1 & Hloop & Hparts & Hsizes & Hstored & _).
  { apply Forall2_fmap, Forall_Forall2_diag, Forall_forall.
    intros j Hj. subst w0. simpl.
    apply withChunks_lookup; [apply NoDup_seqZ|exact Hj]. }
  { apply NoDup_fmap_2; [|apply NoDup_seqZ]. intros i j. apply chunkPath_inj. }
  { exact Hs. }
  erewrite bind_ok by exact Hloop.
  rewrite app_nil_l.
  assert (Hsz : map c_size infos = map (fun i => Z.min c (len - i * c)) (seqZ 0 n)).
  { rewrite Hsizes, map_map. apply map_ext_in. intros i Hi.
    apply list_elem_of_In, elem_of_seqZ in Hi.
    apply chunkOf_length; [exact Hc|lia|].
    pose proof (numChunksOf_index len c i Hc ltac:(lia) ltac:(subst n; lia)). lia. }
  exists {| uploaded := true; reason := None; error := None; channelId := channel;
            messageId := None; fileId := None; fileUniqueId := None; size := None;
            uploadMethod := Some chunked;
            totalChunks := Some (Z.of_nat (length (map (chunkPath svc) (seqZ 0 n))));
            chunks := infos; checksum := checksum_; redundancy := None |}, w1.
  split; [reflexivity|]. split; [reflexivity|]. split; [reflexivity|].
  cbn [chunks].
  split.
  { rewrite Hparts, length_map, length_seqZ, Z2Nat.id by exact Hn. reflexivity. }
  split; [exact Hsz|].
  split.
  { apply Forall_forall. intros ch Hch.
    assert (Hin : c_size ch ∈ map c_size infos) by (apply list_elem_of_fmap; eauto).
    rewrite Hsz in Hin. apply list_elem_of_fmap in Hin as (i & -> & Hi).
    apply elem_of_seqZ in Hi.
    pose proof (numChunksOf_index len c i Hc ltac:(lia) ltac:(subst n; lia)). lia. }
  intros w2 Hsub.
  unfold downloadChunkedVideo.
  erewrite bind_ok by reflexivity.
  erewrite bind_ok by reflexivity.
  cbn [chunks].
  destruct (downloadLoop_spec outputPath infos (map (chunkOf data c) (seqZ 0 n))
              (set_files (insert outputPath []) (log_event (EvEnsureDir (tempDir svc)) w2)) [])
    as (w3 & Hdl & Hfile).
  { eapply Forall2_impl; [exact Hstored|].
    intros info sl Hl. simpl. eapply lookup_weaken; [exact Hl|exact Hsub]. }
  { simpl. apply lookup_insert_eq. }
  exists w3. split; [exact Hdl|].
  rewrite Hfile. rewrite app_nil_l. subst n len.
  rewrite concat_all_chunks by exact Hc. reflexivity.
Qed.

Lemma chunked_upload_download_roundtrip_witness :
  exists td w1,
    uploadLargeVideoToChannelWith 4 demoService "/srv/app/uploads/clip.mp4" "clip.mp4" "v1"
      None (Some "-1001234567890") (demoWorld []) = (Ok td, w1) /\
    uploaded td = true /\
    uploadMethod td = Some chunked /\
    map part (chunks td) = seqZ 1 (numChunksOf 10 4) /\
    map c_size (chunks td)
      = map (fun i => Z.min 4 (10 - i * 4)) (seqZ 0 (numChunksOf 10 4)) /\
    Forall (fun ch => 0 < c_size ch <= 4) (chunks td) /\
    forall w2, cloud w1 ⊆ cloud w2 ->
      exists w3,
        downloadChunkedVideo demoService td "/srv/app/temp/restored.mp4" w2 = (Ok tt, w3) /\
        files w3 !! "/srv/app/temp/restored.mp4" = Some demoData.
Proof.
  apply (chunked_upload_download_roundtrip 4 demoService "/srv/app/uploads/clip.mp4"
           "clip.mp4" "v1" None (Some "-1001234567890") "/srv/app/temp/restored.mp4"
           demoData (demoWorld [])).
  - lia.
  - vm_compute. reflexivity.
  - vm_compute. reflexivity.
  - apply Forall_nil. exact Logic.I.
Defined.

Section ProgramLogic.
Context (I : World -> Prop) (P : Event -> Prop).

Lemma run_ret {A} (Q : A -> Prop) (a : A) : Q a -> run I P Q (mret a).
Proof.
  intros Ha w Hw. simpl. split; [exact Hw|]. split; [|exact Ha].
  exists []. rewrite app_nil_r. split; [reflexivity|constructor].
Qed.

Lemma run_throw {A} (Q : A -> Prop) (e : string) : run I P Q (throw e).
Proof.
  intros w Hw. simpl. split; [exact Hw|]. split; [|exact Logic.I].
  exists []. rewrite app_nil_r. split; [reflexivity|constructor].
Qed.

Lemma run_get (Q : World -> Prop) : (forall w, I w -> Q w) -> run I P Q get.
Proof.
  intros HQ w Hw. simpl. split; [exact Hw|]. split; [|apply HQ, Hw].
  exists []. rewrite app_nil_r. split; [reflexivity|constructor].
Qed.

Lemma run_bind {A B} (Q : A -> Prop) (R : B -> Prop) (m : M A) (f : A -> M B) :
  run I P Q m -> (forall a, Q a -> run I P R (f a)) -> run I P R (m ≫= f).
Proof.
  intros Hm Hf w Hw. destruct (Hm w Hw) as (HI & (tr & Htr & HP) & HQ).
  unfold mbind, M_bind. destruct (m w) as [[a|e] w1]; simpl in *.
  - destruct (Hf a HQ w1 HI) as (HI' & (tr' & Htr' & HP') & HR).
    split; [exact HI'|]. split; [|exact HR].
    exists (tr ++ tr'). rewrite Htr', Htr, app_assoc. split; [reflexivity|].
    apply Forall_app. split; assumption.
  - split; [exact HI|]. split; [|exact Logic.I]. exists tr. split; assumption.
Qed.

Lemma run_try_catch {A} (Q : A -> Prop) (m : M A) (h : string -> M A) :
  run I P Q m -> (forall e, run I P Q (h e)) -> run I P Q (try_catch m h).
Proof.
  intros Hm Hh w Hw. destruct (Hm w Hw) as (HI & (tr & Htr & HP) & HQ).
  unfold try_catch. destruct (m w) as [[a|e] w1]; simpl in *.
  - split; [exact HI|]. split; [|exact HQ]. exists tr. split; assumption.
  - destruct (Hh e w1 HI) as (HI' & (tr' & Htr' & HP') & HR).
    split; [exact HI'|]. split; [|exact HR].
    exists (tr ++ tr'). rewrite Htr', Htr, app_assoc. split; [reflexivity|].
    apply Forall_app. split; assumption.
Qed.

Lemma run_weaken {A} (Q Q' : A -> Prop) (m : M A) :
  run I P Q m -> (forall a, Q a -> Q' a) -> run I P Q' m.
Proof.
  intros Hm HQ w Hw. destruct (Hm w Hw) as (HI & Htr & Hr).
  split; [exact HI|]. split; [exact Htr|].
  destruct (m w).1; [apply HQ, Hr|exact Logic.I].
Qed.

Lemma run_emit (e : Event) :
  stable I -> P e -> run I P (fun _ => True) (emit e).
Proof.
  intros Hst He w Hw. simpl. split; [apply Hst, Hw|]. split; [|exact Logic.I].
  exists [e]. split; [reflexivity|]. constructor; [exact He|constructor].
Qed.

Lemma run_modify_files (f : gmap string Bytes -> gmap string Bytes) :
  (forall w, I w -> I (set_files f w)) ->
  run I P (fun _ => True) (modify (set_files f)).
Proof.
  intros Hf w Hw. simpl. split; [apply Hf, Hw|]. split; [|exact Logic.I].
  exists []. rewrite app_nil_r. split; [reflexivity|constructor].
Qed.

Lemma run_botSend (ev : Event) (stream : ReadStream) :
  stable I -> P ev -> run I P (fun _ => True) (botSend ev stream).
Proof.
  intros Hst Hev w Hw. unfold botSend.
  set (w1 := log_event ev w).
  assert (Hw1 : I w1) by (apply Hst, Hw).
  destruct (match botScript w1 with [] => (None, []) | o :: rest => (o, rest) end)
    as [outcome script'].
  set (w2 := set_botScript script' w1).
  assert (Hw2 : I w2) by (apply Hst, Hw1).
  assert (Htr : exists tr, trace w2 = trace w ++ tr /\ Forall P tr).
  { exists [ev]. split; [reflexivity|]. constructor; [exact Hev|constructor]. }
  destruct outcome as [msg|].
  - simpl. split; [exact Hw2|]. split; [exact Htr|exact Logic.I].
  - destruct (stream w2) as [content|]; simpl.
    + split; [apply Hst, Hw2|]. split; [exact Htr|exact Logic.I].
    + split; [exact Hw2|]. split; [exact Htr|exact Logic.I].
Qed.

Lemma run_retryLoop {A} (Q : A -> Prop) (svc : t) (f : M A) (maxR : Z) :
  stable I -> (forall ms, P (EvSleep ms)) -> run I P Q f ->
  forall (n : nat) (attempt : Z),
    run I P (fun o => forall a, o = Some a -> Q a) (retryLoop svc f maxR n attempt).
Proof.
  intros Hst Hsleep Hf. induction n as [|n IH]; intros attempt.
  - apply run_ret. discriminate.
  - cbn [retryLoop]. apply run_try_catch.
    + eapply run_bind; [exact Hf|]. intros a Ha. apply run_ret.
      intros a' [= <-]. exact Ha.
    + intros e. destruct (attempt =? maxR).
      * apply run_throw.
      * eapply run_bind; [apply run_emit; [exact Hst|apply Hsleep]|].
        intros _ _. apply IH.
Qed.

End ProgramLogic.

Lemma stable_fileIs (path : string) (data : Bytes) : stable (fileIs path data).
Proof. intros w Hw. repeat split; intros; exact Hw. Qed.

Lemma stable_True : stable (fun _ => True).
Proof. intros w _. repeat split. Qed.

Lemma run_stat_size_fileIs (P : Event -> Prop) (path : string) (data : Bytes) :
  run (fileIs path data) P (fun sz => sz = Z.of_nat (length data)) (stat_size path).
Proof.
  unfold stat_size. eapply run_bind.
  - apply (run_get _ _ (fileIs path data)). auto.
  - intros w0 Hw0. unfold fileIs in Hw0. rewrite Hw0. apply run_ret. reflexivity.
Qed.

Lemma run_stat_size_any (I : World -> Prop) (P : Event -> Prop) (path : string) :
  run I P (fun _ => True) (stat_size path).
Proof.
  unfold stat_size. eapply run_bind.
  - apply (run_get _ _ (fun _ => True)). auto.
  - intros w0 _. destruct (files w0 !! path); [apply run_ret; exact Logic.I|apply run_throw].
Qed.

Lemma run_uploadSmall (I : World -> Prop) (P : Event -> Prop) (svc : t)
    (videoPath originalName videoId : string) (checksum_ channel : option string) :
  stable I -> (forall ch f, P (EvSendVideo ch f)) ->
  run I P (fun td => uploadMethod td = Some single)
    (uploadSmallVideoToChannel svc videoPath originalName videoId checksum_ channel).
Proof.
  intros Hst HP. unfold uploadSmallVideoToChannel, sendVideo.
  eapply run_bind; [apply run_botSend; [exact Hst|apply HP]|].
  intros msg _. apply run_ret. reflexivity.
Qed.

Lemma run_splitLoop (P : Event -> Prop) (svc : t) (videoPath : string) (c len : Z) :
  forall (n : nat) (i : Z) (acc : list string),
    run (fun _ => True) P (fun _ => True) (splitLoop svc videoPath c len n i acc).
Proof.
  induction n as [|n IH]; intros i acc.
  - apply run_ret. exact Logic.I.
  - cbn [splitLoop]. eapply run_bind.
    + apply (run_get _ _ (fun _ => True)). auto.
    + intros w0 _. destruct (createReadStreamRange _ _ _ w0).
      * eapply run_bind; [apply run_modify_files; auto|]. intros _ _. apply IH.
      * apply run_throw.
Qed.

Lemma run_uploadChunksLoop (P : Event -> Prop) (originalName : string) (channel : option string) :
  (forall ch f, P (EvSendDocument ch f)) ->
  forall (paths : list string) (i : Z) (acc : list ChunkInfo),
    run (fun _ => True) P (fun _ => True) (uploadChunksLoop originalName channel paths i acc).
Proof.
  intros HP. induction paths as [|path rest IH]; intros i acc.
  - apply run_ret. exact Logic.I.
  - cbn [uploadChunksLoop]. unfold sendDocument.
    eapply run_bind; [apply run_botSend; [apply stable_True|apply HP]|].
    intros msg _.
    eapply run_bind; [apply run_modify_files; auto|]. intros _ _. apply IH.
Qed.

Lemma run_uploadLarge (P : Event -> Prop) (c : Z) (svc : t)
    (videoPath originalName videoId : string) (checksum_ channel : option string) :
  (forall ch f, P (EvSendDocument ch f)) -> (forall d, P (EvEnsureDir d)) ->
  run (fun _ => True) P (fun td => uploadMethod td = Some chunked)
    (uploadLargeVideoToChannelWith c svc videoPath originalName videoId checksum_ channel).
Proof.
  intros HP1 HP2. unfold uploadLargeVideoToChannelWith, splitVideoFile.
  eapply run_bind.
  - eapply run_bind; [apply run_stat_size_any|]. intros sz _.
    eapply run_bind; [apply run_emit; [apply stable_True|apply HP2]|].
    intros _ _. apply run_splitLoop.
  - intros paths _.
    eapply run_bind; [apply run_uploadChunksLoop, HP1|].
    intros infos _. apply run_ret. reflexivity.
Qed.

Lemma uploadVideo_unfold (svc : t) (videoPath originalName videoId : string)
    (data : Bytes) (w : World) :
  bot svc = true -> files w !! videoPath = Some data ->
  uploadVideo svc videoPath originalName videoId w =
  try_catch
    (primaryResult ←
       (if gt_opt (Z.of_nat (length data)) (maxFileSize svc)
        then uploadLargeVideoWithRetry svc videoPath originalName videoId None
        else uploadSmallVideoWithRetry svc videoPath originalName videoId None);
     mret (withRedundancy primaryResult (1 + Z.of_nat (length (backupChannelIds svc)))))
    (fun e => mret (notUploadedError e)) w.
Proof.
  intros Hbot Hfile. unfold uploadVideo. rewrite Hbot. cbn [negb].
  unfold pathExists. erewrite bind_ok; cycle 1.
  { erewrite bind_ok by reflexivity. reflexivity. }
  rewrite Hfile. rewrite bool_decide_eq_true_2 by eauto. cbn [orb negb].
  unfold try_catch.
  unfold stat_size.
  erewrite (bind_ok (w0 ← get; _)); cycle 1.
  { erewrite bind_ok by reflexivity. rewrite Hfile. reflexivity. }
  reflexivity.
Qed.

Lemma try_catch_returns {A} (m : M A) (g : string -> A) (w : World) :
  exists a w', try_catch m (fun e => mret (g e)) w = (Ok a, w').
Proof.
  unfold try_catch. destruct (m w) as [[a|e] w1]; eexists _, _; reflexivity.
Qed.

(** [uploadVideo] never rejects. *)
Lemma uploadVideo_returns (svc : t) (videoPath originalName videoId : string) (w : World) :
  exists td w', uploadVideo svc videoPath originalName videoId w = (Ok td, w').
Proof.
  unfold uploadVideo. destruct (bot svc); cbn [negb].
  - unfold mbind, M_bind.
    destruct (pathExists videoPath w) as [[b|e] w1] eqn:Hpe.
    + destruct b; cbn [negb].
      * apply try_catch_returns.
      * eexists _, _; reflexivity.
    + unfold pathExists, mbind, M_bind in Hpe. simpl in Hpe. discriminate Hpe.
  - eexists _, _; reflexivity.
Qed.

Lemma uploadToChannel_unfold (svc : t) (videoPath originalName videoId : string)
    (checksum_ channel : option string) (data : Bytes) (w : World) :
  files w !! videoPath = Some data ->
  uploadToChannel svc videoPath originalName videoId checksum_ channel w =
  (if gt_opt (Z.of_nat (length data)) (maxFileSize svc)
   then uploadLargeVideoToChannel svc videoPath originalName videoId checksum_ channel
   else uploadSmallVideoToChannel svc videoPath originalName videoId checksum_ channel) w.
Proof.
  intros Hfile. unfold uploadToChannel, stat_size.
  erewrite bind_ok; [reflexivity|].
  erewrite bind_ok by reflexivity. rewrite Hfile. reflexivity.
Qed.

Lemma run_uploadToChannel_small (P : Event -> Prop) (svc : t)
    (videoPath originalName videoId : string) (checksum_ channel : option string)
    (data : Bytes) :
  gt_opt (Z.of_nat (length data)) (maxFileSize svc) = false ->
  (forall ch f, P (EvSendVideo ch f)) ->
  run (fileIs videoPath data) P (fun td => uploadMethod td = Some single)
    (uploadToChannel svc videoPath originalName videoId checksum_ channel).
Proof.
  intros Hsmall HP. unfold uploadToChannel.
  eapply run_bind; [apply run_stat_size_fileIs|].
  intros sz ->. rewrite Hsmall.
  apply run_uploadSmall; [apply stable_fileIs|exact HP].
Qed.

Lemma withRedundancy_method (o : option TelegramData) (r : Z) (m : UploadMethod) :
  (forall td, o = Some td -> uploadMethod td = Some m) ->
  uploaded (withRedundancy o r) = true -> uploadMethod (withRedundancy o r) = Some m.
Proof.
  intros Ho. destruct o as [td|]; simpl.
  - intros _. apply Ho. reflexivity.
  - discriminate.
Qed.

(** Two uploads that agree wherever [I] holds, and keep [I], are retried
    alike. *)
Lemma retryLoop_agree {A} (I : World -> Prop) (svc : t) (f g : M A) (maxR : Z) :
  (forall w, I w -> f w = g w) ->
  (forall w, I w -> I (g w).2) ->
  (forall w e, I w -> I (log_event e w)) ->
  forall (n : nat) (attempt : Z) (w : World),
    I w -> retryLoop svc f maxR n attempt w = retryLoop svc g maxR n attempt w.
Proof.
  intros Hfg Hkeep Hlog. induction n as [|n IH]; intros attempt w Hw; [reflexivity|].
  cbn [retryLoop]. unfold try_catch, mbind, M_bind.
  rewrite (Hfg w Hw). specialize (Hkeep w Hw).
  destruct (g w) as [[a|e] w1]; [reflexivity|]. cbn [snd] in Hkeep.
  destruct (attempt =? maxR); [reflexivity|].
  cbn. apply IH. apply Hlog, Hkeep.
Qed.

(** The trace only grows. *)
Lemma run_trace {A} (m : M A) (w : World) :
  run (fun _ => True) (fun _ => True) (fun _ => True) m ->
  exists tr, trace (m w).2 = trace w ++ tr.
Proof. intros H. destruct (H w Logic.I) as (_ & (tr & Htr & _) & _). eauto. Qed.

(** When the first attempt starts with the event [ev], so does the whole
    retried upload. *)
Lemma uploadWithRetry_first_event {A} (svc : t) (f : M A) (ev : Event) (n : Z) (w : World) :
  maxRetries svc = Some n -> 0 < n ->
  run (fun _ => True) (fun _ => True) (fun _ => True) f ->
  (exists tr0, trace (f w).2 = trace w ++ ev :: tr0) ->
  exists tr', trace (uploadWithRetry svc f w).2 = trace w ++ ev :: tr'.
Proof.
  intros Hn Hpos Hrun (tr0 & Hfirst). unfold uploadWithRetry. rewrite Hn.
  cbn [default from_option id].
  destruct (Z.to_nat n) as [|k] eqn:Hk; [lia|].
  cbn [retryLoop]. unfold try_catch, mbind, M_bind.
  destruct (f w) as [[a|e] w1]; cbn [snd] in Hfirst.
  - exists tr0. exact Hfirst.
  - destruct (1 =? n).
    + exists tr0. exact Hfirst.
    + destruct (run_trace (retryLoop svc f n k (1 + 1)) (log_event (EvSleep (delayFor svc 1)) w1))
        as (tr2 & Htr2).
      { apply run_weaken with (Q := fun o => forall a, o = Some a -> True); [|auto].
        apply run_retryLoop; [apply stable_True|auto|exact Hrun]. }
      cbn. rewrite Htr2. cbn. rewrite Hfirst.
      exists (tr0 ++ EvSleep (delayFor svc 1) :: tr2).
      rewrite <- !app_assoc. reflexivity.
Qed.

Lemma uploadVideoWith_world (svc : t) (attempt : M TelegramData) (w : World) :
  (uploadVideoWith svc attempt w).2 = (uploadWithRetry svc attempt w).2.
Proof.
  unfold uploadVideoWith, try_catch, mbind, M_bind.
  destruct (uploadWithRetry svc attempt w) as [[o|e] w1]; reflexivity.
Qed.

Lemma uploadSmall_first_event (svc : t) (videoPath originalName videoId : string)
    (checksum_ channel : option string) (w : World) :
  exists tr0,
    trace (uploadSmallVideoToChannel svc videoPath originalName videoId checksum_ channel w).2
    = trace w ++ EvSendVideo channel originalName :: tr0.
Proof.
  exists []. unfold uploadSmallVideoToChannel, sendVideo, botSend, mbind, M_bind. cbn.
  destruct (botScript w) as [|[msg|] rest]; cbn;
    try destruct (createReadStream videoPath _); reflexivity.
Qed.

Lemma uploadLarge_first_event (c : Z) (svc : t) (videoPath originalName videoId : string)
    (checksum_ channel : option string) (data : Bytes) (w : World) :
  files w !! videoPath = Some data ->
  exists tr0,
    trace (uploadLargeVideoToChannelWith c svc videoPath originalName videoId
             checksum_ channel w).2
    = trace w ++ EvEnsureDir (tempDir svc) :: tr0.
Proof.
  intros Hfile.
  set (rest := fun fileSize : Z =>
         paths ← splitLoop svc videoPath c fileSize (Z.to_nat (numChunksOf fileSize c)) 0 [];
         uploadedChunks ← uploadChunksLoop originalName channel paths 0 [];
         mret {| uploaded := true; reason := None; error := None; channelId := channel;
                 messageId := None; fileId := None; fileUniqueId := None; size := None;
                 uploadMethod := Some chunked;
                 totalChunks := Some (Z.of_nat (length paths));
                 chunks := uploadedChunks;
                 checksum := checksum_; redundancy := None |}).
  assert (Heq : uploadLargeVideoToChannelWith c svc videoPath originalName videoId
                  checksum_ channel w
                = rest (Z.of_nat (length data)) (log_event (EvEnsureDir (tempDir svc)) w)).
  { unfold uploadLargeVideoToChannelWith, splitVideoFile, stat_size, ensureDir, emit, modify,
      get, mbind, M_bind. cbn. rewrite Hfile. cbn. subst rest. unfold mbind, M_bind. cbn.
    destruct (splitLoop svc videoPath c _ _ 0 [] _) as [[paths|e] w1]; reflexivity. }
  rewrite Heq.
  destruct (run_trace (rest (Z.of_nat (length data))) (log_event (EvEnsureDir (tempDir svc)) w))
    as (tr & Htr).
  { subst rest. cbv beta. eapply run_bind; [apply run_splitLoop|]. intros paths _.
    eapply run_bind; [apply run_uploadChunksLoop; auto|]. intros infos _.
    apply run_ret. exact Logic.I. }
  exists tr. rewrite Htr. cbn. rewrite <- app_assoc. reflexivity.
Qed.

Lemma run_uploadSmall_any (svc : t) (videoPath originalName videoId : string)
    (checksum_ channel : option string) :
  run (fun _ => True) (fun _ => True) (fun _ => True)
    (uploadSmallVideoToChannel svc videoPath originalName videoId checksum_ channel).
Proof.
  eapply run_weaken; [apply run_uploadSmall; [apply stable_True|auto]|auto].
Qed.

Lemma run_uploadLarge_any (c : Z) (svc : t) (videoPath originalName videoId : string)
    (checksum_ channel : option string) :
  run (fun _ => True) (fun _ => True) (fun _ => True)
    (uploadLargeVideoToChannelWith c svc videoPath originalName videoId checksum_ channel).
Proof.
  eapply run_weaken; [apply run_uploadLarge; auto|auto].
Qed.

(** C5: a file whose size is at most the per-object limit goes down the
    single-object path and never down the chunked path: [uploadToChannel]
    is the single-object upload, [uploadVideo] is the retried single-object
    upload to the primary channel, its first action is the [sendVideo] of
    the file, and it prepares no chunk directory and sends no document.  A
    file whose size strictly exceeds the limit goes down the chunked path
    and never down the single-object path: [uploadToChannel] is the
    chunked upload, [uploadVideo] is the retried chunked upload, its first
    action is to prepare the chunk directory, and it never calls
    [sendVideo]. *)
Theorem upload_path_by_size
    (svc : t) (videoPath originalName videoId : string)
    (data : Bytes) (limit : Z) (w : World) :
  bot svc = true ->
  maxFileSize svc = Some limit ->
  files w !! videoPath = Some data ->
  let len := Z.of_nat (length data) in
  (len <= limit ->
     (forall checksum_ channel,
        uploadToChannel svc videoPath originalName videoId checksum_ channel w =
        uploadSmallVideoToChannel svc videoPath originalName videoId checksum_ channel w) /\
     uploadVideo svc videoPath originalName videoId w =
     uploadVideoWith svc
       (uploadSmallVideoToChannel svc videoPath originalName videoId None (primaryChannelId svc))
       w /\
     exists td w' tr,
       uploadVideo svc videoPath originalName videoId w = (Ok td, w') /\
       trace w' = trace w ++ tr /\
       Forall (fun e => ~ chunkedPathEvent e) tr /\
       (uploaded td = true -> uploadMethod td = Some single) /\
       (forall n, maxRetries svc = Some n -> 0 < n ->
          exists tr', tr = EvSendVideo (primaryChannelId svc) originalName :: tr')) /\
  (limit < len ->
     (forall checksum_ channel,
        uploadToChannel svc videoPath originalName videoId checksum_ channel w =
        uploadLargeVideoToChannel svc videoPath originalName videoId checksum_ channel w) /\
     uploadVideo svc videoPath originalName videoId w =
     uploadVideoWith svc
       (uploadLargeVideoToChannel svc videoPath originalName videoId None (primaryChannelId svc))
       w /\
     exists td w' tr,
       uploadVideo svc videoPath originalName videoId w = (Ok td, w') /\
       trace w' = trace w ++ tr /\
       Forall (fun e => ~ singlePathEvent e) tr /\
       (uploaded td = true -> uploadMethod td = Some chunked) /\
       (forall n, maxRetries svc = Some n -> 0 < n ->
          exists tr', tr = EvEnsureDir (tempDir svc) :: tr')).
Proof.
  intros Hbot Hmax Hfile len.
  destruct (uploadVideo_returns svc videoPath originalName videoId w) as (td & w' & Hret).
  split; intros Hlen.
  - assert (Hsmall : gt_opt len (maxFileSize svc) = false).
    { rewrite Hmax. simpl. apply Z.ltb_ge. exact Hlen. }
    assert (Hsame : forall checksum_ channel w0, fileIs videoPath data w0 ->
              uploadToChannel svc videoPath originalName videoId checksum_ channel w0 =
              uploadSmallVideoToChannel svc videoPath originalName videoId checksum_ channel w0).
    { intros checksum_ channel w0 Hw0.
      rewrite (uploadToChannel_unfold _ _ _ _ _ _ data) by exact Hw0.
      fold len. rewrite Hsmall. reflexivity. }
    assert (Hvia : uploadVideo svc videoPath originalName videoId w =
                   uploadVideoWith svc
                     (uploadSmallVideoToChannel svc videoPath originalName videoId None
                        (primaryChannelId svc)) w).
    { rewrite (uploadVideo_unfold _ _ _ _ data) by assumption.
      fold len. rewrite Hsmall.
      unfold uploadVideoWith, uploadSmallVideoWithRetry, uploadWithRetry, try_catch, mbind, M_bind.
      rewrite (retryLoop_agree (fileIs videoPath data) svc _
                 (uploadSmallVideoToChannel svc videoPath originalName videoId None
                    (primaryChannelId svc))); [reflexivity| | | |exact Hfile].
      - intros w0 Hw0. apply Hsame, Hw0.
      - intros w0 Hw0.
        apply (run_uploadSmall (fileIs videoPath data) (fun _ => True) svc videoPath
                 originalName videoId None (primaryChannelId svc)
                 (stable_fileIs videoPath data) (fun _ _ => Logic.I) w0 Hw0).
      - intros w0 e Hw0. exact Hw0. }
    split; [intros checksum_ channel; apply Hsame, Hfile|].
    split; [exact Hvia|].
    assert (Hrun : run (fileIs videoPath data) (fun e => ~ chunkedPathEvent e)
                     (fun td => uploaded td = true -> uploadMethod td = Some single)
                     (try_catch
                        (primaryResult ← uploadSmallVideoWithRetry svc videoPath originalName videoId None;
                         mret (withRedundancy primaryResult (1 + Z.of_nat (length (backupChannelIds svc)))))
                        (fun e => mret (notUploadedError e)))).
    { apply run_try_catch.
      - eapply run_bind.
        + unfold uploadSmallVideoWithRetry, uploadWithRetry.
          apply run_retryLoop with (Q := fun td => uploadMethod td = Some single).
          * apply stable_fileIs.
          * intros ms H. exact H.
          * apply run_uploadToChannel_small; [exact Hsmall|]. intros ch f H. exact H.
        + intros o Ho. apply run_ret. apply withRedundancy_method. exact Ho.
      - intros e. apply run_ret. discriminate. }
    pose proof Hret as Hret0.
    rewrite (uploadVideo_unfold _ _ _ _ data) in Hret by assumption.
    fold len in Hret. rewrite Hsmall in Hret.
    destruct (Hrun w Hfile) as (_ & (tr & Htr & HP) & HQ).
    rewrite Hret in Htr, HQ. simpl in Htr, HQ.
    exists td, w', tr. split; [exact Hret0|]. split; [exact Htr|]. split; [exact HP|].
    split; [exact HQ|].
    intros n Hn Hpos.
    destruct (uploadWithRetry_first_event svc
                (uploadSmallVideoToChannel svc videoPath originalName videoId None
                   (primaryChannelId svc))
                (EvSendVideo (primaryChannelId svc) originalName) n w Hn Hpos
                (run_uploadSmall_any _ _ _ _ _ _)
                (uploadSmall_first_event _ _ _ _ _ _ _)) as (tr' & Hfirst).
    exists tr'. rewrite <- uploadVideoWith_world, <- Hvia, Hret0 in Hfirst. cbn [snd] in Hfirst.
    rewrite Htr in Hfirst. apply app_inv_head in Hfirst. exact Hfirst.
  - assert (Hlarge : gt_opt len (maxFileSize svc) = true).
    { rewrite Hmax. simpl. apply Z.ltb_lt. exact Hlen. }
    assert (Hvia : uploadVideo svc videoPath originalName videoId w =
                   uploadVideoWith svc
                     (uploadLargeVideoToChannel svc videoPath originalName videoId None
                        (primaryChannelId svc)) w).
    { rewrite (uploadVideo_unfold _ _ _ _ data) by assumption.
      fold len. rewrite Hlarge. reflexivity. }
    split.
    { intros checksum_ channel.
      rewrite (uploadToChannel_unfold _ _ _ _ _ _ data) by exact Hfile.
      fold len. rewrite Hlarge. reflexivity. }
    split; [exact Hvia|].
    assert (Hrun : run (fun _ => True) (fun e => ~ singlePathEvent e)
                     (fun td => uploaded td = true -> uploadMethod td = Some chunked)
                     (try_catch
                        (primaryResult ← uploadLargeVideoWithRetry svc videoPath originalName videoId None;
                         mret (withRedundancy primaryResult (1 + Z.of_nat (length (backupChannelIds svc)))))
                        (fun e => mret (notUploadedError e)))).
    { apply run_try_catch.
      - eapply run_bind.
        + unfold uploadLargeVideoWithRetry, uploadWithRetry.
          apply run_retryLoop with (Q := fun td => uploadMethod td = Some chunked).
          * apply stable_True.
          * intros ms H. exact H.
          * apply run_uploadLarge; intros; intros H; exact H.
        + intros o Ho. apply run_ret. apply withRedundancy_method. exact Ho.
      - intros e. apply run_ret. discriminate. }
    pose proof Hret as Hret0.
    rewrite (uploadVideo_unfold _ _ _ _ data) in Hret by assumption.
    fold len in Hret. rewrite Hlarge in Hret.
    destruct (Hrun w Logic.I) as (_ & (tr & Htr & HP) & HQ).
    rewrite Hret in Htr, HQ. simpl in Htr, HQ.
    exists td, w', tr. split; [exact Hret0|]. split; [exact Htr|]. split; [exact HP|].
    split; [exact HQ|].
    intros n Hn Hpos.
    destruct (uploadWithRetry_first_event svc
                (uploadLargeVideoToChannel svc videoPath originalName videoId None
                   (primaryChannelId svc))
                (EvEnsureDir (tempDir svc)) n w Hn Hpos
                (run_uploadLarge_any _ _ _ _ _ _ _)
                (uploadLarge_first_event _ _ _ _ _ _ _ data w Hfile)) as (tr' & Hfirst).
    exists tr'. rewrite <- uploadVideoWith_world, <- Hvia, Hret0 in Hfirst. cbn [snd] in Hfirst.
    rewrite Htr in Hfirst. apply app_inv_head in Hfirst. exact Hfirst.
Qed.

Lemma upload_path_by_size_witness :
  (uploadVideo demoService "/srv/app/uploads/clip.mp4" "clip.mp4" "v1" (demoWorld []) =
   uploadVideoWith demoService
     (uploadSmallVideoToChannel demoService "/srv/app/uploads/clip.mp4" "clip.mp4" "v1" None
        (primaryChannelId demoService)) (demoWorld []) /\
   exists td w' tr,
     uploadVideo demoService "/srv/app/uploads/clip.mp4" "clip.mp4" "v1" (demoWorld []) = (Ok td, w') /\
     trace w' = trace (demoWorld []) ++ tr /\
     Forall (fun e => ~ chunkedPathEvent e) tr /\
     (uploaded td = true -> uploadMethod td = Some single) /\
     exists tr', tr = EvSendVideo (primaryChannelId demoService) "clip.mp4" :: tr') /\
  (uploadVideo tinyLimitService "/srv/app/uploads/clip.mp4" "clip.mp4" "v1" (demoWorld []) =
   uploadVideoWith tinyLimitService
     (uploadLargeVideoToChannel tinyLimitService "/srv/app/uploads/clip.mp4" "clip.mp4" "v1" None
        (primaryChannelId tinyLimitService)) (demoWorld []) /\
   exists td w' tr,
     uploadVideo tinyLimitService "/srv/app/uploads/clip.mp4" "clip.mp4" "v1" (demoWorld []) = (Ok td, w') /\
     trace w' = trace (demoWorld []) ++ tr /\
     Forall (fun e => ~ singlePathEvent e) tr /\
     (uploaded td = true -> uploadMethod td = Some chunked) /\
     exists tr', tr = EvEnsureDir (tempDir tinyLimitService) :: tr').
Proof.
  split.
  - destruct (proj1 (upload_path_by_size demoService "/srv/app/uploads/clip.mp4" "clip.mp4" "v1"
                       demoData (50 * 1024 * 1024) (demoWorld [])
                       ltac:(reflexivity) ltac:(reflexivity) ltac:(vm_compute; reflexivity))
                ltac:(simpl; lia))
      as (_ & Hvia & td & w' & tr & Hrun & Htr & Hnone & Hmethod & Hfirst).
    split; [exact Hvia|]. exists td, w', tr. repeat (split; [assumption|]).
    apply (Hfirst 3); [reflexivity|lia].
  - destruct (proj2 (upload_path_by_size tinyLimitService "/srv/app/uploads/clip.mp4" "clip.mp4" "v1"
                       demoData 4 (demoWorld [])
                       ltac:(reflexivity) ltac:(reflexivity) ltac:(vm_compute; reflexivity))
                ltac:(simpl; lia))
      as (_ & Hvia & td & w' & tr & Hrun & Htr & Hnone & Hmethod & Hfirst).
    split; [exact Hvia|]. exists td, w', tr. repeat (split; [assumption|]).
    apply (Hfirst 3); [reflexivity|lia].
Defined.

Lemma constructor_configured (tok chan : option string) (backups : list string) (temp : string) :
  Js.truthy_str tok = true -> Js.truthy_str chan = true ->
  let svc := constructor tok chan backups temp in
  bot svc = true /\ maxFileSize svc = Some (50 * 1024 * 1024) /\
  maxRetries svc = Some 3 /\ retryDelay svc = Some 5000 /\
  primaryChannelId svc = chan /\ backupChannelIds svc = backups /\ tempDir svc = temp.
Proof.
  intros Ht Hc. unfold constructor. rewrite Ht, Hc. simpl. repeat split.
Qed.

Lemma uploadWithRetry_first {A} (svc : t) (f : M A) (w w1 : World) (a : A) (n : Z) :
  maxRetries svc = Some n -> 0 < n ->
  f w = (Ok a, w1) -> uploadWithRetry svc f w = (Ok (Some a), w1).
Proof.
  intros Hn Hpos Hf. unfold uploadWithRetry. rewrite Hn. cbn [default from_option id].
  destruct (Z.to_nat n) as [|k] eqn:Hk; [lia|].
  cbn [retryLoop]. unfold try_catch. erewrite bind_ok by exact Hf. reflexivity.
Qed.

Lemma retryLoop_step_throw {A} (svc : t) (f : M A) (maxR : Z) (k : nat) (attempt : Z)
    (w w1 : World) (e : string) :
  f w = (Throw e, w1) ->
  retryLoop svc f maxR (S k) attempt w =
  if attempt =? maxR then (Throw e, w1)
  else retryLoop svc f maxR k (attempt + 1) (afterBackoff svc attempt w1).
Proof.
  intros Hf. cbn [retryLoop]. unfold try_catch.
  erewrite bind_throw by exact Hf.
  destruct (attempt =? maxR); reflexivity.
Qed.

Lemma retryLoop_step_ok {A} (svc : t) (f : M A) (maxR : Z) (k : nat) (attempt : Z)
    (w w1 : World) (a : A) :
  f w = (Ok a, w1) ->
  retryLoop svc f maxR (S k) attempt w = (Ok (Some a), w1).
Proof.
  intros Hf. cbn [retryLoop]. unfold try_catch.
  erewrite bind_ok by exact Hf. reflexivity.
Qed.

(** The schedule of [uploadWithRetry] when [maxRetries] is 3. *)
Lemma uploadWithRetry_schedule {A} (svc : t) (f : M A) (w : World) :
  maxRetries svc = Some 3 ->
  (forall a w1, f w = (Ok a, w1) -> uploadWithRetry svc f w = (Ok (Some a), w1)) /\
  (forall e1 w1, f w = (Throw e1, w1) ->
     (forall a w2, f (afterBackoff svc 1 w1) = (Ok a, w2) ->
        uploadWithRetry svc f w = (Ok (Some a), w2)) /\
     (forall e2 w2, f (afterBackoff svc 1 w1) = (Throw e2, w2) ->
        (forall a w3, f (afterBackoff svc 2 w2) = (Ok a, w3) ->
           uploadWithRetry svc f w = (Ok (Some a), w3)) /\
        (forall e3 w3, f (afterBackoff svc 2 w2) = (Throw e3, w3) ->
           uploadWithRetry svc f w = (Throw e3, w3)))).
Proof.
  intros Hn. unfold uploadWithRetry. rewrite Hn. cbn [default from_option id].
  change (Z.to_nat 3) with 3%nat.
  split.
  - intros a w1 Hf. apply retryLoop_step_ok, Hf.
  - intros e1 w1 H1. rewrite (retryLoop_step_throw _ _ _ _ _ _ _ _ H1). cbn [Z.eqb Pos.eqb].
    change (1 + 1) with 2. split.
    + intros a w2 Hf. apply retryLoop_step_ok, Hf.
    + intros e2 w2 H2. rewrite (retryLoop_step_throw _ _ _ _ _ _ _ _ H2). cbn [Z.eqb Pos.eqb].
      change (2 + 1) with 3. split.
      * intros a w3 Hf. apply retryLoop_step_ok, Hf.
      * intros e3 w3 H3. rewrite (retryLoop_step_throw _ _ _ _ _ _ _ _ H3). reflexivity.
Qed.

(** C7: with the constructor's settings, an upload is attempted at most
    three times, the attempt after the failed attempt [k] starting once
    [sleep(5000 * k)] has been taken; [uploadVideo] never rejects, and when
    all three attempts fail it returns the not-uploaded result that carries
    the message of the last failure. *)
Theorem upload_retry_then_not_uploaded
    (tok chan : option string) (backups : list string) (temp : string)
    (videoPath originalName videoId : string) (w : World) :
  Js.truthy_str tok = true -> Js.truthy_str chan = true ->
  let svc := constructor tok chan backups temp in
  (* the back-off before attempt k+1 is 5000 * k *)
  (delayFor svc 1 = Some 5000 /\ delayFor svc 2 = Some 10000) /\
  (* the attempts made by uploadWithRetry, for any upload function *)
  (forall (A : Type) (f : M A) (w0 : World),
     (forall a w1, f w0 = (Ok a, w1) -> uploadWithRetry svc f w0 = (Ok (Some a), w1)) /\
     (forall e1 w1, f w0 = (Throw e1, w1) ->
        (forall a w2, f (afterBackoff svc 1 w1) = (Ok a, w2) ->
           uploadWithRetry svc f w0 = (Ok (Some a), w2)) /\
        (forall e2 w2, f (afterBackoff svc 1 w1) = (Throw e2, w2) ->
           (forall a w3, f (afterBackoff svc 2 w2) = (Ok a, w3) ->
              uploadWithRetry svc f w0 = (Ok (Some a), w3)) /\
           (forall e3 w3, f (afterBackoff svc 2 w2) = (Throw e3, w3) ->
              uploadWithRetry svc f w0 = (Throw e3, w3))))) /\
  (* uploadVideo does not throw *)
  (exists td w', uploadVideo svc videoPath originalName videoId w = (Ok td, w')) /\
  (* three failed attempts: not uploaded, with the last failure's message *)
  (forall data e1 e2 e3 w1 w2 w3,
     files w !! videoPath = Some data ->
     let attempt := primaryAttempt svc videoPath originalName videoId (Z.of_nat (length data)) in
     attempt w = (Throw e1, w1) ->
     attempt (afterBackoff svc 1 w1) = (Throw e2, w2) ->
     attempt (afterBackoff svc 2 w2) = (Throw e3, w3) ->
     uploadVideo svc videoPath originalName videoId w = (Ok (notUploadedError e3), w3)).
Proof.
  intros Ht Hc svc.
  destruct (constructor_configured tok chan backups temp Ht Hc)
    as (Hbot & Hmax & Hretries & Hdelay & _).
  fold svc in Hbot, Hmax, Hretries, Hdelay.
  split; [|split; [|split]].
  - unfold delayFor. rewrite Hdelay. split; reflexivity.
  - intros A f w0. apply uploadWithRetry_schedule, Hretries.
  - apply uploadVideo_returns.
  - intros data e1 e2 e3 w1 w2 w3 Hfile attempt H1 H2 H3.
    rewrite (uploadVideo_unfold _ _ _ _ data) by assumption.
    assert (Hretry : uploadWithRetry svc attempt w = (Throw e3, w3)).
    { destruct (uploadWithRetry_schedule svc attempt w Hretries) as [_ Hs].
      destruct (Hs e1 w1 H1) as [_ Hs2]. destruct (Hs2 e2 w2 H2) as [_ Hs3].
      apply Hs3, H3. }
    unfold try_catch.
    erewrite bind_throw; [reflexivity|].
    subst attempt. unfold primaryAttempt in Hretry.
    unfold uploadLargeVideoWithRetry, uploadSmallVideoWithRetry.
    destruct (gt_opt _ _); exact Hretry.
Qed.

Lemma upload_retry_then_not_uploaded_witness :
  exists w3,
    uploadVideo demoService "/srv/app/uploads/clip.mp4" "clip.mp4" "v1"
      (demoWorld [Some "ETIMEDOUT"; Some "ECONNRESET"; Some "socket hang up"])
    = (Ok (notUploadedError "socket hang up"), w3) /\
    trace w3 = [EvSendVideo (Some "-1001234567890") "clip.mp4"; EvSleep (Some 5000);
                EvSendVideo (Some "-1001234567890") "clip.mp4"; EvSleep (Some 10000);
                EvSendVideo (Some "-1001234567890") "clip.mp4"].
Proof.
  eexists. split.
  - eapply (proj2 (proj2 (proj2 (upload_retry_then_not_uploaded
              (Some "123456:token") (Some "-1001234567890") [] "/srv/app/temp"
              "/srv/app/uploads/clip.mp4" "clip.mp4" "v1"
              (demoWorld [Some "ETIMEDOUT"; Some "ECONNRESET"; Some "socket hang up"])
              ltac:(reflexivity) ltac:(reflexivity)))) demoData).
    + vm_compute. reflexivity.
    + vm_compute. reflexivity.
    + vm_compute. reflexivity.
    + vm_compute. reflexivity.
  - vm_compute. reflexivity.
Defined.

End TelegramProofs.

(* ===================================================================== *)
(** * Bulk upload of the segment files *)
(* ===================================================================== *)

Section HlsUploadProofs.
Import Rt TelegramService.

Lemma countb_app {A} (p : A -> bool) (l1 l2 : list A) :
  countb p (l1 ++ l2) = (countb p l1 + countb p l2)%nat.
Proof. unfold countb. rewrite List.filter_app, length_app. reflexivity. Qed.

Lemma countb_cons {A} (p : A -> bool) (x : A) (l : list A) :
  countb p (x :: l) = ((if p x then 1 else 0) + countb p l)%nat.
Proof. unfold countb. simpl. destruct (p x); reflexivity. Qed.

Lemma countb_nil {A} (p : A -> bool) : countb p [] = 0%nat.
Proof. reflexivity. Qed.

Lemma accounts_nil (s : list (option string)) : accounts s [] s.
Proof. split; reflexivity. Qed.

Lemma accounts_app (s s1 s2 : list (option string)) (tr1 tr2 : list Event) :
  accounts s tr1 s1 -> accounts s1 tr2 s2 -> accounts s (tr1 ++ tr2) s2.
Proof.
  intros [-> H1] [-> H2]. split.
  - rewrite countb_app, drop_drop. reflexivity.
  - rewrite !countb_app, H1, H2.
    rewrite <- (take_take_drop s (countb isSend tr1) (countb isSend tr2)).
    rewrite countb_app. reflexivity.
Qed.

Lemma accounts_quiet (s : list (option string)) (e : Event) :
  isSend e = false -> isBackoff e = false -> accounts s [e] s.
Proof.
  intros H1 H2. split; rewrite !countb_cons, ?H1, ?H2; reflexivity.
Qed.

Lemma botSend_cases (ev : Event) (stream : ReadStream) (w : World) :
  let w2 := set_botScript (tail (botScript w)) (log_event ev w) in
  botSend ev stream w =
  match head (botScript w) with
  | Some (Some msg) => (Throw msg, w2)
  | _ =>
      match stream w2 with
      | None => (Throw "ENOENT: no such file or directory", w2)
      | Some content =>
          (Ok {| message_id := nextMessage w2; file_id := freshFileId w2;
                 file_unique_id := freshFileId w2;
                 file_size := Z.of_nat (length content) |},
           store_object (freshFileId w2) content w2)
      end
  end.
Proof.
  unfold botSend. simpl. destruct (botScript w) as [|[msg|] rest]; reflexivity.
Qed.

Lemma accounts_send_one (s : list (option string)) (e : Event) :
  isSend e = true -> isBackoff e = false -> rateLimited (default None (head s)) = false ->
  accounts s [e] (tail s).
Proof.
  intros H1 H2 H3. split; rewrite !countb_cons, ?H1, ?H2, !countb_nil; simpl.
  - destruct s; reflexivity.
  - destruct s as [|o s']; simpl in *; [reflexivity|].
    rewrite countb_cons, H3. reflexivity.
Qed.

Lemma accounts_send_limited (s : list (option string)) (e b : Event) :
  isSend e = true -> isBackoff e = false -> isSend b = false -> isBackoff b = true ->
  rateLimited (default None (head s)) = true ->
  accounts s [e; b] (tail s).
Proof.
  intros H1 H2 H3 H4 H5. split; rewrite !countb_cons, ?H1, ?H2, ?H3, ?H4, !countb_nil; simpl.
  - destruct s; reflexivity.
  - destruct s as [|o s']; simpl in *; [discriminate|].
    rewrite countb_cons, H5. reflexivity.
Qed.

(** The events of the upload of one file: they start with the send of the
    file, contain no inter-batch pause, and account for the script. *)
Lemma uploadHLSFile_spec (svc : t) (videoId : string) (file : HlsFile) :
  forall (n : nat) (retries : Z) (w : World),
    Z.of_nat n = hlsMaxRetries - retries -> 0 <= retries < hlsMaxRetries ->
    exists r w' tr,
      uploadHLSFile svc videoId file n retries w = (Ok (Some r), w') /\
      trace w' = trace w ++ EvSendDocument (primaryChannelId svc) (relativePath file) :: tr /\
      countb isBatchDelay (EvSendDocument (primaryChannelId svc) (relativePath file) :: tr) = 0%nat /\
      Forall (fun e => isSend e = true \/ isBackoff e = true)
        (EvSendDocument (primaryChannelId svc) (relativePath file) :: tr) /\
      accounts (botScript w) (EvSendDocument (primaryChannelId svc) (relativePath file) :: tr)
        (botScript w').
Proof.
  set (ev := EvSendDocument (primaryChannelId svc) (relativePath file)).
  induction n as [|n IH]; intros retries w Hn Hr.
  - unfold hlsMaxRetries in *. lia.
  - cbn [uploadHLSFile]. unfold try_catch, sendDocument. fold ev.
    unfold mbind at 1. unfold M_bind at 1.
    rewrite botSend_cases.
    set (w2 := set_botScript (tail (botScript w)) (log_event ev w)).
    assert (Hquiet : forall s, rateLimited (default None (head s)) = false ->
               accounts s [ev] (tail s)).
    { intros s Hs. apply accounts_send_one; [reflexivity|reflexivity|exact Hs]. }
    assert (Hall1 : Forall (fun e => isSend e = true \/ isBackoff e = true) [ev]).
    { constructor; [left; reflexivity|constructor]. }
    destruct (head (botScript w)) as [[msg|]|] eqn:Hhead.
    + (* the send call rejects *)
      destruct (isRateLimit msg) eqn:Hrl.
      * unfold mbind at 1. unfold M_bind at 1. cbn [sleep emit modify].
        set (w3 := log_event (EvSleep (Some hlsRetryDelay)) w2).
        assert (Hacc : accounts (botScript w) [ev; EvSleep (Some hlsRetryDelay)] (botScript w3)).
        { apply accounts_send_limited; try reflexivity. rewrite Hhead. exact Hrl. }
        destruct (Z.ltb_spec (retries + 1) hlsMaxRetries) as [Hlt|Hge].
        -- destruct (IH (retries + 1) w3 ltac:(lia) ltac:(lia))
             as (r & w' & tr & Hrun & Htr & Hcnt & Hall & Hacc').
           exists r, w', (EvSleep (Some hlsRetryDelay) :: ev :: tr).
           split; [exact Hrun|]. split; [|split; [|split]].
           ++ rewrite Htr. simpl. rewrite <- !app_assoc. reflexivity.
           ++ rewrite !countb_cons in *. simpl in *. exact Hcnt.
           ++ constructor; [left; reflexivity|].
              constructor; [right; reflexivity|exact Hall].
           ++ apply (accounts_app _ _ _ [ev; EvSleep (Some hlsRetryDelay)] (ev :: tr) Hacc Hacc').
        -- eexists _, w3, [EvSleep (Some hlsRetryDelay)].
           split; [reflexivity|]. split; [|split; [|split]].
           ++ simpl. rewrite <- !app_assoc. reflexivity.
           ++ reflexivity.
           ++ constructor; [left; reflexivity|].
              constructor; [right; reflexivity|constructor].
           ++ exact Hacc.
      * eexists _, w2, []. split; [reflexivity|]. split; [reflexivity|].
        split; [reflexivity|]. split; [exact Hall1|].
        apply Hquiet. rewrite Hhead. exact Hrl.
    + (* the script lets the call through *)
      destruct (createReadStream (fullPath file) w2) as [content|].
      * eexists _, _, []. split; [reflexivity|]. split; [reflexivity|].
        split; [reflexivity|]. split; [exact Hall1|].
        apply Hquiet. rewrite Hhead. reflexivity.
      * eexists _, w2, []. split; [reflexivity|]. split; [reflexivity|].
        split; [reflexivity|]. split; [exact Hall1|].
        apply Hquiet. rewrite Hhead. reflexivity.
    + (* exhausted script *)
      destruct (createReadStream (fullPath file) w2) as [content|].
      * eexists _, _, []. split; [reflexivity|]. split; [reflexivity|].
        split; [reflexivity|]. split; [exact Hall1|].
        apply Hquiet. rewrite Hhead. reflexivity.
      * eexists _, w2, []. split; [reflexivity|]. split; [reflexivity|].
        split; [reflexivity|]. split; [exact Hall1|].
        apply Hquiet. rewrite Hhead. reflexivity.
Qed.

Lemma uploadBatch_spec (svc : t) (videoId : string) :
  forall (batch : list HlsFile) (w : World),
    exists rs w' tr,
      uploadBatch svc videoId batch w = (Ok rs, w') /\
      is_Some (definedResults rs) /\
      trace w' = trace w ++ tr /\
      countb isBatchDelay tr = 0%nat /\
      Forall hlsEvent tr /\
      accounts (botScript w) tr (botScript w') /\
      (forall j f, batch !! j = Some f -> sentAfterPauses svc tr f 0).
Proof.
  induction batch as [|file rest IH]; intros w.
  - exists [], w, []. split; [reflexivity|]. split; [eexists; reflexivity|].
    split; [rewrite app_nil_r; reflexivity|]. split; [reflexivity|].
    split; [constructor|]. split; [apply accounts_nil|].
    intros j f Hj. rewrite lookup_nil in Hj. discriminate.
  - destruct (uploadHLSFile_spec svc videoId file (Z.to_nat hlsMaxRetries) 0 w)
      as (r & w1 & tr1 & Hrun & Htr & Hcnt & Hall & Hacc);
      [reflexivity|unfold hlsMaxRetries; lia|].
    destruct (IH w1) as (rs & w' & tr2 & Hrun2 & Hdef & Htr2 & Hcnt2 & Hall2 & Hacc2 & Hsent).
    set (ev := EvSendDocument (primaryChannelId svc) (relativePath file)) in *.
    exists (Some r :: rs), w', ((ev :: tr1) ++ tr2).
    split.
    { cbn [uploadBatch]. erewrite bind_ok by exact Hrun.
      erewrite bind_ok by exact Hrun2. reflexivity. }
    split.
    { destruct Hdef as [l Hl]. simpl. rewrite Hl. eexists; reflexivity. }
    split; [rewrite Htr2, Htr, <- app_assoc; reflexivity|].
    split; [rewrite countb_app, Hcnt, Hcnt2; reflexivity|].
    split.
    { apply Forall_app. split; [|exact Hall2].
      eapply Forall_impl; [exact Hall|]. intros e [H|H]; [left|right; right]; exact H. }
    split; [exact (accounts_app _ _ _ _ _ Hacc Hacc2)|].
    intros [|j] f Hj; simpl in Hj.
    + injection Hj as <-. exists [], (tr1 ++ tr2). split; [reflexivity|reflexivity].
    + destruct (Hsent j f Hj) as (pre & post & -> & Hpre).
      exists ((ev :: tr1) ++ pre), post. split; [rewrite <- app_assoc; reflexivity|].
      rewrite countb_app, Hcnt, Hpre. reflexivity.
Qed.

Lemma definedResults_app (rs1 rs2 : list (option HlsUploadResult)) :
  is_Some (definedResults rs1) -> is_Some (definedResults rs2) ->
  is_Some (definedResults (rs1 ++ rs2)).
Proof.
  induction rs1 as [|[r|] rs1 IH]; intros H1 H2; simpl in *.
  - exact H2.
  - destruct (definedResults rs1) as [l|] eqn:Hl.
    + destruct (IH ltac:(eauto) H2) as [l' ->]. eexists; reflexivity.
    + destruct H1 as [? H1]. discriminate H1.
  - destruct H1 as [? H1]. discriminate H1.
Qed.

Lemma slice_lookup {A} (l : list A) (i : Z) (j : nat) (x : A) :
  0 <= i -> (j < 3)%nat ->
  l !! (Z.to_nat i + j)%nat = Some x ->
  Js.slice l i (i + batchSize) !! j = Some x.
Proof.
  intros Hi Hj Hl. unfold Js.slice, batchSize.
  replace (Z.to_nat (i + 3 - i)) with 3%nat by lia.
  rewrite lookup_take_lt by exact Hj. rewrite lookup_drop. exact Hl.
Qed.

Lemma batchLoop_spec (svc : t) (videoId : string) (hlsFiles : list HlsFile) :
  forall (n : nat) (i : Z) (acc : list (option HlsUploadResult)) (w : World),
    0 <= i ->
    Z.of_nat n = Js.ceil_div (Z.of_nat (length hlsFiles) - i) batchSize ->
    is_Some (definedResults acc) ->
    exists rs w' tr,
      batchLoop svc videoId hlsFiles n i acc w = (Ok rs, w') /\
      is_Some (definedResults rs) /\
      trace w' = trace w ++ tr /\
      countb isBatchDelay tr = (n - 1)%nat /\
      Forall hlsEvent tr /\
      accounts (botScript w) tr (botScript w') /\
      (forall j f, hlsFiles !! (Z.to_nat i + j)%nat = Some f ->
                   sentAfterPauses svc tr f (j / 3)).
Proof.
  assert (Hceil : forall a, 0 < a -> Js.ceil_div a 3 = Js.ceil_div (a - 3) 3 + 1).
  { intros a Ha. unfold Js.ceil_div.
    replace (- (a - 3)) with (- a + 1 * 3) by lia. rewrite Z.div_add by lia. lia. }
  assert (Hceil0 : forall a, a <= 0 -> -3 < a -> Js.ceil_div a 3 = 0).
  { intros a Ha Hb. unfold Js.ceil_div.
    rewrite (Z.div_small (- a) 3) by lia. reflexivity. }
  assert (Hceilpos : forall a, 0 < a -> 0 < Js.ceil_div a 3).
  { intros a Ha. unfold Js.ceil_div.
    pose proof (Z.div_lt_upper_bound (- a) 3 0 ltac:(lia) ltac:(lia)). lia. }
  assert (Hceilneg : forall a, a <= 0 -> Js.ceil_div a 3 <= 0).
  { intros a Ha. unfold Js.ceil_div.
    pose proof (Z.div_pos (- a) 3 ltac:(lia) ltac:(lia)). lia. }
  set (len := Z.of_nat (length hlsFiles)).
  induction n as [|n IH]; intros i acc w Hi Hn Hacc.
  - exists acc, w, []. split; [reflexivity|]. split; [exact Hacc|].
    split; [rewrite app_nil_r; reflexivity|]. split; [reflexivity|].
    split; [constructor|]. split; [apply accounts_nil|].
    intros j f Hj. apply lookup_lt_Some in Hj.
    unfold batchSize in Hn. fold len in Hn.
    destruct (Z.lt_ge_cases 0 (len - i)) as [H|H].
    + pose proof (Hceilpos _ H). lia.
    + subst len. lia.
  - unfold batchSize in Hn. fold len in Hn.
    assert (Hlt : i < len).
    { destruct (Z.lt_ge_cases i len) as [H|H]; [exact H|].
      pose proof (Hceilneg (len - i) ltac:(lia)). lia. }
    rewrite Hceil in Hn by lia.
    cbn [batchLoop].
    destruct (uploadBatch_spec svc videoId (Js.slice hlsFiles i (i + batchSize)) w)
      as (rs1 & w1 & tr1 & Hrun1 & Hdef1 & Htr1 & Hcnt1 & Hall1 & Hacc1 & Hsent1).
    erewrite bind_ok by exact Hrun1.
    fold len.
    destruct (Z.ltb_spec (i + batchSize) len) as [Hmore|Hlast]; unfold batchSize in Hmore || unfold batchSize in Hlast.
    + (* another batch follows: pause *)
      erewrite bind_ok by reflexivity.
      set (w2 := log_event (EvSleep (Some batchDelay)) w1).
      destruct (IH (i + batchSize) (acc ++ rs1) w2) as
        (rs & w' & tr2 & Hrun2 & Hdef2 & Htr2 & Hcnt2 & Hall2 & Hacc2 & Hsent2).
      { unfold batchSize. lia. }
      { unfold batchSize. fold len. replace (len - (i + 3)) with (len - i - 3) by lia. lia. }
      { apply definedResults_app; assumption. }
      assert (Hnpos : (0 < n)%nat).
      { pose proof (Hceilpos (len - i - 3) ltac:(lia)). lia. }
      exists rs, w', (tr1 ++ EvSleep (Some batchDelay) :: tr2).
      split; [exact Hrun2|]. split; [exact Hdef2|].
      split.
      { rewrite Htr2. subst w2. simpl. rewrite Htr1, <- !app_assoc. reflexivity. }
      split.
      { rewrite countb_app, countb_cons, Hcnt1, Hcnt2. simpl. lia. }
      split.
      { apply Forall_app. split; [exact Hall1|].
        constructor; [right; left; reflexivity|exact Hall2]. }
      split.
      { apply (accounts_app _ _ _ tr1 (EvSleep (Some batchDelay) :: tr2) Hacc1).
        apply (accounts_app _ (botScript w1) _ [EvSleep (Some batchDelay)] tr2);
          [apply accounts_quiet; reflexivity|exact Hacc2]. }
      intros j f Hj.
      destruct (Nat.lt_ge_cases j 3) as [Hj3|Hj3].
      * destruct (Hsent1 j f (slice_lookup _ _ _ _ Hi Hj3 Hj)) as (pre & post & -> & Hpre).
        exists pre, (post ++ EvSleep (Some batchDelay) :: tr2).
        split; [rewrite <- app_assoc; reflexivity|].
        rewrite Hpre. symmetry. apply Nat.div_small. exact Hj3.
      * destruct (Hsent2 (j - 3)%nat f) as (pre & post & -> & Hpre).
        { rewrite <- Hj. f_equal. unfold batchSize. lia. }
        exists (tr1 ++ EvSleep (Some batchDelay) :: pre), post.
        split; [rewrite <- app_assoc; reflexivity|].
        assert (Hdiv : (j / 3 = (j - 3) / 3 + 1)%nat).
        { replace j with ((j - 3) + 1 * 3)%nat at 1 by lia.
          rewrite Nat.div_add by lia. reflexivity. }
        rewrite countb_app, countb_cons, Hcnt1, Hpre, Hdiv. simpl. lia.
    + (* last batch *)
      erewrite bind_ok by reflexivity.
      assert (Hn0 : n = 0%nat).
      { pose proof (Hceil0 (len - i - 3) ltac:(lia) ltac:(lia)). lia. }
      subst n. cbn [batchLoop].
      exists (acc ++ rs1), w1, tr1.
      split; [reflexivity|]. split; [apply definedResults_app; assumption|].
      split; [exact Htr1|]. split; [exact Hcnt1|]. split; [exact Hall1|].
      split; [exact Hacc1|].
      intros j f Hj.
      assert (Hj3 : (j < 3)%nat).
      { apply lookup_lt_Some in Hj. subst len. lia. }
      destruct (Hsent1 j f (slice_lookup _ _ _ _ Hi Hj3 Hj)) as (pre & post & -> & Hpre).
      exists pre, post. split; [reflexivity|].
      rewrite Hpre. symmetry. apply Nat.div_small. exact Hj3.
Qed.

(** C8: when more than 100 candidate files are found the operation returns
    the not-uploaded "too many files" result and leaves the world as it
    was: nothing is sent.  Otherwise (at least one file) the files are
    sent batch by batch: file number [j] is sent after exactly [j / 3]
    pauses of 3000 ms, there is one such pause between two consecutive
    batches and none after the last, and the only other sleeps are
    back-offs of 45000 ms, one for each rate-limit signal received. *)
Theorem uploadHLSFiles_ceiling_and_batches
    (svc : t) (hlsDir videoId : string) (entries : list (string * FsNode)) (w : World) :
  bot svc = true ->
  trees w !! hlsDir = Some (FsDir entries) ->
  let hlsFiles := findHLSFiles entries hlsDir "" in
  let total := Z.of_nat (length hlsFiles) in
  (100 < total ->
     uploadHLSFiles svc hlsDir videoId w = (Ok (hlsTooMany total), w) /\
     hls_uploaded (hlsTooMany total) = false) /\
  (0 < total <= 100 ->
     exists r w' tr,
       uploadHLSFiles svc hlsDir videoId w = (Ok r, w') /\
       hls_uploadMethod r = Some hls_batch /\
       hls_totalFiles r = Some total /\
       trace w' = trace w ++ tr /\
       Forall hlsEvent tr /\
       countb isBatchDelay tr = Z.to_nat (Js.ceil_div total 3 - 1) /\
       (forall j f, hlsFiles !! j = Some f -> sentAfterPauses svc tr f (j / 3)) /\
       countb isBackoff tr
         = countb rateLimited (take (countb isSend tr) (botScript w))).
Proof.
  intros Hbot Hdir hlsFiles total.
  assert (Hhead :
    uploadHLSFiles svc hlsDir videoId w =
    try_catch
      (let total := Z.of_nat (length hlsFiles) in
       if total =? 0 then mret (hlsNotUploaded (Some "No HLS files found") None)
       else if 100 <? total then mret (hlsTooMany total)
       else
         uploadResults ← batchLoop svc videoId hlsFiles
                           (Z.to_nat (Js.ceil_div total batchSize)) 0 [];
         match definedResults uploadResults with
         | None => throw "Cannot read properties of undefined (reading 'uploaded')"
         | Some results =>
             let successfulUploads := Z.of_nat (length (filter (fun r => r_uploaded r = true) results)) in
             mret {| hls_uploaded := 0 <? successfulUploads;
                     hls_reason := None; hls_error := None;
                     hls_totalFiles := Some total;
                     hls_recommendation := None;
                     hls_successfulUploads := Some successfulUploads;
                     hls_uploadResults := results;
                     hls_uploadMethod := Some hls_batch |}
         end)
      (fun error_ => mret (hlsNotUploaded None (Some error_))) w).
  { unfold uploadHLSFiles. rewrite Hbot. cbn [negb].
    unfold pathExists. erewrite bind_ok; cycle 1.
    { erewrite bind_ok by reflexivity. reflexivity. }
    rewrite Hdir. rewrite (bool_decide_eq_true_2 (is_Some (Some (FsDir entries)))) by eauto.
    rewrite orb_true_r. cbn [negb].
    unfold try_catch. erewrite bind_ok by reflexivity. rewrite Hdir.
    erewrite bind_ok by reflexivity. reflexivity. }
  rewrite Hhead. clear Hhead. fold total.
  split.
  - intros Hmany. split; [|reflexivity]. unfold try_catch. cbn zeta.
    destruct (Z.eqb_spec total 0) as [H0|_]; [lia|].
    destruct (Z.ltb_spec 100 total) as [_|H]; [reflexivity|lia].
  - intros [Hpos Hle].
    destruct (batchLoop_spec svc videoId hlsFiles
                (Z.to_nat (Js.ceil_div total batchSize)) 0 [] w)
      as (rs & w' & tr & Hrun & [results Hdef] & Htr & Hcnt & Hall & [Hscript Hacc] & Hsent).
    { lia. }
    { rewrite Z.sub_0_r. fold total. rewrite Z2Nat.id; [reflexivity|].
      unfold Js.ceil_div, batchSize.
      pose proof (Z.div_lt_upper_bound (- total) 3 0 ltac:(lia) ltac:(lia)). lia. }
    { eexists; reflexivity. }
    eexists _, w', tr. unfold try_catch. cbn zeta.
    destruct (Z.eqb_spec total 0) as [H0|_]; [lia|].
    destruct (Z.ltb_spec 100 total) as [H|_]; [lia|].
    erewrite bind_ok by exact Hrun. rewrite Hdef.
    split; [reflexivity|]. split; [reflexivity|]. split; [reflexivity|].
    split; [exact Htr|]. split; [exact Hall|].
    split.
    { rewrite Hcnt. unfold batchSize. lia. }
    split; [|exact Hacc].
    intros j f Hj. apply Hsent. exact Hj.
Qed.

Lemma uploadHLSFiles_ceiling_and_batches_witness :
  (uploadHLSFiles demoService "/srv/app/hls/v2" "v2" hlsCrowdedWorld
     = (Ok (hlsTooMany 101), hlsCrowdedWorld) /\
   hls_uploaded (hlsTooMany 101) = false) /\
  (exists r w' tr,
     uploadHLSFiles demoService "/srv/app/hls/v1" "v1"
       (hlsDemoWorld [None; Some "ETELEGRAM: 429 Too Many Requests: retry after 30"])
       = (Ok r, w') /\
     hls_uploadMethod r = Some hls_batch /\
     hls_totalFiles r = Some 5 /\
     trace w' = [] ++ tr /\
     Forall hlsEvent tr /\
     countb isBatchDelay tr = 1%nat /\
     (forall j f,
        [ {| fullPath := "/srv/app/hls/v1/720p/playlist.m3u8"; relativePath := "720p/playlist.m3u8"; h_size := 1 |};
          {| fullPath := "/srv/app/hls/v1/720p/segment_000.ts"; relativePath := "720p/segment_000.ts"; h_size := 1 |};
          {| fullPath := "/srv/app/hls/v1/720p/segment_001.ts"; relativePath := "720p/segment_001.ts"; h_size := 1 |};
          {| fullPath := "/srv/app/hls/v1/720p/segment_002.ts"; relativePath := "720p/segment_002.ts"; h_size := 1 |};
          {| fullPath := "/srv/app/hls/v1/playlist.m3u8"; relativePath := "playlist.m3u8"; h_size := 1 |} ] !! j = Some f ->
        sentAfterPauses demoService tr f (j / 3)) /\
     countb isBackoff tr
       = countb rateLimited
           (take (countb isSend tr) [None; Some "ETELEGRAM: 429 Too Many Requests: retry after 30"])).
Proof.
  split.
  - apply (proj1 (uploadHLSFiles_ceiling_and_batches demoService "/srv/app/hls/v2" "v2"
                    (map (fun i => ("segment_" +:+ pretty i +:+ ".ts", FsFile 1)) (seqZ 0 101))
                    hlsCrowdedWorld ltac:(reflexivity) ltac:(vm_compute; reflexivity))).
    vm_compute. reflexivity.
  - apply (proj2 (uploadHLSFiles_ceiling_and_batches demoService "/srv/app/hls/v1" "v1"
                    [("720p", FsDir [("notes.txt", FsFile 1);
                                     ("playlist.m3u8", FsFile 1);
                                     ("segment_000.ts", FsFile 1);
                                     ("segment_001.ts", FsFile 1);
                                     ("segment_002.ts", FsFile 1)]);
                     ("playlist.m3u8", FsFile 1)]
                    (hlsDemoWorld [None; Some "ETELEGRAM: 429 Too Many Requests: retry after 30"])
                    ltac:(reflexivity) ltac:(vm_compute; reflexivity))).
    vm_compute. split; [reflexivity|]. intros H; discriminate H.
Defined.

Example uploadHLSFiles_demo_trace :
  trace (uploadHLSFiles demoService "/srv/app/hls/v1" "v1"
           (hlsDemoWorld [None; Some "ETELEGRAM: 429 Too Many Requests: retry after 30"])).2 =
  [ EvSendDocument (Some "-1001234567890") "720p/playlist.m3u8";
    EvSendDocument (Some "-1001234567890") "720p/segment_000.ts";
    EvSleep (Some 45000);
    EvSendDocument (Some "-1001234567890") "720p/segment_000.ts";
    EvSendDocument (Some "-1001234567890") "720p/segment_001.ts";
    EvSleep (Some 3000);
    EvSendDocument (Some "-1001234567890") "720p/segment_002.ts";
    EvSendDocument (Some "-1001234567890") "playlist.m3u8" ].
Proof. vm_compute. reflexivity. Qed.

End HlsUploadProofs.

(* ===================================================================== *)
(** * Audio-track extraction *)
(* ===================================================================== *)

Section AudioExtractorProofs.
Import Rt VideoProcessor AudioExtractor.

(** C9: for a missing track list and for a list of at most one track,
    [extractAudioTracks] returns the empty list and leaves the world as it
    was: no directory is prepared, [ffmpeg] is not run, the progress
    callback is not called. *)
Theorem extractAudioTracks_single_or_none
    (audioRoot videoPath videoId : string)
    (audioTracks : option (list AudioStream))
    (progressCallback : option ProgressCallback) (w : World) :
  (audioTracks = None \/
   exists tracks, audioTracks = Some tracks /\ (length tracks <= 1)%nat) ->
  extractAudioTracks audioRoot videoPath videoId audioTracks progressCallback w = (Ok [], w).
Proof.
  intros [->|(tracks & -> & Hlen)]; [reflexivity|].
  unfold extractAudioTracks.
  destruct (Z.leb_spec (Z.of_nat (length tracks)) 1) as [_|H]; [reflexivity|lia].
Qed.

Lemma extractAudioTracks_single_or_none_witness :
  extractAudioTracks "/srv/app/audio" "/srv/app/uploads/clip.mp4" "v1"
    (Some [demoTrack "eng" "Main"]) (Some recordProgress) audioDemoWorld
  = (Ok [], audioDemoWorld).
Proof.
  apply (extractAudioTracks_single_or_none "/srv/app/audio" "/srv/app/uploads/clip.mp4" "v1"
           (Some [demoTrack "eng" "Main"]) (Some recordProgress) audioDemoWorld).
  right. exists [demoTrack "eng" "Main"]. split; [reflexivity|]. simpl. lia.
Defined.

(** With two tracks the extraction does run: one [ffmpeg] run per track. *)
Example extractAudioTracks_two_tracks :
  let r := extractAudioTracks "/srv/app/audio" "/srv/app/uploads/clip.mp4" "v1"
             (Some [demoTrack "eng" "Main"; demoTrack "fra" "Commentary #2"])
             (Some recordProgress) audioDemoWorld in
  (map fileName <$> (match r.1 with Ok l => Some l | Throw _ => None end)
   = Some ["v1_eng_main_track0.aac"]) /\
  trace r.2 =
  [ EvEnsureDir "/srv/app/audio/v1";
    EvProgress 0 "Starting audio extraction for 2 tracks";
    EvProgress 0 "Extracting audio track 1: Main";
    EvFfmpeg "/srv/app/uploads/clip.mp4" "/srv/app/audio/v1/v1_eng_main_track0.aac" 0;
    EvProgress 50 "Extracting audio track 2: Commentary #2";
    EvFfmpeg "/srv/app/uploads/clip.mp4" "/srv/app/audio/v1/v1_fra_commentary__2_track1.aac" 1;
    EvProgress 100 "Audio extraction complete: 1/2 tracks extracted" ].
Proof. vm_compute. split; reflexivity. Qed.

End AudioExtractorProofs.

(* ===================================================================== *)
(** * Range handling of the stream endpoint *)
(* ===================================================================== *)

Section StreamProofs.
Import Rt Server.

Lemma digit_cases (c : ascii) :
  isDigit c = true ->
  c = "0"%char \/ c = "1"%char \/ c = "2"%char \/ c = "3"%char \/ c = "4"%char \/
  c = "5"%char \/ c = "6"%char \/ c = "7"%char \/ c = "8"%char \/ c = "9"%char.
Proof.
  destruct c as [[] [] [] [] [] [] [] []]; vm_compute; intros H;
    try discriminate H; auto 10.
Qed.

Lemma pretty_N_char_digit (r : N) :
  (r < 10)%N ->
  isDigit (pretty_N_char r) = true /\
  Js.digitValue (pretty_N_char r) = Some (Z.of_N r).
Proof.
  intros Hr.
  assert (r = 0 \/ r = 1 \/ r = 2 \/ r = 3 \/ r = 4 \/ r = 5 \/ r = 6 \/ r = 7 \/ r = 8 \/ r = 9)%N
    as H by lia.
  repeat (destruct H as [->|H]; [split; reflexivity|]). subst. split; reflexivity.
Qed.

Lemma allDigits_app (d1 d2 : string) :
  allDigits (d1 +:+ d2) = allDigits d1 && allDigits d2.
Proof.
  induction d1 as [|c d1 IH]; [reflexivity|].
  change (String c d1 +:+ d2) with (String c (d1 +:+ d2)). simpl.
  rewrite IH, andb_assoc. reflexivity.
Qed.

Lemma valAcc_app (acc : Z) (d1 d2 : string) :
  valAcc acc (d1 +:+ d2) = valAcc (valAcc acc d1) d2.
Proof.
  revert acc. induction d1 as [|c d1 IH]; intros acc; [reflexivity|].
  change (String c d1 +:+ d2) with (String c (d1 +:+ d2)). simpl. apply IH.
Qed.

(** [pretty_N_go x s] prepends to [s] the decimal digits of [x]. *)
Lemma pretty_N_go_digits (x : N) (s : string) :
  exists d, pretty_N_go x s = d +:+ s /\ allDigits d = true /\
            valAcc 0 d = Z.of_N x /\ ((0 < x)%N -> d <> EmptyString).
Proof.
  revert s. induction (N.lt_wf_0 x) as [x _ IH]. intros s.
  destruct (N.eq_dec x 0%N) as [->|Hx].
  - exists EmptyString. rewrite pretty_N_go_0. repeat split. intros H. lia.
  - rewrite pretty_N_go_step by lia.
    destruct (IH (x `div` 10)%N ltac:(apply N.div_lt; lia)
                (String (pretty_N_char (x `mod` 10)) s)) as (d & Hd & Hall & Hval & _).
    destruct (pretty_N_char_digit (x `mod` 10)%N ltac:(apply N.mod_lt; lia)) as [Hdig Hdv].
    exists (d +:+ String (pretty_N_char (x `mod` 10)) EmptyString).
    split; [|split; [|split]].
    + rewrite Hd, str_app_assoc. reflexivity.
    + rewrite allDigits_app, Hall. simpl. rewrite Hdig. reflexivity.
    + rewrite valAcc_app, Hval. simpl. rewrite Hdv. simpl.
      pose proof (N.div_mod x 10 ltac:(lia)). lia.
    + intros _ Heq. destruct d; discriminate Heq.
Qed.

(** The decimal form of a natural number. *)
Lemma pretty_nonneg_digits (z : Z) :
  0 <= z ->
  allDigits (pretty z) = true /\ valAcc 0 (pretty z) = z /\ pretty z <> EmptyString.
Proof.
  intros Hz. destruct z as [|p|p]; [repeat split; discriminate| |lia].
  change (pretty (Z.pos p)) with (pretty (N.pos p)).
  unfold pretty, pretty_N. destruct (decide (N.pos p = 0%N)) as [H|_]; [discriminate H|].
  destruct (pretty_N_go_digits (N.pos p) EmptyString) as (d & Hd & Hall & Hval & Hne).
  assert (Hd' : pretty_N_go (N.pos p) "" = d).
  { rewrite Hd. clear. induction d as [|c d IH]; [reflexivity|].
    change (String c d +:+ "") with (String c (d +:+ "")). rewrite IH. reflexivity. }
  rewrite Hd'. split; [exact Hall|]. split; [rewrite Hval; reflexivity|].
  apply Hne. lia.
Qed.

Lemma parseDigits_decimal (d : string) (acc : option Z) :
  allDigits d = true -> d <> EmptyString ->
  Js.parseDigits 10 d acc = Some (valAcc (default 0 acc) d).
Proof.
  revert acc. induction d as [|c d IH]; intros acc Hall Hne; [contradiction|].
  simpl in Hall. apply andb_prop in Hall as [Hc Hall].
  assert (Hstep : Js.parseDigits 10 (String c d) acc =
                  Js.parseDigits 10 d (Some (default 0 acc * 10 + default 0 (Js.digitValue c)))).
  { destruct (digit_cases c Hc) as [->|[->|[->|[->|[->|[->|[->|[->|[->| ->]]]]]]]]];
      reflexivity. }
  rewrite Hstep. destruct d as [|c' d'].
  - reflexivity.
  - rewrite IH by (assumption || discriminate). reflexivity.
Qed.

Lemma parseInt_decimal (d : string) :
  allDigits d = true -> d <> EmptyString ->
  Js.parseInt d 10 = Some (valAcc 0 d).
Proof.
  intros Hall Hne. destruct d as [|c d]; [contradiction|].
  assert (Hc : isDigit c = true) by (simpl in Hall; apply andb_prop in Hall as [H _]; exact H).
  assert (Hhead : Js.parseInt (String c d) 10 =
                  (fun v => 1 * v) <$> Js.parseDigits 10 (String c d) None).
  { destruct (digit_cases c Hc) as [->|[->|[->|[->|[->|[->|[->|[->|[->| ->]]]]]]]]];
      reflexivity. }
  rewrite Hhead, parseDigits_decimal by assumption.
  simpl. f_equal. destruct (valAcc _ d); reflexivity.
Qed.

Lemma parseInt_pretty (z : Z) : 0 <= z -> Js.parseInt (pretty z) 10 = Some z.
Proof.
  intros Hz. destruct (pretty_nonneg_digits z Hz) as (Hall & Hval & Hne).
  rewrite parseInt_decimal by assumption. rewrite Hval. reflexivity.
Qed.

Lemma split_digits (d : string) :
  allDigits d = true -> Js.split "-"%char d = [d].
Proof.
  induction d as [|c d IH]; intros Hall; [reflexivity|].
  simpl in Hall. apply andb_prop in Hall as [Hc Hall].
  assert (Hstep : Js.split "-"%char (String c d) =
                  match Js.split "-"%char d with
                  | first :: others => String c first :: others
                  | [] => [String c EmptyString]
                  end).
  { destruct (digit_cases c Hc) as [->|[->|[->|[->|[->|[->|[->|[->|[->| ->]]]]]]]]];
      reflexivity. }
  rewrite Hstep, IH by exact Hall. reflexivity.
Qed.

Lemma split_digits_dash (d rest : string) :
  allDigits d = true ->
  Js.split "-"%char (d +:+ String "-"%char rest) = d :: Js.split "-"%char rest.
Proof.
  induction d as [|c d IH]; intros Hall; [reflexivity|].
  simpl in Hall. apply andb_prop in Hall as [Hc Hall].
  change (String c d +:+ String "-"%char rest) with (String c (d +:+ String "-"%char rest)).
  assert (Hstep : forall s, Js.split "-"%char (String c s) =
                  match Js.split "-"%char s with
                  | first :: others => String c first :: others
                  | [] => [String c EmptyString]
                  end).
  { intros s. destruct (digit_cases c Hc) as [->|[->|[->|[->|[->|[->|[->|[->|[->| ->]]]]]]]]];
      reflexivity. }
  rewrite Hstep, IH by exact Hall. reflexivity.
Qed.

Lemma dropChars_app (p x : string) : Js.dropChars (String.length p) (p +:+ x) = x.
Proof. induction p as [|c p IH]; [destruct x; reflexivity|exact IH]. Qed.

Lemma replaceFirst_prefix (p x r : string) :
  Js.replaceFirst (p +:+ x) p r = r +:+ x.
Proof.
  assert (Hunfold : forall s,
    Js.replaceFirst s p r =
    if String.prefix p s then r +:+ Js.dropChars (String.length p) s
    else match s with
         | EmptyString => EmptyString
         | String c rest => String c (Js.replaceFirst rest p r)
         end).
  { intros s. destruct s; reflexivity. }
  rewrite Hunfold, str_prefix_app, dropChars_app. reflexivity.
Qed.

Lemma rangeHeader_truthy (start end_ : Z) : Js.truthy_str (Some (rangeHeader start end_)) = true.
Proof. reflexivity. Qed.

Lemma rangeHeader_parts (start end_ : Z) :
  0 <= start -> 0 <= end_ ->
  Js.split "-"%char (Js.replaceFirst (rangeHeader start end_) "bytes=" "")
  = [pretty start; pretty end_].
Proof.
  intros Hs He. unfold rangeHeader. rewrite replaceFirst_prefix.
  change ("" +:+ pretty start +:+ "-" +:+ pretty end_)
    with (pretty start +:+ String "-"%char (pretty end_)).
  destruct (pretty_nonneg_digits start Hs) as (Hall1 & _ & _).
  destruct (pretty_nonneg_digits end_ He) as (Hall2 & _ & _).
  rewrite split_digits_dash by exact Hall1. rewrite split_digits by exact Hall2. reflexivity.
Qed.

Lemma truthy_pretty (z : Z) : 0 <= z -> Js.truthy_str (Some (pretty z)) = true.
Proof.
  intros Hz. destruct (pretty_nonneg_digits z Hz) as (_ & _ & Hne).
  simpl. destruct (String.eqb_spec (pretty z) ""); [contradiction|reflexivity].
Qed.

(** What lines 797-809 do with a [bytes=start-end] header when the stream
    accepts ranges. *)
Lemma rangeHandling_partial (sd : StreamData) (res : Response) (start end_ : Z) :
  0 <= start -> 0 <= end_ -> acceptsRanges sd = true ->
  rangeHandling (Some (rangeHeader start end_)) sd res =
  setHeader "Content-Length" (pretty (end_ - start + 1))
    (setHeader "Content-Range"
       ("bytes " +:+ pretty start +:+ "-" +:+ pretty end_ +:+ "/" +:+ pretty (contentLength sd))
       (setStatus 206 res)).
Proof.
  intros Hs He Hacc. unfold rangeHandling.
  rewrite rangeHeader_truthy, Hacc. cbn [andb default from_option id].
  rewrite rangeHeader_parts by assumption.
  cbn [lookup list_lookup default from_option id].
  rewrite truthy_pretty by exact He.
  rewrite !parseInt_pretty by assumption.
  reflexivity.
Qed.

Lemma api_stream_reaches_stream (streamVideo : StreamVideo) (videoId : string)
    (range_ : option string) (video : Video) (w w' : World) (sd : StreamData) :
  dbScript w = [] ->
  db w !! videoId = Some video ->
  isUploaded (telegramData video) = true ->
  isLargeChunked video && hlsAvailable video = false ->
  streamVideo (telegramData video) range_ (originalName video) w = (Ok sd, w') ->
  failsBeforeData sd = false ->
  exists res0,
    api_stream streamVideo videoId range_ w
      = (Ok (setBody BodyCloudStream (rangeHandling range_ sd res0)), w') /\
    status res0 = 200 /\
    getHeader "Content-Range" res0 = None /\
    getHeader "Content-Length" res0 = None.
Proof.
  intros Hscript Hdb Hup Hhls Hstream Hfail.
  eexists. split.
  - unfold api_stream, try_catch, Database.getVideo, Database.incrementViewCount, Database.dbCall.
    unfold mbind at 1. unfold M_bind at 1. rewrite Hscript.
    unfold mbind at 1. unfold M_bind at 1. cbn [get mret M_ret].
    rewrite Hdb, Hup. cbn [negb]. rewrite Hhls.
    unfold mbind at 1. unfold M_bind at 1. rewrite Hscript. cbn [mret M_ret].
    unfold mbind at 1. unfold M_bind at 1. rewrite Hstream, Hfail.
    reflexivity.
  - split; [reflexivity|]. split; reflexivity.
Qed.

Lemma getHeader_setHeader_eq (name value : string) (res : Response) :
  getHeader name (setHeader name value res) = Some value.
Proof.
  unfold getHeader, setHeader. cbn [headers].
  induction (headers res) as [|[k v] hs IH]; simpl.
  - rewrite String.eqb_refl. reflexivity.
  - destruct (String.eqb_spec k name) as [->|Hne]; simpl; [exact IH|].
    destruct (String.eqb_spec k name) as [->|_]; [contradiction|exact IH].
Qed.

Lemma getHeader_setHeader_ne (name other value : string) (res : Response) :
  name <> other ->
  getHeader name (setHeader other value res) = getHeader name res.
Proof.
  intros Hne. unfold getHeader, setHeader. cbn [headers].
  induction (headers res) as [|[k v] hs IH]; simpl.
  - destruct (String.eqb_spec other name) as [->|_]; [contradiction|reflexivity].
  - destruct (String.eqb_spec k other) as [->|Hko]; simpl.
    + destruct (String.eqb_spec other name) as [->|_]; [contradiction|exact IH].
    + destruct (String.eqb_spec k name) as [->|_]; [reflexivity|exact IH].
Qed.

Lemma getHeader_setBody (name : string) (b : Body) (res : Response) :
  getHeader name (setBody b res) = getHeader name res.
Proof. reflexivity. Qed.

Lemma getHeader_setStatus (name : string) (code : Z) (res : Response) :
  getHeader name (setStatus code res) = getHeader name res.
Proof. reflexivity. Qed.

(** C6 (amended): when the request is served from a cloud stream that
    accepts ranges, a header [bytes=start-end] yields status 206 with
    [Content-Range: bytes start-end/total] and [Content-Length] equal to
    [end - start + 1]; without a [Range] header the status stays 200 and
    [Content-Length] is the total length; when the stream does not accept
    ranges, a [Range] header gets status 200 and neither [Content-Range]
    nor [Content-Length].  The numbers of the header and the total length
    are below 2^53. *)
Theorem stream_range_partial_content
    (streamVideo : StreamVideo) (videoId : string) (video : Video)
    (w w' : World) (sd : StreamData) :
  dbScript w = [] ->
  db w !! videoId = Some video ->
  isUploaded (telegramData video) = true ->
  isLargeChunked video && hlsAvailable video = false ->
  failsBeforeData sd = false ->
  0 <= contentLength sd < 2 ^ 53 ->
  (forall start end_,
     0 <= start < 2 ^ 53 -> 0 <= end_ < 2 ^ 53 ->
     acceptsRanges sd = true ->
     streamVideo (telegramData video) (Some (rangeHeader start end_)) (originalName video) w
       = (Ok sd, w') ->
     exists res,
       api_stream streamVideo videoId (Some (rangeHeader start end_)) w = (Ok res, w') /\
       status res = 206 /\
       getHeader "Content-Range" res
         = Some ("bytes " +:+ pretty start +:+ "-" +:+ pretty end_ +:+ "/" +:+
                 pretty (contentLength sd)) /\
       getHeader "Content-Length" res = Some (pretty (end_ - start + 1)) /\
       body res = BodyCloudStream) /\
  (streamVideo (telegramData video) None (originalName video) w = (Ok sd, w') ->
   exists res,
     api_stream streamVideo videoId None w = (Ok res, w') /\
     status res = 200 /\
     getHeader "Content-Length" res = Some (pretty (contentLength sd)) /\
     getHeader "Content-Range" res = None /\
     body res = BodyCloudStream) /\
  (forall range_,
     range_ <> "" ->
     acceptsRanges sd = false ->
     streamVideo (telegramData video) (Some range_) (originalName video) w = (Ok sd, w') ->
     exists res,
       api_stream streamVideo videoId (Some range_) w = (Ok res, w') /\
       status res = 200 /\
       getHeader "Content-Range" res = None /\
       getHeader "Content-Length" res = None /\
       body res = BodyCloudStream).
Proof.
  intros Hscript Hdb Hup Hhls Hfail _. split; [|split].
  - intros start end_ [Hs _] [He _] Hacc Hstream.
    destruct (api_stream_reaches_stream streamVideo videoId _ video w w' sd
                Hscript Hdb Hup Hhls Hstream Hfail) as (res0 & Hrun & Hst & Hcr & Hcl).
    eexists. split; [exact Hrun|].
    rewrite rangeHandling_partial by assumption.
    split; [reflexivity|]. split; [|split; [|reflexivity]].
    + rewrite getHeader_setBody, getHeader_setHeader_ne by discriminate.
      apply getHeader_setHeader_eq.
    + rewrite getHeader_setBody. apply getHeader_setHeader_eq.
  - intros Hstream.
    destruct (api_stream_reaches_stream streamVideo videoId _ video w w' sd
                Hscript Hdb Hup Hhls Hstream Hfail) as (res0 & Hrun & Hst & Hcr & Hcl).
    eexists. split; [exact Hrun|].
    unfold rangeHandling. cbn [Js.truthy_str andb negb].
    split; [exact Hst|]. split; [|split; [|reflexivity]].
    + rewrite getHeader_setBody. apply getHeader_setHeader_eq.
    + rewrite getHeader_setBody, getHeader_setHeader_ne by discriminate. exact Hcr.
  - intros range_ Hrange Hacc Hstream.
    destruct (api_stream_reaches_stream streamVideo videoId _ video w w' sd
                Hscript Hdb Hup Hhls Hstream Hfail) as (res0 & Hrun & Hst & Hcr & Hcl).
    eexists. split; [exact Hrun|].
    unfold rangeHandling. rewrite Hacc, andb_false_r.
    assert (Htruthy : Js.truthy_str (Some range_) = true).
    { destruct range_; [contradiction|reflexivity]. }
    rewrite Htruthy. cbn [negb].
    split; [exact Hst|]. split; [exact Hcr|]. split; [exact Hcl|reflexivity].
Qed.

Lemma stream_range_partial_content_witness :
  (exists res,
     api_stream (alwaysStreams (thousandBytes true)) "v1" (Some (rangeHeader 100 199))
       (storeWorld cloudVideo) = (Ok res, storeWorld cloudVideo) /\
     status res = 206 /\
     getHeader "Content-Range" res
       = Some ("bytes " +:+ pretty 100 +:+ "-" +:+ pretty 199 +:+ "/" +:+
               pretty (contentLength (thousandBytes true))) /\
     getHeader "Content-Length" res = Some (pretty (199 - 100 + 1)) /\
     body res = BodyCloudStream) /\
  (exists res,
     api_stream (alwaysStreams (thousandBytes true)) "v1" None (storeWorld cloudVideo)
       = (Ok res, storeWorld cloudVideo) /\
     status res = 200 /\
     getHeader "Content-Length" res = Some (pretty (contentLength (thousandBytes true))) /\
     getHeader "Content-Range" res = None /\
     body res = BodyCloudStream) /\
  (exists res,
     api_stream (alwaysStreams (thousandBytes false)) "v1" (Some (rangeHeader 100 199))
       (storeWorld cloudVideo) = (Ok res, storeWorld cloudVideo) /\
     status res = 200 /\
     getHeader "Content-Range" res = None /\
     getHeader "Content-Length" res = None /\
     body res = BodyCloudStream).
Proof.
  pose proof (stream_range_partial_content (alwaysStreams (thousandBytes true)) "v1"
                cloudVideo (storeWorld cloudVideo) (storeWorld cloudVideo) (thousandBytes true)
                ltac:(reflexivity) ltac:(vm_compute; reflexivity) ltac:(reflexivity)
                ltac:(reflexivity) ltac:(reflexivity) ltac:(split; [vm_compute; discriminate|reflexivity]))
    as (Hrange & Hfull & _).
  pose proof (stream_range_partial_content (alwaysStreams (thousandBytes false)) "v1"
                cloudVideo (storeWorld cloudVideo) (storeWorld cloudVideo) (thousandBytes false)
                ltac:(reflexivity) ltac:(vm_compute; reflexivity) ltac:(reflexivity)
                ltac:(reflexivity) ltac:(reflexivity) ltac:(split; [vm_compute; discriminate|reflexivity]))
    as (_ & _ & Hrefused).
  split; [|split].
  - apply (Hrange 100 199); [split; [lia|reflexivity]|split; [lia|reflexivity]|
                             reflexivity|reflexivity].
  - apply Hfull. reflexivity.
  - apply (Hrefused (rangeHeader 100 199)); [discriminate|reflexivity|reflexivity].
Defined.

(** The example of the specification: [bytes=100-199] of 1000 bytes. *)
Example stream_range_100_199 :
  exists res,
    (api_stream (alwaysStreams (thousandBytes true)) "v1" (Some "bytes=100-199")
       (storeWorld cloudVideo)).1 = Ok res /\
    status res = 206 /\
    getHeader "Content-Range" res = Some "bytes 100-199/1000" /\
    getHeader "Content-Length" res = Some "100" /\
    getHeader "Accept-Ranges" res = Some "bytes".
Proof. eexists. vm_compute. repeat split. Qed.

(** C6, as stated, fails: a [Range] header sent to a stream that does not
    accept ranges gets status 200 and neither [Content-Range] nor
    [Content-Length]. *)
Lemma stream_range_not_accepted_counterexample :
  exists res,
    (api_stream (alwaysStreams (thousandBytes false)) "v1" (Some "bytes=100-199")
       (storeWorld cloudVideo)).1 = Ok res /\
    status res = 200 /\
    status res <> 206 /\
    getHeader "Content-Range" res = None /\
    getHeader "Content-Length" res = None.
Proof.
  eexists. vm_compute. split; [reflexivity|]. split; [reflexivity|].
  split; [discriminate|]. split; reflexivity.
Qed.

End StreamProofs.

(* ===================================================================== *)
(** * HLS file endpoint and audio-track endpoint *)
(* ===================================================================== *)

Section PlaybackProofs.
Import Rt Server.

(** What the guard of the HLS endpoint does ensure: a path that does not
    have the video's HLS directory as a string prefix is refused with 403,
    before the file system is looked at. *)
Lemma api_hls_forbidden (dirname videoId param0 : string) (video : Video) (w : World) :
  dbScript w = [] ->
  db w !! videoId = Some video ->
  Js.startsWith
    (Path.join [Path.join [dirname; "hls"; videoId]; Js.or_str (Some param0) "playlist.m3u8"])
    (Path.join [dirname; "hls"; videoId]) = false ->
  api_hls dirname videoId param0 w = (Ok (json 403 "Forbidden" None newResponse), w).
Proof.
  intros Hscript Hdb Hguard.
  unfold api_hls, try_catch, Database.getVideo, Database.dbCall.
  unfold mbind at 1. unfold M_bind at 1. rewrite Hscript.
  unfold mbind at 1. unfold M_bind at 1. cbn [get mret M_ret].
  rewrite Hdb, Hguard. reflexivity.
Qed.

Example api_hls_parent_directory_forbidden :
  api_hls "/srv/app" "7c9e6679-7425-40de-944b-e07fc1f90ae7" "../../server.js" hlsGuardWorld
  = (Ok (json 403 "Forbidden" None newResponse), hlsGuardWorld).
Proof.
  apply (api_hls_forbidden _ _ _ hlsVideo); [reflexivity| |]; vm_compute; reflexivity.
Qed.

(** C10 fails on the code: the guard compares string prefixes, so a
    request that leaves the video's HLS directory for a sibling directory
    whose name starts with the video's id passes it; the handler answers
    200 and streams a file that lies outside the video's directory. *)
Theorem api_hls_guard_passes_sibling_directory :
  let videoId := "7c9e6679-7425-40de-944b-e07fc1f90ae7" in
  let requestPath := "../7c9e6679-7425-40de-944b-e07fc1f90ae7.bak/playlist.m3u8" in
  let hlsDir := Path.join ["/srv/app"; "hls"; videoId] in
  let filePath := Path.join [hlsDir; requestPath] in
  hlsDir = "/srv/app/hls/7c9e6679-7425-40de-944b-e07fc1f90ae7" /\
  filePath = "/srv/app/hls/7c9e6679-7425-40de-944b-e07fc1f90ae7.bak/playlist.m3u8" /\
  insideDir hlsDir filePath = false /\
  exists res,
    api_hls "/srv/app" videoId requestPath hlsGuardWorld = (Ok res, hlsGuardWorld) /\
    status res = 200 /\
    status res <> 403 /\
    body res = BodyFile filePath.
Proof.
  cbv zeta. split; [vm_compute; reflexivity|]. split; [vm_compute; reflexivity|].
  split; [vm_compute; reflexivity|].
  eexists. split; [vm_compute; reflexivity|].
  split; [reflexivity|]. split; [discriminate|reflexivity].
Qed.

Lemma pathExists_absent (path : string) (w : World) :
  files w !! path = None -> trees w !! path = None ->
  pathExists path w = (Ok false, w).
Proof.
  intros Hf Ht. unfold pathExists.
  unfold mbind, M_bind. cbn [get mret M_ret]. rewrite Hf, Ht.
  rewrite !bool_decide_eq_false_2 by (intros [? H]; discriminate H). reflexivity.
Qed.

(** C3 (amended): for an existing video, a request for a track that is
    listed in [extractedAudioFiles] but is entirely unavailable (no cloud
    stream, no HLS url of its own, no local playlist) is redirected to the
    main manifest when the main manifest exists; a request for a track
    index that is not listed is answered 404, whether the main manifest
    exists or not. *)
Theorem audio_track_last_resort
    (streamVideo : StreamVideo) (dirname videoId trackIndex : string)
    (range_ : option string) (video : Video) (w : World) :
  dbScript w = [] ->
  db w !! videoId = Some video ->
  (forall audioTrack w1,
     Js.truthy_str (hlsPlaylist video) = true ->
     findAudioTrack video (Js.parseInt trackIndex 0) = Some audioTrack ->
     (isUploaded (ea_telegramData audioTrack) = false /\ w1 = w \/
      isUploaded (ea_telegramData audioTrack) = true /\
      exists e, streamVideo (ea_telegramData audioTrack) range_ (ea_fileName audioTrack) w
                = (Throw e, w1)) ->
     Js.truthy_str (ea_hlsUrl audioTrack) = false ->
     files w1 !! localTrackPlaylist dirname videoId trackIndex = None ->
     trees w1 !! localTrackPlaylist dirname videoId trackIndex = None ->
     exists res,
       api_audio streamVideo dirname videoId trackIndex range_ w = (Ok res, w1) /\
       status res = 302 /\
       body res = BodyRedirect ("/api/hls/" +:+ videoId +:+ "/playlist.m3u8")) /\
  (findAudioTrack video (Js.parseInt trackIndex 0) = None ->
   api_audio streamVideo dirname videoId trackIndex range_ w
   = (Ok (json 404 "Audio track not found" None newResponse), w)).
Proof.
  intros Hscript Hdb.
  assert (Hget : Database.getVideo videoId w = (Ok (Some video), w)).
  { unfold Database.getVideo, Database.dbCall. rewrite Hscript.
    unfold mbind, M_bind. cbn [get mret M_ret]. rewrite Hdb. reflexivity. }
  split.
  - intros audioTrack w1 Hmain Hfind Hcloud Hurl Hfiles Htrees.
    eexists. split.
    + unfold api_audio, try_catch.
      unfold mbind at 1. unfold M_bind at 1. rewrite Hget, Hfind.
      unfold mbind at 1. unfold M_bind at 1.
      destruct Hcloud as [[Hup ->]|[Hup [e Hthrow]]]; rewrite Hup.
      * cbn [mret M_ret]. rewrite Hurl.
        unfold mbind at 1. unfold M_bind at 1.
        fold (localTrackPlaylist dirname videoId trackIndex).
        rewrite (pathExists_absent _ _ Hfiles Htrees), Hmain. reflexivity.
      * unfold try_catch. unfold mbind at 1. unfold M_bind at 1. rewrite Hthrow.
        cbn [mret M_ret]. rewrite Hurl.
        unfold mbind at 1. unfold M_bind at 1.
        fold (localTrackPlaylist dirname videoId trackIndex).
        rewrite (pathExists_absent _ _ Hfiles Htrees), Hmain. reflexivity.
    + split; reflexivity.
  - intros Hfind. unfold api_audio, try_catch.
    unfold mbind at 1. unfold M_bind at 1. rewrite Hget, Hfind. reflexivity.
Qed.

Lemma audio_track_last_resort_witness :
  (exists res,
     api_audio neverStreams "/srv/app" "v1" "0" None (storeWorld multiAudioVideo)
       = (Ok res, storeWorld multiAudioVideo) /\
     status res = 302 /\
     body res = BodyRedirect ("/api/hls/" +:+ "v1" +:+ "/playlist.m3u8")) /\
  api_audio neverStreams "/srv/app" "v1" "1" None (storeWorld multiAudioVideo)
  = (Ok (json 404 "Audio track not found" None newResponse), storeWorld multiAudioVideo).
Proof.
  split.
  - apply (proj1 (audio_track_last_resort neverStreams "/srv/app" "v1" "0" None
                    multiAudioVideo (storeWorld multiAudioVideo)
                    ltac:(reflexivity) ltac:(vm_compute; reflexivity))
             {| ea_trackIndex := 0; ea_fileName := "v1_eng_main_track0.aac";
                ea_telegramData := None; ea_hlsUrl := None |}).
    + reflexivity.
    + reflexivity.
    + left. split; reflexivity.
    + reflexivity.
    + vm_compute. reflexivity.
    + vm_compute. reflexivity.
  - apply (proj2 (audio_track_last_resort neverStreams "/srv/app" "v1" "1" None
                    multiAudioVideo (storeWorld multiAudioVideo)
                    ltac:(reflexivity) ltac:(vm_compute; reflexivity))).
    reflexivity.
Defined.

(** C3, as stated, fails: the main manifest of the video exists, and the
    request for the track index 1, which is not among the extracted
    tracks, is answered with the hard error 404. *)
Lemma audio_track_not_listed_counterexample :
  Js.truthy_str (hlsPlaylist multiAudioVideo) = true /\
  exists res,
    api_audio neverStreams "/srv/app" "v1" "1" None (storeWorld multiAudioVideo)
      = (Ok res, storeWorld multiAudioVideo) /\
    status res = 404 /\
    body res = BodyJson "Audio track not found" None.
Proof.
  split; [reflexivity|]. eexists. split; [vm_compute; reflexivity|]. split; reflexivity.
Qed.

End PlaybackProofs.

(* ===================================================================== *)
(** * Background processing *)
(* ===================================================================== *)

Section BackgroundProofs.
Import Rt Background.

(** C2 fails on the code: for a single-audio source of 240 lines the
    quality ladder is empty, [convertToHLSWithProgress] rejects, the inner
    [catch] stores [complete: false] with the error, and nothing after it
    touches the status: the sequence ends with [complete] still false. *)
Theorem background_processing_failure_leaves_incomplete :
  let run := backgroundTasks demoDeployment "v1" "/srv/app/uploads/clip.mp4"
               (singleAudioSource 240) uploadedSingle
               (jobWorld [FfWrites [xff; xd8; xff]] []) in
  VideoProcessor.getQualityLevels (singleAudioSource 240) = [] /\
  run.1 = Ok tt /\
  statusIn run.2 =
    Some (statusOf 0 None None false false
            ["Video processing failed: Failed to generate any HLS variants"]) /\
  (complete <$> statusIn run.2) = Some false.
Proof. vm_compute. repeat split. Qed.

(** When every step succeeds the sequence does end with [complete: true]. *)
Example background_processing_success_completes :
  let run := backgroundTasks demoDeployment "v1" "/srv/app/uploads/clip.mp4"
               (singleAudioSource 480) uploadedSingle
               (jobWorld [FfWrites [xff; xd8; xff]; FfWrites [x23]; FfWrites [x23]] []) in
  run.1 = Ok tt /\
  statusIn run.2 = Some (statusOf 100 (Some "Processing complete") None false true []) /\
  (hlsPlaylist <$> db run.2 !! "v1") = Some (Some "/srv/app/hls/v1/playlist.m3u8").
Proof. vm_compute. repeat split. Qed.

(** The outer [catch] does what the inner one does not: when the store
    rejects the first status update the sequence ends with
    [complete: true] and the error recorded. *)
Example background_outer_failure_completes :
  let run := backgroundTasks demoDeployment "v1" "/srv/app/uploads/clip.mp4"
               (singleAudioSource 480) uploadedSingle
               (jobWorld [] [Some "EBUSY: resource busy or locked"]) in
  run.1 = Ok tt /\
  statusIn run.2 =
    Some (statusOf 0 None None false true
            ["Background processing failed: EBUSY: resource busy or locked"]).
Proof. vm_compute. repeat split. Qed.

End BackgroundProofs.
(* ===================================================================== *)
(** * Upload and download: the round trip *)
(* ===================================================================== *)

Section RoundTripProofs.
Import Rt TelegramService.

Lemma restorable_mono (td : TelegramData) (data : Bytes) (w w' : World) :
  cloud w ⊆ cloud w' -> restorable td data w -> restorable td data w'.
Proof.
  intros Hsub. unfold restorable. destruct (uploadMethod td) as [[| |]|]; try tauto.
  - intros (id & Hid & Hl). exists id. split; [exact Hid|]. eapply lookup_weaken; [exact Hl|exact Hsub].
  - intros (slices & Hf & Hc). exists slices. split; [|exact Hc].
    eapply Forall2_impl; [exact Hf|]. intros info sl Hl. eapply lookup_weaken; [exact Hl|exact Hsub].
Qed.

Lemma botSend_sound (ev : Event) (stream : ReadStream) (w : World) :
  cloud w ⊆ cloud (botSend ev stream w).2 /\
  files (botSend ev stream w).2 = files w /\
  match (botSend ev stream w).1 with
  | Ok msg =>
      exists content,
        stream (set_botScript (tail (botScript w)) (log_event ev w)) = Some content /\
        cloud (botSend ev stream w).2 !! file_id msg = Some content /\
        file_size msg = Z.of_nat (length content)
  | Throw _ => True
  end.
Proof.
  rewrite botSend_cases. cbn zeta.
  set (w2 := set_botScript (tail (botScript w)) (log_event ev w)).
  assert (Hfresh : cloud w !! freshFileId w2 = None).
  { unfold freshFileId. change (cloud w2) with (cloud w).
    apply not_elem_of_dom. apply is_fresh. }
  assert (Hstore : forall content,
            cloud w ⊆ cloud (store_object (freshFileId w2) content w2) /\
            cloud (store_object (freshFileId w2) content w2) !! freshFileId w2 = Some content).
  { intros content. split.
    - apply insert_subseteq. exact Hfresh.
    - apply lookup_insert_eq. }
  destruct (head (botScript w)) as [[msg|]|].
  - cbn [fst snd]. repeat split; reflexivity.
  - destruct (stream w2) as [content|] eqn:Hs; cbn [fst snd].
    + destruct (Hstore content) as [H1 H2].
      split; [exact H1|]. split; [reflexivity|].
      exists content. split; [reflexivity|]. split; [exact H2|reflexivity].
    + repeat split; reflexivity.
  - destruct (stream w2) as [content|] eqn:Hs; cbn [fst snd].
    + destruct (Hstore content) as [H1 H2].
      split; [exact H1|]. split; [reflexivity|].
      exists content. split; [reflexivity|]. split; [exact H2|reflexivity].
    + repeat split; reflexivity.
Qed.

Section Grows.
Context (I : World -> Prop).

Lemma grows_ret {A} (Q : A -> World -> Prop) (a : A) :
  (forall w, I w -> Q a w) -> grows I Q (mret a).
Proof. intros H w Hw. simpl. split; [exact Hw|]. split; [reflexivity|apply H, Hw]. Qed.

Lemma grows_throw {A} (Q : A -> World -> Prop) (e : string) : grows I Q (throw e).
Proof. intros w Hw. simpl. split; [exact Hw|]. split; [reflexivity|exact Logic.I]. Qed.

Lemma grows_bind {A B} (Q : A -> World -> Prop) (R : B -> World -> Prop) (m : M A) (f : A -> M B) :
  grows I Q m ->
  (forall a, grows (fun w => I w /\ Q a w) R (f a)) ->
  grows I R (m ≫= f).
Proof.
  intros Hm Hf w Hw. destruct (Hm w Hw) as (HI & Hsub & HQ).
  unfold mbind, M_bind. destruct (m w) as [[a|e] w1]; simpl in *.
  - destruct (Hf a w1 (conj HI HQ)) as ((HI' & _) & Hsub' & HR).
    split; [exact HI'|]. split; [etrans; eassumption|exact HR].
  - split; [exact HI|]. split; [exact Hsub|exact Logic.I].
Qed.

Lemma grows_try_catch {A} (Q : A -> World -> Prop) (m : M A) (h : string -> M A) :
  grows I Q m -> (forall e, grows I Q (h e)) -> grows I Q (try_catch m h).
Proof.
  intros Hm Hh w Hw. destruct (Hm w Hw) as (HI & Hsub & HQ).
  unfold try_catch. destruct (m w) as [[a|e] w1]; simpl in *.
  - split; [exact HI|]. split; [exact Hsub|exact HQ].
  - destruct (Hh e w1 HI) as (HI' & Hsub' & HR).
    split; [exact HI'|]. split; [etrans; eassumption|exact HR].
Qed.

Lemma grows_weaken {A} (Q Q' : A -> World -> Prop) (m : M A) :
  grows I Q m -> (forall a w, I w -> Q a w -> Q' a w) -> grows I Q' m.
Proof.
  intros Hm HQ w Hw. destruct (Hm w Hw) as (HI & Hsub & Hr).
  split; [exact HI|]. split; [exact Hsub|].
  destruct (m w) as [[a|e] w1]; simpl in *; [apply HQ; assumption|exact Logic.I].
Qed.

End Grows.

Lemma grows_strengthen {A} (I I' : World -> Prop) (Q : A -> World -> Prop) (m : M A) :
  (forall w, I' w -> I w) ->
  (forall w, I' w -> I (m w).2 -> cloud w ⊆ cloud (m w).2 -> I' (m w).2) ->
  grows I Q m -> grows I' Q m.
Proof.
  intros H1 H2 Hm w Hw. destruct (Hm w (H1 w Hw)) as (HI & Hsub & Hr).
  split; [apply H2; assumption|]. split; assumption.
Qed.

Lemma grows_retryLoop {A} (I : World -> Prop) (Q : A -> World -> Prop)
    (svc : t) (f : M A) (maxR : Z) :
  (forall w e, I w -> I (log_event e w)) ->
  grows I Q f ->
  forall (n : nat) (attempt : Z),
    grows I (fun o w => forall a, o = Some a -> Q a w) (retryLoop svc f maxR n attempt).
Proof.
  intros Hlog Hf. induction n as [|n IH]; intros attempt.
  - apply grows_ret. discriminate.
  - cbn [retryLoop]. apply grows_try_catch.
    + intros w Hw. destruct (Hf w Hw) as (HI & Hsub & HQ).
      unfold mbind, M_bind. destruct (f w) as [[a|e] w1]; simpl in *.
      * split; [exact HI|]. split; [exact Hsub|]. intros a' [= <-]. exact HQ.
      * split; [exact HI|]. split; [exact Hsub|exact Logic.I].
    + intros e. destruct (attempt =? maxR).
      * apply grows_throw.
      * intros w Hw.
        destruct (IH (attempt + 1) (log_event (EvSleep (delayFor svc attempt)) w)
                    (Hlog _ _ Hw)) as (HI & Hsub & HQ).
        exact (conj HI (conj Hsub HQ)).
Qed.

Lemma uploadSmall_grows (svc : t) (videoPath originalName videoId : string)
    (checksum_ channel : option string) (data : Bytes) :
  grows (fileIs videoPath data)
    (fun td w => uploaded td = true /\ restorable td data w)
    (uploadSmallVideoToChannel svc videoPath originalName videoId checksum_ channel).
Proof.
  intros w Hw. unfold uploadSmallVideoToChannel, sendVideo.
  pose proof (botSend_sound (EvSendVideo channel originalName) (createReadStream videoPath) w)
    as (Hsub & Hfiles & Hok).
  unfold mbind, M_bind.
  destruct (botSend _ _ w) as [[msg|e] w1]; simpl in *.
  - split; [unfold fileIs; rewrite Hfiles; exact Hw|]. split; [exact Hsub|].
    split; [reflexivity|]. unfold restorable. simpl.
    destruct Hok as (content & Hs & Hc & _).
    unfold createReadStream in Hs. simpl in Hs. rewrite Hw in Hs. injection Hs as <-.
    eexists. split; [reflexivity|exact Hc].
  - split; [unfold fileIs; rewrite Hfiles; exact Hw|]. split; [exact Hsub|exact Logic.I].
Qed.

Lemma uploadChunksLoop_sound (originalName : string) (channel : option string) :
  forall (paths : list string) (slices : list Bytes) (i : Z)
         (acc : list ChunkInfo) (w : World) (r : Res (list ChunkInfo)) (w' : World),
    Forall2 (fun p sl => files w !! p = Some sl) paths slices ->
    NoDup paths ->
    uploadChunksLoop originalName channel paths i acc w = (r, w') ->
    cloud w ⊆ cloud w' /\
    (forall p, p ∉ paths -> files w' !! p = files w !! p) /\
    match r with
    | Ok res =>
        exists infos, res = acc ++ infos /\
          Forall2 (fun info sl => cloud w' !! c_fileId info = Some sl) infos slices
    | Throw _ => True
    end.
Proof.
  induction paths as [|path rest IH]; intros slices i acc w r w' Hf Hnd Hrun.
  - inversion Hf; subst. simpl in Hrun. injection Hrun as <- <-.
    split; [reflexivity|]. split; [reflexivity|].
    exists []. rewrite app_nil_r. split; [reflexivity|constructor].
  - inversion Hf as [|? sl ? slices' Hpath Hrest]; subst.
    apply NoDup_cons in Hnd as [Hnotin Hnd].
    cbn [uploadChunksLoop] in Hrun. unfold sendDocument in Hrun.
    pose proof (botSend_sound (EvSendDocument channel (originalName +:+ ".part" +:+ pretty (i + 1)))
                  (createReadStream path) w) as (Hsub & Hfiles & Hok).
    destruct (botSend (EvSendDocument channel (originalName +:+ ".part" +:+ pretty (i + 1)))
                (createReadStream path) w) as [[msg|e] w1] eqn:Hsend; cbn [fst snd] in *.
    + erewrite bind_ok in Hrun by exact Hsend.
      erewrite bind_ok in Hrun by reflexivity.
      set (w2 := set_files (delete path) w1) in *.
      set (info := {| part := i + 1; c_messageId := message_id msg;
                      c_fileId := file_id msg; c_fileUniqueId := file_unique_id msg;
                      c_size := file_size msg |}) in *.
      destruct (IH slices' (i + 1) (acc ++ [info]) w2 r w') as (Hsub' & Hfr & Hres).
      { clear -Hrest Hnotin Hfiles.
        induction Hrest as [|p s ps ss Hp Hps IHr]; constructor.
        - simpl. rewrite Hfiles. rewrite lookup_delete_ne; [exact Hp|].
          intros ->. apply Hnotin. left.
        - apply IHr. intros Hin. apply Hnotin. right. exact Hin. }
      { exact Hnd. }
      { exact Hrun. }
      split; [etrans; [exact Hsub|exact Hsub']|].
      split.
      { intros p Hp. rewrite Hfr by (intros Hin; apply Hp; right; exact Hin).
        simpl. rewrite Hfiles. apply lookup_delete_ne. intros ->. apply Hp. left. }
      destruct r as [res|e]; [|exact Logic.I].
      destruct Hres as (infos & -> & Hst).
      exists (info :: infos). split; [rewrite <- app_assoc; reflexivity|].
      constructor; [|exact Hst].
      destruct Hok as (content & Hs & Hc & _).
      unfold createReadStream in Hs. simpl in Hs. rewrite Hpath in Hs. injection Hs as <-.
      simpl. eapply lookup_weaken; [exact Hc|exact Hsub'].
    + erewrite bind_throw in Hrun by exact Hsend. injection Hrun as <- <-.
      split; [exact Hsub|]. split; [|exact Logic.I].
      intros p _. rewrite Hfiles. reflexivity.
Qed.

Lemma uploadLarge_grows (c : Z) (svc : t) (videoPath originalName videoId : string)
    (checksum_ channel : option string) (data : Bytes) :
  0 < c -> String.prefix (tempDir svc +:+ "/") videoPath = false ->
  grows (fileIs videoPath data)
    (fun td w => uploaded td = true /\ restorable td data w)
    (uploadLargeVideoToChannelWith c svc videoPath originalName videoId checksum_ channel).
Proof.
  intros Hc Hout w Hw. unfold fileIs in Hw.
  assert (Hne : forall i, chunkPath svc i <> videoPath)
    by (intros i; apply chunkPath_outside, Hout).
  set (len := Z.of_nat (length data)).
  set (n := numChunksOf len c).
  assert (Hn : 0 <= n).
  { destruct (numChunksOf_bounds len c Hc ltac:(lia)) as [[H0 _]|[_ H0]]; subst n; lia. }
  unfold uploadLargeVideoToChannelWith, splitVideoFile, stat_size.
  erewrite bind_ok; cycle 1.
  { erewrite bind_ok; cycle 1.
    { erewrite bind_ok by reflexivity. rewrite Hw. reflexivity. }
    erewrite bind_ok by reflexivity.
    fold len. fold n.
    apply splitLoop_spec; [exact Hc|exact Hne|lia|exact Hw]. }
  rewrite Z2Nat.id by exact Hn. rewrite app_nil_l.
  set (w0 := set_files _ _).
  destruct (uploadChunksLoop originalName channel (map (chunkPath svc) (seqZ 0 n)) 0 [] w0)
    as [r w1] eqn:Hrun.
  destruct (uploadChunksLoop_sound originalName channel
              (map (chunkPath svc) (seqZ 0 n)) (map (chunkOf data c) (seqZ 0 n)) 0 [] w0 r w1)
    as (Hsub & Hfr & Hres).
  { apply Forall2_fmap, Forall_Forall2_diag, Forall_forall.
    intros j Hj. subst w0. simpl.
    apply withChunks_lookup; [apply NoDup_seqZ|exact Hj]. }
  { apply NoDup_fmap_2; [|apply NoDup_seqZ]. intros i j. apply chunkPath_inj. }
  { exact Hrun. }
  assert (Hkeep : fileIs videoPath data w1).
  { unfold fileIs. rewrite Hfr.
    - subst w0. simpl. rewrite withChunks_lookup_other; [exact Hw|]. intros j _. apply Hne.
    - intros Hin. apply list_elem_of_fmap in Hin as (j & Hj & _). symmetry in Hj.
      exact (Hne j Hj). }
  destruct r as [res|e].
  - erewrite bind_ok by exact Hrun. unfold mret, M_ret. cbn [fst snd].
    split; [exact Hkeep|]. split; [exact Hsub|].
    split; [reflexivity|]. unfold restorable. cbn [uploadMethod chunks].
    destruct Hres as (infos & -> & Hst). rewrite app_nil_l.
    eexists. split; [exact Hst|].
    subst n len. apply concat_all_chunks. exact Hc.
  - erewrite bind_throw by exact Hrun. cbn [fst snd].
    split; [exact Hkeep|]. split; [exact Hsub|exact Logic.I].
Qed.

Lemma uploadToChannel_grows (svc : t) (videoPath originalName videoId : string)
    (checksum_ channel : option string) (data : Bytes) :
  String.prefix (tempDir svc +:+ "/") videoPath = false ->
  grows (fileIs videoPath data)
    (fun td w => uploaded td = true /\ restorable td data w)
    (uploadToChannel svc videoPath originalName videoId checksum_ channel).
Proof.
  intros Hout w Hw.
  rewrite (uploadToChannel_unfold _ _ _ _ _ _ data) by exact Hw.
  destruct (gt_opt _ _).
  - apply uploadLarge_grows; [unfold chunkSize; lia|exact Hout|exact Hw].
  - apply uploadSmall_grows. exact Hw.
Qed.

Lemma restorable_withRedundancy (td : TelegramData) (r : Z) (data : Bytes) (w : World) :
  restorable (withRedundancy (Some td) r) data w <-> restorable td data w.
Proof. reflexivity. Qed.

Lemma download_restorable (svc : t) (td : TelegramData) (outputPath : string)
    (data : Bytes) (w : World) :
  bot svc = true -> uploaded td = true -> restorable td data w ->
  exists w', downloadVideo svc td outputPath w = (Ok Fulfilled, w') /\
             files w' !! outputPath = Some data.
Proof.
  intros Hbot Hup Hr. unfold downloadVideo. rewrite Hbot, Hup. cbn [negb orb].
  unfold restorable in Hr. destruct (uploadMethod td) as [[| |]|]; try contradiction.
  - destruct Hr as (id & Hid & Hl).
    erewrite bind_ok by reflexivity.
    erewrite bind_ok by reflexivity.
    rewrite Hid. cbn [mbind option_bind]. cbn [cloud set_files]. rewrite Hl.
    erewrite bind_ok by reflexivity.
    eexists. split; [reflexivity|]. cbn. apply lookup_insert_eq.
  - destruct Hr as (slices & Hf & Hc).
    unfold downloadChunkedVideo.
    destruct (downloadLoop_spec outputPath (chunks td) slices
                (set_files (insert outputPath []) (log_event (EvEnsureDir (tempDir svc)) w)) [])
      as (w3 & Hdl & Hfile).
    { exact Hf. }
    { simpl. apply lookup_insert_eq. }
    exists w3. split.
    + erewrite bind_ok; [reflexivity|].
      erewrite bind_ok by reflexivity.
      erewrite bind_ok by reflexivity. exact Hdl.
    + rewrite Hfile, app_nil_l, Hc. reflexivity.
Qed.

(** X1: whatever the bot does (failed sends, retries, parts of an
    abandoned attempt left in the store), when [uploadVideo] reports
    [uploaded: true] the record it returns can be downloaded again, and
    [downloadVideo] then writes the bytes of the uploaded file to the
    destination. *)
Theorem uploadVideo_downloadVideo_roundtrip
    (svc : t) (videoPath originalName videoId outputPath : string)
    (data : Bytes) (w w1 : World) (td : TelegramData) :
  files w !! videoPath = Some data ->
  String.prefix (tempDir svc +:+ "/") videoPath = false ->
  uploadVideo svc videoPath originalName videoId w = (Ok td, w1) ->
  uploaded td = true ->
  forall w2, cloud w1 ⊆ cloud w2 ->
    exists w3,
      downloadVideo svc td outputPath w2 = (Ok Fulfilled, w3) /\
      files w3 !! outputPath = Some data.
Proof.
  intros Hfile Hout Hup Huploaded w2 Hsub.
  assert (Hbot : bot svc = true).
  { destruct (bot svc) eqn:Hb; [reflexivity|].
    unfold uploadVideo in Hup. rewrite Hb in Hup. simpl in Hup.
    injection Hup as <- _. discriminate Huploaded. }
  rewrite (uploadVideo_unfold _ _ _ _ data) in Hup by assumption.
  set (Q := fun (td : TelegramData) (w : World) => uploaded td = true -> restorable td data w).
  assert (Hgrow : forall f : M TelegramData,
            grows (fileIs videoPath data)
              (fun td w => uploaded td = true /\ restorable td data w) f ->
            grows (fileIs videoPath data) Q
              (try_catch
                 (primaryResult ← uploadWithRetry svc f;
                  mret (withRedundancy primaryResult
                          (1 + Z.of_nat (length (backupChannelIds svc)))))
                 (fun e => mret (notUploadedError e)))).
  { intros f Hf. apply grows_try_catch.
    - eapply grows_bind.
      + unfold uploadWithRetry. apply grows_retryLoop; [|exact Hf].
        intros w0 e H. exact H.
      + intros o. apply grows_ret. intros w0 [_ Ho] Hu.
        destruct o as [td0|]; [|discriminate Hu].
        apply restorable_withRedundancy. apply (Ho td0 eq_refl).
    - intros e. apply grows_ret. intros w0 _ Hu. discriminate Hu. }
  assert (Hr : restorable td data w1).
  { destruct (gt_opt (Z.of_nat (length data)) (maxFileSize svc)).
    - destruct (Hgrow _ (uploadLarge_grows chunkSize svc videoPath originalName videoId None
                           (primaryChannelId svc) data ltac:(unfold chunkSize; lia) Hout)
                  w Hfile) as (_ & _ & HQ).
      unfold uploadLargeVideoWithRetry, uploadLargeVideoToChannel in Hup.
      rewrite Hup in HQ. apply HQ, Huploaded.
    - destruct (Hgrow _ (uploadToChannel_grows svc videoPath originalName videoId None
                           (primaryChannelId svc) data Hout)
                  w Hfile) as (_ & _ & HQ).
      unfold uploadSmallVideoWithRetry in Hup.
      rewrite Hup in HQ. apply HQ, Huploaded. }
  apply download_restorable; [exact Hbot|exact Huploaded|].
  eapply restorable_mono; [exact Hsub|exact Hr].
Qed.

Lemma uploadVideo_downloadVideo_roundtrip_witness :
  exists td w3,
    flakyUpload.1 = Ok td /\ uploaded td = true /\
    downloadVideo tinyLimitService td "/srv/app/restore/clip.mp4" flakyUpload.2
      = (Ok Fulfilled, w3) /\
    files w3 !! "/srv/app/restore/clip.mp4" = Some demoData.
Proof.
  destruct flakyUpload as [r w1] eqn:Hrun.
  destruct r as [td|e]; [|vm_compute in Hrun; discriminate Hrun].
  assert (Hup : uploaded td = true).
  { vm_compute in Hrun. injection Hrun as <- _. reflexivity. }
  destruct (uploadVideo_downloadVideo_roundtrip tinyLimitService
              "/srv/app/uploads/clip.mp4" "clip.mp4" "v1" "/srv/app/restore/clip.mp4"
              demoData (demoWorld [Some "ETIMEDOUT"]) w1 td
              ltac:(vm_compute; reflexivity) ltac:(vm_compute; reflexivity)
              Hrun Hup w1 ltac:(reflexivity)) as (w3 & H1 & H2).
  exists td, w3. repeat split; assumption.
Defined.

End RoundTripProofs.

(* ===================================================================== *)
(** * Verification, deletion, health and replication *)
(* ===================================================================== *)

Section MaintenanceProofs.
Import Rt TelegramService.

Section ChecksumProofs.
Context (I : World -> Prop) (P : Event -> Prop).
Hypothesis Hst : stable I.
Hypothesis HP : forall e, P e.
Hypothesis Hfiles : forall f w, I w -> I (set_files f w).

Lemma run_uploadSmall_fields (svc : t) (videoPath originalName videoId : string)
    (checksum_ channel : option string) :
  run I P (fun td => checksum td = checksum_ /\ channelId td = channel /\ uploaded td = true)
    (uploadSmallVideoToChannel svc videoPath originalName videoId checksum_ channel).
Proof.
  unfold uploadSmallVideoToChannel, sendVideo.
  eapply run_bind; [apply run_botSend; [exact Hst|apply HP]|].
  intros msg _. apply run_ret. repeat split.
Qed.

Lemma run_splitLoop_any (svc : t) (videoPath : string) (c len : Z) :
  forall (n : nat) (i : Z) (acc : list string),
    run I P (fun _ => True) (splitLoop svc videoPath c len n i acc).
Proof.
  induction n as [|n IH]; intros i acc.
  - apply run_ret. exact Logic.I.
  - cbn [splitLoop]. eapply run_bind.
    + apply (run_get _ _ (fun _ => True)). auto.
    + intros w0 _. destruct (createReadStreamRange _ _ _ w0).
      * eapply run_bind; [apply run_modify_files; auto|]. intros _ _. apply IH.
      * apply run_throw.
Qed.

Lemma run_uploadChunksLoop_any (originalName : string) (channel : option string) :
  forall (paths : list string) (i : Z) (acc : list ChunkInfo),
    run I P (fun _ => True) (uploadChunksLoop originalName channel paths i acc).
Proof.
  induction paths as [|path rest IH]; intros i acc.
  - apply run_ret. exact Logic.I.
  - cbn [uploadChunksLoop]. unfold sendDocument.
    eapply run_bind; [apply run_botSend; [exact Hst|apply HP]|].
    intros msg _.
    eapply run_bind; [apply run_modify_files; auto|]. intros _ _. apply IH.
Qed.

Lemma run_uploadLarge_fields (c : Z) (svc : t) (videoPath originalName videoId : string)
    (checksum_ channel : option string) :
  run I P (fun td => checksum td = checksum_ /\ channelId td = channel /\ uploaded td = true)
    (uploadLargeVideoToChannelWith c svc videoPath originalName videoId checksum_ channel).
Proof.
  unfold uploadLargeVideoToChannelWith, splitVideoFile.
  eapply run_bind.
  - eapply run_bind; [apply run_stat_size_any|]. intros sz _.
    eapply run_bind; [apply run_emit; [exact Hst|apply HP]|].
    intros _ _. apply run_splitLoop_any.
  - intros paths _.
    eapply run_bind; [apply run_uploadChunksLoop_any|].
    intros infos _. apply run_ret. repeat split.
Qed.

Lemma run_uploadToChannel_fields (svc : t) (videoPath originalName videoId : string)
    (checksum_ channel : option string) :
  run I P (fun td => checksum td = checksum_ /\ channelId td = channel /\ uploaded td = true)
    (uploadToChannel svc videoPath originalName videoId checksum_ channel).
Proof.
  unfold uploadToChannel.
  eapply run_bind; [apply run_stat_size_any|]. intros sz _.
  destruct (gt_opt sz (maxFileSize svc)).
  - apply run_uploadLarge_fields.
  - apply run_uploadSmall_fields.
Qed.

End ChecksumProofs.

Lemma uploadVideo_checksum (svc : t) (videoPath originalName videoId : string)
    (w w' : World) (td : TelegramData) :
  uploadVideo svc videoPath originalName videoId w = (Ok td, w') ->
  checksum td = None.
Proof.
  assert (Hrun : run (fun _ => True) (fun _ => True) (fun td => checksum td = None)
                   (uploadVideo svc videoPath originalName videoId)).
  { unfold uploadVideo. destruct (bot svc); cbn [negb]; [|apply run_ret; reflexivity].
    eapply run_bind with (Q := fun _ => True).
    { unfold pathExists. eapply run_bind; [apply (run_get _ _ (fun _ => True)); auto|].
      intros w0 _. apply run_ret. exact Logic.I. }
    intros fileExists _. destruct fileExists; cbn [negb]; [|apply run_ret; reflexivity].
    apply run_try_catch; [|intros e; apply run_ret; reflexivity].
    eapply run_bind; [apply run_stat_size_any|]. intros sz _.
    eapply run_bind with (Q := fun o => forall td, o = Some td -> checksum td = None).
    - destruct (gt_opt sz (maxFileSize svc)).
      + unfold uploadLargeVideoWithRetry, uploadWithRetry.
        apply run_retryLoop; [apply stable_True|auto|].
        eapply run_weaken;
          [apply run_uploadLarge_fields; [apply stable_True|auto|auto]|intros ? [? _]; assumption].
      + unfold uploadSmallVideoWithRetry, uploadWithRetry.
        apply run_retryLoop; [apply stable_True|auto|].
        eapply run_weaken;
          [apply run_uploadToChannel_fields; [apply stable_True|auto|auto]|intros ? [? _]; assumption].
    - intros o Ho. apply run_ret. destruct o as [td0|]; [exact (Ho td0 eq_refl)|reflexivity]. }
  intros Hup. destruct (Hrun w Logic.I) as (_ & _ & HQ). rewrite Hup in HQ. exact HQ.
Qed.

(** X2: no checksum is ever stored with an upload ([uploadVideo] passes
    [null] for it), so [verifyUpload] reports [verified: false] for every
    record that [uploadVideo] returns, whatever checksum it is given. *)
Theorem uploadVideo_never_verified
    (svc : t) (videoPath originalName videoId : string) (w w' : World)
    (td : TelegramData) (originalChecksum_ : option string) :
  uploadVideo svc videoPath originalName videoId w = (Ok td, w') ->
  checksum td = None /\
  verified (verifyUpload td originalChecksum_) = false.
Proof.
  intros Hup. pose proof (uploadVideo_checksum _ _ _ _ _ _ _ Hup) as Hc.
  split; [exact Hc|].
  unfold verifyUpload. rewrite Hc.
  destruct (negb (uploaded td) || negb (Js.truthy_str originalChecksum_)) eqn:Hg; [reflexivity|].
  cbn [verified]. apply bool_decide_eq_false_2.
  intros <-. rewrite orb_false_iff in Hg. destruct Hg as [_ Hg]. discriminate Hg.
Qed.

Lemma uploadVideo_never_verified_witness :
  exists td,
    cleanUpload.1 = Ok td /\ uploaded td = true /\ checksum td = None /\
    verified (verifyUpload td
                (Some "9f86d081884c7d659a2feaa0c55ad015a3bf4f1b2b0b822cd15d6c15b0f00a08"))
      = false.
Proof.
  destruct cleanUpload as [r w1] eqn:Hrun.
  destruct r as [td|e]; [|vm_compute in Hrun; discriminate Hrun].
  exists td. split; [reflexivity|]. split.
  { vm_compute in Hrun. injection Hrun as <- _. reflexivity. }
  exact (uploadVideo_never_verified demoService "/srv/app/uploads/clip.mp4" "clip.mp4" "v1"
           (demoWorld []) w1 td _ Hrun).
Defined.

Lemma deleteChunks_chat_id (svc : t) (d d' : DeleteMessage) :
  (forall m w, d None m w = d' None m w) ->
  forall (rest : list ChunkInfo) (w : World),
    deleteChunks svc d rest w = deleteChunks svc d' rest w.
Proof.
  intros Hd. induction rest as [|chunk rest IH]; intros w; [reflexivity|].
  cbn [deleteChunks]. unfold mbind, M_bind, thisChannelId. rewrite Hd.
  destruct (d' None (Some (c_messageId chunk)) w) as [[[]|e] w1]; [apply IH|reflexivity].
Qed.

(** X3: [deleteVideo] never rejects, and it reaches the bot only through
    calls of [deleteMessage] whose chat id is [this.channelId], a property
    that is never assigned: two bots that agree on calls without a chat id
    cannot be told apart.  With a bot that refuses such calls, as the Bot
    API does, nothing is deleted: a single-object record gets
    [deleted: false] with the error. *)
Theorem deleteVideo_passes_no_chat_id
    (svc : t) (d d' : DeleteMessage) (td : TelegramData) (w : World) :
  (forall m w0, d None m w0 = d' None m w0) ->
  deleteVideo svc d td w = deleteVideo svc d' td w /\
  (exists r w', deleteVideo svc d td w = (Ok r, w')) /\
  (bot svc = true -> uploaded td = true -> uploadMethod td = Some single ->
   deleteVideo svc strictDeleteMessage td w
   = (Ok {| deleted := false; del_reason := None;
            del_error := Some "ETELEGRAM: 400 Bad Request: chat_id is empty" |}, w)).
Proof.
  intros Hd. split; [|split].
  - unfold deleteVideo. destruct (negb (bot svc) || negb (uploaded td)); [reflexivity|].
    unfold try_catch, mbind, M_bind.
    destruct (uploadMethod td) as [[| |]|]; try reflexivity.
    + unfold thisChannelId. rewrite Hd. reflexivity.
    + rewrite (deleteChunks_chat_id svc d d' Hd). reflexivity.
  - unfold deleteVideo. destruct (negb (bot svc) || negb (uploaded td)).
    + eexists _, _. reflexivity.
    + apply try_catch_returns.
  - intros Hbot Hup Hm. unfold deleteVideo. rewrite Hbot, Hup, Hm. reflexivity.
Qed.

Lemma deleteVideo_passes_no_chat_id_witness :
  deleteVideo demoService strictDeleteMessage singleRecord (demoWorld [])
  = deleteVideo demoService (fun _ _ => throw "ETELEGRAM: 400 Bad Request: chat_id is empty")
      singleRecord (demoWorld []).
Proof.
  exact (proj1 (deleteVideo_passes_no_chat_id demoService strictDeleteMessage
                  (fun _ _ => throw "ETELEGRAM: 400 Bad Request: chat_id is empty")
                  singleRecord (demoWorld []) (fun m w0 => eq_refl))).
Defined.

Lemma healthLoop_spec (getChat : GetChat) :
  forall (channels : list (option string)) (health : list ChannelHealth) (w : World),
    exists hs w',
      healthLoop getChat channels health w = (Ok (health ++ hs), w') /\
      map ch_channelId hs = channels /\
      Forall (fun h => isHealthy h = true <-> ch_error h = None) hs.
Proof.
  induction channels as [|channel rest IH]; intros health w.
  - exists [], w. simpl. rewrite app_nil_r. repeat split. constructor.
  - cbn [healthLoop].
    destruct (getChat channel w) as [[chat|e] w1] eqn:Hchat.
    + erewrite bind_ok; cycle 1.
      { unfold try_catch. erewrite bind_ok by exact Hchat. reflexivity. }
      destruct (IH (health ++ [{| ch_channelId := channel; ch_status := healthy;
                                  ch_title := chat_title chat; ch_type := chat_type chat;
                                  ch_error := None |}]) w1) as (hs & w' & Hloop & Hids & Hall).
      eexists (_ :: hs), w'. split; [rewrite Hloop, <- app_assoc; reflexivity|].
      split; [simpl; rewrite Hids; reflexivity|].
      constructor; [|exact Hall]. simpl. split; reflexivity.
    + erewrite bind_ok; cycle 1.
      { unfold try_catch. erewrite bind_throw by exact Hchat. reflexivity. }
      destruct (IH (health ++ [{| ch_channelId := channel; ch_status := unhealthy;
                                  ch_title := None; ch_type := None;
                                  ch_error := Some e |}]) w1) as (hs & w' & Hloop & Hids & Hall).
      eexists (_ :: hs), w'. split; [rewrite Hloop, <- app_assoc; reflexivity|].
      split; [simpl; rewrite Hids; reflexivity|].
      constructor; [|exact Hall]. simpl. split; discriminate.
Qed.

(** X4: for a configured service [getStorageHealth] never rejects,
    whatever [getChat] does.  Its report lists the primary channel first
    and then every backup channel, in order; [redundancy] is the number of
    channels reported healthy, [healthy] tells whether there is at least
    one, and a healthy primary channel implies [healthy]. *)
Theorem getStorageHealth_report (svc : t) (getChat : GetChat) (w : World) :
  bot svc = true ->
  exists r w',
    getStorageHealth svc getChat w = (Ok r, w') /\
    map ch_channelId (sh_channels r) = primaryChannelId svc :: map Some (backupChannelIds svc) /\
    sh_redundancy r = Some (Z.of_nat (length (List.filter isHealthy (sh_channels r)))) /\
    (sh_healthy r = true <-> exists h, h ∈ sh_channels r /\ isHealthy h = true) /\
    (sh_primaryHealthy r = Some true -> sh_healthy r = true) /\
    sh_error r = None /\ sh_reason r = None.
Proof.
  intros Hbot. unfold getStorageHealth. rewrite Hbot. cbn [negb].
  destruct (healthLoop_spec getChat (primaryChannelId svc :: map Some (backupChannelIds svc)) [] w)
    as (hs & w' & Hloop & Hids & _).
  rewrite app_nil_l in Hloop.
  eexists _, w'. split.
  { unfold try_catch. erewrite bind_ok by exact Hloop. reflexivity. }
  cbn [sh_channels sh_redundancy sh_healthy sh_primaryHealthy sh_error sh_reason].
  split; [exact Hids|]. split; [reflexivity|].
  assert (Hex : (0 <? Z.of_nat (length (List.filter isHealthy hs))) = true <->
                exists h, h ∈ hs /\ isHealthy h = true).
  { rewrite Z.ltb_lt. split.
    - intros Hpos. destruct (List.filter isHealthy hs) as [|h l] eqn:Hf; [simpl in Hpos; lia|].
      assert (Hin : In h (List.filter isHealthy hs)) by (rewrite Hf; left; reflexivity).
      apply filter_In in Hin as [Hin Hh]. exists h. split; [apply list_elem_of_In, Hin|exact Hh].
    - intros (h & Hin & Hh).
      assert (Hin' : In h (List.filter isHealthy hs)).
      { apply filter_In. split; [apply list_elem_of_In, Hin|exact Hh]. }
      destruct (List.filter isHealthy hs); [contradiction|simpl; lia]. }
  split; [exact Hex|]. split; [|split; reflexivity].
  intros Hp. apply Hex. destruct hs as [|h hs']; simpl in Hp; [discriminate|].
  exists h. split; [left|]. injection Hp as Hp. exact Hp.
Qed.

Lemma getStorageHealth_report_witness :
  exists r w',
    getStorageHealth backedUpService (getChatOf ["-1002222222222"]) (demoWorld []) = (Ok r, w') /\
    map ch_channelId (sh_channels r)
      = [Some "-1001234567890"; Some "-1002222222222"; Some "-1003333333333"] /\
    sh_redundancy r = Some 1 /\ sh_healthy r = true /\ sh_primaryHealthy r = Some false.
Proof.
  destruct (getStorageHealth_report backedUpService (getChatOf ["-1002222222222"])
              (demoWorld []) ltac:(reflexivity))
    as (r & w' & Hrun & Hids & Hred & Hh & _).
  exists r, w'. split; [exact Hrun|]. split; [exact Hids|].
  vm_compute in Hrun. injection Hrun as <- _. repeat split.
Defined.

Lemma stable_sameStore (w0 : World) : stable (sameStore w0).
Proof. intros w Hw. repeat split; apply Hw. Qed.

Lemma backupLoop_spec (svc : t) (videoPath originalName videoId : string) (w0 : World) :
  forall (channels : list string) (acc : list TelegramData) (w : World),
    sameStore w0 w ->
    exists rs w',
      backupLoop svc videoPath originalName videoId channels acc w = (Ok (acc ++ rs), w') /\
      Forall2 backupResultFor channels rs /\
      sameStore w0 w'.
Proof.
  induction channels as [|channel rest IH]; intros acc w Hw.
  - exists [], w. rewrite app_nil_r. repeat split; try apply Hw. constructor.
  - cbn [backupLoop].
    pose proof (run_uploadToChannel_fields (sameStore w0) (fun _ => True)
                  (stable_sameStore w0) (fun _ => Logic.I)
                  (fun f w1 H => H) svc videoPath originalName videoId None (Some channel) w Hw)
      as (HI & _ & HQ).
    destruct (uploadToChannel svc videoPath originalName videoId None (Some channel) w)
      as [[td|e] w1] eqn:Hup; cbn [fst snd] in HI, HQ.
    + erewrite bind_ok; cycle 1.
      { unfold try_catch. erewrite bind_ok by exact Hup. reflexivity. }
      destruct (IH (acc ++ [withChannel channel td]) w1 HI) as (rs & w' & Hloop & Hall & HI').
      eexists (_ :: rs), w'. split; [rewrite Hloop, <- app_assoc; reflexivity|].
      split; [|exact HI']. constructor; [|exact Hall].
      destruct HQ as (_ & Hc & Hu). split; [cbn; rewrite Hc; reflexivity|left; exact Hu].
    + erewrite bind_ok; cycle 1.
      { unfold try_catch. erewrite bind_throw by exact Hup. reflexivity. }
      destruct (IH (acc ++ [withChannel channel (notUploadedError e)]) w1 HI)
        as (rs & w' & Hloop & Hall & HI').
      eexists (_ :: rs), w'. split; [rewrite Hloop, <- app_assoc; reflexivity|].
      split; [|exact HI']. constructor; [|exact Hall].
      split; [reflexivity|right; split; [reflexivity|eexists; reflexivity]].
Qed.

(** X5: the replication to the backup channels never rejects and never
    touches the metadata store: its results are not recorded anywhere.
    When the uploaded file is already gone it does nothing; otherwise it
    yields one result per backup channel, in order, each carrying that
    channel's id, a failed upload among them as [uploaded: false]. *)
Theorem backupUploads_one_result_per_channel
    (svc : t) (videoPath originalName videoId : string) (w : World) :
  exists rs w',
    backupUploads svc videoPath originalName videoId w = (Ok rs, w') /\
    db w' = db w /\
    (if bool_decide (is_Some (files w !! videoPath)) || bool_decide (is_Some (trees w !! videoPath))
     then Forall2 backupResultFor (backupChannelIds svc) rs
     else rs = [] /\ w' = w).
Proof.
  unfold backupUploads, pathExists.
  erewrite bind_ok; cycle 1.
  { erewrite bind_ok by reflexivity. reflexivity. }
  destruct (bool_decide (is_Some (files w !! videoPath)) ||
            bool_decide (is_Some (trees w !! videoPath))); cbn [negb].
  - destruct (backupLoop_spec svc videoPath originalName videoId w (backupChannelIds svc) [] w)
      as (rs & w' & Hloop & Hall & Hdb & _); [split; reflexivity|].
    exists rs, w'. split; [exact Hloop|]. split; [exact Hdb|exact Hall].
  - exists [], w. repeat split.
Qed.

End MaintenanceProofs.

(* ===================================================================== *)
(** * The results of the bulk upload *)
(* ===================================================================== *)

Section HlsResultsProofs.
Import Rt TelegramService.

Lemma resultOf_mono fs (w w' : World) f r :
  cloud w ⊆ cloud w' -> resultOf fs w f r -> resultOf fs w' f r.
Proof.
  intros Hsub [H1 H2]. split; [exact H1|].
  destruct (r_uploaded r); [|exact H2].
  destruct H2 as (id & content & Hid & Hf & Hc).
  exists id, content. split; [exact Hid|]. split; [exact Hf|].
  eapply lookup_weaken; [exact Hc|exact Hsub].
Qed.

Lemma resultOfOpt_mono fs (w w' : World) f o :
  cloud w ⊆ cloud w' -> resultOfOpt fs w f o -> resultOfOpt fs w' f o.
Proof. destruct o; [apply resultOf_mono|auto]. Qed.

Lemma uploadHLSFile_sound (svc : t) (videoId : string) (file : HlsFile) :
  forall (n : nat) (retries : Z) (w : World) (res : Res (option HlsUploadResult)) (w' : World),
    uploadHLSFile svc videoId file n retries w = (res, w') ->
    cloud w ⊆ cloud w' /\ files w' = files w /\
    exists o, res = Ok o /\ resultOfOpt (files w) w' file o.
Proof.
  induction n as [|n IH]; intros retries w res w' Hrun.
  - simpl in Hrun. injection Hrun as <- <-.
    split; [reflexivity|]. split; [reflexivity|]. exists None. split; [reflexivity|exact Logic.I].
  - cbn [uploadHLSFile] in Hrun. unfold try_catch, sendDocument in Hrun.
    pose proof (botSend_sound (EvSendDocument (primaryChannelId svc) (relativePath file))
                  (createReadStream (fullPath file)) w) as (Hsub & Hfiles & Hok).
    destruct (botSend (EvSendDocument (primaryChannelId svc) (relativePath file))
                (createReadStream (fullPath file)) w) as [[msg|e] w1] eqn:Hsend;
      cbn [fst snd] in *.
    + erewrite bind_ok in Hrun by exact Hsend. injection Hrun as <- <-.
      split; [exact Hsub|]. split; [exact Hfiles|].
      eexists. split; [reflexivity|]. split; [reflexivity|]. cbn [r_uploaded r_fileId].
      destruct Hok as (content & Hs & Hc & _).
      exists (file_id msg), content. split; [reflexivity|]. split; [exact Hs|exact Hc].
    + erewrite bind_throw in Hrun by exact Hsend.
      assert (Hfailed : forall w0, cloud w ⊆ cloud w0 ->
                resultOfOpt (files w) w0 file
                  (Some {| r_relativePath := relativePath file; r_messageId := None;
                           r_fileId := None; r_uploaded := false; r_error := Some e |})).
      { intros w0 _. split; [reflexivity|]. simpl. eauto. }
      destruct (isRateLimit e).
      * erewrite bind_ok in Hrun by reflexivity.
        set (w2 := log_event (EvSleep (Some hlsRetryDelay)) w1) in *.
        destruct (retries + 1 <? hlsMaxRetries).
        -- destruct (IH (retries + 1) w2 res w' Hrun) as (Hsub' & Hfiles' & o & -> & Ho).
           split; [etrans; [exact Hsub|exact Hsub']|].
           split; [rewrite Hfiles'; exact Hfiles|].
           exists o. split; [reflexivity|].
           replace (files w) with (files w2) by exact Hfiles. exact Ho.
        -- injection Hrun as <- <-.
           split; [exact Hsub|]. split; [exact Hfiles|].
           eexists. split; [reflexivity|]. apply Hfailed. exact Hsub.
      * injection Hrun as <- <-.
        split; [exact Hsub|]. split; [exact Hfiles|].
        eexists. split; [reflexivity|]. apply Hfailed. exact Hsub.
Qed.

Lemma uploadBatch_sound (svc : t) (videoId : string) :
  forall (batch : list HlsFile) (w : World) (res : Res (list (option HlsUploadResult))) (w' : World),
    uploadBatch svc videoId batch w = (res, w') ->
    cloud w ⊆ cloud w' /\ files w' = files w /\
    exists rs, res = Ok rs /\ Forall2 (resultOfOpt (files w) w') batch rs.
Proof.
  induction batch as [|file rest IH]; intros w res w' Hrun.
  - simpl in Hrun. injection Hrun as <- <-.
    split; [reflexivity|]. split; [reflexivity|]. exists []. split; [reflexivity|constructor].
  - cbn [uploadBatch] in Hrun.
    destruct (uploadHLSFile svc videoId file (Z.to_nat hlsMaxRetries) 0 w) as [r1 w1] eqn:H1.
    destruct (uploadHLSFile_sound _ _ _ _ _ _ _ _ H1) as (Hsub1 & Hf1 & o & -> & Ho).
    erewrite bind_ok in Hrun by exact H1.
    destruct (uploadBatch svc videoId rest w1) as [r2 w2] eqn:H2.
    destruct (IH _ _ _ H2) as (Hsub2 & Hf2 & rs & -> & Hrs).
    erewrite bind_ok in Hrun by exact H2. injection Hrun as <- <-.
    split; [etrans; [exact Hsub1|exact Hsub2]|].
    split; [rewrite Hf2; exact Hf1|].
    exists (o :: rs). split; [reflexivity|].
    constructor.
    + eapply resultOfOpt_mono; [exact Hsub2|exact Ho].
    + rewrite <- Hf1. exact Hrs.
Qed.

Lemma slice_take_drop {A} (l : list A) (i : Z) :
  0 <= i ->
  take (Z.to_nat i) l ++ Js.slice l i (i + batchSize) = take (Z.to_nat (i + batchSize)) l.
Proof.
  intros Hi. unfold Js.slice, batchSize.
  replace (Z.to_nat (i + 3 - i)) with 3%nat by lia.
  rewrite take_take_drop. f_equal. lia.
Qed.

Lemma batchLoop_sound (svc : t) (videoId : string) (hlsFiles : list HlsFile)
    (fs : gmap string Bytes) :
  forall (n : nat) (i : Z) (acc : list (option HlsUploadResult)) (w : World)
         (res : Res (list (option HlsUploadResult))) (w' : World),
    0 <= i -> files w = fs ->
    Forall2 (resultOfOpt fs w) (take (Z.to_nat i) hlsFiles) acc ->
    batchLoop svc videoId hlsFiles n i acc w = (res, w') ->
    cloud w ⊆ cloud w' /\ files w' = fs /\
    exists rs, res = Ok rs /\
      Forall2 (resultOfOpt fs w') (take (Z.to_nat (i + Z.of_nat n * batchSize)) hlsFiles) rs.
Proof.
  induction n as [|n IH]; intros i acc w res w' Hi Hfs Hacc Hrun.
  - simpl in Hrun. injection Hrun as <- <-.
    split; [reflexivity|]. split; [exact Hfs|]. exists acc. split; [reflexivity|].
    replace (i + Z.of_nat 0 * batchSize) with i by lia. exact Hacc.
  - cbn [batchLoop] in Hrun.
    destruct (uploadBatch svc videoId (Js.slice hlsFiles i (i + batchSize)) w) as [r1 w1] eqn:H1.
    destruct (uploadBatch_sound _ _ _ _ _ _ H1) as (Hsub1 & Hf1 & rs1 & -> & Hrs1).
    erewrite bind_ok in Hrun by exact H1.
    set (pause := if i + batchSize <? Z.of_nat (length hlsFiles)
                  then sleep (Some batchDelay) else mret tt) in *.
    assert (Hpause : exists w2, pause w1 = (Ok tt, w2) /\ cloud w2 = cloud w1 /\ files w2 = files w1).
    { subst pause. destruct (i + batchSize <? Z.of_nat (length hlsFiles));
        eexists; (split; [reflexivity|split; reflexivity]). }
    destruct Hpause as (w2 & Hp & Hc2 & Hf2).
    erewrite bind_ok in Hrun by exact Hp.
    destruct (IH (i + batchSize) (acc ++ rs1) w2 res w') as (Hsub & Hfiles & rs & -> & Hrs).
    { unfold batchSize. lia. }
    { rewrite Hf2, Hf1. exact Hfs. }
    { rewrite <- slice_take_drop by exact Hi.
      apply Forall2_app.
      - eapply Forall2_impl; [exact Hacc|]. intros f o Ho.
        eapply resultOfOpt_mono; [|exact Ho]. rewrite Hc2. exact Hsub1.
      - rewrite Hfs in Hrs1. eapply Forall2_impl; [exact Hrs1|]. intros f o Ho.
        eapply resultOfOpt_mono; [|exact Ho]. rewrite Hc2. reflexivity. }
    { exact Hrun. }
    split; [etrans; [exact Hsub1|]; rewrite <- Hc2; exact Hsub|].
    split; [exact Hfiles|].
    exists rs. split; [reflexivity|].
    replace (i + Z.of_nat (S n) * batchSize) with (i + batchSize + Z.of_nat n * batchSize)
      by (unfold batchSize; lia).
    exact Hrs.
Qed.

Lemma definedResults_Forall2 fs w (files_ : list HlsFile) :
  forall (rs : list (option HlsUploadResult)) (results : list HlsUploadResult),
    Forall2 (resultOfOpt fs w) files_ rs ->
    definedResults rs = Some results ->
    Forall2 (resultOf fs w) files_ results.
Proof.
  induction files_ as [|f fl IH]; intros rs results Hf Hd; inversion Hf; subst.
  - simpl in Hd. injection Hd as <-. constructor.
  - simpl in Hd. destruct y as [r|]; [|discriminate Hd].
    destruct (definedResults l') as [l|] eqn:Hl; [|discriminate Hd].
    simpl in Hd. injection Hd as <-. constructor; [assumption|].
    eapply IH; [eassumption|exact Hl].
Qed.

(** X6: for every behaviour of the bot, the bulk upload of 1 to 100
    segment files returns normally with one entry of [uploadResults] per
    file found, in the order of discovery and under the file's relative
    path; an entry marked [uploaded] names an object of the store that
    holds the bytes of that file, every other entry carries the error
    message; [successfulUploads] counts the entries marked uploaded and
    [uploaded] tells whether there is one. *)
Theorem uploadHLSFiles_results
    (svc : t) (hlsDir videoId : string) (entries : list (string * FsNode)) (w : World) :
  bot svc = true ->
  trees w !! hlsDir = Some (FsDir entries) ->
  let hlsFiles := findHLSFiles entries hlsDir "" in
  0 < Z.of_nat (length hlsFiles) <= 100 ->
  exists r w',
    uploadHLSFiles svc hlsDir videoId w = (Ok r, w') /\
    files w' = files w /\
    Forall2 (resultOf (files w) w') hlsFiles (hls_uploadResults r) /\
    hls_successfulUploads r
      = Some (Z.of_nat (length (List.filter r_uploaded (hls_uploadResults r)))) /\
    (hls_uploaded r = true <-> exists x, x ∈ hls_uploadResults r /\ r_uploaded x = true).
Proof.
  intros Hbot Hdir hlsFiles [Hpos Hle].
  set (total := Z.of_nat (length hlsFiles)) in *.
  destruct (batchLoop_spec svc videoId hlsFiles
              (Z.to_nat (Js.ceil_div total batchSize)) 0 [] w)
    as (rs & w' & tr & Hrun & [results Hdef] & _).
  { lia. }
  { rewrite Z.sub_0_r. fold total. rewrite Z2Nat.id; [reflexivity|].
    unfold Js.ceil_div, batchSize.
    pose proof (Z.div_lt_upper_bound (- total) 3 0 ltac:(lia) ltac:(lia)). lia. }
  { eexists; reflexivity. }
  destruct (batchLoop_sound svc videoId hlsFiles (files w) _ 0 [] w _ w'
              ltac:(lia) eq_refl ltac:(constructor) Hrun)
    as (_ & Hfiles & rs' & [= <-] & Hrs).
  assert (Hall : Forall2 (resultOf (files w) w') hlsFiles results).
  { eapply definedResults_Forall2; [|exact Hdef].
    rewrite take_ge in Hrs; [exact Hrs|].
    unfold batchSize, Js.ceil_div in *. fold total.
    assert (total <= (- (- total / 3)) * 3).
    { pose proof (Z.div_mod (- total) 3 ltac:(lia)).
      pose proof (Z.mod_pos_bound (- total) 3 ltac:(lia)). lia. }
    assert (0 <= - (- total / 3)).
    { pose proof (Z.div_lt_upper_bound (- total) 3 0 ltac:(lia) ltac:(lia)). lia. }
    subst total. lia. }
  eexists _, w'. split.
  { unfold uploadHLSFiles. rewrite Hbot. cbn [negb].
    unfold pathExists. erewrite bind_ok; cycle 1.
    { erewrite bind_ok by reflexivity. reflexivity. }
    rewrite Hdir. rewrite (bool_decide_eq_true_2 (is_Some (Some (FsDir entries)))) by eauto.
    rewrite orb_true_r. cbn [negb].
    unfold try_catch. erewrite bind_ok by reflexivity. rewrite Hdir.
    erewrite bind_ok by reflexivity. fold hlsFiles. fold total.
    destruct (Z.eqb_spec total 0) as [H0|_]; [lia|].
    destruct (Z.ltb_spec 100 total) as [H|_]; [lia|].
    erewrite bind_ok by exact Hrun. rewrite Hdef. reflexivity. }
  cbn [hls_uploadResults hls_successfulUploads hls_uploaded].
  split; [exact Hfiles|]. split; [exact Hall|].
  assert (Hfilter : filter (fun r => r_uploaded r = true) results = List.filter r_uploaded results).
  { clear. induction results as [|r l IH]; [reflexivity|].
    rewrite filter_cons. simpl. destruct (r_uploaded r) eqn:Hr.
    - rewrite decide_True by reflexivity. f_equal. exact IH.
    - rewrite decide_False by discriminate. exact IH. }
  rewrite Hfilter. split; [reflexivity|].
  rewrite Z.ltb_lt. split.
  - intros Hlen. destruct (List.filter r_uploaded results) as [|x l] eqn:Hf; [simpl in Hlen; lia|].
    assert (Hin : In x (List.filter r_uploaded results)) by (rewrite Hf; left; reflexivity).
    apply filter_In in Hin as [Hin Hx]. exists x. split; [apply list_elem_of_In, Hin|exact Hx].
  - intros (x & Hin & Hx).
    assert (Hin' : In x (List.filter r_uploaded results)).
    { apply filter_In. split; [apply list_elem_of_In, Hin|exact Hx]. }
    destruct (List.filter r_uploaded results); [contradiction|simpl; lia].
Qed.

Lemma uploadHLSFiles_results_witness :
  exists r w',
    uploadHLSFiles demoService "/srv/app/hls/v1" "v1"
      (hlsDemoWorld [None; Some "ETELEGRAM: 400 Bad Request"]) = (Ok r, w') /\
    map r_relativePath (hls_uploadResults r)
      = ["720p/playlist.m3u8"; "720p/segment_000.ts"; "720p/segment_001.ts";
         "720p/segment_002.ts"; "playlist.m3u8"] /\
    map r_uploaded (hls_uploadResults r) = [true; false; true; true; true] /\
    hls_successfulUploads r = Some 4 /\ hls_uploaded r = true.
Proof.
  destruct (uploadHLSFiles_results demoService "/srv/app/hls/v1" "v1" _
              (hlsDemoWorld [None; Some "ETELEGRAM: 400 Bad Request"])
              ltac:(reflexivity) ltac:(vm_compute; reflexivity)
              ltac:(vm_compute; split; [reflexivity|discriminate]))
    as (r & w' & Hrun & _).
  exists r, w'. split; [exact Hrun|].
  vm_compute in Hrun. injection Hrun as <- _. repeat split.
Defined.

End HlsResultsProofs.

(* ===================================================================== *)
(** * The listing of the segment files *)
(* ===================================================================== *)

Section HlsListingProofs.
Import Rt TelegramService.

Lemma FsNode_nested_ind (P : FsNode -> Prop) :
  (forall size, P (FsFile size)) ->
  (forall entries, Forall (fun e => P (snd e)) entries -> P (FsDir entries)) ->
  forall node, P node.
Proof.
  intros Hfile Hdir. fix go 1. intros [size|entries].
  - apply Hfile.
  - apply Hdir. revert entries. fix all 1. intros [|[name n] rest].
    + apply List.Forall_nil.
    + apply List.Forall_cons; [apply go|apply all].
Qed.

Lemma findInEntry_dir (entries : list (string * FsNode)) (file full rel : string) :
  findInEntry (FsDir entries) file full rel =
  concat (map (fun '(f, n) => findInEntry n f (joinName full f) (joinName rel f)) entries).
Proof.
  cbn [findInEntry]. induction entries as [|[f n] rest IH]; [reflexivity|].
  cbn [map concat]. rewrite <- IH. reflexivity.
Qed.

Lemma findInEntry_sound (node : FsNode) :
  forall (file full rel : string) (f : HlsFile),
    In f (findInEntry node file full rel) ->
    match node with
    | FsFile size =>
        isHlsName file = true /\
        f = {| fullPath := full; relativePath := rel; h_size := size |}
    | FsDir entries =>
        exists path name size,
          fileAt entries path name size /\ isHlsName name = true /\
          f = {| fullPath := foldl joinName full path;
                 relativePath := foldl joinName rel path;
                 h_size := size |}
    end.
Proof.
  induction node as [size|entries IH] using FsNode_nested_ind; intros file full rel f Hin.
  - cbn [findInEntry] in Hin. unfold isHlsName.
    destruct (Js.endsWith file ".m3u8" || Js.endsWith file ".ts"); [|contradiction].
    destruct Hin as [<-|[]]. split; reflexivity.
  - rewrite findInEntry_dir in Hin.
    apply in_concat in Hin as (l & Hl & Hf).
    apply in_map_iff in Hl as ([name n] & <- & Hn).
    pose proof (proj1 (List.Forall_forall _ _) IH (name, n) Hn) as IHn. cbn [snd] in IHn.
    specialize (IHn name (joinName full name) (joinName rel name) f Hf).
    destruct n as [size|sub].
    + destruct IHn as [Hname ->].
      exists [name], name, size. split; [apply fileAt_here, Hn|]. split; [exact Hname|reflexivity].
    + destruct IHn as (path & fname & size & Hat & Hname & ->).
      exists (name :: path), fname, size.
      split; [eapply fileAt_below; eassumption|]. split; [exact Hname|reflexivity].
Qed.

Lemma findInEntry_complete (entries : list (string * FsNode)) (path : list string)
    (name : string) (size : Z) :
  fileAt entries path name size -> isHlsName name = true ->
  forall (file full rel : string),
    In {| fullPath := foldl joinName full path;
          relativePath := foldl joinName rel path;
          h_size := size |}
       (findInEntry (FsDir entries) file full rel).
Proof.
  intros Hat Hname. induction Hat as [entries name size Hin|entries sub d path name size Hin Hat IH];
    intros file full rel.
  - rewrite findInEntry_dir. apply in_concat.
    eexists. split; [apply in_map_iff; exists (name, FsFile size); split; [reflexivity|exact Hin]|].
    cbn [findInEntry]. unfold isHlsName in Hname. rewrite Hname. left. reflexivity.
  - rewrite findInEntry_dir. apply in_concat.
    eexists. split; [apply in_map_iff; exists (d, FsDir sub); split; [reflexivity|exact Hin]|].
    cbn [foldl]. apply IH. exact Hname.
Qed.

Lemma split_nonempty (sep : ascii) (s : string) : Js.split sep s <> [].
Proof.
  destruct s as [|c rest]; cbn; [discriminate|].
  destruct (Ascii.eqb c sep); [discriminate|].
  destruct (Js.split sep rest); discriminate.
Qed.

Lemma split_app_sep (sep : ascii) (a b : string) :
  Js.split sep (a +:+ String sep b) = Js.split sep a ++ Js.split sep b.
Proof.
  induction a as [|c a IH].
  - rewrite str_app_nil_l. cbn [Js.split]. rewrite Ascii.eqb_refl. reflexivity.
  - rewrite str_app_cons. cbn [Js.split]. destruct (Ascii.eqb c sep).
    + rewrite IH. reflexivity.
    + rewrite IH. pose proof (split_nonempty sep a) as Hne.
      destruct (Js.split sep a) as [|first others]; [contradiction|reflexivity].
Qed.

Lemma includes_cons (c : ascii) (rest : string) (x : ascii) :
  Js.includes (String c rest) (String x "") = Ascii.eqb x c || Js.includes rest (String x "").
Proof.
  cbn [Js.includes String.prefix].
  destruct (ascii_dec x c) as [->|Hne].
  - rewrite Ascii.eqb_refl. destruct rest; reflexivity.
  - destruct (Ascii.eqb_spec x c); [contradiction|reflexivity].
Qed.

Lemma split_without_sep (sep : ascii) (s : string) :
  Js.includes s (String sep "") = false -> Js.split sep s = [s].
Proof.
  induction s as [|c rest IH]; intros Hno; [reflexivity|].
  rewrite includes_cons in Hno. apply orb_false_iff in Hno as [Hc Hrest].
  cbn [Js.split]. rewrite Ascii.eqb_sym, Hc, (IH Hrest). reflexivity.
Qed.

Lemma endsWith_last (x : string) (c sep : ascii) :
  Js.endsWith (x +:+ String c "") (String sep "") = Ascii.eqb c sep.
Proof.
  unfold Js.endsWith. rewrite str_length_app. cbn [String.length].
  replace (1 <=? String.length x + 1)%nat with true by (symmetry; apply Nat.leb_le; lia).
  replace (String.length x + 1 - 1)%nat with (String.length x) by lia.
  cbn [andb]. induction x as [|a x IH].
  - rewrite str_app_nil_l. cbn. destruct (Ascii.eqb c sep); reflexivity.
  - rewrite str_app_cons. cbn [String.length String.substring]. exact IH.
Qed.

Lemma string_last (s : string) :
  s <> "" -> exists x c, s = x +:+ String c "".
Proof.
  induction s as [|a s IH]; [contradiction|]. intros _.
  destruct s as [|b s'].
  - exists "", a. reflexivity.
  - destruct (IH ltac:(discriminate)) as (x & c & Hx).
    exists (String a x), c. rewrite str_app_cons, <- Hx. reflexivity.
Qed.

Lemma includes_app_r (a b : string) (x : ascii) :
  Js.includes (a +:+ b) (String x "") = false -> Js.includes b (String x "") = false.
Proof.
  induction a as [|c a IH]; [rewrite str_app_nil_l; auto|].
  rewrite str_app_cons, includes_cons. intros H. apply orb_false_iff in H as [_ H]. apply IH, H.
Qed.

Lemma plain_not_trailing (prefix_ name : string) :
  plainName name -> Path.lastIsSlash (prefix_ +:+ name) = false.
Proof.
  intros (Hne & _ & _ & Hno). destruct (string_last name Hne) as (x & c & ->).
  unfold Path.lastIsSlash. rewrite <- str_app_assoc, endsWith_last.
  apply includes_app_r in Hno. rewrite includes_cons in Hno.
  apply orb_false_iff in Hno as [Hc _]. rewrite Ascii.eqb_sym. exact Hc.
Qed.

Lemma joined_not_trailing (dir name : string) :
  plainName name -> Path.lastIsSlash (dir +:+ "/" +:+ name) = false.
Proof.
  intros Hname. rewrite <- (str_app_assoc dir "/" name). apply plain_not_trailing, Hname.
Qed.

Lemma normalizeSegments_snoc (allow : bool) (name : string) :
  plainName name ->
  forall (segments res : list string),
    Path.normalizeSegments allow (segments ++ [name]) res
    = Path.normalizeSegments allow segments res ++ [name].
Proof.
  intros (Hne & Hdot & Hdots & _).
  assert (Hpush : forall res, Path.normalizeSegments allow [name] res = rev res ++ [name]).
  { intros res. cbn [Path.normalizeSegments].
    destruct (String.eqb_spec name ""); [contradiction|].
    destruct (String.eqb_spec name "."); [contradiction|].
    destruct (String.eqb_spec name ".."); [contradiction|].
    reflexivity. }
  induction segments as [|seg rest IH]; intros res.
  - cbn [app]. rewrite Hpush. reflexivity.
  - cbn [app Path.normalizeSegments].
    destruct (String.eqb seg "" || String.eqb seg "."); [apply IH|].
    destruct (String.eqb seg ".."); [|apply IH].
    destruct res as [|top below]; [apply IH|].
    destruct (String.eqb top ".."); apply IH.
Qed.

Lemma concat_snoc (sep : string) (l : list string) (x : string) :
  l <> [] -> String.concat sep (l ++ [x]) = String.concat sep l +:+ sep +:+ x.
Proof.
  induction l as [|a l IH]; [contradiction|]. intros _.
  destruct l as [|b l'].
  - reflexivity.
  - change (String.concat sep ((a :: b :: l') ++ [x]))
      with (a +:+ sep +:+ String.concat sep ((b :: l') ++ [x])).
    rewrite IH by discriminate.
    change (String.concat sep (a :: b :: l')) with (a +:+ sep +:+ String.concat sep (b :: l')).
    rewrite !str_app_assoc. reflexivity.
Qed.

Lemma prefix_slash_app (d rest : string) :
  d <> "" -> String.prefix "/" (d +:+ rest) = String.prefix "/" d.
Proof.
  destruct d as [|c d']; [contradiction|]. intros _. rewrite str_app_cons.
  change (String.prefix "/" (String c (d' +:+ rest)))
    with (if ascii_dec "/"%char c then String.prefix "" (d' +:+ rest) else false).
  change (String.prefix "/" (String c d'))
    with (if ascii_dec "/"%char c then String.prefix "" d' else false).
  destruct (ascii_dec "/"%char c); [|reflexivity].
  destruct (d' +:+ rest), d'; reflexivity.
Qed.

Lemma app_not_empty (a b : string) : a <> "" -> a +:+ b <> "".
Proof. destruct a; [contradiction|]. intros _. rewrite str_app_cons. discriminate. Qed.

(** The shape of a normalised directory path. *)
Lemma normalisedDir_shape (dir : string) :
  normalisedDir dir ->
  dir <> "" /\
  let segs := Path.normalizeSegments (negb (String.prefix "/" dir)) (Js.split "/"%char dir) [] in
  segs <> [] /\
  dir = (if String.prefix "/" dir then "/" else "") +:+ String.concat "/" segs.
Proof.
  intros (Hnorm & Hlast & Hdot).
  assert (Hne : dir <> "").
  { intros ->. discriminate Hnorm. }
  split; [exact Hne|]. cbn zeta.
  unfold Path.normalize in Hnorm.
  destruct (String.eqb_spec dir ""); [contradiction|].
  rewrite Hlast in Hnorm.
  set (segs := Path.normalizeSegments _ _ _) in *.
  destruct (String.eqb_spec (String.concat "/" segs) "") as [Hp|Hp].
  - exfalso. destruct (String.prefix "/" dir).
    + rewrite <- Hnorm in Hlast. discriminate Hlast.
    + apply Hdot. symmetry. exact Hnorm.
  - split.
    + intros Hs. apply Hp. rewrite Hs. reflexivity.
    + destruct (String.prefix "/" dir); symmetry; exact Hnorm.
Qed.

(** [path.join(dir, name)] for a normalised directory and a plain name. *)
Lemma joinName_plain (dir name : string) :
  normalisedDir dir -> plainName name ->
  joinName dir name = dir +:+ "/" +:+ name /\ normalisedDir (dir +:+ "/" +:+ name).
Proof.
  intros Hdir Hname.
  destruct (normalisedDir_shape dir Hdir) as (Hne & Hsegs & Hshape). cbn zeta in Hsegs, Hshape.
  pose proof Hname as (Hn & _ & _ & _).
  assert (Hnorm : Path.normalize (dir +:+ "/" +:+ name) = dir +:+ "/" +:+ name).
  { pose proof Hname as (_ & _ & _ & Hno).
    unfold Path.normalize.
    destruct (String.eqb_spec (dir +:+ "/" +:+ name) "") as [H|_];
      [exfalso; revert H; apply app_not_empty, Hne|].
    rewrite (prefix_slash_app dir) by exact Hne.
    rewrite joined_not_trailing by exact Hname.
    change (dir +:+ "/" +:+ name) with (dir +:+ String "/"%char name).
    rewrite split_app_sep, (split_without_sep "/"%char name Hno).
    change (dir +:+ String "/"%char name) with (dir +:+ "/" +:+ name).
    rewrite normalizeSegments_snoc by exact Hname.
    set (abs := String.prefix "/" dir) in *.
    set (segs := Path.normalizeSegments (negb abs) (Js.split "/"%char dir) []) in *.
    rewrite concat_snoc by exact Hsegs.
    destruct (String.eqb_spec (String.concat "/" segs +:+ "/" +:+ name) "") as [H|_].
    { exfalso. destruct (String.concat "/" segs); discriminate H. }
    transitivity (((if abs then "/" else "") +:+ String.concat "/" segs) +:+ "/" +:+ name);
      [|rewrite <- Hshape; reflexivity].
    destruct abs; [rewrite !str_app_assoc|rewrite str_app_nil_l]; reflexivity. }
  split.
  - unfold joinName, Path.join. cbn [List.filter].
    destruct (String.eqb_spec dir ""); [contradiction|].
    destruct (String.eqb_spec name ""); [contradiction|]. cbn [negb].
    exact Hnorm.
  - split; [exact Hnorm|]. split.
    + apply joined_not_trailing, Hname.
    + destruct dir as [|c dir']; [contradiction|].
      rewrite str_app_cons. destruct dir'; [discriminate|]. rewrite str_app_cons.
      destruct dir'; discriminate.
Qed.

(** [path.join('', name)] for a plain name. *)
Lemma joinName_empty_plain (name : string) :
  plainName name -> joinName "" name = name /\ normalisedDir name.
Proof.
  intros Hname. pose proof Hname as (Hne & Hdot & Hdots & Hno).
  assert (Habs : String.prefix "/" name = false).
  { destruct name as [|c rest]; [contradiction|].
    rewrite includes_cons in Hno. apply orb_false_iff in Hno as [Hc _].
    change (String.prefix "/" (String c rest))
      with (if ascii_dec "/"%char c then String.prefix "" rest else false).
    destruct (ascii_dec "/"%char c) as [<-|]; [discriminate Hc|reflexivity]. }
  assert (Hlast : Path.lastIsSlash name = false).
  { rewrite <- (str_app_nil_l name). apply plain_not_trailing, Hname. }
  assert (Hnorm : Path.normalize name = name).
  { unfold Path.normalize.
    destruct (String.eqb_spec name ""); [contradiction|].
    rewrite Habs, Hlast, (split_without_sep "/"%char name Hno). cbn [negb Path.normalizeSegments].
    destruct (String.eqb_spec name ""); [contradiction|].
    destruct (String.eqb_spec name "."); [contradiction|].
    destruct (String.eqb_spec name ".."); [contradiction|].
    cbn [orb rev app String.concat].
    destruct (String.eqb_spec name ""); [contradiction|reflexivity]. }
  split.
  - unfold joinName, Path.join. cbn [List.filter String.eqb negb].
    destruct (String.eqb_spec name ""); [contradiction|]. cbn [negb String.concat].
    exact Hnorm.
  - split; [exact Hnorm|]. split; [exact Hlast|exact Hdot].
Qed.

Lemma foldl_joinName_plain (path : list string) :
  Forall plainName path ->
  forall dir, normalisedDir dir ->
    foldl joinName dir path =
    match path with
    | [] => dir
    | _ :: _ => dir +:+ "/" +:+ String.concat "/" path
    end.
Proof.
  induction 1 as [|name rest Hname Hrest IH]; intros dir Hdir; [reflexivity|].
  destruct (joinName_plain dir name Hdir Hname) as [Hjoin Hnext].
  cbn [foldl]. rewrite Hjoin, (IH _ Hnext).
  destruct rest as [|name' rest']; [reflexivity|].
  change (String.concat "/" (name :: name' :: rest'))
    with (name +:+ "/" +:+ String.concat "/" (name' :: rest')).
  rewrite !str_app_assoc. reflexivity.
Qed.

Lemma hlsFileAt_plain (hlsDir : string) (path : list string) (size : Z) :
  normalisedDir hlsDir -> path <> [] -> Forall plainName path ->
  hlsFileAt hlsDir path size =
  {| fullPath := hlsDir +:+ "/" +:+ String.concat "/" path;
     relativePath := String.concat "/" path;
     h_size := size |}.
Proof.
  intros Hdir Hne Hplain. unfold hlsFileAt.
  destruct path as [|name rest]; [contradiction|].
  rewrite (foldl_joinName_plain _ Hplain hlsDir Hdir).
  apply Forall_cons in Hplain as [Hname Hrest].
  destruct (joinName_empty_plain name Hname) as [Hjoin Hnext].
  cbn [foldl]. rewrite Hjoin, (foldl_joinName_plain _ Hrest name Hnext).
  destruct rest; reflexivity.
Qed.

(** X7: [findHLSFiles] lists exactly the regular files of the directory
    tree whose name ends in [.m3u8] or [.ts]; each one is listed with its
    size, and with the names on the way to it joined, by [path.join], to
    [hlsDir] as [fullPath] and to [''] as [relativePath].  For a
    normalised [hlsDir] and names as [readdir] reports them, [relativePath]
    is the names separated by [/] and [fullPath] is
    [hlsDir + '/' + relativePath]. *)
Theorem findHLSFiles_exact (entries : list (string * FsNode)) (hlsDir : string) (f : HlsFile) :
  (In f (findHLSFiles entries hlsDir "") <->
   exists path name size,
     fileAt entries path name size /\ isHlsName name = true /\ f = hlsFileAt hlsDir path size) /\
  (normalisedDir hlsDir ->
   forall path size,
     path <> [] -> Forall plainName path ->
     hlsFileAt hlsDir path size =
     {| fullPath := hlsDir +:+ "/" +:+ String.concat "/" path;
        relativePath := String.concat "/" path;
        h_size := size |}).
Proof.
  split.
  - unfold findHLSFiles. rewrite <- (findInEntry_dir entries "" hlsDir ""). unfold hlsFileAt.
    split.
    + intros Hin. exact (findInEntry_sound (FsDir entries) "" hlsDir "" f Hin).
    + intros (path & name & size & Hat & Hname & ->).
      apply (findInEntry_complete entries path name size Hat Hname).
  - intros Hdir path size Hne Hplain. apply hlsFileAt_plain; assumption.
Qed.

Lemma findHLSFiles_exact_witness :
  In {| fullPath := "/srv/app/hls/v1/720p/segment_001.ts";
        relativePath := "720p/segment_001.ts"; h_size := 1 |}
     (findHLSFiles demoListing "/srv/app/hls/v1" "").
Proof.
  apply (proj2 (proj1 (findHLSFiles_exact demoListing "/srv/app/hls/v1" _))).
  exists ["720p"; "segment_001.ts"], "segment_001.ts", 1.
  split; [|split; reflexivity].
  eapply fileAt_below; [left; reflexivity|].
  apply fileAt_here. right. left. reflexivity.
Defined.

End HlsListingProofs.
(* ===================================================================== *)
(** * Audio file names and clean-up *)
(* ===================================================================== *)

Section AudioFilesProofs.
Import Rt VideoProcessor AudioExtractor.

Lemma sanitize_char (c : ascii) :
  let c' := if isAlnum c then toLower c else "_"%char in
  isSafeChar c' = true /\ (if isAlnum c' then toLower c' else "_"%char) = c'.
Proof.
  destruct c as [[] [] [] [] [] [] [] []]; vm_compute; split; reflexivity.
Qed.

(** X8: [sanitize], the replacement applied to a track title,
    produces only lower-case letters, digits and underscores, and
    sanitizing twice gives what sanitizing once gives. *)
Theorem sanitize_safe_and_idempotent (s : string) :
  allChars isSafeChar (sanitize s) = true /\
  sanitize (sanitize s) = sanitize s.
Proof.
  induction s as [|c s (IH1 & IH2)]; [repeat split|].
  cbn [sanitize allChars].
  destruct (sanitize_char c) as [Hs Hi]. cbn zeta in Hs, Hi.
  rewrite Hs, IH1, Hi, IH2. repeat split.
Qed.

Lemma allChars_app (p : ascii -> bool) (a b : string) :
  allChars p (a +:+ b) = allChars p a && allChars p b.
Proof.
  induction a as [|c a IH]; [reflexivity|].
  rewrite str_app_cons. simpl. rewrite IH, andb_assoc. reflexivity.
Qed.

Lemma last_separator (c : ascii) :
  forall (a1 a2 d1 d2 : string),
    allChars (notChar c) d1 = true -> allChars (notChar c) d2 = true ->
    a1 +:+ String c d1 = a2 +:+ String c d2 -> d1 = d2.
Proof.
  assert (Hno : forall a d, allChars (notChar c) (a +:+ String c d) = false).
  { intros a d. rewrite allChars_app. simpl. unfold notChar at 2.
    rewrite Ascii.eqb_refl. simpl. apply andb_false_r. }
  induction a1 as [|x a1 IH]; intros [|y a2] d1 d2 H1 H2 Heq.
  - rewrite !str_app_nil_l in Heq. injection Heq as ->. reflexivity.
  - rewrite str_app_nil_l, str_app_cons in Heq. injection Heq as _ ->.
    rewrite Hno in H1. discriminate H1.
  - rewrite str_app_nil_l, str_app_cons in Heq. injection Heq as _ <-.
    rewrite Hno in H2. discriminate H2.
  - rewrite !str_app_cons in Heq. injection Heq as _ Heq. eapply IH; eassumption.
Qed.

Lemma allDigits_notChar (c : ascii) (d : string) :
  isDigit c = false -> allDigits d = true -> allChars (notChar c) d = true.
Proof.
  intros Hc. induction d as [|x d IH]; [reflexivity|]. simpl.
  intros H. apply andb_prop in H as [Hx Hd]. rewrite IH by exact Hd.
  unfold notChar. destruct (Ascii.eqb_spec x c) as [->|_]; [|reflexivity].
  rewrite Hc in Hx. discriminate Hx.
Qed.

Lemma pretty_no_k (z : Z) : allChars (notChar "k"%char) (pretty z) = true.
Proof.
  destruct z as [|p|p].
  - reflexivity.
  - apply allDigits_notChar; [reflexivity|].
    apply (pretty_nonneg_digits (Z.pos p)). lia.
  - change (pretty (Z.neg p)) with ("-" +:+ pretty (N.pos p)).
    rewrite allChars_app. simpl.
    change (pretty (N.pos p)) with (pretty (Z.pos p)).
    apply allDigits_notChar; [reflexivity|].
    apply (pretty_nonneg_digits (Z.pos p)). lia.
Qed.

(** X9: the file names that [generateAudioFileName] builds for two
    different track indices are different, whatever the video ids, the
    languages and the titles are: extractions with different indices never
    write to the same file. *)
Theorem generateAudioFileName_separates_indices
    (videoId1 videoId2 : string) (i j : Z) (track1 track2 : AudioStream) :
  generateAudioFileName videoId1 i track1 = generateAudioFileName videoId2 j track2 ->
  i = j.
Proof.
  unfold generateAudioFileName.
  set (l1 := match a_language track1 with Some l => _ | None => _ end).
  set (t1 := match a_title track1 with Some t => _ | None => _ end).
  set (l2 := match a_language track2 with Some l => _ | None => _ end).
  set (t2 := match a_title track2 with Some t => _ | None => _ end).
  intros Heq.
  assert (Hshape : forall (v l t : string) (k : Z),
            v +:+ "_" +:+ l +:+ "_" +:+ t +:+ "_track" +:+ pretty k +:+ ".aac"
            = ((v +:+ "_" +:+ l +:+ "_" +:+ t +:+ "_trac") +:+ String "k"%char (pretty k)) +:+ ".aac").
  { intros v l t k. rewrite !str_app_assoc. reflexivity. }
  rewrite !Hshape in Heq. apply str_app_inj_r in Heq.
  apply last_separator in Heq; [|apply pretty_no_k|apply pretty_no_k].
  apply (inj pretty) in Heq. exact Heq.
Qed.

Lemma generateAudioFileName_separates_indices_witness :
  generateAudioFileName "a" 1 (demoTrack "b_c" "t")
  = generateAudioFileName "a_b" 1 (demoTrack "c" "t") /\
  1 = 1.
Proof.
  split; [reflexivity|].
  exact (generateAudioFileName_separates_indices "a" "a_b" 1 1
           (demoTrack "b_c" "t") (demoTrack "c" "t") eq_refl).
Defined.


End AudioFilesProofs.

(* ===================================================================== *)
(** * The extracted audio tracks *)
(* ===================================================================== *)

Section AudioTracksProofs.
Import Rt VideoProcessor AudioExtractor.

(** The body of the loop of [extractAudioTracks] for one track: it never
    rejects, and what it adds to the list is nothing or one good entry. *)
Lemma extractStep_cases (videoPath videoId audioDir : string) (totalTracks : Z)
    (progressCallback : option ProgressCallback) (track : AudioStream) (i : Z) (w : World) :
  let trackIndex_ := Js.or_num (a_index track) i in
  let step :=
    try_catch
      (report progressCallback (Js.round_div (i * 100) totalTracks)
         ("Extracting audio track " +:+ pretty (i + 1) +:+ ": " +:+
          Js.or_str (a_title track)
            (Js.or_str (a_language track) ("Track " +:+ pretty (i + 1))));;
       let audioFileName := generateAudioFileName videoId trackIndex_ track in
       let audioFilePath := Path.join [audioDir; audioFileName] in
       extractSingleAudioTrack videoPath audioFilePath trackIndex_;;
       size_ ← stat_size audioFilePath;
       if size_ =? 0
       then throw ("Extracted audio file is empty for track " +:+ pretty trackIndex_)
       else mret [{| trackIndex := trackIndex_;
                     originalTrackInfo := track;
                     fileName := audioFileName;
                     filePath := audioFilePath;
                     fileSize := size_;
                     language := Js.or_str (a_language track) "unknown";
                     title := Js.or_str (a_title track) ("Audio Track " +:+ pretty (i + 1));
                     codec := "aac";
                     channels := a_channels track;
                     sampleRate := a_sampleRate track |}])
      (fun _ => mret []) in
  exists extracted w1,
    step w = (Ok extracted, w1) /\
    (extracted = [] \/
     exists info, extracted = [info] /\ originalTrackInfo info = track /\
       extractedFrom videoId audioDir [track] info) /\
    (progressCallback = None ->
     trace w1 = trace w ++
       [EvFfmpeg videoPath (Path.join [audioDir; generateAudioFileName videoId trackIndex_ track])
          trackIndex_]).
Proof.
  intros trackIndex_ step. subst step. unfold try_catch.
  set (name := generateAudioFileName videoId trackIndex_ track).
  set (path := Path.join [audioDir; name]).
  destruct (report progressCallback (Js.round_div (i * 100) totalTracks)
              ("Extracting audio track " +:+ pretty (i + 1) +:+ ": " +:+
               Js.or_str (a_title track)
                 (Js.or_str (a_language track) ("Track " +:+ pretty (i + 1)))) w)
    as [[[]|e] wa] eqn:Hrep.
  2:{ erewrite bind_throw by exact Hrep. eexists [], wa. split; [reflexivity|].
      split; [left; reflexivity|]. intros ->. simpl in Hrep. discriminate Hrep. }
  erewrite bind_ok by exact Hrep. cbn zeta.
  assert (Hwa : progressCallback = None -> wa = w).
  { intros ->. simpl in Hrep. injection Hrep as <-. reflexivity. }
  unfold extractSingleAudioTrack.
  destruct (ffmpegRun (EvFfmpeg videoPath path trackIndex_) path wa) as [[[]|e] wb] eqn:Hff.
  2:{ erewrite bind_throw by exact Hff. eexists [], wb. split; [reflexivity|].
      split; [left; reflexivity|]. intros Hn. rewrite (Hwa Hn) in Hff.
      unfold ffmpegRun in Hff. simpl in Hff.
      destruct (ffmpegScript w) as [|[msg|out] rest]; injection Hff as _ <-; reflexivity. }
  erewrite bind_ok by exact Hff.
  assert (Htr : progressCallback = None -> trace wb = trace w ++ [EvFfmpeg videoPath path trackIndex_]).
  { intros Hn. rewrite (Hwa Hn) in Hff. unfold ffmpegRun in Hff. simpl in Hff.
    destruct (ffmpegScript w) as [|[msg|out] rest]; try discriminate Hff.
    injection Hff as <-. reflexivity. }
  destruct (files wb !! path) as [content|] eqn:Hfile.
  2:{ erewrite bind_throw; cycle 1.
      { unfold stat_size. erewrite bind_ok by reflexivity. rewrite Hfile. reflexivity. }
      eexists [], wb. split; [reflexivity|].
      split; [left; reflexivity|exact Htr]. }
  erewrite bind_ok; cycle 1.
  { unfold stat_size. erewrite bind_ok by reflexivity. rewrite Hfile. reflexivity. }
  destruct (Z.eqb_spec (Z.of_nat (length content)) 0) as [H0|Hne].
  - eexists [], wb. split; [reflexivity|]. split; [left; reflexivity|exact Htr].
  - eexists [_], wb. split; [reflexivity|]. split; [|exact Htr].
    right. eexists. split; [reflexivity|]. split; [reflexivity|].
    unfold extractedFrom.
    cbn [fileSize codec originalTrackInfo fileName filePath trackIndex].
    repeat split; try reflexivity; [lia|left].
Qed.

Lemma extractedFrom_weaken videoId audioDir (tracks tracks' : list AudioStream) info :
  tracks ⊆ tracks' -> extractedFrom videoId audioDir tracks info ->
  extractedFrom videoId audioDir tracks' info.
Proof.
  intros Hsub (H1 & H2 & H3 & H4 & H5). repeat split; try assumption. apply Hsub, H3.
Qed.

Lemma extractLoop_spec (videoPath videoId audioDir : string) (totalTracks : Z)
    (progressCallback : option ProgressCallback) :
  forall (rest : list AudioStream) (i : Z) (acc : list AudioFileInfo) (w : World),
    (forall r w', extractLoop videoPath videoId audioDir totalTracks progressCallback
                    rest i acc w = (r, w') ->
       exists more, r = Ok (acc ++ more) /\
         Forall (extractedFrom videoId audioDir rest) more /\
         map originalTrackInfo more `sublist_of` rest /\
         (progressCallback = None ->
          trace w' = trace w ++ audioRuns videoPath videoId audioDir rest i)).
Proof.
  induction rest as [|track rest IH]; intros i acc w r w' Hrun.
  - simpl in Hrun. injection Hrun as <- <-. exists [].
    rewrite !app_nil_r. repeat split; constructor.
  - cbn [extractLoop] in Hrun.
    destruct (extractStep_cases videoPath videoId audioDir totalTracks progressCallback track i w)
      as (extracted & w1 & Hstep & Hcases & Htr).
    cbn zeta in Hstep.
    erewrite bind_ok in Hrun by exact Hstep.
    destruct (IH (i + 1) (acc ++ extracted) w1 r w' Hrun) as (more & -> & Hall & Hsub & Htr').
    exists (extracted ++ more). split; [rewrite app_assoc; reflexivity|].
    split; [|split].
    + apply Forall_app. split.
      * destruct Hcases as [->|(info & -> & _ & Hinfo)]; constructor; [|constructor].
        eapply extractedFrom_weaken; [|exact Hinfo].
        intros x Hx. apply list_elem_of_singleton in Hx as ->. left.
      * eapply Forall_impl; [exact Hall|]. intros info. apply extractedFrom_weaken.
        intros x Hx. right. exact Hx.
    + destruct Hcases as [->|(info & -> & Horig & _)]; simpl.
      * apply sublist_cons. exact Hsub.
      * rewrite Horig. apply sublist_skip. exact Hsub.
    + intros Hn. rewrite (Htr' Hn), (Htr Hn), <- app_assoc. reflexivity.
Qed.

(** X11: when [extractAudioTracks] returns a list for two tracks or
    more, the list follows the order of the tracks and holds at most one
    entry per track; every entry describes a file that was found non-empty
    under the name built for its track.  Without progress callback the
    function never rejects, and it runs [ffmpeg] once for every track, in
    order, whether the runs before failed or not. *)
Theorem extractAudioTracks_entries
    (audioRoot videoPath videoId : string) (tracks : list AudioStream) :
  1 < Z.of_nat (length tracks) ->
  let audioDir := Path.join [audioRoot; videoId] in
  (forall progressCallback w infos w',
     extractAudioTracks audioRoot videoPath videoId (Some tracks) progressCallback w
       = (Ok infos, w') ->
     Forall (extractedFrom videoId audioDir tracks) infos /\
     map originalTrackInfo infos `sublist_of` tracks) /\
  (forall w, exists infos w',
     extractAudioTracks audioRoot videoPath videoId (Some tracks) None w = (Ok infos, w') /\
     trace w' = trace w ++ EvEnsureDir audioDir :: audioRuns videoPath videoId audioDir tracks 0).
Proof.
  intros Hlen audioDir.
  assert (Hhead : forall cb w,
    extractAudioTracks audioRoot videoPath videoId (Some tracks) cb w =
    (ensureDir audioDir;;
     let totalTracks := Z.of_nat (length tracks) in
     report cb 0 ("Starting audio extraction for " +:+ pretty totalTracks +:+ " tracks");;
     extractedAudioFiles ← extractLoop videoPath videoId audioDir totalTracks cb tracks 0 [];
     report cb 100
       ("Audio extraction complete: " +:+ pretty (Z.of_nat (length extractedAudioFiles))
        +:+ "/" +:+ pretty totalTracks +:+ " tracks extracted");;
     mret extractedAudioFiles) w).
  { intros cb w. unfold extractAudioTracks.
    destruct (Z.leb_spec (Z.of_nat (length tracks)) 1) as [H|_]; [lia|reflexivity]. }
  split.
  - intros cb w infos w' Hrun. rewrite Hhead in Hrun. cbn zeta in Hrun.
    erewrite bind_ok in Hrun by reflexivity.
    match type of Hrun with
    | (?m ≫= _) ?w0 = _ => destruct (m w0) as [[[]|e] w1] eqn:H1
    end; [|erewrite bind_throw in Hrun by exact H1; discriminate Hrun].
    erewrite bind_ok in Hrun by exact H1.
    destruct (extractLoop videoPath videoId audioDir (Z.of_nat (length tracks)) cb tracks 0 [] w1)
      as [r w2] eqn:H2.
    destruct (extractLoop_spec _ _ _ _ _ _ _ _ _ _ _ H2) as (more & -> & Hall & Hsub & _).
    erewrite bind_ok in Hrun by exact H2. rewrite app_nil_l in Hrun.
    match type of Hrun with
    | (?m ≫= _) ?w0 = _ => destruct (m w0) as [[[]|e] w3] eqn:H3
    end; [|erewrite bind_throw in Hrun by exact H3; discriminate Hrun].
    erewrite bind_ok in Hrun by exact H3. injection Hrun as <- <-.
    split; assumption.
  - intros w. rewrite Hhead. cbn zeta.
    destruct (extractLoop videoPath videoId audioDir (Z.of_nat (length tracks)) None tracks 0 []
                (log_event (EvEnsureDir audioDir) w)) as [r w2] eqn:H2.
    destruct (extractLoop_spec _ _ _ _ _ _ _ _ _ _ _ H2) as (more & -> & _ & _ & Htr).
    exists more, w2. split.
    + erewrite bind_ok by reflexivity. erewrite bind_ok by reflexivity.
      erewrite bind_ok by exact H2. reflexivity.
    + rewrite (Htr eq_refl). simpl. rewrite <- app_assoc. reflexivity.
Qed.

Lemma extractAudioTracks_entries_witness :
  exists infos w',
    extractAudioTracks "/srv/app/audio" "/srv/app/uploads/clip.mp4" "v1"
      (Some [demoTrack "eng" "Main"; demoTrack "fra" "Commentaire"]) None audioDemoWorld
      = (Ok infos, w') /\
    trace w' = trace audioDemoWorld ++
      EvEnsureDir "/srv/app/audio/v1"
      :: audioRuns "/srv/app/uploads/clip.mp4" "v1" "/srv/app/audio/v1"
           [demoTrack "eng" "Main"; demoTrack "fra" "Commentaire"] 0.
Proof.
  exact (proj2 (extractAudioTracks_entries "/srv/app/audio" "/srv/app/uploads/clip.mp4" "v1"
                  [demoTrack "eng" "Main"; demoTrack "fra" "Commentaire"]
                  ltac:(simpl; lia)) audioDemoWorld).
Defined.

End AudioTracksProofs.

(* ===================================================================== *)
(** * The conversion to HLS *)
(* ===================================================================== *)

Section HlsConversionProofs.
Import Rt VideoProcessor.






End HlsConversionProofs.

(* ===================================================================== *)
(** * The final status of the background task *)
(* ===================================================================== *)

Section BackgroundStatusProofs.
Import Rt Background.

Section LeavesStore.

Lemma leavesStore_ret {A} (a : A) : leavesStore (mret a : M A).
Proof. intros w. split; reflexivity. Qed.

Lemma leavesStore_throw {A} (e : string) : leavesStore (throw e : M A).
Proof. intros w. split; reflexivity. Qed.

Lemma leavesStore_bind {A B} (m : M A) (f : A -> M B) :
  leavesStore m -> (forall a, leavesStore (f a)) -> leavesStore (m ≫= f).
Proof.
  intros Hm Hf w. specialize (Hm w). unfold mbind, M_bind.
  destruct (m w) as [[a|e] w1]; simpl in *.
  - destruct (Hf a w1) as [H1 H2]. destruct Hm as [H3 H4]. split; congruence.
  - exact Hm.
Qed.

Lemma leavesStore_try_catch {A} (m : M A) (h : string -> M A) :
  leavesStore m -> (forall e, leavesStore (h e)) -> leavesStore (try_catch m h).
Proof.
  intros Hm Hh w. specialize (Hm w). unfold try_catch.
  destruct (m w) as [[a|e] w1]; simpl in *.
  - exact Hm.
  - destruct (Hh e w1) as [H1 H2]. destruct Hm as [H3 H4]. split; congruence.
Qed.

Lemma leavesStore_get : leavesStore get.
Proof. intros w. split; reflexivity. Qed.

Lemma leavesStore_modify (f : World -> World) :
  (forall w, db (f w) = db w /\ dbScript (f w) = dbScript w) -> leavesStore (modify f).
Proof. intros H w. apply H. Qed.

Lemma leavesStore_emit (e : Event) : leavesStore (emit e).
Proof. apply leavesStore_modify. intros w. split; reflexivity. Qed.

Lemma leavesStore_files (f : gmap string Bytes -> gmap string Bytes) :
  leavesStore (modify (set_files f)).
Proof. apply leavesStore_modify. intros w. split; reflexivity. Qed.

Lemma leavesStore_pathExists (path : string) : leavesStore (pathExists path).
Proof.
  unfold pathExists. apply leavesStore_bind; [apply leavesStore_get|].
  intros w. apply leavesStore_ret.
Qed.

Lemma leavesStore_dirExists (path : string) : leavesStore (dirExists path).
Proof.
  unfold dirExists. apply leavesStore_bind; [apply leavesStore_get|].
  intros w. apply leavesStore_ret.
Qed.

Lemma leavesStore_readFile (path : string) : leavesStore (readFile path).
Proof.
  unfold readFile. apply leavesStore_bind; [apply leavesStore_get|].
  intros w. destruct (files w !! path); [apply leavesStore_ret|apply leavesStore_throw].
Qed.

Lemma leavesStore_removeTree (dir : string) : leavesStore (removeTree dir).
Proof. unfold removeTree. apply leavesStore_modify. intros w. split; reflexivity. Qed.

Lemma leavesStore_ffmpegRun (ev : Event) (output : string) : leavesStore (ffmpegRun ev output).
Proof.
  intros w. unfold ffmpegRun. simpl.
  destruct (ffmpegScript w) as [|[msg|content] rest]; split; reflexivity.
Qed.

Lemma leavesStore_botSend (ev : Event) (stream : ReadStream) : leavesStore (botSend ev stream).
Proof.
  intros w. rewrite botSend_cases. cbn zeta.
  destruct (head (botScript w)) as [[msg|]|]; [split; reflexivity| |];
    destruct (stream _); split; reflexivity.
Qed.

Lemma leavesStore_extractThumbnail (videoPath outputPath timeOffset : string) :
  leavesStore (VideoProcessor.extractThumbnail videoPath outputPath timeOffset).
Proof.
  unfold VideoProcessor.extractThumbnail, ensureDir.
  apply leavesStore_bind; [apply leavesStore_emit|]. intros _.
  apply leavesStore_try_catch.
  - apply leavesStore_bind; [apply leavesStore_ffmpegRun|]. intros _. apply leavesStore_ret.
  - intros _. apply leavesStore_bind; [apply leavesStore_ffmpegRun|]. intros _.
    apply leavesStore_ret.
Qed.

Lemma leavesStore_uploadHLSFile (svc : TelegramService.t) (videoId : string)
    (file : TelegramService.HlsFile) :
  forall (n : nat) (retries : Z), leavesStore (TelegramService.uploadHLSFile svc videoId file n retries).
Proof.
  induction n as [|n IH]; intros retries; [apply leavesStore_ret|].
  cbn [TelegramService.uploadHLSFile]. apply leavesStore_try_catch.
  - apply leavesStore_bind; [apply leavesStore_botSend|]. intros msg. apply leavesStore_ret.
  - intros e. destruct (TelegramService.isRateLimit e); [|apply leavesStore_ret].
    apply leavesStore_bind; [apply leavesStore_emit|]. intros _.
    destruct (_ <? _); [apply IH|apply leavesStore_ret].
Qed.

Lemma leavesStore_uploadBatch (svc : TelegramService.t) (videoId : string) :
  forall batch, leavesStore (TelegramService.uploadBatch svc videoId batch).
Proof.
  induction batch as [|file rest IH]; [apply leavesStore_ret|].
  cbn [TelegramService.uploadBatch].
  apply leavesStore_bind; [apply leavesStore_uploadHLSFile|]. intros r.
  apply leavesStore_bind; [apply IH|]. intros rs. apply leavesStore_ret.
Qed.

Lemma leavesStore_batchLoop (svc : TelegramService.t) (videoId : string)
    (hlsFiles : list TelegramService.HlsFile) :
  forall (n : nat) (i : Z) acc, leavesStore (TelegramService.batchLoop svc videoId hlsFiles n i acc).
Proof.
  induction n as [|n IH]; intros i acc; [apply leavesStore_ret|].
  cbn [TelegramService.batchLoop].
  apply leavesStore_bind; [apply leavesStore_uploadBatch|]. intros rs.
  apply leavesStore_bind.
  - destruct (_ <? _); [apply leavesStore_emit|apply leavesStore_ret].
  - intros _. apply IH.
Qed.

Lemma leavesStore_uploadHLSFiles (svc : TelegramService.t) (hlsDir videoId : string) :
  leavesStore (TelegramService.uploadHLSFiles svc hlsDir videoId).
Proof.
  unfold TelegramService.uploadHLSFiles.
  destruct (negb (TelegramService.bot svc)); [apply leavesStore_ret|].
  apply leavesStore_bind; [apply leavesStore_pathExists|]. intros b.
  destruct (negb b); [apply leavesStore_ret|].
  apply leavesStore_try_catch; [|intros e; apply leavesStore_ret].
  apply leavesStore_bind; [apply leavesStore_get|]. intros w0.
  apply leavesStore_bind.
  - destruct (trees w0 !! hlsDir) as [[|entries]|];
      [apply leavesStore_throw|apply leavesStore_ret|apply leavesStore_throw].
  - intros hlsFiles. cbn zeta.
    destruct (_ =? 0); [apply leavesStore_ret|].
    destruct (100 <? _); [apply leavesStore_ret|].
    apply leavesStore_bind; [apply leavesStore_batchLoop|]. intros rs.
    destruct (TelegramService.definedResults rs); [apply leavesStore_ret|apply leavesStore_throw].
Qed.

End LeavesStore.

Lemma uploadHLSFiles_returns (svc : TelegramService.t) (hlsDir videoId : string) (w : World) :
  exists r w', TelegramService.uploadHLSFiles svc hlsDir videoId w = (Ok r, w').
Proof.
  unfold TelegramService.uploadHLSFiles.
  destruct (negb (TelegramService.bot svc)); [eexists _, _; reflexivity|].
  unfold mbind, M_bind. destruct (pathExists hlsDir w) as [[b|e] w1] eqn:Hpe.
  - destruct (negb b); [eexists _, _; reflexivity|]. apply try_catch_returns.
  - unfold pathExists, mbind, M_bind in Hpe. simpl in Hpe. discriminate Hpe.
Qed.

(** The thumbnail step never rejects and leaves the metadata store
    alone. *)
Lemma generateThumbnail_cases (env : Deployment) (videoId videoPath : string) (w : World) :
  let thumb := thumbnailFile env videoId in
  exists r w',
    generateThumbnail env videoId videoPath w = (Ok r, w') /\
    db w' = db w /\ dbScript w' = dbScript w /\
    (forall path, path <> thumb -> files w' !! path = files w !! path) /\
    match r with
    | Some data => files w' !! thumb = None
    | None => files w' = files w
    end.
Proof.
  intros thumb. unfold generateThumbnail. fold (thumbnailFile env videoId). fold thumb.
  unfold try_catch.
  unfold VideoProcessor.extractThumbnail, ensureDir.
  set (w0 := log_event (EvEnsureDir (Path.dirname thumb)) w).
  set (ev1 := EvFfmpegThumbnail videoPath thumb "00:00:05").
  set (ev2 := EvFfmpegThumbnail videoPath thumb "00:00:01").
  (* the outcome of the one or two encoder runs *)
  assert (Hext : exists w1,
    ((emit (EvEnsureDir (Path.dirname thumb));;
      try_catch (ffmpegRun ev1 thumb;; mret thumb) (fun _ => ffmpegRun ev2 thumb;; mret thumb)) w
     = (Ok thumb, w1) /\ (exists data, files w1 = <[thumb := data]> (files w)) \/
     (exists e, (emit (EvEnsureDir (Path.dirname thumb));;
      try_catch (ffmpegRun ev1 thumb;; mret thumb) (fun _ => ffmpegRun ev2 thumb;; mret thumb)) w
     = (Throw e, w1)) /\ files w1 = files w) /\
    db w1 = db w /\ dbScript w1 = dbScript w).
  { erewrite !bind_ok by reflexivity. fold w0. unfold try_catch, ffmpegRun, mbind, M_bind. simpl.
    destruct (ffmpegScript w) as [|[msg|content] rest] eqn:Hs; simpl; rewrite ?Hs; simpl.
    - eexists. split; [right; split; [eexists; reflexivity|reflexivity]|split; reflexivity].
    - destruct rest as [|[msg2|content2] rest2]; simpl.
      + eexists. split; [right; split; [eexists; reflexivity|reflexivity]|split; reflexivity].
      + eexists. split; [right; split; [eexists; reflexivity|reflexivity]|split; reflexivity].
      + eexists. split; [left; split; [reflexivity|eexists; reflexivity]|split; reflexivity].
    - eexists. split; [left; split; [reflexivity|eexists; reflexivity]|split; reflexivity]. }
  destruct Hext as (w1 & [[Hok [data Hfiles]]|[[e Hthrow] Hfiles]] & Hdb & Hscript).
  - erewrite bind_ok by exact Hok.
    unfold pathExists. erewrite bind_ok; cycle 1.
    { erewrite bind_ok by reflexivity. reflexivity. }
    rewrite Hfiles, lookup_insert_eq.
    rewrite (bool_decide_eq_true_2 (is_Some (Some data))) by eauto. cbn [orb].
    unfold readFile. erewrite bind_ok; cycle 1.
    { erewrite bind_ok by reflexivity. rewrite Hfiles, lookup_insert_eq. reflexivity. }
    erewrite bind_ok by reflexivity.
    eexists (Some data), _. split; [reflexivity|]. simpl.
    split; [exact Hdb|]. split; [exact Hscript|]. split.
    + intros path Hp. rewrite lookup_delete_ne by congruence.
      rewrite Hfiles. apply lookup_insert_ne. congruence.
    + apply lookup_delete_eq.
  - erewrite bind_throw by exact Hthrow.
    exists None, w1. split; [reflexivity|]. split; [exact Hdb|]. split; [exact Hscript|].
    split; [intros path _; rewrite Hfiles; reflexivity|exact Hfiles].
Qed.

Section Keeps.
Context (J : World -> Prop) (HJ : readsStoreOnly J).

Lemma keeps_leavesStore {A} (m : M A) : leavesStore m -> keeps J m.
Proof. intros Hm w Hw. destruct (Hm w) as [H1 H2]. exact (HJ _ _ H1 H2 Hw). Qed.

Lemma keeps_ret {A} (a : A) : keeps J (mret a : M A).
Proof. intros w Hw. exact Hw. Qed.

Lemma keeps_throw {A} (e : string) : keeps J (throw e : M A).
Proof. intros w Hw. exact Hw. Qed.

Lemma keeps_bind {A B} (m : M A) (f : A -> M B) :
  keeps J m -> (forall a, keeps J (f a)) -> keeps J (m ≫= f).
Proof.
  intros Hm Hf w Hw. specialize (Hm w Hw). unfold mbind, M_bind.
  destruct (m w) as [[a|e] w1]; simpl in *; [apply Hf, Hm|exact Hm].
Qed.

Lemma keeps_try_catch {A} (m : M A) (h : string -> M A) :
  keeps J m -> (forall e, keeps J (h e)) -> keeps J (try_catch m h).
Proof.
  intros Hm Hh w Hw. specialize (Hm w Hw). unfold try_catch.
  destruct (m w) as [[a|e] w1]; simpl in *; [exact Hm|apply Hh, Hm].
Qed.

Lemma returns_leavesStore {A} (Q : A -> Prop) (m : M A) :
  leavesStore m -> (forall w, exists a w', m w = (Ok a, w') /\ Q a) -> returns J Q m.
Proof.
  intros Hm Hok w Hw. destruct (Hok w) as (a & w' & Hrun & Ha).
  exists a, w'. split; [exact Hrun|]. split; [|exact Ha].
  destruct (Hm w) as [H1 H2]. rewrite Hrun in H1, H2. exact (HJ _ _ H1 H2 Hw).
Qed.

Lemma returns_bind {A B} (Q : A -> Prop) (R : B -> Prop) (m : M A) (f : A -> M B) :
  returns J Q m -> (forall a, Q a -> returns J R (f a)) -> returns J R (m ≫= f).
Proof.
  intros Hm Hf w Hw. destruct (Hm w Hw) as (a & w1 & Hrun & Hw1 & Ha).
  destruct (Hf a Ha w1 Hw1) as (b & w2 & Hrun2 & Hw2 & Hb).
  exists b, w2. split; [erewrite bind_ok by exact Hrun; exact Hrun2|]. split; assumption.
Qed.

Lemma returns_ret {A} (Q : A -> Prop) (a : A) : Q a -> returns J Q (mret a).
Proof. intros Ha w Hw. exists a, w. repeat split; assumption. Qed.

Lemma returns_caught (m : M unit) : keeps J m -> returns J (fun _ => True) (caught m).
Proof.
  intros Hm w Hw. specialize (Hm w Hw). unfold caught, try_catch.
  destruct (m w) as [[[]|e] w1]; simpl in *; exists tt, w1; repeat split; assumption.
Qed.

End Keeps.

Lemma readsStoreOnly_storeReady (videoId : string) : readsStoreOnly (storeReady videoId).
Proof. intros w w' H1 H2 [H3 H4]. split; [rewrite H2; exact H3|rewrite H1; exact H4]. Qed.

Lemma readsStoreOnly_statusIs (videoId : string) (st : ProcessingStatus) :
  readsStoreOnly (statusIs videoId st).
Proof.
  intros w w' H1 H2 [H3 H4]. split; [rewrite H2; exact H3|rewrite H1; exact H4].
Qed.

Lemma statusIs_storeReady (videoId : string) (st : ProcessingStatus) (w : World) :
  statusIs videoId st w -> storeReady videoId w.
Proof. intros [H1 (v & Hv & _)]. split; [exact H1|eauto]. Qed.

(** An update of the ready store. *)
Lemma update_ready (videoId : string) (partialFields : Video -> Video) (w : World) (video : Video) :
  dbScript w = [] -> db w !! videoId = Some video ->
  Database.updateVideoMetadata videoId partialFields w
  = (Ok tt, set_db (alter partialFields videoId) [] w) /\
  dbScript (set_db (alter partialFields videoId) [] w) = [] /\
  db (set_db (alter partialFields videoId) [] w) !! videoId = Some (partialFields video).
Proof.
  intros Hs Hv. unfold Database.updateVideoMetadata, Database.dbCall. rewrite Hs.
  split; [|split; [reflexivity|]].
  - erewrite bind_ok by reflexivity. rewrite Hs. reflexivity.
  - simpl. rewrite lookup_alter_eq, Hv. reflexivity.
Qed.

Lemma update_keeps_ready (videoId : string) (partialFields : Video -> Video) :
  returns (storeReady videoId) (fun _ => True)
    (Database.updateVideoMetadata videoId partialFields).
Proof.
  intros w [Hs [video Hv]].
  destruct (update_ready videoId partialFields w video Hs Hv) as (Hrun & Hs' & Hv').
  eexists tt, _. split; [exact Hrun|]. split; [|exact Logic.I]. split; [exact Hs'|eauto].
Qed.

Lemma update_sets_status (videoId : string) (partialFields : Video -> Video) (st : ProcessingStatus) :
  (forall video, processingStatus (partialFields video) = Some st) ->
  forall w, storeReady videoId w ->
    exists w', Database.updateVideoMetadata videoId partialFields w = (Ok tt, w') /\
               statusIs videoId st w'.
Proof.
  intros Hst w [Hs [video Hv]].
  destruct (update_ready videoId partialFields w video Hs Hv) as (Hrun & Hs' & Hv').
  eexists. split; [exact Hrun|]. split; [exact Hs'|]. eexists. split; [exact Hv'|apply Hst].
Qed.

Lemma update_keeps_status (videoId : string) (partialFields : Video -> Video) (st : ProcessingStatus) :
  (forall video, processingStatus (partialFields video) = processingStatus video) ->
  returns (statusIs videoId st) (fun _ => True)
    (Database.updateVideoMetadata videoId partialFields).
Proof.
  intros Hst w [Hs (video & Hv & Hvs)].
  destruct (update_ready videoId partialFields w video Hs Hv) as (Hrun & Hs' & Hv').
  eexists tt, _. split; [exact Hrun|]. split; [|exact Logic.I].
  split; [exact Hs'|]. eexists. split; [exact Hv'|]. rewrite Hst. exact Hvs.
Qed.

Lemma keeps_of_returns {A} (J : World -> Prop) (Q : A -> Prop) (m : M A) :
  returns J Q m -> keeps J m.
Proof. intros Hm w Hw. destruct (Hm w Hw) as (a & w' & Hrun & Hw' & _). rewrite Hrun. exact Hw'. Qed.

(** The progress callback of the upload endpoint never rejects, and
    touches the metadata store only. *)
Lemma progressCallback_quiet (videoId : string) : quietCallback (progressCallback videoId).
Proof.
  intros percent stage quality w. unfold progressCallback, caught, try_catch.
  unfold Database.updateVideoMetadata, Database.dbCall.
  destruct (dbScript w) as [|[msg|] rest]; simpl; eexists; repeat split.
Qed.

Lemma progressCallback_keeps (videoId : string) percent stage quality :
  keeps (storeReady videoId) (progressCallback videoId percent stage quality).
Proof.
  unfold progressCallback. eapply keeps_of_returns. apply returns_caught.
  eapply keeps_of_returns. apply update_keeps_ready.
Qed.

Lemma convert_keeps_ready (hlsRoot videoPath videoId : string) (metadata : VideoProcessor.Metadata) :
  keeps (storeReady videoId)
    (VideoProcessor.convertToHLSWithProgress hlsRoot videoPath videoId metadata
       (Some (progressCallback videoId))).
Proof.
  pose proof (readsStoreOnly_storeReady videoId) as HJ.
  assert (Hreport : forall p s q,
            keeps (storeReady videoId)
              (VideoProcessor.report (Some (progressCallback videoId)) p s q)).
  { intros p s q. apply progressCallback_keeps. }
  assert (Hgen : forall outputDir quality,
            keeps (storeReady videoId)
              (VideoProcessor.generateHLSVariantWithProgress videoPath outputDir quality)).
  { intros outputDir quality. unfold VideoProcessor.generateHLSVariantWithProgress, ensureDir.
    apply keeps_bind; [apply keeps_leavesStore; [exact HJ|apply leavesStore_emit]|]. intros _.
    apply keeps_bind; [apply keeps_leavesStore; [exact HJ|apply leavesStore_ffmpegRun]|].
    intros _. apply keeps_ret. }
  assert (Hloop : forall outputDir total rest i acc,
            keeps (storeReady videoId)
              (VideoProcessor.variantsLoop videoPath outputDir
                 (Some (progressCallback videoId)) total rest i acc)).
  { intros outputDir total. induction rest as [|quality rest IH]; intros i acc.
    - apply keeps_ret.
    - cbn [VideoProcessor.variantsLoop]. apply keeps_bind.
      + apply keeps_try_catch; [|intros e; apply keeps_ret].
        apply keeps_bind; [apply Hreport|]. intros _.
        apply keeps_bind; [apply Hgen|]. intros _. apply keeps_ret.
      + intros [|].
        * apply keeps_bind; [|intros _; apply IH].
          apply keeps_try_catch; [apply Hreport|intros e; apply Hreport].
        * apply keeps_bind; [apply Hreport|intros _; apply IH]. }
  unfold VideoProcessor.convertToHLSWithProgress, ensureDir.
  apply keeps_bind; [apply keeps_leavesStore; [exact HJ|apply leavesStore_emit]|]. intros _.
  apply keeps_bind; [apply Hreport|]. intros _.
  apply keeps_bind; [apply Hloop|]. intros variants.
  apply keeps_bind; [apply Hreport|]. intros _.
  destruct (0 <? _); [|apply keeps_throw].
  apply keeps_bind.
  { unfold VideoProcessor.createMasterHLSPlaylist, writeFile.
    apply keeps_bind; [apply keeps_leavesStore; [exact HJ|apply leavesStore_files]|].
    intros _. apply keeps_ret. }
  intros _. apply keeps_bind; [apply Hreport|]. intros _. apply keeps_ret.
Qed.

(** The processing step of a source with at most one audio track: it
    returns with the completed status stored, or it rejects and leaves
    the store ready for the handler. *)
Lemma processVideo_single (env : Deployment) (videoId videoPath : string)
    (metadata : VideoProcessor.Metadata) (uploadResult : TelegramData) (w : World) :
  Z.of_nat (length (VideoProcessor.audio metadata)) <= 1 ->
  storeReady videoId w ->
  exists w',
    (processVideo env videoId videoPath metadata uploadResult w = (Ok tt, w') /\
     statusIs videoId completedStatus w') \/
    (exists e, processVideo env videoId videoPath metadata uploadResult w = (Throw e, w') /\
               storeReady videoId w').
Proof.
  intros Hsingle Hw. unfold processVideo.
  destruct (Z.ltb_spec 1 (Z.of_nat (length (VideoProcessor.audio metadata)))) as [H|_]; [lia|].
  cbn zeta.
  pose proof (convert_keeps_ready (Path.join [dirname env; "hls"]) videoPath videoId metadata w Hw)
    as Hw1.
  destruct (VideoProcessor.convertToHLSWithProgress (Path.join [dirname env; "hls"])
              videoPath videoId metadata (Some (progressCallback videoId)) w)
    as [[hlsPath|e] w1] eqn:Hconv; cbn [snd] in Hw1.
  2:{ exists w1. right. exists e. split; [|exact Hw1].
      erewrite bind_throw; [reflexivity|]. erewrite bind_throw by exact Hconv. reflexivity. }
  erewrite bind_ok; cycle 1.
  { erewrite bind_ok by exact Hconv. reflexivity. }
  cbn [pr_extractedAudioFiles pr_hlsPath length]. change (0 <? Z.of_nat 0) with false. cbn iota.
  erewrite bind_ok by reflexivity.
  set (results := {| pr_hlsPath := Some hlsPath; pr_extractedAudioFiles := [];
                     pr_audioHLSStreams := []; pr_videoOnlyHLS := None;
                     pr_hasMultiAudio := false |}).
  destruct (update_sets_status videoId (withResults results []) completedStatus
              ltac:(reflexivity) w1 Hw1) as (w2 & Hupd & Hw2).
  erewrite bind_ok by exact Hupd.
  assert (Hhls : returns (statusIs videoId completedStatus) (fun _ => True)
            (if Js.truthy_str (Some hlsPath) && uploaded uploadResult then
               try_catch
                 (let hlsDir := Path.dirname (default "" (Some hlsPath)) in
                  hlsUploadResult ← TelegramService.uploadHLSFiles (telegramService env) hlsDir videoId;
                  Database.updateVideoMetadata videoId (withHlsCloudData hlsUploadResult))
                 (fun _ => mret tt)
             else mret tt)).
  { destruct (_ && _); [|apply returns_ret; exact Logic.I].
    intros w0 Hw0. cbn zeta.
    destruct (returns_bind (statusIs videoId completedStatus) (fun _ => True) (fun _ => True)
                (TelegramService.uploadHLSFiles (telegramService env)
                   (Path.dirname (default "" (Some hlsPath))) videoId)
                (fun r => Database.updateVideoMetadata videoId (withHlsCloudData r))
                ltac:(apply returns_leavesStore;
                        [apply readsStoreOnly_statusIs|apply leavesStore_uploadHLSFiles|
                         intros w3; destruct (uploadHLSFiles_returns (telegramService env)
                           (Path.dirname (default "" (Some hlsPath))) videoId w3) as (r & w4 & Hr);
                         exists r, w4; split; [exact Hr|exact Logic.I]])
                ltac:(intros r _; apply update_keeps_status; reflexivity)
                w0 Hw0) as ([] & w5 & Hrun & Hw5 & _).
    exists tt, w5. split; [|split; [exact Hw5|exact Logic.I]].
    unfold try_catch. rewrite Hrun. reflexivity. }
  destruct (Hhls w2 Hw2) as ([] & w3 & Hrun3 & Hw3 & _).
  exists w3. left. split; [|exact Hw3].
  erewrite bind_ok by exact Hrun3. reflexivity.
Qed.

(** The cleanup of local files returns normally and keeps the stored
    status. *)
Lemma cleanupLocalFiles_keeps_status (env : Deployment) (videoId videoPath : string)
    (uploadResult : TelegramData) (st : ProcessingStatus) :
  returns (statusIs videoId st) (fun _ => True)
    (cleanupLocalFiles env videoId videoPath uploadResult).
Proof.
  pose proof (readsStoreOnly_statusIs videoId st) as HJ.
  assert (Hfs : forall {A} (m : M A), leavesStore m ->
            (forall w, exists a w', m w = (Ok a, w')) ->
            returns (statusIs videoId st) (fun _ => True) m).
  { intros A m H1 H2. apply returns_leavesStore; [exact HJ|exact H1|].
    intros w. destruct (H2 w) as (a & w' & H). exists a, w'. split; [exact H|exact Logic.I]. }
  assert (Hcaught : forall m : M unit, leavesStore m ->
            returns (statusIs videoId st) (fun _ => True) (caught m)).
  { intros m Hm. apply returns_caught. apply keeps_leavesStore; assumption. }
  unfold cleanupLocalFiles.
  destruct (uploaded uploadResult || forceCleanup env); [|apply returns_ret; exact Logic.I].
  eapply returns_bind with (Q := fun _ => True).
  { apply (Hfs _ _ (leavesStore_pathExists videoPath)). intros w. eexists _, _. reflexivity. }
  intros videoExists _.
  eapply returns_bind with (Q := fun _ => True).
  { destruct videoExists; [|apply returns_ret; exact Logic.I].
    apply Hcaught. unfold remove. apply leavesStore_files. }
  intros _ _.
  eapply returns_bind with (Q := fun v => is_Some v).
  { intros w Hw. destruct Hw as [Hs (video & Hv & Hst)].
    exists (Some video), w. split; [|split; [split; [exact Hs|eauto]|eauto]].
    unfold Database.getVideo, Database.dbCall. rewrite Hs.
    erewrite bind_ok by reflexivity. rewrite Hv. reflexivity. }
  intros [video|] Hsome; [|destruct Hsome as [? H]; discriminate H].
  eapply returns_bind with (Q := fun _ => True).
  { destruct (hlsUploaded video || forceCleanup env); [|apply returns_ret; exact Logic.I].
    eapply returns_bind with (Q := fun _ => True).
    { apply (Hfs _ _ (leavesStore_dirExists _)). intros w. eexists _, _. reflexivity. }
    intros hlsExists _. destruct hlsExists; [|apply returns_ret; exact Logic.I].
    apply Hcaught. apply leavesStore_removeTree. }
  intros _ _. cbn zeta.
  eapply returns_bind with (Q := fun _ => True).
  { apply (Hfs _ _ (leavesStore_dirExists _)). intros w. eexists _, _. reflexivity. }
  intros audioExists _.
  eapply returns_bind with (Q := fun _ => True).
  { destruct audioExists; [|apply returns_ret; exact Logic.I].
    apply Hcaught. apply leavesStore_removeTree. }
  intros _ _.
  apply Hfs; [apply leavesStore_files|]. intros w. eexists _, _. reflexivity.
Qed.

(** X13: for a source with at most one audio track, while the metadata
    store answers every call and holds the video's record, the background
    sequence never rejects and ends with one of two processing statuses
    stored: the completed one ([complete: true], progress 100, no error),
    or the one written by the handler of the processing step
    ([complete: false], with the one error ['Video processing failed:
    ...']); nothing later sets [complete] in the second case. *)
Theorem backgroundTasks_final_status
    (env : Deployment) (videoId videoPath : string)
    (metadata : VideoProcessor.Metadata) (uploadResult : TelegramData) (w : World) :
  Z.of_nat (length (VideoProcessor.audio metadata)) <= 1 ->
  storeReady videoId w ->
  exists w',
    backgroundTasks env videoId videoPath metadata uploadResult w = (Ok tt, w') /\
    (statusIs videoId completedStatus w' \/
     exists message, statusIs videoId (failedStatus message) w').
Proof.
  intros Hsingle Hw. unfold backgroundTasks.
  pose proof (readsStoreOnly_storeReady videoId) as HJ.
  (* the first status update *)
  destruct (update_keeps_ready videoId (withStatus (statusOf 0 None None true false [])) w Hw)
    as ([] & w1 & Hupd1 & Hw1 & _).
  (* the thumbnail *)
  destruct (generateThumbnail_cases env videoId videoPath w1)
    as (thumbnail & w2 & Hthumb & Hdb2 & Hs2 & _).
  assert (Hw2 : storeReady videoId w2) by exact (HJ _ _ Hdb2 Hs2 Hw1).
  (* the second status update *)
  assert (Hupd2 : exists w3,
            match thumbnail with
            | Some data =>
                Database.updateVideoMetadata videoId
                  (fun v => withStatus (statusOf 0 None None false false []) (withThumbnail data v))
            | None =>
                Database.updateVideoMetadata videoId
                  (withStatus (statusOf 0 None None false false []))
            end w2 = (Ok tt, w3) /\ storeReady videoId w3).
  { destruct thumbnail as [data|];
      [destruct (update_keeps_ready videoId
                   (fun v => withStatus (statusOf 0 None None false false []) (withThumbnail data v))
                   w2 Hw2) as ([] & w3 & H1 & H2 & _)
      |destruct (update_keeps_ready videoId
                   (withStatus (statusOf 0 None None false false [])) w2 Hw2)
         as ([] & w3 & H1 & H2 & _)];
      exists w3; split; assumption. }
  destruct Hupd2 as (w3 & Hupd2 & Hw3).
  (* the processing step and its handler *)
  assert (Hinner : exists w4,
            try_catch (processVideo env videoId videoPath metadata uploadResult)
              (fun error_ =>
                 caught (Database.updateVideoMetadata videoId
                           (withStatus (statusOf 0 None None false false
                                          ["Video processing failed: " +:+ error_])))) w3
            = (Ok tt, w4) /\
            (statusIs videoId completedStatus w4 \/
             exists message, statusIs videoId (failedStatus message) w4)).
  { destruct (processVideo_single env videoId videoPath metadata uploadResult w3 Hsingle Hw3)
      as (w4 & [[Hrun Hst]|(e & Hrun & Hready)]).
    - exists w4. split; [unfold try_catch; rewrite Hrun; reflexivity|left; exact Hst].
    - destruct (update_sets_status videoId
                  (withStatus (statusOf 0 None None false false ["Video processing failed: " +:+ e]))
                  (failedStatus e) ltac:(reflexivity) w4 Hready) as (w5 & Hupd & Hst).
      exists w5. split; [|right; exists e; exact Hst].
      unfold try_catch. rewrite Hrun. unfold caught, try_catch. rewrite Hupd. reflexivity. }
  destruct Hinner as (w4 & Hinner & Hst).
  (* the cleanup *)
  assert (Hclean : exists w5,
            cleanupLocalFiles env videoId videoPath uploadResult w4 = (Ok tt, w5) /\
            (statusIs videoId completedStatus w5 \/
             exists message, statusIs videoId (failedStatus message) w5)).
  { destruct Hst as [Hst|[message Hst]];
      destruct (cleanupLocalFiles_keeps_status env videoId videoPath uploadResult _ w4 Hst)
        as ([] & w5 & Hrun & Hst5 & _);
      exists w5; (split; [exact Hrun|]); [left|right; exists message]; exact Hst5. }
  destruct Hclean as (w5 & Hclean & Hst5).
  exists w5. split; [|exact Hst5].
  unfold try_catch at 1.
  erewrite bind_ok by exact Hupd1.
  erewrite bind_ok by exact Hthumb.
  erewrite bind_ok by exact Hupd2.
  erewrite bind_ok by exact Hinner.
  rewrite Hclean. reflexivity.
Qed.

Lemma backgroundTasks_final_status_witness :
  exists w',
    backgroundTasks demoDeployment "v1" "/srv/app/uploads/clip.mp4"
      (singleAudioSource 480) uploadedSingle
      (jobWorld [FfFails "Invalid data found when processing input";
                 FfFails "Invalid data found when processing input";
                 FfFails "Conversion failed!"; FfWrites [x23]] []) = (Ok tt, w') /\
    (statusIs "v1" completedStatus w' \/
     exists message, statusIs "v1" (failedStatus message) w').
Proof.
  apply (backgroundTasks_final_status demoDeployment "v1" "/srv/app/uploads/clip.mp4"
           (singleAudioSource 480) uploadedSingle _).
  - simpl. lia.
  - split; [reflexivity|]. vm_compute. eauto.
Defined.

(** X14: the thumbnail step of the background task never rejects, leaves
    the metadata store alone and leaves no temporary file behind: when it
    yields a thumbnail the file [temp/<id>_thumb.jpg] is gone, and when it
    yields none the files are as they were. *)
Theorem generateThumbnail_leaves_no_temp_file
    (env : Deployment) (videoId videoPath : string) (w : World) :
  exists r w',
    generateThumbnail env videoId videoPath w = (Ok r, w') /\
    db w' = db w /\
    files w' = match r with
               | Some _ => delete (thumbnailFile env videoId) (files w)
               | None => files w
               end.
Proof.
  destruct (generateThumbnail_cases env videoId videoPath w)
    as (r & w' & Hrun & Hdb & _ & Hother & Hthumb).
  exists r, w'. split; [exact Hrun|]. split; [exact Hdb|].
  destruct r as [data|]; [|exact Hthumb].
  apply map_eq. intros path.
  destruct (decide (path = thumbnailFile env videoId)) as [->|Hne].
  - rewrite lookup_delete_eq. exact Hthumb.
  - rewrite lookup_delete_ne by (intros H; apply Hne; symmetry; exact H). apply Hother, Hne.
Qed.

End BackgroundStatusProofs.

(* ===================================================================== *)
(** * Ranges and redirects of the streaming endpoints *)
(* ===================================================================== *)

Section StreamEdgesProofs.
Import Rt Server.

Lemma openRange_parts (start : Z) :
  0 <= start ->
  Js.split "-"%char (Js.replaceFirst (openRangeHeader start) "bytes=" "") = [pretty start; ""].
Proof.
  intros Hs. unfold openRangeHeader. rewrite replaceFirst_prefix.
  change ("" +:+ pretty start +:+ "-") with (pretty start +:+ String "-"%char "").
  destruct (pretty_nonneg_digits start Hs) as (Hall & _ & _).
  rewrite split_digits_dash by exact Hall. reflexivity.
Qed.

Lemma suffixRange_parts (n : Z) :
  0 <= n ->
  Js.split "-"%char (Js.replaceFirst (suffixRangeHeader n) "bytes=" "") = [""; pretty n].
Proof.
  intros Hn. unfold suffixRangeHeader.
  change ("bytes=-" +:+ pretty n) with ("bytes=" +:+ String "-"%char (pretty n)).
  rewrite replaceFirst_prefix. rewrite str_app_nil_l.
  destruct (pretty_nonneg_digits n Hn) as (Hall & _ & _).
  change (Js.split "-"%char (String "-"%char (pretty n)))
    with ("" :: Js.split "-"%char (pretty n)).
  rewrite split_digits by exact Hall. reflexivity.
Qed.

Lemma rangeHandling_open (sd : StreamData) (res : Response) (start : Z) :
  0 <= start -> acceptsRanges sd = true ->
  rangeHandling (Some (openRangeHeader start)) sd res =
  setHeader "Content-Length" (pretty (contentLength sd - 1 - start + 1))
    (setHeader "Content-Range"
       ("bytes " +:+ pretty start +:+ "-" +:+ pretty (contentLength sd - 1) +:+ "/" +:+
        pretty (contentLength sd))
       (setStatus 206 res)).
Proof.
  intros Hs Hacc. unfold rangeHandling.
  change (Js.truthy_str (Some (openRangeHeader start))) with true.
  rewrite Hacc. cbn [andb default from_option id].
  rewrite openRange_parts by assumption.
  cbn [lookup list_lookup default from_option id].
  change (Js.truthy_str (Some "")) with false. cbn iota.
  rewrite parseInt_pretty by assumption.
  reflexivity.
Qed.

Lemma rangeHandling_suffix (sd : StreamData) (res : Response) (n : Z) :
  0 <= n -> acceptsRanges sd = true ->
  rangeHandling (Some (suffixRangeHeader n)) sd res =
  setHeader "Content-Length" "NaN"
    (setHeader "Content-Range"
       ("bytes NaN-" +:+ pretty n +:+ "/" +:+ pretty (contentLength sd))
       (setStatus 206 res)).
Proof.
  intros Hn Hacc. unfold rangeHandling.
  change (Js.truthy_str (Some (suffixRangeHeader n))) with true.
  rewrite Hacc. cbn [andb default from_option id].
  rewrite suffixRange_parts by assumption.
  cbn [lookup list_lookup default from_option id].
  rewrite truthy_pretty by exact Hn.
  rewrite parseInt_pretty by assumption.
  reflexivity.
Qed.

(** X15: an open-ended range [bytes=start-], the form browsers send, is
    served from a cloud stream that accepts ranges with status 206,
    [Content-Range: bytes start-(total-1)/total] and [Content-Length]
    equal to [total - start].  The start and the total length are below
    2^53. *)
Theorem stream_open_ended_range
    (streamVideo : StreamVideo) (videoId : string) (video : Video)
    (w w' : World) (sd : StreamData) (start : Z) :
  dbScript w = [] ->
  db w !! videoId = Some video ->
  isUploaded (telegramData video) = true ->
  isLargeChunked video && hlsAvailable video = false ->
  failsBeforeData sd = false ->
  acceptsRanges sd = true ->
  0 <= start < 2 ^ 53 ->
  0 <= contentLength sd < 2 ^ 53 ->
  streamVideo (telegramData video) (Some (openRangeHeader start)) (originalName video) w
    = (Ok sd, w') ->
  exists res,
    api_stream streamVideo videoId (Some (openRangeHeader start)) w = (Ok res, w') /\
    status res = 206 /\
    getHeader "Content-Range" res
      = Some ("bytes " +:+ pretty start +:+ "-" +:+ pretty (contentLength sd - 1) +:+ "/" +:+
              pretty (contentLength sd)) /\
    getHeader "Content-Length" res = Some (pretty (contentLength sd - start)) /\
    body res = BodyCloudStream.
Proof.
  intros Hscript Hdb Hup Hhls Hfail Hacc [Hs _] _ Hstream.
  destruct (api_stream_reaches_stream streamVideo videoId _ video w w' sd
              Hscript Hdb Hup Hhls Hstream Hfail) as (res0 & Hrun & Hst & Hcr & Hcl).
  eexists. split; [exact Hrun|].
  rewrite rangeHandling_open by assumption.
  split; [reflexivity|]. split; [|split; [|reflexivity]].
  - rewrite getHeader_setBody, getHeader_setHeader_ne by discriminate.
    apply getHeader_setHeader_eq.
  - rewrite getHeader_setBody, getHeader_setHeader_eq. do 2 f_equal. lia.
Qed.

Lemma stream_open_ended_range_witness :
  exists res,
    api_stream (alwaysStreams (thousandBytes true)) "v1" (Some (openRangeHeader 250))
      (storeWorld cloudVideo) = (Ok res, storeWorld cloudVideo) /\
    status res = 206 /\
    getHeader "Content-Range" res
      = Some ("bytes " +:+ pretty 250 +:+ "-" +:+ pretty (contentLength (thousandBytes true) - 1)
              +:+ "/" +:+ pretty (contentLength (thousandBytes true))) /\
    getHeader "Content-Length" res = Some (pretty (contentLength (thousandBytes true) - 250)) /\
    body res = BodyCloudStream.
Proof.
  apply (stream_open_ended_range (alwaysStreams (thousandBytes true)) "v1"
           cloudVideo (storeWorld cloudVideo) (storeWorld cloudVideo) (thousandBytes true) 250
           ltac:(reflexivity) ltac:(vm_compute; reflexivity) ltac:(reflexivity)
           ltac:(reflexivity) ltac:(reflexivity) ltac:(reflexivity)
           ltac:(split; [lia|reflexivity]) ltac:(split; [vm_compute; discriminate|reflexivity])
           ltac:(reflexivity)).
Defined.

(** X16: a suffix range [bytes=-n] (the last [n] bytes) is not
    understood: the start, read from the empty text before the dash, is
    [NaN], and the response has status 206 with
    [Content-Range: bytes NaN-n/total] and [Content-Length: NaN].  The
    number [n] and the total length are below 2^53. *)
Theorem stream_suffix_range_not_a_number
    (streamVideo : StreamVideo) (videoId : string) (video : Video)
    (w w' : World) (sd : StreamData) (n : Z) :
  dbScript w = [] ->
  db w !! videoId = Some video ->
  isUploaded (telegramData video) = true ->
  isLargeChunked video && hlsAvailable video = false ->
  failsBeforeData sd = false ->
  acceptsRanges sd = true ->
  0 <= n < 2 ^ 53 ->
  0 <= contentLength sd < 2 ^ 53 ->
  streamVideo (telegramData video) (Some (suffixRangeHeader n)) (originalName video) w
    = (Ok sd, w') ->
  exists res,
    api_stream streamVideo videoId (Some (suffixRangeHeader n)) w = (Ok res, w') /\
    status res = 206 /\
    getHeader "Content-Range" res
      = Some ("bytes NaN-" +:+ pretty n +:+ "/" +:+ pretty (contentLength sd)) /\
    getHeader "Content-Length" res = Some "NaN" /\
    body res = BodyCloudStream.
Proof.
  intros Hscript Hdb Hup Hhls Hfail Hacc [Hn _] _ Hstream.
  destruct (api_stream_reaches_stream streamVideo videoId _ video w w' sd
              Hscript Hdb Hup Hhls Hstream Hfail) as (res0 & Hrun & Hst & Hcr & Hcl).
  eexists. split; [exact Hrun|].
  rewrite rangeHandling_suffix by assumption.
  split; [reflexivity|]. split; [|split; [|reflexivity]].
  - rewrite getHeader_setBody, getHeader_setHeader_ne by discriminate.
    apply getHeader_setHeader_eq.
  - rewrite getHeader_setBody. apply getHeader_setHeader_eq.
Qed.

Lemma stream_suffix_range_not_a_number_witness :
  exists res,
    api_stream (alwaysStreams (thousandBytes true)) "v1" (Some (suffixRangeHeader 500))
      (storeWorld cloudVideo) = (Ok res, storeWorld cloudVideo) /\
    status res = 206 /\
    getHeader "Content-Range" res
      = Some ("bytes NaN-" +:+ pretty 500 +:+ "/" +:+ pretty (contentLength (thousandBytes true))) /\
    getHeader "Content-Length" res = Some "NaN" /\
    body res = BodyCloudStream.
Proof.
  apply (stream_suffix_range_not_a_number (alwaysStreams (thousandBytes true)) "v1"
           cloudVideo (storeWorld cloudVideo) (storeWorld cloudVideo) (thousandBytes true) 500
           ltac:(reflexivity) ltac:(vm_compute; reflexivity) ltac:(reflexivity)
           ltac:(reflexivity) ltac:(reflexivity) ltac:(reflexivity)
           ltac:(split; [lia|reflexivity]) ltac:(split; [vm_compute; discriminate|reflexivity])
           ltac:(reflexivity)).
Defined.

(** X17: when a video cannot be streamed from the cloud (it was not
    uploaded, or it is a large chunked upload) and is marked as having
    HLS, while its master playlist is missing on disk, the stream endpoint
    redirects to the HLS endpoint and the HLS endpoint redirects back to
    the stream endpoint; neither changes anything, so the two redirect to
    each other for ever. *)
Theorem stream_hls_redirect_cycle
    (streamVideo : StreamVideo) (dirname videoId : string) (range_ : option string)
    (video : Video) (w : World) :
  dbScript w = [] ->
  db w !! videoId = Some video ->
  negb (isUploaded (telegramData video)) || isLargeChunked video = true ->
  hlsAvailable video = true ->
  let hlsDir := Path.join [dirname; "hls"; videoId] in
  let master := Path.join [hlsDir; "playlist.m3u8"] in
  Js.startsWith master hlsDir = true ->
  files w !! master = None -> trees w !! master = None ->
  api_stream streamVideo videoId range_ w
    = (Ok (redirect ("/api/hls/" +:+ videoId +:+ "/playlist.m3u8") newResponse), w) /\
  api_hls dirname videoId "playlist.m3u8" w
    = (Ok (redirect ("/api/stream/" +:+ videoId) newResponse), w).
Proof.
  intros Hscript Hdb Hcloud Hhls hlsDir master Hguard Hfile Htree.
  assert (Hget : Database.getVideo videoId w = (Ok (Some video), w)).
  { unfold Database.getVideo, Database.dbCall. rewrite Hscript.
    erewrite bind_ok by reflexivity. rewrite Hdb. reflexivity. }
  split.
  - unfold api_stream, try_catch. erewrite bind_ok by exact Hget. cbv beta iota.
    destruct (isUploaded (telegramData video)); cbn [negb orb] in *.
    + rewrite Hcloud, Hhls. reflexivity.
    + rewrite Hhls. reflexivity.
  - unfold api_hls, try_catch. cbn zeta.
    change (Js.or_str (Some "playlist.m3u8") "playlist.m3u8") with "playlist.m3u8".
    erewrite bind_ok by exact Hget. fold hlsDir. fold master. rewrite Hguard. cbn [negb].
    unfold pathExists. erewrite bind_ok; cycle 1.
    { erewrite bind_ok by reflexivity. reflexivity. }
    rewrite Hfile, Htree.
    rewrite (bool_decide_eq_false_2 (is_Some None)) by (intros [? H]; discriminate H).
    reflexivity.
Qed.

Lemma stream_hls_redirect_cycle_witness :
  api_stream (alwaysStreams (thousandBytes true)) "v1" None (storeWorld localOnlyVideo)
    = (Ok (redirect ("/api/hls/" +:+ "v1" +:+ "/playlist.m3u8") newResponse),
       storeWorld localOnlyVideo) /\
  api_hls "/srv/app" "v1" "playlist.m3u8" (storeWorld localOnlyVideo)
    = (Ok (redirect ("/api/stream/" +:+ "v1") newResponse), storeWorld localOnlyVideo).
Proof.
  apply (stream_hls_redirect_cycle (alwaysStreams (thousandBytes true)) "/srv/app" "v1" None
           localOnlyVideo (storeWorld localOnlyVideo)
           ltac:(reflexivity) ltac:(vm_compute; reflexivity) ltac:(reflexivity)
           ltac:(reflexivity) ltac:(vm_compute; reflexivity) ltac:(vm_compute; reflexivity)
           ltac:(vm_compute; reflexivity)).
Defined.

(** X18: whenever the HLS endpoint answers with a file, the video has a
    record in the store, the file exists, its path has the path of the
    video's HLS directory as a prefix (as a string), the status is 200 and
    the content type follows the file's extension. *)
Theorem api_hls_serves_checked_file
    (dirname videoId param0 : string) (w w' : World) (res : Response) (path : string) :
  api_hls dirname videoId param0 w = (Ok res, w') ->
  body res = BodyFile path ->
  is_Some (db w !! videoId) /\
  path = Path.join [Path.join [dirname; "hls"; videoId]; Js.or_str (Some param0) "playlist.m3u8"] /\
  Js.startsWith path (Path.join [dirname; "hls"; videoId]) = true /\
  (is_Some (files w !! path) \/ is_Some (trees w !! path)) /\
  status res = 200 /\
  getHeader "Content-Type" res
    = Some (if Js.endsWith path ".m3u8" then "application/vnd.apple.mpegurl"
            else if Js.endsWith path ".ts" then "video/mp2t"
            else "application/octet-stream").
Proof.
  intros Hrun Hbody. unfold api_hls, try_catch in Hrun. cbn zeta in Hrun.
  set (requestPath := Js.or_str (Some param0) "playlist.m3u8") in *.
  set (hlsDir := Path.join [dirname; "hls"; videoId]) in *.
  set (filePath := Path.join [hlsDir; requestPath]) in *.
  assert (Hget : exists w1, (Database.getVideo videoId w = (Ok (db w !! videoId), w1) \/
                             exists e, Database.getVideo videoId w = (Throw e, w1)) /\
                            files w1 = files w /\ trees w1 = trees w).
  { unfold Database.getVideo, Database.dbCall.
    destruct (dbScript w) as [|[msg|] rest].
    - exists w. split; [left; erewrite bind_ok by reflexivity; reflexivity|split; reflexivity].
    - eexists. split; [right; eexists; reflexivity|split; reflexivity].
    - eexists. split; [left; erewrite bind_ok by reflexivity; reflexivity|split; reflexivity]. }
  destruct Hget as (w1 & [Hget|[e Hget]] & Hf1 & Ht1).
  2:{ erewrite bind_throw in Hrun by exact Hget. injection Hrun as <- _. discriminate Hbody. }
  erewrite bind_ok in Hrun by exact Hget.
  destruct (db w !! videoId) as [video|] eqn:Hdb;
    [|injection Hrun as <- _; discriminate Hbody].
  destruct (Js.startsWith filePath hlsDir) eqn:Hguard; cbn [negb] in Hrun;
    [|injection Hrun as <- _; discriminate Hbody].
  unfold pathExists in Hrun. erewrite bind_ok in Hrun; cycle 1.
  { erewrite bind_ok by reflexivity. reflexivity. }
  rewrite Hf1, Ht1 in Hrun.
  destruct (bool_decide (is_Some (files w !! filePath)) ||
            bool_decide (is_Some (trees w !! filePath))) eqn:Hex; cbn [negb] in Hrun.
  - injection Hrun as <- _. cbn in Hbody. injection Hbody as <-.
    split; [eauto|]. split; [reflexivity|]. split; [exact Hguard|]. split.
    + apply orb_prop in Hex as [H|H]; apply bool_decide_eq_true_1 in H; [left|right]; exact H.
    + split; [reflexivity|].
      rewrite getHeader_setBody.
      rewrite !getHeader_setHeader_ne by discriminate.
      apply getHeader_setHeader_eq.
  - destruct (Js.includes requestPath "audio/track_");
      [injection Hrun as <- _; discriminate Hbody|].
    destruct (String.eqb requestPath "playlist.m3u8");
      injection Hrun as <- _; discriminate Hbody.
Qed.

Lemma api_hls_serves_checked_file_witness :
  is_Some (db hlsGuardWorld !! "7c9e6679-7425-40de-944b-e07fc1f90ae7") /\
  Js.startsWith "/srv/app/hls/7c9e6679-7425-40de-944b-e07fc1f90ae7/playlist.m3u8"
    (Path.join ["/srv/app"; "hls"; "7c9e6679-7425-40de-944b-e07fc1f90ae7"]) = true.
Proof.
  destruct (api_hls_serves_checked_file "/srv/app" "7c9e6679-7425-40de-944b-e07fc1f90ae7"
              "playlist.m3u8" hlsGuardWorld hlsGuardWorld _
              "/srv/app/hls/7c9e6679-7425-40de-944b-e07fc1f90ae7/playlist.m3u8"
              ltac:(vm_compute; reflexivity) ltac:(reflexivity))
    as (H1 & _ & H3 & _).
  split; assumption.
Defined.

End StreamEdgesProofs.

(* ===================================================================== *)
(** * The clean-up script *)
(* ===================================================================== *)

Section CleanupProofs.
Import Data Rt HLSCleanup.

Lemma shouldCleanup_decision (self : t) (isOld : bool) (videoEntry : Property) :
  shouldCleanup self isOld videoEntry
  = isOld && (match videoEntry with Undefined => true | _ => false end
              || hasValidTelegramUpload videoEntry).
Proof.
  unfold shouldCleanup.
  destruct isOld; [|reflexivity]. cbn [negb andb].
  destruct videoEntry as [video| |]; try reflexivity. cbn [orb].
  destruct (hasValidTelegramUpload (Own video)); cbn [negb]; [|reflexivity].
  destruct (hlsUploadedToTelegram (Own video)); [reflexivity|].
  destruct (force self); reflexivity.
Qed.

Lemma analyseLoop_null (self : t) (env : Env) (cutoff : option Z) :
  forall (hlsDirectories : list string) (toCleanup : list Item),
    analyseLoop self env None cutoff hlsDirectories toCleanup = toCleanup.
Proof.
  induction hlsDirectories as [|dir rest IH]; intros toCleanup; [reflexivity|].
  cbn [analyseLoop]. apply IH.
Qed.

Lemma analyseLoop_paths (self : t) (env : Env) (records : gmap string Video)
    (cutoff : option Z) :
  forall (hlsDirectories : list string) (toCleanup : list Item),
    path <$> analyseLoop self env (Some records) cutoff hlsDirectories toCleanup
    = (path <$> toCleanup) ++
      ((fun dir => Path.join [hlsDir self; dir]) <$>
       List.filter (fun dir =>
                      shouldCleanup self (isOldAt (mtime env (Path.join [hlsDir self; dir])) cutoff)
                        (getProperty records dir))
         hlsDirectories).
Proof.
  induction hlsDirectories as [|dir rest IH]; intros toCleanup.
  - cbn. rewrite app_nil_r. reflexivity.
  - cbn [analyseLoop List.filter].
    destruct (shouldCleanup self _ _).
    + rewrite IH, fmap_app. cbn. rewrite <- app_assoc. reflexivity.
    + apply IH.
Qed.

Lemma getHLSDirectories_elem (env : Env) (dir : string) :
  dir ∈ getHLSDirectories env <-> hlsSubdirectory env dir.
Proof.
  unfold getHLSDirectories, hlsSubdirectory.
  destruct (hlsTree env) as [[size_|entries]|].
  - split; [intros H; inversion H|intros (? & ? & H & _); discriminate H].
  - rewrite list_elem_of_omap. split.
    + intros ([item node] & Hin & Hsome). destruct node as [|sub]; [discriminate|].
      injection Hsome as ->. exists entries, sub. split; [reflexivity|exact Hin].
    + intros (entries' & sub & Heq & Hin). injection Heq as <-.
      exists (dir, FsDir sub). split; [exact Hin|reflexivity].
  - split; [intros H; inversion H|intros (? & ? & H & _); discriminate H].
Qed.

Lemma isOldAt_true (self : t) (env : Env) (dir : string) :
  isOldAt (mtime env (Path.join [hlsDir self; dir])) (cutoffDate self env) = true
  <-> olderThanCutoff self env dir.
Proof.
  unfold olderThanCutoff, isOldAt. destruct (cutoffDate self env) as [c|].
  - rewrite Z.ltb_lt. split; [intros H; exists c; split; [reflexivity|exact H]|].
    intros (c' & Hc & H). injection Hc as <-. exact H.
  - split; [discriminate|intros (? & H & _); discriminate H].
Qed.

Lemma kept_or_removed (self : t) (env : Env) (videoDatabase : gmap string Video) (dir : string) :
  shouldCleanup self (isOldAt (mtime env (Path.join [hlsDir self; dir])) (cutoffDate self env))
    (getProperty videoDatabase dir) = true
  <-> olderThanCutoff self env dir /\
      (getProperty videoDatabase dir = Undefined \/
       hasValidTelegramUpload (getProperty videoDatabase dir) = true).
Proof.
  rewrite shouldCleanup_decision, andb_true_iff, orb_true_iff, isOldAt_true.
  split; intros [Hold Hrec]; (split; [exact Hold|]).
  - destruct Hrec as [H|H]; [left|right; exact H].
    destruct (getProperty videoDatabase dir); try discriminate H. reflexivity.
  - destruct Hrec as [H|H]; [left; rewrite H; reflexivity|right; exact H].
Qed.

Lemma proceed_elem (self : t) (env : Env) (videoDatabase : option (gmap string Video))
    (p : string) :
  p ∈ (let hlsDirectories := getHLSDirectories env in
       if Z.of_nat (length hlsDirectories) =? 0 then []
       else
         let toCleanup :=
           analyseLoop self env videoDatabase (cutoffDate self env) hlsDirectories [] in
         if Z.of_nat (length toCleanup) =? 0 then []
         else if dryRun self then []
         else path <$> toCleanup)
  <-> dryRun self = false /\
      exists dir, p = Path.join [hlsDir self; dir] /\ hlsSubdirectory env dir /\
                  olderThanCutoff self env dir /\
                  exists records,
                    videoDatabase = Some records /\
                    (getProperty records dir = Undefined \/
                     hasValidTelegramUpload (getProperty records dir) = true).
Proof.
  cbn zeta.
  assert (Hpaths : p ∈ path <$> analyseLoop self env videoDatabase (cutoffDate self env)
                                  (getHLSDirectories env) []
                   <-> exists dir, p = Path.join [hlsDir self; dir] /\ hlsSubdirectory env dir /\
                                   olderThanCutoff self env dir /\
                                   exists records,
                                     videoDatabase = Some records /\
                                     (getProperty records dir = Undefined \/
                                      hasValidTelegramUpload (getProperty records dir) = true)).
  { destruct videoDatabase as [records|].
    2:{ rewrite analyseLoop_null. split; [intros H; inversion H|].
        intros (_ & _ & _ & _ & records & H & _). discriminate H. }
    rewrite analyseLoop_paths. cbn [fmap list_fmap app]. rewrite list_elem_of_fmap.
    split.
    - intros (dir & -> & Hin). apply list_elem_of_In, filter_In in Hin as [Hin Hdec].
      apply kept_or_removed in Hdec as [Hold Hrec].
      exists dir. split; [reflexivity|]. split; [apply getHLSDirectories_elem, list_elem_of_In, Hin|].
      split; [exact Hold|]. exists records. split; [reflexivity|exact Hrec].
    - intros (dir & -> & Hsub & Hold & records' & [= <-] & Hrec). exists dir. split; [reflexivity|].
      apply list_elem_of_In, filter_In. split.
      + apply list_elem_of_In, getHLSDirectories_elem, Hsub.
      + apply kept_or_removed. split; assumption. }
  destruct (Z.of_nat (length (getHLSDirectories env)) =? 0) eqn:Hlen.
  { apply Z.eqb_eq in Hlen. destruct (getHLSDirectories env) eqn:Hdirs; [|simpl in Hlen; lia].
    split; [intros H; inversion H|].
    intros (_ & dir & _ & Hsub & _). apply getHLSDirectories_elem in Hsub.
    rewrite Hdirs in Hsub. inversion Hsub. }
  destruct (Z.of_nat (length (analyseLoop _ _ _ _ _ _)) =? 0) eqn:Hlen2.
  { apply Z.eqb_eq in Hlen2.
    destruct (analyseLoop self env videoDatabase (cutoffDate self env) (getHLSDirectories env) [])
      eqn:Han; [|simpl in Hlen2; lia].
    split; [intros H; inversion H|].
    intros (_ & Hex). apply Hpaths in Hex. inversion Hex. }
  destruct (dryRun self).
  - split; [intros H; inversion H|intros [H _]; discriminate H].
  - rewrite Hpaths. split; [intros H; split; [reflexivity|exact H]|intros [_ H]; exact H].
Qed.

Lemma run_elem_old (self : t) (env : Env) (p : string) :
  p ∈ run self env -> exists dir, olderThanCutoff self env dir.
Proof.
  unfold run.
  destruct (bool_decide (is_Some (hlsTree env))); cbn [negb]; [|intros H; inversion H].
  destruct (videosJson env) as [|message| |videoDatabase].
  - destruct (force self); cbn [negb]; [|intros H; inversion H].
    rewrite proceed_elem. intros (_ & dir & _ & _ & Hold & _). exists dir. exact Hold.
  - destruct (force self); cbn [negb]; [|intros H; inversion H].
    rewrite proceed_elem. intros (_ & dir & _ & _ & Hold & _). exists dir. exact Hold.
  - destruct (force self); cbn [negb]; [|intros H; inversion H].
    rewrite proceed_elem. intros (_ & dir & _ & _ & Hold & _). exists dir. exact Hold.
  - rewrite proceed_elem. intros (_ & dir & _ & _ & Hold & _). exists dir. exact Hold.
Qed.

(** X19: the clean-up script hands a path to [fs.remove] exactly when it
    runs without [--dry-run], got past the file of records (it was read as
    an object of records, or [--force] was given), the file of records
    does not hold [null], and the path is that of a directory directly
    under [hls] that was modified before the cut-off date and has either no
    record or the record of a video uploaded to the cloud.  Whether the HLS
    files themselves were uploaded plays no part, and [--force] plays none
    beyond the file of records. *)
Theorem cleanup_removes_exactly (self : t) (env : Env) (p : string) :
  p ∈ run self env <->
  dryRun self = false /\ pastDatabaseGate self env /\
  exists dir, p = Path.join [hlsDir self; dir] /\ hlsSubdirectory env dir /\
              olderThanCutoff self env dir /\ orphanedOrBackedUp env dir.
Proof.
  unfold run, orphanedOrBackedUp, recordsOf, pastDatabaseGate.
  destruct (bool_decide (is_Some (hlsTree env))) eqn:Htree; cbn [negb].
  2:{ apply bool_decide_eq_false_1 in Htree.
      split; [intros H; inversion H|].
      intros (_ & _ & dir & _ & (entries & sub & Hsome & _) & _).
      exfalso. apply Htree. rewrite Hsome. eauto. }
  destruct (videosJson env) as [|message| |videoDatabase] eqn:Hjson.
  - destruct (force self) eqn:Hforce; cbn [negb].
    + rewrite proceed_elem. split.
      * intros (Hdry & Hex). split; [exact Hdry|]. split; [left; reflexivity|exact Hex].
      * intros (Hdry & _ & Hex). split; assumption.
    + split; [intros H; inversion H|].
      intros (_ & [H|(? & H)] & _); discriminate H.
  - destruct (force self) eqn:Hforce; cbn [negb].
    + rewrite proceed_elem. split.
      * intros (Hdry & Hex). split; [exact Hdry|]. split; [left; reflexivity|exact Hex].
      * intros (Hdry & _ & Hex). split; assumption.
    + split; [intros H; inversion H|].
      intros (_ & [H|(? & H)] & _); discriminate H.
  - destruct (force self) eqn:Hforce; cbn [negb].
    + rewrite proceed_elem. split.
      * intros (Hdry & Hex). split; [exact Hdry|]. split; [left; reflexivity|exact Hex].
      * intros (Hdry & _ & Hex). split; assumption.
    + split; [intros H; inversion H|].
      intros (_ & [H|(? & H)] & _); discriminate H.
  - rewrite proceed_elem. split.
    + intros (Hdry & Hex). split; [exact Hdry|]. split; [right; eauto|exact Hex].
    + intros (Hdry & _ & Hex). split; assumption.
Qed.

Lemma indexOf_app (x : string) (before rest : list string) :
  x ∉ before ->
  forall i, indexOf (before ++ x :: rest) x i = i + Z.of_nat (length before).
Proof.
  induction before as [|a before IH]; intros Hnot i.
  - cbn. rewrite String.eqb_refl. lia.
  - cbn [app indexOf]. destruct (String.eqb a x) eqn:Heq.
    + apply String.eqb_eq in Heq. subst a. exfalso. apply Hnot. left.
    + rewrite IH by (intros Hin; apply Hnot; right; exact Hin).
      cbn [length]. lia.
Qed.

(** X20: when [--older-than] is followed by a word that [parseInt] does
    not read as a number (the next option, say), the cut-off date is
    invalid, no directory counts as old, and the script removes nothing,
    whatever the other options and the state of the disk. *)
Theorem cleanup_unreadable_age_removes_nothing
    (dirname : string) (before after : list string) (word : string) (env : Env) :
  "--older-than" ∉ before ->
  Js.parseInt word 0 = None ->
  olderThanDays (constructor dirname (before ++ "--older-than" :: word :: after)) = None /\
  run (constructor dirname (before ++ "--older-than" :: word :: after)) env = [].
Proof.
  intros Hnot Hnan.
  assert (Hdays : olderThanDays (constructor dirname (before ++ "--older-than" :: word :: after))
                  = None).
  { unfold constructor. cbn [olderThanDays]. rewrite indexOf_app by exact Hnot.
    replace (-1 <? 0 + Z.of_nat (length before)) with true by (symmetry; apply Z.ltb_lt; lia).
    replace (Z.to_nat (0 + Z.of_nat (length before) + 1)) with (length before + 1)%nat by lia.
    rewrite lookup_app_r by lia.
    replace (length before + 1 - length before)%nat with 1%nat by lia.
    cbn [lookup list_lookup]. exact Hnan. }
  split; [exact Hdays|].
  set (self := constructor dirname (before ++ "--older-than" :: word :: after)) in *.
  destruct (run self env) as [|p l] eqn:Hrun; [reflexivity|].
  assert (Hin : p ∈ run self env) by (rewrite Hrun; left).
  apply run_elem_old in Hin as (dir & cutoff & Hcut & _).
  unfold cutoffDate in Hcut. fold self in Hdays. rewrite Hdays in Hcut. discriminate Hcut.
Qed.

Lemma cleanup_unreadable_age_removes_nothing_witness :
  olderThanDays (constructor "/srv/app"
                   (["node"; "cleanup_hls.js"] ++ "--older-than" :: "--force" :: [])) = None /\
  run (constructor "/srv/app"
         (["node"; "cleanup_hls.js"] ++ "--older-than" :: "--force" :: [])) cleanupDemoEnv = [].
Proof.
  apply (cleanup_unreadable_age_removes_nothing "/srv/app" ["node"; "cleanup_hls.js"] []
           "--force" cleanupDemoEnv ltac:(compute_done) ltac:(reflexivity)).
Defined.

End CleanupProofs.

(* ===================================================================== *)
(** * The uploaded file during the background task *)
(* ===================================================================== *)

Section BackgroundFilesProofs.
Import Rt Background.

Lemma caught_returns (m : M unit) (w : World) :
  exists w', caught m w = (Ok tt, w').
Proof.
  unfold caught, try_catch. destruct (m w) as [[[]|e] w1]; eexists; reflexivity.
Qed.

Lemma keeps_unchanged {A} (path : string) (o : option Bytes) (m : M A) :
  (forall w, files (m w).2 !! path = files w !! path) -> keeps (fileState path o) m.
Proof. intros H w Hw. unfold fileState. rewrite H. exact Hw. Qed.

Lemma dbCall_files {A} (k : M A) :
  (forall w, files (k w).2 = files w) ->
  forall w, files (Database.dbCall k w).2 = files w.
Proof.
  intros Hk w. unfold Database.dbCall.
  destruct (dbScript w) as [|[msg|] rest]; [apply Hk|reflexivity|].
  rewrite Hk. reflexivity.
Qed.


Lemma getVideo_files (videoId : string) (w : World) :
  files (Database.getVideo videoId w).2 = files w.
Proof. apply dbCall_files. intros w0. reflexivity. Qed.


Lemma keeps_caught (J : World -> Prop) (m : M unit) :
  keeps J m -> keeps J (caught m).
Proof. intros H. apply keeps_try_catch; [exact H|]. intros e. apply keeps_ret. Qed.


Lemma keeps_gone_removeTree (path dir : string) :
  keeps (fileState path None) (removeTree dir).
Proof.
  intros w Hw. unfold fileState in *. cbn.
  apply map_lookup_filter_None. left. apply lookup_delete_None. right. exact Hw.
Qed.

Lemma keeps_gone_filter (path : string) (P : string * Bytes -> Prop)
    `{forall kv, Decision (P kv)} :
  keeps (fileState path None) (modify (set_files (filter P))).
Proof.
  intros w Hw. unfold fileState in *. cbn.
  apply map_lookup_filter_None. left. exact Hw.
Qed.

Lemma keeps_pure {A} (J : World -> Prop) (f : World -> A) :
  keeps J (w ← get; mret (f w)).
Proof. intros w Hw. exact Hw. Qed.

Lemma onReturn_bind {A B} (Q : World -> Prop) (m : M A) (f : A -> M B) :
  (forall a, onReturn Q (f a)) -> onReturn Q (m ≫= f).
Proof.
  intros Hf w. unfold mbind, M_bind. destruct (m w) as [[a|e] w1]; [apply Hf|exact Logic.I].
Qed.

(** After the cleanup of local files the uploaded file is gone, whether
    the cleanup returns or rejects. *)
Lemma cleanupLocalFiles_removes (env : Deployment) (videoId videoPath : string)
    (uploadResult : TelegramData) (w : World) :
  uploaded uploadResult || forceCleanup env = true ->
  fileState videoPath None (cleanupLocalFiles env videoId videoPath uploadResult w).2.
Proof.
  intros Hflag. unfold cleanupLocalFiles. rewrite Hflag.
  set (rest := fun _ : unit => _ ≫= _).
  assert (Hrest : keeps (fileState videoPath None) (rest tt)).
  { subst rest. cbv beta.
    apply keeps_bind.
    { apply keeps_unchanged. intros w0. rewrite getVideo_files. reflexivity. }
    intros [video|]; [|apply keeps_throw].
    apply keeps_bind.
    { destruct (hlsUploaded video || forceCleanup env); [|apply keeps_ret].
      apply keeps_bind; [apply keeps_pure|].
      intros [|]; [apply keeps_caught, keeps_gone_removeTree|apply keeps_ret]. }
    intros _. apply keeps_bind; [apply keeps_pure|].
    intros audioExists. apply keeps_bind.
    { destruct audioExists; [apply keeps_caught, keeps_gone_removeTree|apply keeps_ret]. }
    intros _. apply keeps_gone_filter. }
  unfold pathExists. erewrite bind_ok; cycle 1.
  { erewrite bind_ok by reflexivity. reflexivity. }
  destruct (bool_decide (is_Some (files w !! videoPath))) eqn:Hfile; cbn [orb].
  - erewrite bind_ok by reflexivity. apply Hrest.
    unfold fileState. cbn. apply lookup_delete_eq.
  - apply bool_decide_eq_false_1 in Hfile.
    assert (Hgone : fileState videoPath None w).
    { unfold fileState. destruct (files w !! videoPath); [exfalso; apply Hfile; eauto|reflexivity]. }
    destruct (bool_decide (is_Some (trees w !! videoPath))).
    + erewrite bind_ok by reflexivity. apply Hrest.
      unfold fileState. cbn. apply lookup_delete_None. right. exact Hgone.
    + erewrite bind_ok by reflexivity. apply Hrest. exact Hgone.
Qed.

(** X21: when the upload to the cloud succeeded (or [FORCE_CLEANUP] is
    set), the background task never rejects and, whatever happens on the
    way (a failing metadata store, a failing encoder, any behaviour of the
    multi-audio processing and of the audio uploads), the uploaded file no
    longer exists locally when the task ends. *)
Theorem background_removes_uploaded_original
    (env : Deployment) (videoId videoPath : string)
    (metadata : VideoProcessor.Metadata) (uploadResult : TelegramData) (w : World) :
  uploaded uploadResult || forceCleanup env = true ->
  exists w',
    backgroundTasks env videoId videoPath metadata uploadResult w = (Ok tt, w') /\
    files w' !! videoPath = None.
Proof.
  intros Hflag.
  assert (Hbody : forall body : M unit,
            onReturn (fileState videoPath None) body ->
            exists w',
              try_catch body
                (fun error_ =>
                   caught (Database.updateVideoMetadata videoId
                             (withStatus (statusOf 0 None None false true
                                            ["Background processing failed: " +:+ error_])));;
                   if uploaded uploadResult || forceCleanup env
                   then caught (remove videoPath)
                   else mret tt) w = (Ok tt, w') /\
              files w' !! videoPath = None).
  { intros body Hgone. specialize (Hgone w). unfold try_catch.
    destruct (body w) as [[[]|e] w1]; cbn [fst snd] in Hgone.
    - exists w1. split; [reflexivity|exact Hgone].
    - destruct (caught_returns
                  (Database.updateVideoMetadata videoId
                     (withStatus (statusOf 0 None None false true
                                    ["Background processing failed: " +:+ e]))) w1)
        as (w2 & Hupd).
      erewrite bind_ok by exact Hupd. rewrite Hflag.
      eexists. split; [reflexivity|]. cbn. apply lookup_delete_eq. }
  apply Hbody.
  apply onReturn_bind. intros _.
  apply onReturn_bind. intros thumbnail.
  apply onReturn_bind. intros _.
  apply onReturn_bind. intros _.
  intros w0.
  pose proof (cleanupLocalFiles_removes env videoId videoPath uploadResult w0 Hflag) as Hgone.
  destruct (cleanupLocalFiles env videoId videoPath uploadResult w0) as [[[]|e] w1];
    [exact Hgone|exact Logic.I].
Qed.

Lemma background_removes_uploaded_original_witness :
  exists w',
    backgroundTasks demoDeployment "v1" "/srv/app/uploads/clip.mp4"
      (singleAudioSource 480) uploadedSingle (jobWorld [] []) = (Ok tt, w') /\
    files w' !! "/srv/app/uploads/clip.mp4" = None.
Proof.
  apply (background_removes_uploaded_original demoDeployment "v1" "/srv/app/uploads/clip.mp4"
           (singleAudioSource 480) uploadedSingle (jobWorld [] []) ltac:(reflexivity)).
Defined.










End BackgroundFilesProofs.

